(* ===== verification/_CoqProject ===== *)
-Q . S2P
Prelude.v
Config.v
Bytes.v
Queue.v
CondLock.v
Lfqueue.v
Util.v
Keygen.v
World.v
Stopwatch.v
KvPair.v
Request.v
Device.v
DeviceSpec.v
Handler.v
Runtime.v
Ledger.v
Net.v
Server.v
Master.v
Client.v
System.v
Shutdown.v
Wire.v
Pair.v
HopTable.v
Lifetime.v
OldServer.v
Hopscotch.v
BigkvTable.v
Bucket.v
PartTable.v
PartMap.v
Bigkv.v
BigkvFlush.v
BigkvRace.v
LedgerIndex.v
BigkvPart.v
