(* ===== verification/Prelude.v ===== *)
(** * uDepot hopscotch: a verification library

    The program is a key/value server over raw block devices, with a benchmark
    client. A client sends messages over TCP. The master thread
    ([src/master.c]) reads them, picks a handler by the hash of the key, makes a
    request and queues it. Each handler ([src/handler.c]) owns a device, an index
    and the pools of its objects; its thread takes requests from the queues and
    runs them against the index, either a hopscotch hash table
    ([src/hopscotch.c]) or buckets in memory over partition tables on the device
    ([src/bigkv_index.c]). Values live in a log of segments ([src/device.c]), of
    which one is staged in memory; asynchronous reads and writes ([src/aio.c])
    are completed by the poller ([src/poller.c]), which runs their callbacks. A
    request that is finished is acknowledged to its client and goes back to its
    pool ([src/request.c]).

    ** Files

    - [Prelude]: integers, total maps, loops, the state monad, memory blocks.
    - [Config]: constants and enumerations ([include/config.h],
      [include/type.h]). [Bytes]: little-endian integers.
    - [Queue]: the linked queue of [src/queue.c] (Module [Linked], a store of
      nodes) and the bounded list it implements (Module [Fifo]).
    - [CondLock]: the counting lock of [src/cond_lock.c], and threads that use it,
      as a step relation with mutex, waits and broadcasts.
    - [Lfqueue]: the lock-free queue of [src/lfqueue.c], one step per access to
      shared memory.
    - [Util]: the read loops and the latency table of [src/util.c].
    - [Keygen]: [src/keygen.c].
    - [World]: the state of one handler ([struct handler] with the memory it
      reaches), on which the files below are state transformers. [Stopwatch],
      [KvPair] and [Request]: [include/stopwatch.h], the header of a stored pair,
      [src/request.c].
    - [Device]: [src/device.c] and [src/aio.c]; [DeviceSpec]: the endless log that
      the ring of segments implements.
    - [Handler]: construction and queues of [src/handler.c], and the interface
      [KvOps] ([struct kv_ops]) with its laws [KvOpsLaws], against which
      [Runtime] models the handler thread and the poller.
    - [Net]: sockets of [src/master.c] and [src/client.cc]; [Server]: the program
      of [src/temp.cc]; [Master]: messages, routing and event loop; [Client]: the
      two threads of the client; [Wire]: one message at a time, and the variants
      of [send_ack]; [OldServer]: the program of [src/server.cc], which is not built
      any more; [System]: the master and the handler threads together, as
      interleavings.
    - [Pair]: what both indexes share about a stored pair. [HopTable] and
      [Hopscotch]: the table alone, and its operations on a world.
      [BigkvTable], [Bucket], [PartTable] and [Bigkv]: the data, the two levels
      and the operations of the other index; [PartMap]: its two levels together, as
      a map; [BigkvFlush]: the requests that go through a partition table, round by
      round; [BigkvRace]: two of them at once.
    - [Ledger]: where the requests, iocbs and callbacks of a handler are, with
      triples for every operation and the interface [KvLedger] of an index;
      [LedgerIndex]: both indexes implement it.
    - [Lifetime]: what the init functions allocate and open and the free functions
      give back, on a heap of its own; [Shutdown]: how the threads end.

    ** How code becomes definitions

    A function that may abort, wait or run into undefined behaviour is a state
    transformer [M W A], whose [Stop] names what happened ([SAbort], [SBlock],
    [SNull], [SBounds], [SDangling], [SDivZero]). Pointers are numbers, 0 is null,
    and objects live in maps from addresses, so that a use after a free is
    [SDangling]. Integers are [Z]; wrap-around is written out ([u8] to [u64],
    [s32]). Function pointers are the constructors of [fn], dispatched by [exec] of
    [KvOps]. Records keep the names of the structures' members; a definition has
    the name of its function, without leading underscores.

    Parameters: the city hash ([CityHash128]), the clock ([gettimeofday] of a
    world), the results of [io_submit], [rand] (with the documented range, in
    [Keygen] and [Client]), the answers of system calls and the bytes that arrive
    at a socket. The queues inside a world are bounded lists; [Queue] proves that
    the code's linked queues behave so.

    ** What is proved

    - Storage: a pair that was set is found by a get, for both indexes
      ([Hopscotch.hopscotch_set_then_get], [Bigkv.bigkv_set_then_get]); the
      allocator refines a log and never overlaps within a lap ([DeviceSpec]);
      displacement keeps every resident reachable ([HopTable]); a bucket refines a
      map with LRU eviction ([Bucket]); partition tables round-trip through bytes
      and answer look-ups, and a flush frees a target ([PartTable]); a partition,
      started empty, answers as a finite map ([PartMap]); requests that miss their
      bucket end in two or three rounds ([BigkvFlush]).
    - Concurrency: the counting lock counts, loses no wake-up and does not
      deadlock in any interleaving ([CondLock]); the lock-free queue is safe,
      ordered and wait-free with one thread at each end, equivalent to the locked
      queue in sequential use, and unsafe otherwise ([Lfqueue]); the client keeps
      its window, ends, and sends every key once ([Client]).
    - Transport: messages reach the reader whole however they are cut ([Util]),
      round-trip through bytes, and reach the handler of their key ([Master],
      [Wire]); the old server does the same and outlives its clients
      ([OldServer]).
    - End to end: in every interleaving of the master and the handlers each
      message is answered once, in the order in which it arrived for its handler,
      the permits bound what is in flight, and every reachable state drains
      ([System]); since the handler thread executes nothing, no index changes.
    - Life of a request: construction yields fresh handlers ([Handler], [Net]);
      queueing drops nothing; an end answers once and returns every resource
      ([Request], [Runtime]); in every run of the threads of a handler no request,
      iocb or callback is lost or in two places ([LedgerIndex]).
    - Teardown: the free functions give back what the init functions took, block by
      block ([Lifetime]); which threads end ([Shutdown]).
    - Deviations, each with the state that shows it: the handler thread
      acknowledges without executing ([Runtime]); a lookup that repeats for ever
      ([Bigkv]); empty entries that match tag 0, and an update that stores the old
      value ([Hopscotch]); a ring that reuses live segments ([DeviceSpec]); a macro
      that never ends ([Queue]); one disconnect that ends the master ([Master]); a
      listening socket that stays open ([Net]); an entry that a flush loses
      ([BigkvRace]); a stopwatch freed twice ([Lifetime]); a client that waits for
      the server to close, and a poller that ends too early ([Shutdown]); answers
      held back by buffering ([Wire]); device names that run together
      ([OldServer]); a request whose I/O the kernel refuses ([Ledger]).

    ** Bounds and fuel

    Loops of the code with a fixed bound have it as their [nat] argument
    ([MAX_HOP], [NR_SET], [QSIZE], [CDF_TABLE_MAX]). Fuel appears in
    [Queue.Linked.q_drain] and [Lfqueue.complete], whose callers give one unit more
    than the steps that can be taken (proved in [q_free_no_leak] and
    [lfq_spsc_wait_free]), in [Util.recv_all] (the length of the input is enough:
    [bulk_framing]) and in [Runtime.request_handler] (one unit per turn of an
    endless loop). Runs of the two endless threads of the client and of the master
    are given by the list of their events, and so are those of a handler's threads
    in [Ledger]. [Bigkv.get_target_retry] runs with fuel 2, which [BigkvFlush] proves
    enough.

    ** Not modelled

    Printing; the installation of signal handlers (what they call at exit is
    modelled); [main] of the client, which calls the modelled functions in order;
    thread creation and CPU affinity; the empty SPDK variants; the hash functions of the city library; what the kernel stores
    on the device. *)

From Stdlib Require Import ZArith Lia.
From stdpp Require Import prelude gmap.

#[local] Open Scope Z_scope.

(** ** Machine integers

    A C integer is a [Z]; an unsigned [w]-bit value, and an unsigned bit-field
    of [w] bits, is stored modulo [2 ^ w]. *)

Definition wrap (w x : Z) : Z := x mod 2 ^ w.

Abbreviation u8 := (wrap 8).
Abbreviation u16 := (wrap 16).
Abbreviation u32 := (wrap 32).
Abbreviation u64 := (wrap 64).

(** The conversion of an integer to a 32-bit signed [int]. *)
Definition s32 (x : Z) : Z := (x + 2 ^ 31) mod 2 ^ 32 - 2 ^ 31.

(** Pointers are addresses; 0 is the null pointer. *)
Definition NULL : Z := 0.

(** ** Total maps

    An array whose cells all hold the same value until they are written, such
    as a table returned by calloc: a default and the cells written so far. *)

Record tmap (A : Type) := TMap { tm_dflt : A; tm_cells : gmap Z A }.
Arguments TMap {A} _ _.
Arguments tm_dflt {A} _.
Arguments tm_cells {A} _.

Definition tget {A} (t : tmap A) (i : Z) : A := default (tm_dflt t) (tm_cells t !! i).

Definition tset {A} (t : tmap A) (i : Z) (v : A) : tmap A :=
  TMap (tm_dflt t) (<[i := v]> (tm_cells t)).

(** Two arrays are the same when every cell reads the same. *)
#[export] Instance tmap_equiv {A} : Equiv (tmap A) :=
  fun t1 t2 => forall i, tget t1 i = tget t2 i.

(** ** Loops

    [for_first lo n p] is [for (i = lo; i < lo + n; i++) if (p(i)) return i;]. *)

Fixpoint for_first (i : Z) (n : nat) (p : Z -> bool) : option Z :=
  match n with
  | O => None
  | S n' => if p i then Some i else for_first (i + 1) n' p
  end.

(** [for_range lo n body s] is [for (i = lo; i < lo + n; i++) s = body(i, s);]. *)
Fixpoint for_range {S : Type} (i : Z) (n : nat) (body : Z -> S -> S) (s : S) : S :=
  match n with
  | O => s
  | Datatypes.S n' => for_range (i + 1) n' body (body i s)
  end.

(** ** Statements

    A C function that may abort, block on a lock or run into undefined
    behaviour is a state transformer. *)

Inductive stop : Type :=
| SAbort                  (* abort() was called *)
| SBlock                  (* waits in pthread_cond_wait *)
| SNull                   (* a null pointer was dereferenced *)
| SBounds                 (* an object was accessed outside its bounds *)
| SDangling               (* a freed or foreign pointer was used *)
| SDivZero                (* division by zero *)
| SFuel.                  (* the loop did not end within its fuel *)

Inductive outcome (W A : Type) : Type :=
| Ret (a : A) (w : W)
| Stop (s : stop).
Arguments Ret {W A} _ _.
Arguments Stop {W A} _.

Definition M (W A : Type) : Type := W -> outcome W A.

Definition ret {W A} (a : A) : M W A := fun w => Ret a w.

Definition bind {W A B} (m : M W A) (f : A -> M W B) : M W B :=
  fun w =>
    match m w with
    | Ret a w' => f a w'
    | Stop s => Stop s
    end.

Declare Scope stmt_scope.
Delimit Scope stmt_scope with stmt.
Notation "'let*' x := m 'in' k" := (bind m (fun x => k))
  (at level 10, x pattern, m at level 100, k at level 200,
   format "'let*'  x  :=  m  'in' '//' k") : stmt_scope.
Notation "m ;;; k" := (bind m (fun _ => k))
  (at level 100, k at level 200, right associativity) : stmt_scope.
#[global] Open Scope stmt_scope.

Definition mstop {W A} (s : stop) : M W A := fun _ => Stop s.
Definition mget {W} : M W W := fun w => Ret w w.
Definition mmod {W} (f : W -> W) : M W unit := fun w => Ret tt (f w).
Definition mreads {W A} (f : W -> A) : M W A := fun w => Ret (f w) w.
Definition mopt {W A} (s : stop) (o : option A) : M W A :=
  match o with Some a => ret a | None => mstop s end.
Definition massert {W} (b : bool) (s : stop) : M W unit :=
  if b then ret tt else mstop s.

(** ** Memory blocks *)

(** [memcpy(dst + off, src, n)], defined when both ranges are in bounds. *)
Definition blit (dst : list Z) (off : Z) (src : list Z) : option (list Z) :=
  if (0 <=? off) && (off + Z.of_nat (length src) <=? Z.of_nat (length dst)) then
    Some (take (Z.to_nat off) dst ++ src ++ drop (Z.to_nat off + length src) dst)
  else None.

(** The bytes [off .. off+n) of a block. *)
Definition slice (src : list Z) (off n : Z) : option (list Z) :=
  if (0 <=? off) && (0 <=? n) && (off + n <=? Z.of_nat (length src)) then
    Some (take (Z.to_nat n) (drop (Z.to_nat off) src))
  else None.

(** Splits the boolean conditions of the code into arithmetic hypotheses. *)
Ltac reflect_bools :=
  repeat match goal with
  | H : _ && _ = true |- _ => apply andb_true_iff in H as [? ?]
  | H : _ || _ = false |- _ => apply orb_false_iff in H as [? ?]
  | H : _ && _ = false |- _ => apply andb_false_iff in H as [?|?]
  | H : negb _ = true |- _ => apply negb_true_iff in H
  | H : negb _ = false |- _ => apply negb_false_iff in H
  | H : (_ =? _) = true |- _ => apply Z.eqb_eq in H
  | H : (_ =? _) = false |- _ => apply Z.eqb_neq in H
  | H : (_ <? _) = true |- _ => apply Z.ltb_lt in H
  | H : (_ <? _) = false |- _ => apply Z.ltb_ge in H
  | H : (_ <=? _) = true |- _ => apply Z.leb_le in H
  | H : (_ <=? _) = false |- _ => apply Z.leb_gt in H
  end.

(** ** Lemmas on integers *)

Lemma wrap_bounds (w x : Z) : 0 <= w -> 0 <= wrap w x < 2 ^ w.
Proof. intros. apply Z.mod_pos_bound. lia. Qed.

Lemma wrap_small (w x : Z) : 0 <= x < 2 ^ w -> wrap w x = x.
Proof. intros. by apply Z.mod_small. Qed.

Lemma wrap_wrap (w x : Z) : 0 <= w -> wrap w (wrap w x) = wrap w x.
Proof. intros. apply wrap_small. by apply wrap_bounds. Qed.

Lemma s32_small (x : Z) : - 2 ^ 31 <= x < 2 ^ 31 -> s32 x = x.
Proof. intros. unfold s32. rewrite Z.mod_small; lia. Qed.

Lemma mod_add_inj (n a b c : Z) :
  0 < n -> 0 <= b < n -> 0 <= c < n -> (a + b) mod n = (a + c) mod n -> b = c.
Proof.
  intros Hn Hb Hc He.
  assert (((a + b) - (a + c)) mod n = 0) as Hd.
  { rewrite Zminus_mod, He, Z.sub_diag. apply Zmod_0_l. }
  apply Z.mod_divide in Hd as [k Hk]; [|lia].
  assert (k < 1) by nia. assert (-1 < k) by nia. assert (k = 0) as -> by lia. lia.
Qed.

(** ** Lemmas on total maps *)

Lemma tget_tset_eq {A} (t : tmap A) i v : tget (tset t i v) i = v.
Proof. unfold tget, tset; simpl. by rewrite lookup_insert_eq. Qed.

Lemma tget_tset_ne {A} (t : tmap A) i j v : i <> j -> tget (tset t i v) j = tget t j.
Proof. intros. unfold tget, tset; simpl. by rewrite lookup_insert_ne. Qed.

Lemma tget_tset {A} (t : tmap A) i j v :
  tget (tset t i v) j = if decide (i = j) then v else tget t j.
Proof. case_decide; subst; [apply tget_tset_eq | by apply tget_tset_ne]. Qed.

#[export] Instance tmap_equivalence {A} : Equivalence (≡@{tmap A}).
Proof.
  split; [by intros ? | by intros ? ? H i | intros ? ? ? H1 H2 i].
  by rewrite H1.
Qed.

#[export] Instance tget_proper {A} : Proper ((≡) ==> (=) ==> (=)) (@tget A).
Proof. intros t1 t2 H i ? <-. apply H. Qed.

#[export] Instance tset_proper {A} : Proper ((≡) ==> (=) ==> (=) ==> (≡)) (@tset A).
Proof. intros t1 t2 H i ? <- v ? <- j. rewrite !tget_tset. by case_decide. Qed.

(** ** Lemmas on loops *)

Lemma for_first_Some lo n p j :
  for_first lo n p = Some j <->
  lo <= j < lo + Z.of_nat n /\ p j = true /\ (forall k, lo <= k < j -> p k = false).
Proof.
  revert lo. induction n as [|n IH]; intros lo; simpl.
  - split; [done | lia].
  - destruct (p lo) eqn:Hp; [split|rewrite IH; split].
    + intros [= <-]. split_and!; [lia | lia | done | lia].
    + intros (Hr & Hj & Hk). f_equal.
      destruct (decide (lo = j)) as [|Hne]; [done|].
      rewrite Hk in Hp; [done | lia].
    + intros (Hr & Hj & Hk). split_and!; [lia | lia | done |].
      intros k Hk'. destruct (decide (k = lo)) as [->|]; [done | apply Hk; lia].
    + intros (Hr & Hj & Hk). assert (lo <> j) by congruence.
      split_and!; [lia | lia | done | intros; apply Hk; lia].
Qed.

Lemma for_first_None lo n p :
  for_first lo n p = None <-> (forall k, lo <= k < lo + Z.of_nat n -> p k = false).
Proof.
  revert lo. induction n as [|n IH]; intros lo; simpl.
  - split; [lia | done].
  - destruct (p lo) eqn:Hp; [split; [done|] | rewrite IH; split].
    + intros H. rewrite H in Hp; [done | lia].
    + intros H k Hk. destruct (decide (k = lo)) as [->|]; [done | apply H; lia].
    + intros H k Hk. apply H. lia.
Qed.

Lemma for_first_ext lo n p1 p2 :
  (forall k, lo <= k < lo + Z.of_nat n -> p1 k = p2 k) ->
  for_first lo n p1 = for_first lo n p2.
Proof.
  revert lo. induction n as [|n IH]; intros lo H; simpl; [done|].
  rewrite H, IH; [done | intros; apply H; lia | lia].
Qed.

(** An invariant of the loop state, indexed by the loop counter. *)
Lemma for_range_inv {S} (I : Z -> S -> Prop) lo n body s :
  I lo s ->
  (forall i s, lo <= i < lo + Z.of_nat n -> I i s -> I (i + 1) (body i s)) ->
  I (lo + Z.of_nat n) (for_range lo n body s).
Proof.
  revert lo s. induction n as [|n IH]; intros lo s H0 Hs; simpl.
  - by rewrite Z.add_0_r.
  - replace (lo + Z.of_nat (Datatypes.S n)) with (lo + 1 + Z.of_nat n) by lia.
    apply IH; [apply Hs; [lia | done] | intros; apply Hs; [lia | done]].
Qed.

(** ** Lemmas on statements *)

Lemma Ret_inj {W A} (a b : A) (w w' : W) : Ret a w = Ret b w' -> a = b /\ w = w'.
Proof. by intros [= -> ->]. Qed.

Lemma bind_ret {W A B} (m : M W A) (f : A -> M W B) w a w' :
  m w = Ret a w' -> bind m f w = f a w'.
Proof. unfold bind. by intros ->. Qed.

Lemma bind_stop {W A B} (m : M W A) (f : A -> M W B) w s :
  m w = Stop s -> bind m f w = Stop s.
Proof. unfold bind. by intros ->. Qed.

Lemma bind_inv {W A B} (m : M W A) (f : A -> M W B) w b w' :
  bind m f w = Ret b w' -> exists a w1, m w = Ret a w1 /\ f a w1 = Ret b w'.
Proof. unfold bind. destruct (m w) as [a w1|]; [|done]. by exists a, w1. Qed.

Lemma bind_assoc {W A B C} (m : M W A) (f : A -> M W B) (g : B -> M W C) w :
  bind (bind m f) g w = bind m (fun a => bind (f a) g) w.
Proof. unfold bind. by destruct (m w). Qed.

(** ** Lemmas on memory blocks *)

Lemma blit_length dst off src dst' : blit dst off src = Some dst' -> length dst' = length dst.
Proof.
  unfold blit. case_match eqn:H; [|done]. intros [= <-].
  apply andb_true_iff in H as [H1 H2]. rewrite !length_app, length_take, length_drop. lia.
Qed.

Lemma slice_length src off n b : slice src off n = Some b -> length b = Z.to_nat n.
Proof.
  unfold slice. case_match eqn:H; [|done]. intros [= <-].
  rewrite length_take, length_drop. lia.
Qed.

Lemma blit_eq dst off src :
  0 <= off -> off + Z.of_nat (length src) <= Z.of_nat (length dst) ->
  blit dst off src =
  Some (take (Z.to_nat off) dst ++ src ++ drop (Z.to_nat off + length src) dst).
Proof.
  intros. unfold blit. rewrite (proj2 (Z.leb_le 0 off)), (proj2 (Z.leb_le _ _)) by done. done.
Qed.

Lemma slice_eq src off n :
  0 <= off -> 0 <= n -> off + n <= Z.of_nat (length src) ->
  slice src off n = Some (take (Z.to_nat n) (drop (Z.to_nat off) src)).
Proof.
  intros. unfold slice.
  rewrite (proj2 (Z.leb_le 0 off)), (proj2 (Z.leb_le 0 n)), (proj2 (Z.leb_le _ _)) by done. done.
Qed.

Lemma blit_Some dst off src :
  0 <= off -> off + Z.of_nat (length src) <= Z.of_nat (length dst) -> is_Some (blit dst off src).
Proof. intros. rewrite blit_eq by done. by eexists. Qed.

Lemma slice_Some src off n :
  0 <= off -> 0 <= n -> off + n <= Z.of_nat (length src) -> is_Some (slice src off n).
Proof. intros. rewrite slice_eq by done. by eexists. Qed.

(** Reading back the range that was just copied. *)
Lemma slice_blit_same dst off src dst' :
  blit dst off src = Some dst' -> slice dst' off (Z.of_nat (length src)) = Some src.
Proof.
  intros H. pose proof (blit_length _ _ _ _ H) as Hl.
  unfold blit in H. case_match eqn:E; [|done]. injection H as <-.
  apply andb_true_iff in E as [E1 E2].
  unfold slice. case_match eqn:E3.
  - f_equal. rewrite drop_app_length', Nat2Z.id by (rewrite length_take; lia).
    by rewrite take_app_length.
  - rewrite Hl in E3. reflect_bools; lia.
Qed.

(** Reading a range that the copy does not touch. *)
Lemma slice_blit_disjoint dst off src dst' o n :
  blit dst off src = Some dst' ->
  o + n <= off \/ off + Z.of_nat (length src) <= o ->
  slice dst' o n = slice dst o n.
Proof.
  intros H Hd. pose proof (blit_length _ _ _ _ H) as Hl.
  unfold blit in H. case_match eqn:E; [|done]. injection H as <-.
  apply andb_true_iff in E as [E1 E2].
  unfold slice. rewrite Hl. case_match eqn:E3; [|done]. f_equal.
  apply andb_true_iff in E3 as [E3 E5]. apply andb_true_iff in E3 as [E3 E4].
  apply list_eq. intros i.
  destruct (decide (i < Z.to_nat n)%nat) as [Hi|Hi].
  2: { rewrite !lookup_take_ge by lia. done. }
  rewrite !lookup_take_lt, !lookup_drop by lia.
  destruct Hd as [Hd|Hd].
  - rewrite lookup_app_l by (rewrite length_take; lia).
    by rewrite lookup_take_lt by lia.
  - rewrite lookup_app_r by (rewrite length_take; lia).
    rewrite lookup_app_r by (rewrite length_take; lia).
    rewrite length_take, lookup_drop. f_equal. lia.
Qed.

(** ** Automation *)

Create HintDb udepot.
Create Rewrite HintDb udepot_rw.
#[export] Hint Resolve wrap_bounds blit_length slice_length : udepot.
#[export] Hint Rewrite @tget_tset_eq @tget_tset_ne using done : udepot_rw.

(** Runs one statement whose result is known. *)
Ltac step_with H := rewrite (bind_ret _ _ _ _ _ H); cbn beta iota.

(** Unfolds the statement combinators, so that a body computes. *)
Ltac unfold_stmt := unfold bind, ret, mopt, mstop, massert, mreads, mmod, mget.
