(* ===== verification/Config.v ===== *)
(** * Configuration constants and shared enumerations

    [include/config.h] and the enumerations of [include/type.h]. The constants
    that only one index uses are in the file of that index. *)

From Stdlib Require Import ZArith.
From stdpp Require Import prelude gmap.
From S2P Require Import Prelude.

#[local] Open Scope Z_scope.

Definition Ki : Z := 1024.
Definition Mi : Z := 1024 * Ki.

Definition PAGESIZE : Z := 4096.

Definition SEGMENT_SIZE : Z := 2 * Mi.
Definition GRAIN_UNIT : Z := 128.
Definition NR_GRAIN_IN_SEG : Z := SEGMENT_SIZE / GRAIN_UNIT.
Definition SOB : Z := GRAIN_UNIT.

Definition KEY_LEN : Z := 32.
Definition VALUE_LEN : Z := 1024.
Definition KEY_LEN_MAX : Z := 256.
Definition VALUE_LEN_MAX : Z := 4 * Ki.

Definition CDF_TABLE_MAX : Z := 100000.

Definition QSIZE : Z := 1024.
Definition QDEPTH : Z := 256.

(** [enum seg_state_t] *)
Inductive seg_state_t : Type :=
| SEG_STATE_FREE
| SEG_STATE_STAGED
| SEG_STATE_USED.

(** [enum req_type_t] *)
Inductive req_type_t : Type :=
| REQ_TYPE_PADDING
| REQ_TYPE_SET
| REQ_TYPE_GET
| REQ_TYPE_DELETE
| REQ_TYPE_RANGE
| REQ_TYPE_ITERATOR.

#[export] Instance seg_state_t_eq_dec : EqDecision seg_state_t.
Proof. solve_decision. Defined.

#[export] Instance req_type_t_eq_dec : EqDecision req_type_t.
Proof. solve_decision. Defined.
