(* ===== verification/Bytes.v ===== *)
(** * Little-endian bytes

    Structures that the code reads from and writes to a device or a socket as
    they lie in memory: the bytes of their integers, least significant first. *)

From Stdlib Require Import ZArith Lia.
From stdpp Require Import prelude.

#[local] Open Scope Z_scope.

Fixpoint le_bytes (n : nat) (x : Z) : list Z :=
  match n with
  | O => []
  | S n' => x mod 256 :: le_bytes n' (x / 256)
  end.

Fixpoint le_value (l : list Z) : Z :=
  match l with
  | [] => 0
  | x :: l' => x + 256 * le_value l'
  end.

Definition bytes (l : list Z) : Prop := Forall (fun x => 0 <= x < 256) l.

Lemma le_bytes_length n x : length (le_bytes n x) = n.
Proof. revert x. induction n; intros x; simpl; [done | by rewrite IHn]. Qed.

Lemma le_bytes_bytes n x : bytes (le_bytes n x).
Proof.
  revert x. induction n as [|n IH]; intros x; simpl; constructor; [|apply IH].
  apply Z.mod_pos_bound. lia.
Qed.

Lemma le_value_bytes n x : 0 <= x < 256 ^ Z.of_nat n -> le_value (le_bytes n x) = x.
Proof.
  revert x. induction n as [|n IH]; intros x Hx; simpl.
  - change (256 ^ Z.of_nat 0) with 1 in Hx. lia.
  - rewrite IH.
    + pose proof (Z.div_mod x 256). lia.
    + rewrite Nat2Z.inj_succ, Z.pow_succ_r in Hx by lia.
      split; [apply Z.div_pos; lia | apply Z.div_lt_upper_bound; lia].
Qed.

Lemma le_value_bound l : bytes l -> 0 <= le_value l < 256 ^ Z.of_nat (length l).
Proof.
  induction 1 as [|x l Hx Hl IH]; cbn [le_value length]; [lia|].
  rewrite Nat2Z.inj_succ, Z.pow_succ_r by lia. lia.
Qed.

Lemma le_bytes_value l n : bytes l -> length l = n -> le_bytes n (le_value l) = l.
Proof.
  intros Hl <-. induction Hl as [|x l Hx Hl IH]; simpl; [done|].
  rewrite Z.mul_comm, Z_mod_plus_full, Z.div_add by lia.
  rewrite Z.mod_small, Z.div_small, Z.add_0_l by lia. by rewrite IH.
Qed.
