(* ===== verification/Queue.v ===== *)
(** * The bounded queue of pointers ([src/queue.c], [include/queue.h])

    The C queue is a singly linked list of malloc'ed nodes with a head and a
    tail pointer, a size and a maximal size, and every operation runs under the
    queue's mutex, so that operations on one queue are atomic. [Fifo] is the
    specification: a bounded list. [q_rep] relates the two, and the simulation
    lemmas say that every operation of the C queue is defined (never follows a
    null or freed node) and answers as the specification does. *)

From Stdlib Require Import ZArith Lia.
From stdpp Require Import prelude gmap.
From S2P Require Import Prelude Config.

#[local] Open Scope Z_scope.

(** ** The specification *)

Module Fifo.
(** A bounded queue of pointers: contents, oldest first, and capacity. *)
Record fifo : Type := Mk { items : list Z; cap : Z }.

Definition init (n : Z) : fifo := Mk [] n.

Definition full (f : fifo) : bool := Z.of_nat (length (items f)) =? cap f.

Definition enqueue (x : Z) (f : fifo) : bool * fifo :=
  if full f then (false, f) else (true, Mk (items f ++ [x]) (cap f)).

Definition enqueue_front (x : Z) (f : fifo) : bool * fifo :=
  if full f then (false, f) else (true, Mk (x :: items f) (cap f)).

Definition dequeue (f : fifo) : Z * fifo :=
  match items f with
  | [] => (NULL, f)
  | x :: l => (x, Mk l (cap f))
  end.

Definition pick (f : fifo) : Z := default NULL (head (items f)).
End Fifo.

(** ** The linked implementation *)

Module Linked.

(** [struct node]: the union [d] holds a pointer or an int. The [prev] member
    is never written or read by the code and is left out. *)
Record node : Type := Node { d : Z; next : Z }.

(** [struct queue], with the nodes that malloc has handed out and free has not
    taken back, and the next address malloc returns. *)
Record queue : Type := Queue {
  size : Z;
  m_size : Z;
  firstFlag : bool;
  q_head : Z;
  q_tail : Z;
  nodes : gmap Z node;
  brk : Z
}.

Definition q_init (qsize : Z) : queue := Queue 0 qsize true NULL NULL ∅ 1.

(** [q->tail->next = a], undefined when the tail is not a live node. *)
Definition set_next (ns : gmap Z node) (t a : Z) : option (gmap Z node) :=
  match ns !! t with
  | Some n => Some (<[t := Node (d n) a]> ns)
  | None => None
  end.

Definition q_enqueue (req : Z) (q : queue) : option (bool * queue) :=
  if size q =? m_size q then Some (false, q)
  else
    let new_node := brk q in
    let ns := <[new_node := Node req NULL]> (nodes q) in
    if size q =? 0 then
      Some (true, Queue (size q + 1) (m_size q) (firstFlag q) new_node new_node ns (brk q + 1))
    else
      match set_next ns (q_tail q) new_node with
      | Some ns' =>
          Some (true, Queue (size q + 1) (m_size q) (firstFlag q) (q_head q) new_node ns' (brk q + 1))
      | None => None
      end.

Definition q_enqueue_front (req : Z) (q : queue) : option (bool * queue) :=
  if size q =? m_size q then Some (false, q)
  else
    let new_node := brk q in
    if size q =? 0 then
      Some (true, Queue (size q + 1) (m_size q) (firstFlag q) new_node new_node
                    (<[new_node := Node req NULL]> (nodes q)) (brk q + 1))
    else
      Some (true, Queue (size q + 1) (m_size q) (firstFlag q) new_node (q_tail q)
                    (<[new_node := Node req (q_head q)]> (nodes q)) (brk q + 1)).

Definition q_dequeue (q : queue) : option (Z * queue) :=
  if (q_head q =? NULL) || (size q =? 0) then Some (NULL, q)
  else
    match nodes q !! q_head q with
    | Some target_node =>
        Some (d target_node,
              Queue (size q - 1) (m_size q) (firstFlag q) (next target_node) (q_tail q)
                (delete (q_head q) (nodes q)) (brk q))
    | None => None
    end.

Definition q_pick (q : queue) : option Z :=
  if (q_head q =? NULL) || (size q =? 0) then Some NULL
  else d <$> nodes q !! q_head q.

(** [while (q_dequeue(q)) {}] *)
Fixpoint q_drain (fuel : nat) (q : queue) : option queue :=
  match fuel with
  | O => None
  | S n =>
      match q_dequeue q with
      | Some (res, q') => if res =? NULL then Some q' else q_drain n q'
      | None => None
      end
  end.

(** [q_free]: the nodes that are still allocated when the queue itself is
    freed, [None] when the drain loop does not end within the fuel. *)
Definition q_free (fuel : nat) (q : queue) : option (gmap Z node) := nodes <$> q_drain fuel q.

(** The int variants store and load the [data] member of the union. *)
Definition q_enqueue_int (req : Z) (q : queue) : option (bool * queue) := q_enqueue (s32 req) q.

Definition q_dequeue_int (q : queue) : option (Z * queue) :=
  if (q_head q =? NULL) || (size q =? 0) then Some (0, q)
  else
    match nodes q !! q_head q with
    | Some target_node =>
        Some (s32 (d target_node),
              Queue (size q - 1) (m_size q) (firstFlag q) (next target_node) (q_tail q)
                (delete (q_head q) (nodes q)) (brk q))
    | None => None
    end.

(** The iteration macros of [queue.h], with the values their body sees:
    [for_each_intqueue] runs until the dequeued value is -1, [for_each_rqueue]
    until it is null. *)
Fixpoint for_each_intqueue (fuel : nat) (q : queue) : option (list Z * queue) :=
  match fuel with
  | O => None
  | S n =>
      match q_dequeue_int q with
      | Some (a, q') =>
          if a =? -1 then Some ([], q')
          else match for_each_intqueue n q' with
               | Some (l, q'') => Some (a :: l, q'')
               | None => None
               end
      | None => None
      end
  end.

Fixpoint for_each_rqueue (fuel : nat) (q : queue) : option (list Z * queue) :=
  match fuel with
  | O => None
  | S n =>
      match q_dequeue q with
      | Some (a, q') =>
          if a =? NULL then Some ([], q')
          else match for_each_rqueue n q' with
               | Some (l, q'') => Some (a :: l, q'')
               | None => None
               end
      | None => None
      end
  end.

(** The answers of [n] calls of [q_dequeue_int] in a row. *)
Fixpoint int_answers (n : nat) (q : queue) : option (list Z) :=
  match n with
  | O => Some []
  | S n' => '(a, q') ← q_dequeue_int q; l ← int_answers n' q'; Some (a :: l)
  end.

(** ** Sequences of operations *)

Inductive qop : Type :=
| QEnqueue (x : Z)
| QEnqueueFront (x : Z)
| QDequeue
| QPick.

(** The answer of one operation: the bool of an enqueue, the pointer of a
    dequeue or a pick. *)
Definition q_exec (o : qop) (q : queue) : option (Z * queue) :=
  match o with
  | QEnqueue x => '(b, q') ← q_enqueue x q; Some (Z.b2z b, q')
  | QEnqueueFront x => '(b, q') ← q_enqueue_front x q; Some (Z.b2z b, q')
  | QDequeue => q_dequeue q
  | QPick => x ← q_pick q; Some (x, q)
  end.

Definition fifo_exec (o : qop) (f : Fifo.fifo) : Z * Fifo.fifo :=
  match o with
  | QEnqueue x => let '(b, f') := Fifo.enqueue x f in (Z.b2z b, f')
  | QEnqueueFront x => let '(b, f') := Fifo.enqueue_front x f in (Z.b2z b, f')
  | QDequeue => Fifo.dequeue f
  | QPick => (Fifo.pick f, f)
  end.

Fixpoint q_run (os : list qop) (q : queue) : option (list Z) :=
  match os with
  | [] => Some []
  | o :: os' => '(a, q') ← q_exec o q; l ← q_run os' q'; Some (a :: l)
  end.

Fixpoint fifo_run (os : list qop) (f : Fifo.fifo) : list Z :=
  match os with
  | [] => []
  | o :: os' => let '(a, f') := fifo_exec o f in a :: fifo_run os' f'
  end.

(** ** The representation relation *)

(** The nodes at [addrs], from [h] on, hold [l] and end in a null pointer. *)
Fixpoint linked (ns : gmap Z node) (h : Z) (addrs l : list Z) : Prop :=
  match addrs, l with
  | [], [] => h = NULL
  | a :: addrs', x :: l' =>
      h = a /\ exists nx, ns !! a = Some (Node x nx) /\ linked ns nx addrs' l'
  | _, _ => False
  end.

Record q_rep_at (q : queue) (f : Fifo.fifo) (addrs : list Z) : Prop := QRepAt {
  rep_linked : linked (nodes q) (q_head q) addrs (Fifo.items f);
  rep_nodup : NoDup addrs;
  rep_dom : forall a, is_Some (nodes q !! a) <-> a ∈ addrs;
  rep_fresh : forall a, a ∈ addrs -> 0 < a < brk q;
  rep_brk : 0 < brk q;
  rep_tail : addrs = [] \/ last addrs = Some (q_tail q);
  rep_size : size q = Z.of_nat (length (Fifo.items f));
  rep_cap : m_size q = Fifo.cap f
}.

(** The C queue [q] stands for the bounded list [f]; every node it has
    allocated is on the list. *)
Definition q_rep (q : queue) (f : Fifo.fifo) : Prop := exists addrs, q_rep_at q f addrs.

(** ** Lemmas on linked nodes *)

Lemma linked_length ns h addrs l : linked ns h addrs l -> length addrs = length l.
Proof.
  revert h l. induction addrs as [|a addrs IH]; intros h [|x l]; simpl; try done.
  intros (-> & nx & _ & H). f_equal. eauto.
Qed.

(** Only the listed addresses matter. *)
Lemma linked_agree ns ns' h addrs l :
  (forall a, a ∈ addrs -> ns' !! a = ns !! a) -> linked ns h addrs l -> linked ns' h addrs l.
Proof.
  revert h l. induction addrs as [|a addrs IH]; intros h [|x l]; simpl; try done.
  intros Ha (-> & nx & Hn & H). split; [done|]. exists nx. split.
  - rewrite Ha; [done | by left].
  - apply IH; [|done]. intros b Hb. apply Ha. by right.
Qed.

(** Linking a new last node. *)
Lemma linked_snoc ns h addrs l t n a x :
  linked ns h addrs l -> NoDup addrs -> last addrs = Some t -> a ∉ addrs ->
  ns !! t = Some n ->
  linked (<[a := Node x NULL]> (<[t := Node (d n) a]> ns)) h (addrs ++ [a]) (l ++ [x]).
Proof.
  revert h l. induction addrs as [|b addrs IH]; intros h [|y l]; simpl; try done.
  intros (-> & nx & Hb & Hl) Hnd Hlast Ha Ht. split; [done|].
  apply NoDup_cons in Hnd as [Hb' Hnd]. apply not_elem_of_cons in Ha as [Hab Ha].
  destruct addrs as [|c addrs].
  - injection Hlast as ->. destruct l; [|done]. simpl in *.
    simplify_eq. exists a. rewrite lookup_insert_ne, lookup_insert_eq by done.
    split; [done|]. split; [done|]. exists NULL. by rewrite lookup_insert_eq.
  - exists nx. split.
    + rewrite !lookup_insert_ne; [done | | done].
      intros ->. apply Hb'. apply last_Some_elem_of. exact Hlast.
    + by apply IH.
Qed.

(** ** Simulation of the specification *)

Lemma q_init_rep n : 0 <= n -> q_rep (q_init n) (Fifo.init n).
Proof.
  exists []. split; simpl; try done.
  - constructor.
  - intros a. rewrite lookup_empty. split; [by intros [] | by intros ?%not_elem_of_nil].
  - by intros a ?%not_elem_of_nil.
  - by left.
Qed.

Lemma q_rep_full q f : q_rep q f -> (size q =? m_size q) = Fifo.full f.
Proof. intros [as' []]. unfold Fifo.full. congruence. Qed.

Lemma q_rep_fresh q f addrs : q_rep_at q f addrs -> brk q ∉ addrs.
Proof. intros H Ha. apply (rep_fresh _ _ _ H) in Ha. lia. Qed.

Lemma q_enqueue_empty_rep q f x :
  q_rep q f -> size q = 0 -> Fifo.full f = false ->
  q_rep (Queue (size q + 1) (m_size q) (firstFlag q) (brk q) (brk q)
           (<[brk q := Node x NULL]> (nodes q)) (brk q + 1)) (Fifo.Mk [x] (Fifo.cap f)).
Proof.
  intros [addrs H] Hs Hf. pose proof H as [Hl Hnd Hd Hfr Hb Ht Hsz Hc].
  assert (Fifo.items f = []) as Hi by (apply length_zero_iff_nil; lia).
  rewrite Hi in Hl. destruct addrs as [|? ?]; [|by destruct Hl].
  exists [brk q]. split; simpl; try done; try lia.
  - split; [done|]. exists NULL. by rewrite lookup_insert_eq.
  - apply NoDup_singleton.
  - intros a. rewrite list_elem_of_singleton. rewrite lookup_insert_is_Some', Hd.
    split; [intros [-> | ?%not_elem_of_nil]; done | by left].
  - intros a ->%list_elem_of_singleton. lia.
  - by right.
Qed.

Lemma q_enqueue_sim q f x :
  q_rep q f ->
  exists q', q_enqueue x q = Some (fst (Fifo.enqueue x f), q') /\
             q_rep q' (snd (Fifo.enqueue x f)).
Proof.
  intros Hrep. unfold q_enqueue, Fifo.enqueue. rewrite (q_rep_full _ _ Hrep).
  destruct (Fifo.full f) eqn:Hfull; [by exists q|].
  destruct (size q =? 0) eqn:Hs; reflect_bools.
  - eexists. split; [done|]. simpl.
    replace (Fifo.items f ++ [x]) with [x].
    + by apply q_enqueue_empty_rep.
    + destruct Hrep as [? []]. destruct (Fifo.items f); [done | simpl in *; lia].
  - destruct Hrep as [addrs H]. pose proof H as [Hl Hnd Hd Hfr Hb Ht Hsz Hc].
    pose proof (q_rep_fresh _ _ _ H) as Hnew.
    destruct Ht as [-> | Ht]; [apply linked_length in Hl; simpl in Hl; lia|].
    assert (q_tail q ∈ addrs) as Hin by by apply last_Some_elem_of.
    destruct (proj2 (Hd _) Hin) as [n Hn].
    assert (q_tail q <> brk q) as Hne by by intros Heq; rewrite Heq in Hin.
    unfold set_next. rewrite lookup_insert_ne by done. rewrite Hn.
    eexists. split; [done|]. exists (addrs ++ [brk q]). split; simpl; try lia.
    + rewrite insert_insert_ne by done. by apply linked_snoc.
    + apply NoDup_app. split_and!; [done | | apply NoDup_singleton].
      intros a Ha ->%list_elem_of_singleton. done.
    + intros a. rewrite elem_of_app, list_elem_of_singleton, <- Hd.
      rewrite !lookup_insert_is_Some'. clear -Hin Hd. apply Hd in Hin. naive_solver.
    + intros a [Ha | ->%list_elem_of_singleton]%elem_of_app; [|lia].
      apply Hfr in Ha. lia.
    + right. by rewrite last_snoc.
    + rewrite length_app. simpl. lia.
Qed.

Lemma q_enqueue_front_sim q f x :
  q_rep q f ->
  exists q', q_enqueue_front x q = Some (fst (Fifo.enqueue_front x f), q') /\
             q_rep q' (snd (Fifo.enqueue_front x f)).
Proof.
  intros Hrep. unfold q_enqueue_front, Fifo.enqueue_front. rewrite (q_rep_full _ _ Hrep).
  destruct (Fifo.full f) eqn:Hfull; [by exists q|].
  destruct (size q =? 0) eqn:Hs; reflect_bools; (eexists; split; [done|]); simpl.
  - replace (Fifo.items f) with (@nil Z).
    + by apply q_enqueue_empty_rep.
    + destruct Hrep as [? []]. destruct (Fifo.items f); [done | simpl in *; lia].
  - destruct Hrep as [addrs H]. pose proof H as [Hl Hnd Hd Hfr Hb Ht Hsz Hc].
    pose proof (q_rep_fresh _ _ _ H) as Hnew.
    exists (brk q :: addrs). split; simpl; try lia.
    + split; [done|]. exists (q_head q). rewrite lookup_insert_eq. split; [done|].
      eapply linked_agree; [|done]. intros a Ha. rewrite lookup_insert_ne; [done|].
      by intros <-.
    + by apply NoDup_cons.
    + intros a. rewrite elem_of_cons, <- Hd, lookup_insert_is_Some'. clear. naive_solver.
    + intros a [-> | Ha]%elem_of_cons; [lia|]. apply Hfr in Ha. lia.
    + right. destruct Ht as [-> | Ht]; [apply linked_length in Hl; simpl in Hl; lia|].
      by rewrite last_cons, Ht.
Qed.

(** What an emptiness test of the C code decides. *)
Lemma q_rep_empty q f :
  q_rep q f -> ((q_head q =? NULL) || (size q =? 0)) = bool_decide (Fifo.items f = []).
Proof.
  intros [addrs [Hl Hnd Hd Hfr Hb Ht Hsz Hc]]. symmetry.
  destruct (Fifo.items f) as [|x l]; simpl in *.
  - rewrite Hsz. by rewrite orb_true_r.
  - destruct addrs as [|a addrs]; [done|]. destruct Hl as (Hh & _).
    assert (0 < q_head q) by (rewrite Hh; apply Hfr; by left).
    symmetry. apply orb_false_iff. unfold NULL. lia.
Qed.

Lemma q_dequeue_sim q f :
  q_rep q f ->
  exists q', q_dequeue q = Some (fst (Fifo.dequeue f), q') /\ q_rep q' (snd (Fifo.dequeue f)).
Proof.
  intros Hrep. unfold q_dequeue, Fifo.dequeue. rewrite (q_rep_empty _ _ Hrep).
  case_bool_decide as Hi; [rewrite Hi; by exists q|].
  destruct Hrep as [addrs [Hl Hnd Hd Hfr Hb Ht Hsz Hc]].
  destruct (Fifo.items f) as [|x l] eqn:Hf; [done|]. destruct addrs as [|a addrs]; [done|].
  destruct Hl as (-> & nx & Hn & Hl). rewrite Hn. eexists. split; [done|].
  apply NoDup_cons in Hnd as [Ha Hnd]. exists addrs. split; simpl in *; try done; try lia.
  - eapply linked_agree; [|done]. intros b Hb'. rewrite lookup_delete_ne; [done|].
    by intros ->.
  - intros b. rewrite lookup_delete_is_Some, Hd, elem_of_cons. clear -Ha. naive_solver.
  - intros b Hb'. apply Hfr. by right.
  - destruct Ht as [|Ht]; [done|]. destruct addrs; [by left | by right].
Qed.

Lemma q_pick_sim q f : q_rep q f -> q_pick q = Some (Fifo.pick f).
Proof.
  intros Hrep. unfold q_pick, Fifo.pick. rewrite (q_rep_empty _ _ Hrep).
  case_bool_decide as Hi; [by rewrite Hi|].
  destruct Hrep as [addrs [Hl _ _ _ _ _ _ _]].
  destruct (Fifo.items f) as [|x l]; [done|]. destruct addrs as [|a addrs]; [done|].
  destruct Hl as (-> & nx & Hn & _). by rewrite Hn.
Qed.

#[export] Hint Resolve q_init_rep : udepot.

Lemma q_exec_sim o q f :
  q_rep q f ->
  exists q', q_exec o q = Some (fst (fifo_exec o f), q') /\ q_rep q' (snd (fifo_exec o f)).
Proof.
  intros H. destruct o as [x|x| |]; simpl.
  - destruct (q_enqueue_sim _ _ x H) as (q' & -> & ?). exists q'.
    by destruct (Fifo.enqueue x f).
  - destruct (q_enqueue_front_sim _ _ x H) as (q' & -> & ?). exists q'.
    by destruct (Fifo.enqueue_front x f).
  - by apply q_dequeue_sim.
  - rewrite (q_pick_sim _ _ H). by exists q.
Qed.

Lemma q_run_sim os q f : q_rep q f -> q_run os q = Some (fifo_run os f).
Proof.
  revert q f. induction os as [|o os IH]; intros q f H; [done|].
  destruct (q_exec_sim o _ _ H) as (q' & He & H'). simpl. rewrite He. simpl.
  rewrite (IH _ _ H'). simpl. by destruct (fifo_exec o f).
Qed.

(** The int load agrees with the pointer load up to the conversion. *)
Lemma q_dequeue_int_sim q f :
  q_rep q f ->
  exists q', q_dequeue_int q = Some (s32 (fst (Fifo.dequeue f)), q') /\
             q_rep q' (snd (Fifo.dequeue f)).
Proof.
  intros H. destruct (q_dequeue_sim _ _ H) as (q' & Hq & Hrep). exists q'. split; [|done].
  clear Hrep. unfold q_dequeue, q_dequeue_int in *.
  destruct ((q_head q =? NULL) || (size q =? 0)).
  - injection Hq as <- <-. done.
  - destruct (nodes q !! q_head q); [|done]. by injection Hq as <- <-.
Qed.

Lemma for_each_rqueue_sim q f :
  q_rep q f -> NULL ∉ Fifo.items f ->
  exists q', for_each_rqueue (S (length (Fifo.items f))) q = Some (Fifo.items f, q') /\
             q_rep q' (Fifo.Mk [] (Fifo.cap f)).
Proof.
  destruct f as [l c]. simpl. revert q. induction l as [|x l IH]; intros q H Hn.
  - destruct (q_dequeue_sim _ _ H) as (q' & Hq & Hrep). simpl in *. rewrite Hq.
    by exists q'.
  - destruct (q_dequeue_sim _ _ H) as (q' & Hq & Hrep). cbn in Hq, Hrep.
    apply not_elem_of_cons in Hn as [Hx Hn].
    destruct (IH q' Hrep Hn) as (q'' & Hd & Hr). exists q''. split; [|done].
    cbn [length for_each_rqueue] in *. rewrite Hq. rewrite (proj2 (Z.eqb_neq x NULL)) by done.
    by rewrite Hd.
Qed.

Lemma q_drain_for_each fuel q l q' :
  for_each_rqueue fuel q = Some (l, q') -> q_drain fuel q = Some q'.
Proof.
  revert q l. induction fuel as [|n IH]; intros q l; simpl; [done|].
  destruct (q_dequeue q) as [[a q1]|]; [|done].
  destruct (a =? NULL); [by intros [= <- <-]|].
  destruct (for_each_rqueue n q1) as [[l1 q2]|] eqn:E; [|done].
  intros [= <- <-]. by apply (IH q1 l1).
Qed.

(** ** Properties *)

(** C6: the linked queue of [queue.c] implements the bounded FIFO: any sequence
    of enqueues, front enqueues, dequeues and picks, started on a queue made by
    [q_init], is defined at every step (no null or freed node is followed) and
    answers exactly as the bounded list does: an enqueue fails just when the
    queue is full, a dequeue returns the oldest element or a null pointer. *)
Theorem q_run_refines_fifo (os : list qop) (n : Z) :
  0 <= n -> q_run os (q_init n) = Some (fifo_run os (Fifo.init n)).
Proof. intros. apply q_run_sim. auto with udepot. Qed.

Lemma q_run_refines_fifo_witness :
  0 <= 2 /\
  q_run [QEnqueue 5; QEnqueue 6; QEnqueue 7; QDequeue; QEnqueueFront 8; QPick; QDequeue; QDequeue; QDequeue]
    (q_init 2) = Some [1; 1; 0; 5; 1; 8; 8; 6; 0].
Proof. split; [lia|]. rewrite q_run_refines_fifo by lia. reflexivity. Defined.

(** [q_free] on a queue of non-null pointers ends, having freed every node
    the queue ever allocated. *)
Theorem q_free_no_leak (q : queue) (f : Fifo.fifo) :
  q_rep q f -> NULL ∉ Fifo.items f -> q_free (S (length (Fifo.items f))) q = Some ∅.
Proof.
  intros H Hn. destruct (for_each_rqueue_sim _ _ H Hn) as (q' & Hf & Hr).
  unfold q_free. rewrite (q_drain_for_each _ _ _ _ Hf). simpl. f_equal.
  destruct Hr as [addrs [Hl _ Hd _ _ _ _ _]]. simpl in Hl. destruct addrs; [|done].
  apply map_eq. intros a. rewrite lookup_empty.
  destruct (nodes q' !! a) eqn:E; [|done].
  assert (is_Some (nodes q' !! a)) as Hs by by eexists.
  by apply Hd, not_elem_of_nil in Hs.
Qed.

Lemma q_free_no_leak_witness :
  exists q, q_rep q (Fifo.Mk [7] 4) /\ (NULL ∉ [7]) /\ q_free 2 q = Some ∅.
Proof.
  destruct (q_enqueue_sim (q_init 4) (Fifo.init 4) 7) as (q & _ & H).
  { apply q_init_rep. lia. }
  assert (NULL ∉ [7]) as Hn by (rewrite list_elem_of_singleton; unfold NULL; lia).
  exists q. split; [exact H|]. split; [exact Hn|]. exact (q_free_no_leak q _ H Hn).
Defined.

(** The macro [for_each_intqueue] never ends on a queue that holds no -1:
    however often its step runs, every dequeue is defined and none answers -1,
    because [q_dequeue_int] answers 0 on an empty queue. *)
Theorem for_each_intqueue_diverges (q : queue) (f : Fifo.fifo) :
  q_rep q f -> Forall (fun x => s32 x <> -1) (Fifo.items f) ->
  forall fuel, for_each_intqueue fuel q = None /\
    exists l, int_answers fuel q = Some l /\ Forall (fun a => a <> -1) l.
Proof.
  intros H Hn fuel. revert q f H Hn. induction fuel as [|n IH]; intros q f H Hn.
  - split; [done|]. by exists [].
  - destruct (q_dequeue_int_sim _ _ H) as (q' & Hq & Hr). simpl. rewrite Hq. simpl.
    assert (s32 (fst (Fifo.dequeue f)) <> -1 /\ Forall (fun x => s32 x <> -1) (Fifo.items (snd (Fifo.dequeue f))))
      as [Hx Hn'].
    { destruct f as [[|x l] c]; [done|]. by apply Forall_cons in Hn. }
    destruct (IH q' _ Hr Hn') as (-> & l & -> & Hl). rewrite (proj2 (Z.eqb_neq _ _) Hx).
    split; [done|]. eexists. split; [done|]. by constructor.
Qed.

Lemma for_each_intqueue_diverges_witness :
  for_each_intqueue 1000 (q_init 8) = None /\
  exists l, int_answers 1000 (q_init 8) = Some l /\ Forall (fun a => a <> -1) l.
Proof.
  apply (for_each_intqueue_diverges (q_init 8) (Fifo.init 8)).
  - apply q_init_rep. lia.
  - constructor.
Defined.
End Linked.
