(* ===== verification/CondLock.v ===== *)
(** * The counting lock ([src/cond_lock.c], [include/cond_lock.h])

    A [cl_lock] counts the requests in flight under a pthread mutex and a
    condition variable. The critical sections are pure functions on the two
    counters; the threads that run them are a step relation in which the mutex,
    the waits and the broadcasts are explicit, so that the invariants hold for
    every interleaving of the calls. *)

From Stdlib Require Import ZArith Lia.
From stdpp Require Import prelude.
From S2P Require Import Prelude.

#[local] Open Scope Z_scope.

(** [cl_lock], less the pthread objects, which are in [state]. *)
Record cl_lock : Type := ClLock { cnt : Z; now : Z; zero_lock : bool }.

Definition cl_init (cnt : Z) (zero_lock : bool) : cl_lock := ClLock cnt 0 zero_lock.

Definition set_now (cl : cl_lock) (n : Z) : cl_lock := ClLock (cnt cl) n (zero_lock cl).

(** The condition of the while loop of [cl_grap]. *)
Definition grap_waits (cl : cl_lock) : bool :=
  if zero_lock cl then now cl =? 0 else now cl =? cnt cl.

(** The counter update of [cl_grap] and of [cl_cond_grap]. *)
Definition grap_update (cl : cl_lock) : cl_lock :=
  if zero_lock cl then set_now cl (now cl - 1) else set_now cl (now cl + 1).

(** [cl_release]: the new counter, and whether it broadcasts. *)
Definition release_update (cl : cl_lock) : cl_lock * bool :=
  if zero_lock cl then
    if now cl =? 0 then (set_now cl (now cl + 1), true) else (set_now cl (now cl + 1), false)
  else
    if now cl =? cnt cl then (set_now cl (now cl - 1), true) else (set_now cl (now cl - 1), false).

(** A call seen by a single thread: [cl_grap] either waits or takes a permit. *)
Definition cl_grap (cl : cl_lock) : option cl_lock :=
  if grap_waits cl then None else Some (grap_update cl).

Definition cl_release (cl : cl_lock) : cl_lock := fst (release_update cl).

(** ** Threads *)

(** The functions of the file; the two with a comparison carry its result. *)
Inductive op : Type :=
| Grap
| CondGrap (flag : bool)
| AlwaysRelease
| NowUpdate (input : Z)
| Release
| GrepWithF (cmp : bool)
| ReleaseWithF (cmp : bool).

(** Where a thread is: outside, locking the mutex, in the critical section,
    waiting on the condition, woken up and locking the mutex again, or about
    to unlock. *)
Inductive pc : Type :=
| Idle
| Locking (o : op)
| Body (o : op)
| Waiting (o : op)
| Unlocking.

#[export] Instance op_eq_dec : EqDecision op.
Proof. solve_decision. Defined.

#[export] Instance pc_eq_dec : EqDecision pc.
Proof. solve_decision. Defined.

Record state : Type := State {
  lock : cl_lock;
  mutex : option nat;
  pcs : list pc;
  (* counters of the calls so far: permits taken, releases called, releases done *)
  graps : Z;
  rels_called : Z;
  rels_done : Z
}.

Definition init (n : nat) (cnt : Z) (zero_lock : bool) : state :=
  State (cl_init cnt zero_lock) None (replicate n Idle) 0 0 0.

(** A broadcast moves every waiting thread to the lock of the mutex. A thread
    that returns from the wait of [cl_grap] runs the loop test again; the other
    functions wait at most once. *)
Definition wake (p : pc) : pc :=
  match p with
  | Waiting Grap => Locking Grap
  | Waiting (CondGrap _) => Locking (CondGrap false)
  | Waiting (GrepWithF _) => Locking (GrepWithF false)
  | _ => p
  end.

Definition set_pc (s : state) (m : option nat) (t : nat) (p : pc) : state :=
  State (lock s) m (<[t := p]> (pcs s)) (graps s) (rels_called s) (rels_done s).

Definition set_lock (s : state) (cl : cl_lock) : state :=
  State cl (mutex s) (pcs s) (graps s) (rels_called s) (rels_done s).

Definition broadcast (b : bool) (s : state) : state :=
  if b then State (lock s) (mutex s) (wake <$> pcs s) (graps s) (rels_called s) (rels_done s)
  else s.

Definition count_grap (s : state) : state :=
  State (lock s) (mutex s) (pcs s) (graps s + 1) (rels_called s) (rels_done s).
Definition count_call (s : state) : state :=
  State (lock s) (mutex s) (pcs s) (graps s) (rels_called s + 1) (rels_done s).
Definition count_rel (s : state) : state :=
  State (lock s) (mutex s) (pcs s) (graps s) (rels_called s) (rels_done s + 1).

(** The critical section of thread [t], which holds the mutex: the state after
    it, at the unlock or in the wait. *)
Definition run_body (t : nat) (o : op) (s : state) : state :=
  match o with
  | Grap =>
      if grap_waits (lock s) then set_pc s None t (Waiting Grap)
      else count_grap (set_pc (set_lock s (grap_update (lock s))) (mutex s) t Unlocking)
  | CondGrap flag =>
      if flag then set_pc s None t (Waiting (CondGrap flag))
      else count_grap (set_pc (set_lock s (grap_update (lock s))) (mutex s) t Unlocking)
  | AlwaysRelease => set_pc (broadcast true s) (mutex s) t Unlocking
  | NowUpdate input => set_pc (set_lock s (set_now (lock s) input)) (mutex s) t Unlocking
  | Release =>
      let '(cl, b) := release_update (lock s) in
      count_rel (set_pc (broadcast b (set_lock s cl)) (mutex s) t Unlocking)
  | GrepWithF cmp =>
      if cmp then set_pc s None t (Waiting (GrepWithF cmp)) else set_pc s (mutex s) t Unlocking
  | ReleaseWithF cmp => set_pc (broadcast cmp s) (mutex s) t Unlocking
  end.

(** The next step of thread [t] inside a call; [None] when it is blocked. *)
Definition run (t : nat) (s : state) : option state :=
  match pcs s !! t with
  | Some (Locking o) =>
      match mutex s with
      | None => Some (set_pc s (Some t) t (Body o))
      | Some _ => None
      end
  | Some (Body o) => Some (run_body t o s)
  | Some Unlocking => Some (set_pc s None t Idle)
  | _ => None
  end.

Inductive action : Type :=
| Call (t : nat) (o : op)       (* thread t calls a function of the file *)
| Run (t : nat)                 (* thread t goes on *)
| Spurious (t : nat).           (* thread t returns from its wait unsignalled *)

Definition exec (a : action) (s : state) : option state :=
  match a with
  | Call t o =>
      match pcs s !! t with
      | Some Idle =>
          let s' := set_pc s (mutex s) t (Locking o) in
          Some (match o with Release => count_call s' | _ => s' end)
      | _ => None
      end
  | Run t => run t s
  | Spurious t =>
      match pcs s !! t with
      | Some (Waiting o) => Some (set_pc s (mutex s) t (wake (Waiting o)))
      | _ => None
      end
  end.

(** The protocol of the program's own use: only [cl_grap] and [cl_release] are
    called, and a counted lock is released only for a permit that was taken. *)
Definition client_ok (s : state) (a : action) : Prop :=
  match a with
  | Call _ Grap => True
  | Call _ Release => zero_lock (lock s) = true \/ rels_called s < graps s
  | Call _ _ => False
  | _ => True
  end.

Inductive reachable (n : nat) (c : Z) (z : bool) : state -> Prop :=
| reach_init : reachable n c z (init n c z)
| reach_step s a s' :
    reachable n c z s -> client_ok s a -> exec a s = Some s' -> reachable n c z s'.

(** ** The invariant *)

(** Threads in a critical section hold the mutex. *)
Definition holding (p : pc) : bool :=
  match p with Body _ | Unlocking => true | _ => false end.

(** Threads that called [cl_release] and have not updated the counter yet. *)
Definition releasing (p : pc) : bool :=
  match p with Locking Release | Body Release => true | _ => false end.

Definition locking (p : pc) : bool := match p with Locking _ => true | _ => false end.

Definition client_op (p : pc) : bool :=
  match p with
  | Idle | Unlocking => true
  | Locking o | Body o => match o with Grap | Release => true | _ => false end
  | Waiting o => match o with Grap => true | _ => false end
  end.

Definition rel_count (p : pc) : Z := if releasing p then 1 else 0.

Fixpoint nr_releasing (l : list pc) : Z :=
  match l with
  | [] => 0
  | p :: l' => rel_count p + nr_releasing l'
  end.

Record inv (c : Z) (z : bool) (s : state) : Prop := Inv {
  inv_cnt : cnt (lock s) = c;
  inv_zero : zero_lock (lock s) = z;
  inv_now : now (lock s) = if z then rels_done s - graps s else graps s - rels_done s;
  inv_pos : 0 <= now (lock s);
  inv_le : z = false -> now (lock s) <= c;
  inv_rel : rels_called s - rels_done s = nr_releasing (pcs s);
  inv_calls : z = false -> rels_called s <= graps s;
  inv_mutex : forall t p, pcs s !! t = Some p -> (holding p = true <-> mutex s = Some t);
  inv_owner : forall t, mutex s = Some t -> is_Some (pcs s !! t);
  inv_ops : Forall (fun p => client_op p = true) (pcs s);
  inv_wait : forall t, pcs s !! t = Some (Waiting Grap) -> grap_waits (lock s) = true
}.

Lemma nr_releasing_insert l t p q :
  l !! t = Some p ->
  nr_releasing (<[t := q]> l) = nr_releasing l - rel_count p + rel_count q.
Proof.
  revert t. induction l as [|x l IH]; intros [|t] Hp; simplify_eq/=; [lia|].
  rewrite (IH _ Hp). lia.
Qed.

Lemma nr_releasing_nonneg l : 0 <= nr_releasing l.
Proof. induction l as [|p l IH]; simpl; [done|]. unfold rel_count. destruct (releasing p); simpl; lia. Qed.

Lemma nr_releasing_wake l : nr_releasing (wake <$> l) = nr_releasing l.
Proof.
  induction l as [|p l IH]; [done|]. rewrite fmap_cons. simpl. rewrite IH. f_equal.
  by destruct p as [|[]|[]|[]|].
Qed.

Lemma nr_releasing_replicate n : nr_releasing (replicate n Idle) = 0.
Proof. by induction n. Qed.

Lemma nr_releasing_pos l t p : l !! t = Some p -> releasing p = true -> 0 < nr_releasing l.
Proof.
  revert t. induction l as [|x l IH]; intros [|t] Hp Hr; simplify_eq/=.
  - unfold rel_count. rewrite Hr. pose proof (nr_releasing_nonneg l). lia.
  - specialize (IH _ Hp Hr). unfold rel_count. destruct (releasing x); simpl; lia.
Qed.

Lemma holding_wake p : holding (wake p) = holding p.
Proof. by destruct p as [|[]|[]|[]|]. Qed.

Lemma client_op_wake p : client_op p = true -> client_op (wake p) = true.
Proof. by destruct p as [|[]|[]|[]|]. Qed.

(** ** Preservation *)

Lemma inv_init n c z : 0 <= c -> inv c z (init n c z).
Proof.
  intros Hc. split; simpl; try done; try (destruct z; lia).
  - by rewrite nr_releasing_replicate.
  - intros t p [-> _]%lookup_replicate. done.
  - apply Forall_replicate. done.
  - intros t [? _]%lookup_replicate. done.
Qed.

(** The step of one thread that touches neither counter: the mutex goes to that
    thread exactly when it is then in a critical section. *)
Lemma inv_set_pc c z s t p q m :
  inv c z s -> pcs s !! t = Some p -> client_op q = true ->
  releasing q = releasing p ->
  (mutex s = None \/ mutex s = Some t) ->
  m = (if holding q then Some t else None) ->
  (q = Waiting Grap -> grap_waits (lock s) = true) ->
  inv c z (set_pc s m t q).
Proof.
  intros [Hc Hz Hn Hp Hle Hr Hcl Hm Ho Hop Hw] Ht Hq Hrel Hmx -> Hwq.
  assert (t < length (pcs s))%nat as Hlt by by eapply lookup_lt_Some.
  split; simpl; try done.
  - rewrite (nr_releasing_insert _ _ _ _ Ht), Hr. unfold rel_count. rewrite Hrel. lia.
  - intros t' p'. rewrite list_lookup_insert. case_decide as Hd.
    + destruct Hd as [<- _]. intros [= <-]. by destruct (holding q).
    + intros Hp'. assert (t <> t') as Hne by (intros ->; by apply Hd).
      rewrite (Hm _ _ Hp').
      destruct (holding q); destruct Hmx as [-> | ->]; split; congruence.
  - intros t'. destruct (holding q); [|done]. intros [= <-].
    rewrite list_lookup_insert_eq by done. by eexists.
  - by apply Forall_insert.
  - intros t'. rewrite list_lookup_insert. case_decide as Hd.
    + intros [= ->]. by apply Hwq.
    + apply Hw.
Qed.

(** The same for a thread that does not own the mutex and does not take it. *)
Lemma inv_set_pc_outside c z s t p q :
  inv c z s -> pcs s !! t = Some p -> client_op q = true ->
  releasing q = releasing p -> holding p = false -> holding q = false ->
  q <> Waiting Grap -> inv c z (set_pc s (mutex s) t q).
Proof.
  intros [Hc Hz Hn Hp Hle Hr Hcl Hm Ho Hop Hw] Ht Hq Hrel Hhp Hhq Hwq.
  split; simpl; try done.
  - rewrite (nr_releasing_insert _ _ _ _ Ht), Hr. unfold rel_count. rewrite Hrel. lia.
  - intros t' p'. rewrite list_lookup_insert. case_decide as Hd.
    + destruct Hd as [<- _]. intros [= <-]. rewrite Hhq, <- (Hm _ _ Ht), Hhp. done.
    + apply Hm.
  - intros t' Hmt. destruct (Ho _ Hmt) as [p' Hp']. apply list_lookup_insert_is_Some. by eexists.
  - by apply Forall_insert.
  - intros t'. rewrite list_lookup_insert. case_decide as Hd; [|apply Hw].
    by intros [= ->].
Qed.

Lemma inv_take c z s t :
  inv c z s -> pcs s !! t = Some (Body Grap) -> grap_waits (lock s) = false ->
  inv c z (count_grap (set_pc (set_lock s (grap_update (lock s))) (mutex s) t Unlocking)).
Proof.
  intros Hinv Ht Hg. pose proof Hinv as [Hc Hz Hn Hp Hle Hr Hcl Hm Ho Hop Hw].
  assert (mutex s = Some t) as Hmt by by apply (Hm _ _ Ht).
  pose proof (nr_releasing_nonneg (pcs s)) as Hnn.
  destruct (inv_set_pc c z s t (Body Grap) Unlocking (Some t)) as [_ _ _ _ _ Hr' _ Hm' Ho' Hop' _];
    simpl in *; try done; [by right|].
  unfold grap_waits, grap_update in *. rewrite <- Hmt in Hm', Ho'.
  split; simpl; try done.
  - destruct (zero_lock (lock s)); simpl; congruence.
  - destruct (zero_lock (lock s)) eqn:?; simpl; congruence.
  - destruct z; rewrite Hz in *; simpl; lia.
  - destruct z; rewrite Hz in *; simpl; reflect_bools; lia.
  - intros ->. rewrite Hz in *. simpl. reflect_bools. specialize (Hle eq_refl). lia.
  - intros ->. specialize (Hcl eq_refl). lia.
  - intros t'. rewrite list_lookup_insert. case_decide; [done|]. intros Hw'.
    apply Hw in Hw'. congruence.
Qed.

Lemma release_update_spec cl cl' b :
  release_update cl = (cl', b) ->
  cnt cl' = cnt cl /\ zero_lock cl' = zero_lock cl /\
  now cl' = (if zero_lock cl then now cl + 1 else now cl - 1) /\ b = grap_waits cl.
Proof. unfold release_update, grap_waits. intros Hu. destruct (zero_lock cl) eqn:Hz; case_match; simplify_eq/=; done. Qed.

(** Waking changes no thread that holds the mutex. *)
Lemma woken_holding (b : bool) (ps : list pc) t p :
  (if b then wake <$> ps else ps) !! t = Some p -> exists p0, ps !! t = Some p0 /\ holding p0 = holding p.
Proof.
  destruct b; [|by exists p]. rewrite list_lookup_fmap. destruct (ps !! t) as [p0|]; [|done].
  intros [= <-]. exists p0. by rewrite holding_wake.
Qed.

Lemma inv_release c z s t :
  inv c z s -> pcs s !! t = Some (Body Release) ->
  inv c z (run_body t Release s).
Proof.
  intros Hinv Ht. pose proof Hinv as [Hc Hz Hn Hp Hle Hr Hcl Hm Ho Hop Hw].
  pose proof (nr_releasing_pos _ _ _ Ht eq_refl) as Hpos.
  assert (mutex s = Some t) as Hmt by by apply (Hm _ _ Ht).
  assert (z = false -> 0 < now (lock s)) as Hnow.
  { intros ->. specialize (Hcl eq_refl). lia. }
  (* the lock after the update, and whether someone is woken *)
  destruct (release_update (lock s)) as [cl b] eqn:Hu. simpl. rewrite Hu.
  destruct (release_update_spec _ _ _ Hu) as (Hcc & Hzz & Hnn & Hb). rewrite Hz in Hzz, Hnn. rewrite Hc in Hcc.
  assert (pcs (broadcast b (set_lock s cl)) = if b then wake <$> pcs s else pcs s) as Hpcs
    by by destruct b.
  assert ((if b then wake <$> pcs s else pcs s) !! t = Some (Body Release)) as Ht'.
  { destruct b; [|done]. by rewrite list_lookup_fmap, Ht. }
  assert (nr_releasing (if b then wake <$> pcs s else pcs s) = nr_releasing (pcs s)) as Hrel
    by (destruct b; [apply nr_releasing_wake | done]).
  assert (lock (broadcast b (set_lock s cl)) = cl) as Hlk by by destruct b.
  assert (graps (broadcast b (set_lock s cl)) = graps s) as Hg by by destruct b.
  assert (rels_called (broadcast b (set_lock s cl)) = rels_called s) as Hrc by by destruct b.
  assert (rels_done (broadcast b (set_lock s cl)) = rels_done s) as Hrd by by destruct b.
  split; simpl; rewrite ?Hpcs, ?Hlk, ?Hg, ?Hrc, ?Hrd; try done.
  - rewrite Hnn. destruct z; lia.
  - rewrite Hnn. destruct z; [lia|]. specialize (Hnow eq_refl). lia.
  - intros ->. rewrite Hnn. specialize (Hle eq_refl). lia.
  - rewrite (nr_releasing_insert _ _ _ _ Ht'), Hrel. unfold rel_count. simpl. lia.
  - intros t' p'. rewrite list_lookup_insert. case_decide as Hd.
    + destruct Hd as [<- _]. intros [= <-]. done.
    + intros (p & Hpp & <-)%woken_holding. by apply Hm.
  - intros t' Hmt'. apply list_lookup_insert_is_Some. destruct (Ho _ Hmt') as [p Hp'].
    destruct b; [|by eexists]. rewrite list_lookup_fmap, Hp'. by eexists.
  - apply Forall_insert; [|done]. destruct b; [|done]. apply Forall_fmap.
    eapply Forall_impl; [exact Hop|]. intros p. apply client_op_wake.
  - intros t'. rewrite list_lookup_insert. case_decide; [done|].
    destruct b.
    + rewrite list_lookup_fmap. intros Hx. destruct (pcs s !! t') as [[|[]|[]|[]|]|]; done.
    + intros Hx. apply Hw in Hx. congruence.
Qed.

Lemma inv_step c z s a s' :
  inv c z s -> client_ok s a -> exec a s = Some s' -> inv c z s'.
Proof.
  intros Hinv Hok He. destruct a as [t o|t|t]; simpl in He.
  - destruct (pcs s !! t) as [p|] eqn:Ht; [|done]. destruct p; try done.
    destruct o; try done; injection He as <-.
    + by eapply inv_set_pc_outside.
    + simpl in Hok. pose proof Hinv as [Hc Hz Hn Hp Hle Hr Hcl Hm Ho Hop Hw].
      split; simpl; try done.
      * rewrite (nr_releasing_insert _ _ _ _ Ht). unfold rel_count. simpl. lia.
      * intros ->. rewrite Hz in Hok. destruct Hok; [done | lia].
      * intros t' p'. rewrite list_lookup_insert. case_decide as Hd; [|apply Hm].
        destruct Hd as [<- _]. intros [= <-]. simpl. rewrite <- (Hm _ _ Ht). done.
      * intros t' Hmt. destruct (Ho _ Hmt) as [p' Hp'].
        apply list_lookup_insert_is_Some. by eexists.
      * by apply Forall_insert.
      * intros t'. rewrite list_lookup_insert. case_decide; [done | apply Hw].
  - unfold run in He. destruct (pcs s !! t) as [p|] eqn:Ht; [|done].
    pose proof Hinv as [Hc Hz Hn Hp Hle Hr Hcl Hm Ho Hop Hw].
    pose proof (Forall_lookup_1 _ _ _ _ Hop Ht) as Hopt.
    destruct p as [|o|o|o|]; try done.
    + destruct (mutex s) eqn:Hmx; [done|]. injection He as <-.
      eapply inv_set_pc; eauto; by destruct o.
    + injection He as <-. destruct o; try done; [|by apply inv_release].
      simpl. destruct (grap_waits (lock s)) eqn:Hg; [|by apply inv_take].
      assert (mutex s = Some t) by by apply (Hm _ _ Ht).
      eapply inv_set_pc; eauto.
    + injection He as <-. assert (mutex s = Some t) by by apply (Hm _ _ Ht).
      eapply inv_set_pc; eauto. done.
  - destruct (pcs s !! t) as [p|] eqn:Ht; [|done]. destruct p as [| | |o|]; try done.
    injection He as <-.
    pose proof (Forall_lookup_1 _ _ _ _ (inv_ops _ _ _ Hinv) Ht) as Hopt.
    eapply inv_set_pc_outside; eauto; by destruct o.
Qed.

Lemma reachable_inv n c z s : 0 <= c -> reachable n c z s -> inv c z s.
Proof.
  intros Hc. induction 1; [by apply inv_init|]. by eapply inv_step.
Qed.

(** ** Checked traces, for concrete runs *)

Definition client_okb (s : state) (a : action) : bool :=
  match a with
  | Call _ Grap => true
  | Call _ Release => zero_lock (lock s) || (rels_called s <? graps s)
  | Call _ _ => false
  | _ => true
  end.

Lemma client_okb_ok s a : client_okb s a = true -> client_ok s a.
Proof.
  destruct a as [t []|t|t]; simpl; try done.
  intros [?|?]%orb_true_iff; [by left | right; lia].
Qed.

Fixpoint exec_all (l : list action) (s : state) : option state :=
  match l with
  | [] => Some s
  | a :: l' => if client_okb s a then s' ← exec a s; exec_all l' s' else None
  end.

Lemma exec_all_reachable n c z l s s' :
  reachable n c z s -> exec_all l s = Some s' -> reachable n c z s'.
Proof.
  revert s. induction l as [|a l IH]; intros s Hs; simpl; [by intros [= <-]|].
  case_match eqn:Hok; [|done]. destruct (exec a s) as [s1|] eqn:He; simpl; [|done].
  apply IH. eapply reach_step; eauto using client_okb_ok.
Qed.

(** Two threads on a lock with one permit: thread 0 takes it, thread 1 waits. *)
Definition two_threads_trace : list action :=
  [Call 0 Grap; Run 0; Run 0; Run 0; Call 1 Grap; Run 1; Run 1].

Definition two_threads_state : state :=
  State (ClLock 1 1 false) None [Idle; Waiting Grap] 1 0 0.

Lemma two_threads_reachable : reachable 2 1 false two_threads_state.
Proof. apply (exec_all_reachable 2 1 false two_threads_trace (init 2 1 false)); by constructor. Qed.

(** ** Properties *)

(** C12: however [cl_grap] and [cl_release] calls interleave, the counter of a
    counted lock is exactly the number of permits taken and not given back, and
    stays between 0 and the limit given to [cl_init]; of a zero lock it is the
    number of releases not yet consumed. At most one thread is in a critical
    section. *)
Theorem cl_count_bounded (n : nat) (c : Z) (z : bool) (s : state) :
  0 <= c -> reachable n c z s ->
  0 <= now (lock s) /\
  (z = false -> now (lock s) = graps s - rels_done s /\ now (lock s) <= c) /\
  (z = true -> now (lock s) = rels_done s - graps s) /\
  (forall t t' p p', pcs s !! t = Some p -> pcs s !! t' = Some p' ->
     holding p = true -> holding p' = true -> t = t').
Proof.
  intros Hc Hr. destruct (reachable_inv _ _ _ _ Hc Hr) as [? ? Hn ? Hle ? ? Hm ? ? ?].
  split_and!; [done | by intros -> ; eauto | by intros ->|].
  intros t t' p p' Ht Ht' Hp%(Hm _ _ Ht) Hp'%(Hm _ _ Ht'). congruence.
Qed.

Lemma cl_count_bounded_witness :
  0 <= 1 /\ reachable 2 1 false two_threads_state /\ now (lock two_threads_state) <= 1.
Proof.
  split; [lia|]. split; [exact two_threads_reachable|].
  apply (cl_count_bounded 2 1 false two_threads_state); [lia | exact two_threads_reachable | reflexivity].
Defined.

(** C11: no wake-up is lost. A thread sleeps in [cl_grap] only while no permit is
    free: whenever a permit is given back every sleeping thread has been woken,
    although [cl_release] broadcasts only when the counter was at its limit. *)
Theorem cl_no_lost_wakeup (n : nat) (c : Z) (z : bool) (s : state) (t : nat) :
  0 <= c -> reachable n c z s -> pcs s !! t = Some (Waiting Grap) ->
  cl_grap (lock s) = None.
Proof.
  intros Hc Hr Ht. unfold cl_grap.
  by rewrite (inv_wait _ _ _ (reachable_inv _ _ _ _ Hc Hr) _ Ht).
Qed.

Lemma cl_no_lost_wakeup_witness :
  reachable 2 1 false two_threads_state /\ cl_grap (lock two_threads_state) = None.
Proof.
  split; [exact two_threads_reachable|].
  apply (cl_no_lost_wakeup 2 1 false two_threads_state 1); [lia | exact two_threads_reachable | reflexivity].
Defined.

(** C28: the lock does not deadlock: as long as some thread is inside a call,
    some thread can go on, unless all of them sleep for want of a permit. *)
Theorem cl_progress (n : nat) (c : Z) (z : bool) (s : state) :
  0 <= c -> reachable n c z s ->
  (exists t s', exec (Run t) s = Some s') \/
  (forall t p, pcs s !! t = Some p -> p = Idle \/ (p = Waiting Grap /\ cl_grap (lock s) = None)).
Proof.
  intros Hc Hr. pose proof (reachable_inv _ _ _ _ Hc Hr) as [_ _ _ _ _ _ _ Hm Ho Hop Hw].
  destruct (mutex s) as [t|] eqn:Hmx.
  - left. destruct (Ho _ eq_refl) as [p Hp]. exists t. simpl. unfold run. rewrite Hp.
    pose proof (proj2 (Hm _ _ Hp) eq_refl). destruct p; try done; by eexists.
  - destruct (decide (Exists (fun p => locking p = true) (pcs s))) as [He|He].
    + left. apply Exists_exists in He as (p & Hin & Hp). destruct p; try done.
      apply list_elem_of_lookup in Hin as [t Ht]. exists t. simpl. unfold run.
      rewrite Ht, Hmx. by eexists.
    + right. intros t p Hp. apply not_Exists_Forall in He; [|intros p'; apply bool_eq_dec].
      pose proof (Forall_lookup_1 _ _ _ _ He Hp) as Hl.
      pose proof (Forall_lookup_1 _ _ _ _ Hop Hp) as Ho'.
      destruct p as [|o|o|o|]; try done; [by left | by destruct Hl | | |].
      * by pose proof (proj1 (Hm _ _ Hp) eq_refl).
      * right. destruct o; try done. split; [done|]. unfold cl_grap. by rewrite (Hw _ Hp).
      * by pose proof (proj1 (Hm _ _ Hp) eq_refl).
Qed.

Lemma cl_progress_witness :
  reachable 2 1 false two_threads_state /\
  ((exists t s', exec (Run t) two_threads_state = Some s') \/
   (forall t p, pcs two_threads_state !! t = Some p ->
      p = Idle \/ (p = Waiting Grap /\ cl_grap (lock two_threads_state) = None))).
Proof.
  split; [exact two_threads_reachable|].
  apply (cl_progress 2 1 false); [lia | exact two_threads_reachable].
Defined.
