(* ===== verification/Lfqueue.v ===== *)
(** * The lock-free queue ([src/lfqueue.c], [include/lfqueue.h])

    A bounded linked queue with a dummy head node, changed by compare-and-swap
    only. Every access to shared memory is a step of its own ([run_pc]); threads
    interleave these steps ([exec]). With one producer and one consumer, and so
    in sequential use, the queue is memory safe, a FIFO and bounded; with two
    threads at one end it is none of that, as executions of the model show.

    Memory is sequentially consistent and malloc does not reuse addresses: the
    failures below need no reuse. *)

From Stdlib Require Import ZArith Lia.
From stdpp Require Import prelude gmap.
From S2P Require Import Prelude Queue.

#[local] Open Scope Z_scope.

(** ** The data and the steps *)

(** [struct node] *)
Record lf_node : Type := LfNode { lf_n : Z; lf_next : Z }.

(** [struct queue] of [lfqueue.h] with the memory its nodes live in. *)
Record lfq : Type := Lfq {
  lf_mem : gmap Z lf_node;
  lf_head : Z;
  lf_tail : Z;
  lf_size : Z;
  lf_m_size : Z;
  lf_brk : Z
}.

(** [lfq_init]: the dummy node is at address 1. *)
Definition lfq_init (size : Z) : lfq := Lfq {[ 1 := LfNode NULL NULL ]} 1 1 0 size 2.

Definition with_mem (m : gmap Z lf_node) (q : lfq) : lfq :=
  Lfq m (lf_head q) (lf_tail q) (lf_size q) (lf_m_size q) (lf_brk q).
Definition with_head (h : Z) (q : lfq) : lfq :=
  Lfq (lf_mem q) h (lf_tail q) (lf_size q) (lf_m_size q) (lf_brk q).
Definition with_tail (t : Z) (q : lfq) : lfq :=
  Lfq (lf_mem q) (lf_head q) t (lf_size q) (lf_m_size q) (lf_brk q).
Definition with_size (s : Z) (q : lfq) : lfq :=
  Lfq (lf_mem q) (lf_head q) (lf_tail q) s (lf_m_size q) (lf_brk q).

(** Where a thread is: out of the queue, with the answer of its last call, or
    before the named shared access. *)
Inductive lpc : Type :=
| Out (r : Z)
(* lfq_enqueue: [_node] and [n] *)
| ETail (nd : Z)                (* n = q->tail *)
| ESize (nd n : Z)              (* is size at m_size? *)
| ELink (nd n : Z)              (* CAS of n->next *)
| EHelp (nd n : Z)              (* n->next, for the next CAS *)
| EHelpCas (nd n nn : Z)        (* CAS of q->tail after a failed link *)
| ESwing (nd n : Z)             (* CAS of q->tail after the link *)
| EAdd                          (* size++ *)
(* lfq_dequeue: [n] *)
| DHead                         (* n = q->head *)
| DTest (n : Z)                 (* n->next == NULL *)
| DNext (n : Z)                 (* n->next, for the CAS *)
| DCas (n nn : Z)               (* CAS of q->head *)
| DFirst (n : Z)                (* n->next, for the value *)
| DVal (n nn : Z)               (* n->next->n *)
| DFree (n v : Z)               (* free(n) *)
| DSub (v : Z).                 (* size-- *)

Inductive lf_res (A : Type) : Type :=
| Next (a : A)
| Fault.                        (* an access to a node that was freed *)
Arguments Next {A} _.
Arguments Fault {A}.

(** Access to a node. *)
Definition lf_at {A} (q : lfq) (a : Z) (k : lf_node -> lf_res A) : lf_res A :=
  match lf_mem q !! a with
  | Some x => k x
  | None => Fault
  end.

(** The next step of a call; a thread that is out does nothing. *)
Definition run_pc (p : lpc) (q : lfq) : lf_res (lpc * lfq) :=
  match p with
  | Out _ => Next (p, q)
  | ETail nd => Next (ESize nd (lf_tail q), q)
  | ESize nd n =>
      if lf_size q =? lf_m_size q then Next (Out 0, with_mem (delete nd (lf_mem q)) q)
      else Next (ELink nd n, q)
  | ELink nd n =>
      lf_at q n (fun x =>
        if lf_next x =? NULL then
          Next (ESwing nd n, with_mem (<[n := LfNode (lf_n x) nd]> (lf_mem q)) q)
        else Next (EHelp nd n, q))
  | EHelp nd n => lf_at q n (fun x => Next (EHelpCas nd n (lf_next x), q))
  | EHelpCas nd n nn => Next (ETail nd, if lf_tail q =? n then with_tail nn q else q)
  | ESwing nd n => Next (EAdd, if lf_tail q =? n then with_tail nd q else q)
  | EAdd => Next (Out 1, with_size (lf_size q + 1) q)
  | DHead => Next (DTest (lf_head q), q)
  | DTest n => lf_at q n (fun x => Next (if lf_next x =? NULL then Out NULL else DNext n, q))
  | DNext n => lf_at q n (fun x => Next (DCas n (lf_next x), q))
  | DCas n nn =>
      if lf_head q =? n then Next (DFirst n, with_head nn q) else Next (DHead, q)
  | DFirst n => lf_at q n (fun x => Next (DVal n (lf_next x), q))
  | DVal n nn => lf_at q nn (fun x => Next (DFree n (lf_n x), q))
  | DFree n v => lf_at q n (fun _ => Next (DSub v, with_mem (delete n (lf_mem q)) q))
  | DSub v => Next (Out v, with_size (lf_size q - 1) q)
  end.

(** The start of a call: [lfq_enqueue] allocates its node first. *)
Definition start_enqueue (v : Z) (q : lfq) : lpc * lfq :=
  (ETail (lf_brk q),
   Lfq (<[lf_brk q := LfNode v NULL]> (lf_mem q)) (lf_head q) (lf_tail q) (lf_size q) (lf_m_size q)
     (lf_brk q + 1)).

Definition is_out (p : lpc) : bool := match p with Out _ => true | _ => false end.

(** A call by a thread that runs alone; [None] without enough fuel. *)
Fixpoint complete (fuel : nat) (p : lpc) (q : lfq) : option (lf_res (Z * lfq)) :=
  match p with
  | Out r => Some (Next (r, q))
  | _ =>
      match fuel with
      | O => None
      | S n =>
          match run_pc p q with
          | Next (p', q') => complete n p' q'
          | Fault => Some Fault
          end
      end
  end.

Definition lfq_enqueue (v : Z) (q : lfq) : option (lf_res (Z * lfq)) :=
  let '(p, q') := start_enqueue v q in complete 8 p q'.

Definition lfq_dequeue (q : lfq) : option (lf_res (Z * lfq)) := complete 8 DHead q.

(** [lfq_free]: the nodes still allocated when the queue is freed. *)
Fixpoint lfq_free (fuel : nat) (q : lfq) : option (lf_res (gmap Z lf_node)) :=
  match fuel with
  | O => None
  | S n =>
      match lfq_dequeue q with
      | Some (Next (r, q')) => if r =? NULL then Some (Next (lf_mem q')) else lfq_free n q'
      | Some Fault => Some Fault
      | None => None
      end
  end.

(** ** Threads *)

Record lstate : Type := LState { lq : lfq; lpcs : list lpc }.

Inductive laction : Type :=
| CallEnqueue (t : nat) (v : Z)
| CallDequeue (t : nat)
| Step (t : nat).

(** [None]: the thread cannot do that. *)
Definition lexec (a : laction) (s : lstate) : option (lf_res lstate) :=
  let out t := match lpcs s !! t with Some (Out _) => true | _ => false end in
  match a with
  | CallEnqueue t v =>
      if out t then
        let '(p, q) := start_enqueue v (lq s) in Some (Next (LState q (<[t := p]> (lpcs s))))
      else None
  | CallDequeue t => if out t then Some (Next (LState (lq s) (<[t := DHead]> (lpcs s)))) else None
  | Step t =>
      match lpcs s !! t with
      | Some p =>
          match run_pc p (lq s) with
          | Next (p', q') => Some (Next (LState q' (<[t := p']> (lpcs s))))
          | Fault => Some Fault
          end
      | None => None
      end
  end.

Fixpoint lrun (l : list laction) (s : lstate) : option (lf_res lstate) :=
  match l with
  | [] => Some (Next s)
  | a :: l' =>
      match lexec a s with
      | Some (Next s') => lrun l' s'
      | r => r
      end
  end.

Definition linit (threads : nat) (size : Z) : lstate :=
  LState (lfq_init size) (replicate threads (Out 0)).

(** ** The invariant for one producer and one consumer *)

(** From the dummy node [a] on, the nodes at [addrs] hold [vals]. *)
Fixpoint lchain (m : gmap Z lf_node) (a : Z) (addrs vals : list Z) : Prop :=
  match addrs, vals with
  | [], [] => exists v, m !! a = Some (LfNode v NULL)
  | b :: addrs', v :: vals' =>
      (exists x, m !! a = Some (LfNode x b)) /\ b <> NULL /\
      (exists y, m !! b = Some y /\ lf_n y = v) /\ lchain m b addrs' vals'
  | _, _ => False
  end.

Definition last_addr (a : Z) (addrs : list Z) : Z := default a (last addrs).

(** A link that is not counted yet, a removal that is not, and a place that the
    test of the size has reserved. *)
Definition pend_e (p : lpc) : Z := match p with ESwing _ _ | EAdd => 1 | _ => 0 end.
Definition pend_d (p : lpc) : Z := match p with DFirst _ | DVal _ _ | DFree _ _ | DSub _ => 1 | _ => 0 end.
Definition reserved (p : lpc) : Z := match p with ELink _ _ | ESwing _ _ | EAdd => 1 | _ => 0 end.

(** The value linked by a call that has not returned. *)
Definition sending (p : lpc) (cur : Z) : list Z := match p with ESwing _ _ | EAdd => [cur] | _ => [] end.

(** The node a producer has not linked yet. *)
Definition own_node (p : lpc) : option Z :=
  match p with ETail nd | ESize nd _ | ELink nd _ => Some nd | _ => None end.

(** The node a consumer has unlinked and not freed. *)
Definition old_node (p : lpc) : option Z :=
  match p with DFirst n | DVal n _ | DFree n _ => Some n | _ => None end.

(** What the producer's and the consumer's local variables are worth. *)
Definition enq_ok (q : lfq) (p : lpc) (lst : Z) : Prop :=
  match p with
  | Out _ | EAdd | ETail _ => lf_tail q = lst
  | ESize _ n | ELink _ n => n = lst /\ lf_tail q = lst
  | ESwing nd n => lf_tail q = n /\ nd = lst
  | _ => False
  end.

Definition deq_ok (q : lfq) (p : lpc) (addrs vd : list Z) : Prop :=
  match p with
  | Out _ | DHead => vd = []
  | DTest n => n = lf_head q /\ vd = []
  | DNext n => n = lf_head q /\ addrs <> [] /\ vd = []
  | DCas n nn => n = lf_head q /\ head addrs = Some nn /\ vd = []
  | DFirst n => exists x y, lf_mem q !! n = Some (LfNode x (lf_head q)) /\
                  lf_mem q !! lf_head q = Some y /\ vd = [lf_n y]
  | DVal n nn => nn = lf_head q /\ is_Some (lf_mem q !! n) /\
                   exists y, lf_mem q !! lf_head q = Some y /\ vd = [lf_n y]
  | DFree n v => vd = [v] /\ is_Some (lf_mem q !! n)
  | DSub v => vd = [v]
  | _ => False
  end.

(** [acc]: the values whose enqueue has answered 1; [got]: the values dequeue
    has answered; [cur]: the value of the running enqueue; [vd]: the value of
    the running dequeue. *)
Record lf_inv (acc got : list Z) (cur : Z) (q : lfq) (pe pd : lpc) (addrs vals vd : list Z) : Prop := LfInv {
  li_chain : lchain (lf_mem q) (lf_head q) addrs vals;
  li_nodup : NoDup (lf_head q :: addrs);
  li_mem : forall a, is_Some (lf_mem q !! a) -> 0 < a < lf_brk q;
  li_own : forall nd, own_node pe = Some nd ->
             lf_mem q !! nd = Some (LfNode cur NULL) /\ (nd ∉ (lf_head q :: addrs)) /\ old_node pd <> Some nd;
  li_old : forall n, old_node pd = Some n -> n ∉ (lf_head q :: addrs);
  li_enq : enq_ok q pe (last_addr (lf_head q) addrs);
  li_deq : deq_ok q pd addrs vd;
  li_size : Z.of_nat (length vals) = lf_size q + pend_e pe - pend_d pd;
  li_bound : lf_size q + reserved pe <= lf_m_size q;
  li_hist : acc ++ sending pe cur = got ++ vd ++ vals
}.

(** Steps of its own that a call still needs, when nobody is at its end. *)
Definition steps_left (p : lpc) : nat :=
  match p with
  | Out _ => 0
  | ETail _ => 5 | ESize _ _ => 4 | ELink _ _ => 3 | ESwing _ _ => 2 | EAdd => 1
  | EHelp _ _ | EHelpCas _ _ _ => 7
  | DHead => 8 | DTest _ => 7 | DNext _ => 6 | DCas _ _ => 5 | DFirst _ => 4 | DVal _ _ => 3
  | DFree _ _ => 2 | DSub _ => 1
  end.

(** ** Lemmas on chains *)

Lemma lchain_mem m a addrs vals b :
  lchain m a addrs vals -> b ∈ (a :: addrs) -> is_Some (m !! b).
Proof.
  revert a vals. induction addrs as [|c addrs IH]; intros a [|v vals]; simpl; try done.
  - intros [x Hx] ->%list_elem_of_singleton. by eexists.
  - intros ([x Hx] & _ & _ & Hc) [->|Hb]%elem_of_cons; [by eexists|]. by eapply IH.
Qed.

Lemma lchain_ext m m' a addrs vals :
  (forall b, b ∈ (a :: addrs) -> m' !! b = m !! b) -> lchain m a addrs vals -> lchain m' a addrs vals.
Proof.
  revert a vals. induction addrs as [|c addrs IH]; intros a [|v vals] Heq; simpl; try done.
  - rewrite Heq by apply list_elem_of_here. done.
  - rewrite Heq by apply list_elem_of_here. rewrite (Heq c) by (apply list_elem_of_further, list_elem_of_here).
    intros (Ha & Hc & Hv & Hr). split_and!; try done. apply IH; [|done].
    intros b Hb. apply Heq. by apply list_elem_of_further.
Qed.

Lemma last_addr_cons a b addrs : last_addr a (b :: addrs) = last_addr b addrs.
Proof. unfold last_addr. rewrite last_cons. by destruct (last addrs). Qed.

Lemma last_addr_snoc a b addrs : last_addr a (addrs ++ [b]) = b.
Proof. unfold last_addr. by rewrite last_snoc. Qed.

Lemma last_addr_elem a addrs : last_addr a addrs ∈ (a :: addrs).
Proof.
  unfold last_addr. destruct (last addrs) as [b|] eqn:E; simpl; [|apply list_elem_of_here].
  apply list_elem_of_further. apply last_Some in E as [l ->]. set_solver.
Qed.

Lemma lchain_last m a addrs vals :
  lchain m a addrs vals -> exists x, m !! last_addr a addrs = Some (LfNode x NULL).
Proof.
  revert a vals. induction addrs as [|c addrs IH]; intros a [|v vals]; simpl; try done.
  intros (_ & _ & _ & Hr). rewrite last_addr_cons. by eapply IH.
Qed.

(** Linking a node behind the last one. *)
Lemma lchain_snoc m a addrs vals nd cur x :
  lchain m a addrs vals -> NoDup (a :: addrs) -> nd ∉ (a :: addrs) -> nd <> NULL ->
  m !! nd = Some (LfNode cur NULL) -> m !! last_addr a addrs = Some x ->
  lchain (<[last_addr a addrs := LfNode (lf_n x) nd]> m) a (addrs ++ [nd]) (vals ++ [cur]).
Proof.
  revert a vals. induction addrs as [|c addrs IH]; intros a [|v vals] Hc Hnd Hn H0 Hm Hx; try done.
  - assert (nd <> a) by set_solver. unfold last_addr in *. simpl in *. split_and!; try done.
    + eexists. apply lookup_insert_eq.
    + exists (LfNode cur NULL). by rewrite lookup_insert_ne.
    + exists cur. by rewrite lookup_insert_ne.
  - destruct Hc as ([y Hy] & Hcn & (z & Hz & Hv) & Hc). rewrite last_addr_cons in *.
    apply NoDup_cons in Hnd as [Ha Hnd].
    assert (last_addr c addrs <> a) as Hla by (intros <-; apply Ha, last_addr_elem).
    cbn [app lchain]. split_and!; try done.
    + exists y. by rewrite lookup_insert_ne.
    + destruct (decide (last_addr c addrs = c)) as [E|E].
      * rewrite E in *. exists (LfNode (lf_n x) nd). rewrite lookup_insert_eq. split; [done|]. simpl. congruence.
      * exists z. by rewrite lookup_insert_ne.
    + apply IH; try done. set_solver.
Qed.

(** ** Every step keeps the invariant *)

(** A memory that changes only at nodes the consumer does not look at. *)
Lemma deq_ok_mem q m p addrs vd :
  deq_ok q p addrs vd ->
  (forall b, b = lf_head q \/ old_node p = Some b -> option_map lf_n (m !! b) = option_map lf_n (lf_mem q !! b)) ->
  (forall b, old_node p = Some b -> m !! b = lf_mem q !! b) ->
  deq_ok (with_mem m q) p addrs vd.
Proof.
  intros Hd Hv Ho. destruct p as [| | | | | | | | | | | |n|n nn|n v|]; simpl in *; try done.
  - destruct Hd as (x & y & Hn & Hh & ->). rewrite (Ho n) by done.
    pose proof (Hv (lf_head q) (or_introl eq_refl)) as E. rewrite Hh in E. simpl in E.
    destruct (m !! lf_head q) as [z|]; [|done]. simpl in E. injection E as E.
    exists x, z. by rewrite E.
  - destruct Hd as (-> & Hn & y & Hh & ->). rewrite (Ho n) by done.
    pose proof (Hv (lf_head q) (or_introl eq_refl)) as E. rewrite Hh in E. simpl in E.
    destruct (m !! lf_head q) as [z|]; [|done]. simpl in E. injection E as E.
    split_and!; [done | done|]. exists z. by rewrite E.
  - by rewrite (Ho n).
Qed.

Lemma lchain_head m a addrs vals : lchain m a addrs vals -> is_Some (m !! a).
Proof. intros H. eapply lchain_mem; [done | apply list_elem_of_here]. Qed.

(** A producer that is out begins a call. *)
Lemma call_enqueue_inv acc got cur q r pd addrs vals vd v :
  lf_inv acc got cur q (Out r) pd addrs vals vd ->
  let '(p, q') := start_enqueue v q in lf_inv acc got v q' p pd addrs vals vd.
Proof.
  intros [Hc Hnd Hm Hown Hold He Hd Hs Hb Hh]. simpl in *.
  assert (lf_mem q !! lf_brk q = None) as Hbrk.
  { destruct (lf_mem q !! lf_brk q) eqn:E; [|done].
    assert (0 < lf_brk q < lf_brk q) by (apply Hm; by eexists). lia. }
  assert (forall b, is_Some (lf_mem q !! b) -> <[lf_brk q := LfNode v NULL]> (lf_mem q) !! b = lf_mem q !! b) as Hsame.
  { intros b Hb'. apply lookup_insert_ne. intros <-. rewrite Hbrk in Hb'. by destruct Hb'. }
  assert (forall b, b ∈ (lf_head q :: addrs) -> is_Some (lf_mem q !! b)) as Hin by (intros b; by eapply lchain_mem).
  assert (forall n, old_node pd = Some n -> is_Some (lf_mem q !! n)) as Hon.
  { intros n. destruct pd; simpl in *; try done; intros [= ->];
      [by destruct Hd as (? & ? & -> & _) | by destruct Hd as (_ & ? & _) | by destruct Hd]. }
  split; simpl; try done.
  - eapply lchain_ext; [|exact Hc]. intros b Hb'. auto.
  - intros a Ha. destruct (decide (a = lf_brk q)) as [->|Hne].
    + destruct (lchain_head _ _ _ _ Hc) as [x Hx]. assert (0 < lf_head q < lf_brk q) by (apply Hm; by eexists). lia.
    + rewrite lookup_insert_ne in Ha by done. apply Hm in Ha. lia.
  - intros nd [= <-]. split_and!; [apply lookup_insert_eq | |].
    + intros Hb'. apply Hin in Hb'. rewrite Hbrk in Hb'. by destruct Hb'.
    + intros Hb'. apply Hon in Hb'. rewrite Hbrk in Hb'. by destruct Hb'.
  - apply (deq_ok_mem q _ pd addrs vd Hd).
    + intros b [->|Hb']; rewrite Hsame; auto. apply Hin, list_elem_of_here.
    + intros b Hb'. rewrite Hsame; auto.
Qed.

Lemma call_dequeue_inv acc got cur q pe r addrs vals vd :
  lf_inv acc got cur q pe (Out r) addrs vals vd -> lf_inv acc got cur q pe DHead addrs vals vd.
Proof.
  intros [Hc Hnd Hm Hown Hold He Hd Hs Hb Hh]. by split.
Qed.

(** What a step adds to the accepted values and to the received ones. *)
Definition accepts (p : lpc) (cur : Z) : list Z := match p with EAdd => [cur] | _ => [] end.
Definition receives (p : lpc) : list Z := match p with DSub v => [v] | _ => [] end.

(** The producer frees its node when the queue is full, and links it otherwise. *)
Lemma enq_full_inv acc got cur q nd n pd addrs vals vd :
  lf_inv acc got cur q (ESize nd n) pd addrs vals vd ->
  lf_inv acc got cur (with_mem (delete nd (lf_mem q)) q) (Out 0) pd addrs vals vd.
Proof.
  intros [Hc Hnd Hm Hown Hold He Hd Hs Hb Hh]. simpl in *.
  destruct (Hown nd eq_refl) as (Hmem & Hn & Ho). destruct He as [-> He].
  assert (forall b, b <> nd -> delete nd (lf_mem q) !! b = lf_mem q !! b) as Hsame
    by (intros b Hne; by apply lookup_delete_ne).
  split; simpl; try done.
  - eapply lchain_ext; [|exact Hc]. intros b Hb'. apply Hsame. by intros ->.
  - intros a Ha. apply Hm. destruct (decide (a = nd)) as [->|]; [by eexists | by rewrite <- Hsame].
  - apply (deq_ok_mem q _ pd addrs vd Hd).
    + intros b [->|Hb']; rewrite Hsame; [done | | done | by intros ->].
      intros Heq. apply Hn. rewrite Heq. apply list_elem_of_here.
    + intros b Hb'. apply Hsame. by intros ->.
Qed.

Lemma enq_link_inv acc got cur q nd n pd addrs vals vd x :
  lf_inv acc got cur q (ELink nd n) pd addrs vals vd -> lf_mem q !! n = Some x ->
  lf_inv acc got cur (with_mem (<[n := LfNode (lf_n x) nd]> (lf_mem q)) q) (ESwing nd n) pd
    (addrs ++ [nd]) (vals ++ [cur]) vd.
Proof.
  intros [Hc Hnd Hm Hown Hold He Hd Hs Hb Hh] Hx. simpl in *.
  destruct (Hown nd eq_refl) as (Hmem & Hn & Ho). destruct He as [-> He].
  pose proof (last_addr_elem (lf_head q) addrs) as Hlast.
  assert (forall b, b <> last_addr (lf_head q) addrs ->
            <[last_addr (lf_head q) addrs := LfNode (lf_n x) nd]> (lf_mem q) !! b = lf_mem q !! b) as Hsame
    by (intros b Hne; by apply lookup_insert_ne).
  split; simpl; try done.
  - eapply lchain_snoc; try done. assert (0 < nd < lf_brk q) by (apply Hm; by eexists). unfold NULL; lia.
  - rewrite app_comm_cons. apply NoDup_app. split_and!; [done | | apply NoDup_singleton].
    intros b Hb' ->%list_elem_of_singleton. done.
  - intros a Ha. apply Hm. destruct (decide (a = last_addr (lf_head q) addrs)) as [->|];
      [by eexists | by rewrite <- Hsame].
  - intros a Ha. specialize (Hold a Ha). rewrite app_comm_cons. rewrite not_elem_of_app.
    split; [done|]. intros ->%list_elem_of_singleton. done.
  - by rewrite last_addr_snoc.
  - replace (deq_ok _ pd (addrs ++ [nd]) vd)
      with (deq_ok (with_mem (<[last_addr (lf_head q) addrs := LfNode (lf_n x) nd]> (lf_mem q)) q) pd (addrs ++ [nd]) vd)
      by done.
    apply (deq_ok_mem q _ pd (addrs ++ [nd]) vd).
    + destruct pd; try done; simpl in *; by destruct addrs; destruct Hd as (? & ? & ?).
    + intros b _. destruct (decide (b = last_addr (lf_head q) addrs)) as [->|]; [|by rewrite Hsame].
      by rewrite lookup_insert_eq, Hx.
    + intros b Hb'. apply Hsame. intros ->. by apply (Hold _ Hb').
  - rewrite length_app. simpl. lia.
  - rewrite app_nil_r in Hh. rewrite Hh, <- !app_assoc. done.
Qed.

Lemma enq_step acc got cur q pe pd addrs vals vd :
  lf_inv acc got cur q pe pd addrs vals vd -> is_out pe = false ->
  exists pe' q' addrs' vals', run_pc pe q = Next (pe', q') /\
    lf_inv (acc ++ accepts pe cur) got cur q' pe' pd addrs' vals' vd /\
    (steps_left pe' < steps_left pe)%nat.
Proof.
  intros Hinv Hout. pose proof Hinv as [Hc Hnd Hm Hown Hold He Hd Hs Hb Hh].
  destruct pe as [|nd|nd n|nd n| | |nd n| | | | | | | | |]; simpl in *; try done.
  - eexists _, _, addrs, vals. split; [done|]. rewrite app_nil_r. split; [|simpl; lia].
    by split; simpl; try done; rewrite ?app_nil_r in *.
  - destruct (lf_size q =? lf_m_size q) eqn:E; rewrite app_nil_r.
    + eexists _, _, addrs, vals. split; [done|]. split; [|simpl; lia]. by eapply enq_full_inv.
    + eexists _, _, addrs, vals. split; [done|]. split; [|simpl; lia]. apply Z.eqb_neq in E.
      split; simpl; try done. lia.
  - destruct He as [-> He]. destruct (lchain_last _ _ _ _ Hc) as [v Hv]. unfold lf_at. rewrite Hv. simpl.
    rewrite app_nil_r. eexists _, _, (addrs ++ [nd]), (vals ++ [cur]). split; [done|]. split; [|simpl; lia].
    by apply (enq_link_inv _ _ _ _ _ _ _ _ _ _ (LfNode v NULL)).
  - destruct He as [He ->]. rewrite (proj2 (Z.eqb_eq _ _) He), app_nil_r.
    eexists _, _, addrs, vals. split; [done|]. split; [|simpl; lia].
    by split; simpl; try done; destruct pd.
  - eexists _, _, addrs, vals. split; [done|]. split; [|simpl; lia].
    split; simpl; try done; try lia. by rewrite app_nil_r.
Qed.

(** The consumer takes the first node: it becomes the dummy node. *)
Lemma deq_take_inv acc got cur q pe n addrs vals vd nn :
  lf_inv acc got cur q pe (DCas n nn) addrs vals vd ->
  exists addrs' v vals', vals = v :: vals' /\
    lf_inv acc got cur (with_head nn q) pe (DFirst n) addrs' vals' [v].
Proof.
  intros [Hc Hnd Hm Hown Hold He Hd Hs Hb Hh]. simpl in *. destruct Hd as (-> & Hhd & ->).
  destruct addrs as [|b addrs]; [done|]. injection Hhd as ->. destruct vals as [|v vals]; [done|].
  destruct Hc as ([x Hx] & Hnn & (y & Hy & Hv) & Hc). apply NoDup_cons in Hnd as [Hh0 Hnd].
  exists addrs, v, vals. split; [done|].
  assert (enq_ok q pe (last_addr nn addrs)) as He' by (rewrite <- (last_addr_cons (lf_head q)); exact He).
  split; simpl; try done.
  - intros nd Hnd'. destruct (Hown nd Hnd') as (? & Hn & _). apply not_elem_of_cons in Hn as [Hne Hn].
    split_and!; [done | done|]. intros [= E]. congruence.
  - by intros n' [= <-].
  - exists x, y. by rewrite Hv.
  - simpl in Hs. lia.
Qed.

Lemma deq_free_inv acc got cur q pe n v addrs vals vd :
  lf_inv acc got cur q pe (DFree n v) addrs vals vd ->
  lf_inv acc got cur (with_mem (delete n (lf_mem q)) q) pe (DSub v) addrs vals vd.
Proof.
  intros [Hc Hnd Hm Hown Hold He Hd Hs Hb Hh]. simpl in *. destruct Hd as [-> Hn].
  assert (forall b, b <> n -> delete n (lf_mem q) !! b = lf_mem q !! b) as Hsame
    by (intros b Hne; by apply lookup_delete_ne).
  split; simpl; try done.
  - eapply lchain_ext; [|exact Hc]. intros b Hb'. apply Hsame. intros ->. by apply (Hold n).
  - intros a Ha. apply Hm. destruct (decide (a = n)) as [->|]; [done | by rewrite <- Hsame].
  - intros nd Hnd'. destruct (Hown nd Hnd') as (? & ? & Hne). split_and!; [|done|done].
    rewrite Hsame; [done|]. by intros ->.
Qed.

Lemma deq_step acc got cur q pe pd addrs vals vd :
  lf_inv acc got cur q pe pd addrs vals vd -> is_out pd = false ->
  exists pd' q' addrs' vals' vd', run_pc pd q = Next (pd', q') /\
    lf_inv acc (got ++ receives pd) cur q' pe pd' addrs' vals' vd' /\
    (steps_left pd' < steps_left pd)%nat /\
    (pd' = Out NULL -> pd = DSub NULL \/ vals = []).
Proof.
  intros Hinv Hout. pose proof Hinv as [Hc Hnd Hm Hown Hold He Hd Hs Hb Hh].
  destruct (lchain_head _ _ _ _ Hc) as [x Hx].
  destruct pd as [| | | | | | | | |n|n|n nn|n|n nn|n v|v]; simpl in *; try done; rewrite ?app_nil_r.
  - eexists _, _, addrs, vals, vd. split; [done|]. split_and!; [by split | simpl; lia | done].
  - destruct Hd as [-> ->]. unfold lf_at. rewrite Hx. destruct (lf_next x =? NULL) eqn:E.
    + eexists _, _, addrs, vals, []. split; [done|]. split_and!; [by split | simpl; lia|].
      intros _. right. apply Z.eqb_eq in E.
      destruct addrs, vals; try done. destruct Hc as ([y Hy] & Hnn & _). rewrite Hx in Hy. by injection Hy as ->.
    + eexists _, _, addrs, vals, []. split; [done|]. split_and!; [split; simpl; try done | simpl; lia | done].
      split_and!; [done| |done]. intros ->. destruct vals; [|done]. destruct Hc as [y Hy].
      rewrite Hx in Hy. by injection Hy as ->.
  - destruct Hd as (-> & Ha & ->). unfold lf_at. rewrite Hx.
    eexists _, _, addrs, vals, []. split; [done|]. split_and!; [split; simpl; try done | simpl; lia | done].
    destruct addrs, vals; try done. destruct Hc as ([y Hy] & _). rewrite Hx in Hy. by injection Hy as ->.
  - destruct (deq_take_inv _ _ _ _ _ _ _ _ _ _ Hinv) as (addrs' & v & vals' & -> & Hinv').
    destruct Hd as (-> & _ & ->). rewrite Z.eqb_refl.
    eexists _, _, addrs', vals', [v]. split; [done|]. split_and!; [done | simpl; lia | done].
  - destruct Hd as (y & z & Hn & Hz & ->). unfold lf_at. rewrite Hn. simpl.
    eexists _, _, addrs, vals, [lf_n z]. split; [done|]. split_and!; [split; simpl; try done | simpl; lia | done].
    split_and!; [done | by eexists|]. by exists z.
  - destruct Hd as (-> & Hn & y & Hy & ->). unfold lf_at. rewrite Hy.
    eexists _, _, addrs, vals, [lf_n y]. split; [done|]. split_and!; [by split | simpl; lia | done].
  - pose proof (deq_free_inv _ _ _ _ _ _ _ _ _ _ Hinv) as Hinv'. destruct Hd as [-> [y Hy]].
    unfold lf_at. rewrite Hy. eexists _, _, addrs, vals, [v]. split; [done|].
    split_and!; [done | simpl; lia | done].
  - subst vd. eexists _, _, addrs, vals, []. split; [done|].
    split_and!; [split; simpl; try done; try lia | simpl; lia | intros [= ->]; by left].
    by rewrite <- app_assoc.
Qed.

(** ** One producer and one consumer

    Thread 0 only enqueues and thread 1 only dequeues; their steps interleave in
    any order. With the values accepted so far, the values received so far and
    the value of the last call of [lfq_enqueue]. *)

Inductive spsc (m : Z) : lstate -> list Z -> list Z -> Z -> Prop :=
| spsc_init : spsc m (linit 2 m) [] [] NULL
| spsc_enqueue s acc got cur v s' :
    spsc m s acc got cur -> lexec (CallEnqueue 0 v) s = Some (Next s') -> spsc m s' acc got v
| spsc_dequeue s acc got cur s' :
    spsc m s acc got cur -> lexec (CallDequeue 1) s = Some (Next s') -> spsc m s' acc got cur
| spsc_step t p s acc got cur s' :
    spsc m s acc got cur -> lpcs s !! t = Some p -> lexec (Step t) s = Some (Next s') ->
    spsc m s' (acc ++ accepts p cur) (got ++ receives p) cur.

Definition spsc_inv (m : Z) (s : lstate) (acc got : list Z) (cur : Z) : Prop :=
  exists pe pd addrs vals vd, lpcs s = [pe; pd] /\ lf_m_size (lq s) = m /\
    lf_inv acc got cur (lq s) pe pd addrs vals vd.

Lemma run_pc_m_size p q p' q' : run_pc p q = Next (p', q') -> lf_m_size q' = lf_m_size q.
Proof.
  destruct p; simpl; unfold lf_at; intros H; repeat case_match; by simplify_eq/=.
Qed.

Lemma lfq_init_inv m r r' : 0 <= m -> lf_inv [] [] NULL (lfq_init m) (Out r) (Out r') [] [] [].
Proof.
  intros Hm. split; simpl; try done.
  - exists NULL. apply lookup_singleton_eq.
  - apply NoDup_singleton.
  - intros a Ha. destruct (decide (a = 1)) as [->|]; [lia|]. rewrite lookup_singleton_ne in Ha by done.
    by destruct Ha.
Qed.

(** The producer's and the consumer's own pieces of an interleaving. *)
Lemma enq_out_no_effect pe cur : is_out pe = true -> accepts pe cur = [] /\ receives pe = [].
Proof. by destruct pe. Qed.

Lemma enq_receives_nothing acc got cur q pe pd addrs vals vd :
  lf_inv acc got cur q pe pd addrs vals vd -> receives pe = [] /\ accepts pd cur = [].
Proof. intros [_ _ _ _ _ He Hd _ _ _]. split; [by destruct pe | by destruct pd]. Qed.

Lemma run_pc_out p q : is_out p = true -> run_pc p q = Next (p, q).
Proof. by destruct p. Qed.

Lemma spsc_inv_step m s acc got cur t p :
  spsc_inv m s acc got cur -> lpcs s !! t = Some p ->
  exists s' p', lexec (Step t) s = Some (Next s') /\
    spsc_inv m s' (acc ++ accepts p cur) (got ++ receives p) cur /\
    lpcs s' !! t = Some p' /\ (is_out p = false -> (steps_left p' < steps_left p)%nat).
Proof.
  intros (pe & pd & addrs & vals & vd & Hpcs & Hm & Hinv) Hp. unfold lexec. rewrite Hp.
  destruct (enq_receives_nothing _ _ _ _ _ _ _ _ _ Hinv) as [Hre Had]. rewrite Hpcs in *.
  destruct (is_out p) eqn:Hout.
  { rewrite run_pc_out by done. destruct (enq_out_no_effect p cur Hout) as [-> ->]. rewrite !app_nil_r.
    exists (LState (lq s) [pe; pd]), p. rewrite list_insert_id by done. split; [done|].
    split; [|done]. by exists pe, pd, addrs, vals, vd. }
  destruct t as [|[|t]]; [| |done]; injection Hp as <-.
  - destruct (enq_step _ _ _ _ _ _ _ _ _ Hinv Hout) as (pe' & q' & addrs' & vals' & Hr & Hi & Hl).
    rewrite Hr, Hre, app_nil_r. eexists _, pe'. split; [done|]. split; [|done].
    exists pe', pd, addrs', vals', vd. split_and!; [done | | done]. simpl. by rewrite (run_pc_m_size _ _ _ _ Hr).
  - destruct (deq_step _ _ _ _ _ _ _ _ _ Hinv Hout) as (pd' & q' & addrs' & vals' & vd' & Hr & Hi & Hl & _).
    rewrite Hr, Had, app_nil_r. eexists _, pd'. split; [done|]. split; [|done].
    exists pe, pd', addrs', vals', vd'. split_and!; [done | | done]. simpl. by rewrite (run_pc_m_size _ _ _ _ Hr).
Qed.

Lemma spsc_invariant m s acc got cur : 0 <= m -> spsc m s acc got cur -> spsc_inv m s acc got cur.
Proof.
  intros Hm. induction 1 as [|s acc got cur v s' _ IH He|s acc got cur s' _ IH He|t p s acc got cur s' _ IH Hp He].
  - exists (Out 0), (Out 0), [], [], []. split_and!; [done | done | by apply lfq_init_inv].
  - destruct IH as (pe & pd & addrs & vals & vd & Hpcs & Hs & Hinv). simpl in He. rewrite Hpcs in He. simpl in He.
    destruct pe as [r| | | | | | | | | | | | | | |]; try done. injection He as <-.
    pose proof (call_enqueue_inv _ _ _ _ _ _ _ _ _ v Hinv) as Hi. simpl in Hi.
    by eexists _, pd, addrs, vals, vd.
  - destruct IH as (pe & pd & addrs & vals & vd & Hpcs & Hs & Hinv). simpl in He. rewrite Hpcs in He. simpl in He.
    destruct pd as [r| | | | | | | | | | | | | | |]; try done. injection He as <-.
    exists pe, DHead, addrs, vals, vd. split_and!; [done | done|]. by eapply call_dequeue_inv.
  - destruct (spsc_inv_step _ _ _ _ _ _ _ IH Hp) as (s1 & p1 & He1 & Hi & _).
    rewrite He1 in He. by injection He as <-.
Qed.

(** C15: with one producer and one consumer the queue is memory safe, ordered and
    bounded, for every interleaving of their steps: no step touches a freed
    node, what the consumer has received is a prefix of what the producer has
    sent, in order, and the values in between, which include the one that is
    just being sent or received, are at most [m_size]. *)
Theorem lfq_spsc_safe (m : Z) (s : lstate) (acc got : list Z) (cur : Z) :
  0 <= m -> spsc m s acc got cur ->
  (forall t, lexec (Step t) s <> Some Fault) /\
  exists rest, Z.of_nat (length rest) <= m /\ (acc = got ++ rest \/ acc ++ [cur] = got ++ rest).
Proof.
  intros Hm Hs. pose proof (spsc_invariant _ _ _ _ _ Hm Hs) as Hinv. split.
  - intros t Hf. assert (exists p, lpcs s !! t = Some p) as [p Hp].
    { simpl in Hf. destruct (lpcs s !! t) as [p|]; [by exists p | done]. }
    destruct (spsc_inv_step _ _ _ _ _ _ _ Hinv Hp) as (s' & p' & He & _). by rewrite He in Hf.
  - destruct Hinv as (pe & pd & addrs & vals & vd & _ & <- & [_ _ _ _ _ He Hd Hsz Hb Hh]).
    exists (vd ++ vals). split.
    + rewrite length_app, Nat2Z.inj_add, Hsz.
      assert (Z.of_nat (length vd) = pend_d pd) by (destruct pd; simpl in *; naive_solver).
      destruct pe; simpl in *; try done; lia.
    + destruct pe; simpl in Hh; rewrite ?app_nil_r in Hh; auto.
Qed.

(** C29: with one producer and one consumer no call retries: every step of a call
    brings it closer to its end, whatever the other thread does, so an enqueue
    takes at most five steps of its own and a dequeue at most eight. *)
Theorem lfq_spsc_wait_free (m : Z) (s : lstate) (acc got : list Z) (cur : Z) (t : nat) (p : lpc) :
  0 <= m -> spsc m s acc got cur -> lpcs s !! t = Some p -> is_out p = false ->
  (steps_left p <= 8)%nat /\
  exists s' p', lexec (Step t) s = Some (Next s') /\ lpcs s' !! t = Some p' /\
    (steps_left p' < steps_left p)%nat.
Proof.
  intros Hm Hs Hp Hout. split; [destruct p; simpl; lia|].
  destruct (spsc_inv_step _ _ _ _ _ _ _ (spsc_invariant _ _ _ _ _ Hm Hs) Hp) as (s' & p' & He & _ & Hp' & Hl).
  exists s', p'. auto.
Qed.

(** ** Sequential use *)

Lemma complete_enqueue fuel acc got cur q pe r0 addrs vals :
  lf_inv acc got cur q pe (Out r0) addrs vals [] -> (steps_left pe <= fuel)%nat -> is_out pe = false ->
  exists r q' acc' addrs' vals', complete fuel pe q = Some (Next (r, q')) /\
    lf_inv acc' got cur q' (Out r) (Out r0) addrs' vals' [] /\ lf_m_size q' = lf_m_size q /\
    ((r = 1 /\ acc' = acc ++ [cur]) \/ (r = 0 /\ acc' = acc /\ Z.of_nat (length vals') = lf_m_size q)).
Proof.
  revert q pe acc addrs vals. induction fuel as [|n IH]; intros q pe acc addrs vals Hinv Hf Hout.
  { by destruct pe; simpl in *; try lia; destruct Hinv. }
  destruct (enq_step _ _ _ _ _ _ _ _ _ Hinv Hout) as (pe' & q' & addrs' & vals' & Hr & Hi & Hl).
  assert (complete (S n) pe q = complete n pe' q') as -> by (cbn [complete]; rewrite Hr; by destruct pe).
  rewrite <- (run_pc_m_size _ _ _ _ Hr). destruct (is_out pe') eqn:E.
  - destruct pe' as [r| | | | | | | | | | | | | | |]; try done.
    exists r, q', (acc ++ accepts pe cur), addrs', vals'. split; [by destruct n|]. split_and!; [done | done|].
    destruct Hi as [_ _ _ _ _ _ _ Hs _ _]. simpl in Hs.
    destruct pe; simpl in Hr; unfold lf_at in Hr; repeat case_match; simplify_eq/=;
      try (by destruct Hinv); [|by left].
    right. rewrite app_nil_r. split_and!; try done. lia.
  - destruct (IH q' pe' _ _ _ Hi ltac:(lia) E) as (r & q'' & acc' & a2 & v2 & Hc & Hi2 & Hm & Ha).
    assert (accepts pe cur = []) as Hacc by (destruct pe; try done; simpl in Hr; by simplify_eq/=).
    rewrite Hacc, app_nil_r in *. by exists r, q'', acc', a2, v2.
Qed.

Lemma complete_dequeue fuel acc got cur q pd r0 addrs vals vd :
  lf_inv acc got cur q (Out r0) pd addrs vals vd -> (steps_left pd <= fuel)%nat -> is_out pd = false ->
  exists r q' got' addrs' vals', complete fuel pd q = Some (Next (r, q')) /\
    lf_inv acc got' cur q' (Out r0) (Out r) addrs' vals' [] /\ lf_m_size q' = lf_m_size q /\
    (got' = got ++ [r] \/ (r = NULL /\ vals' = [] /\ got' = got)).
Proof.
  revert q pd got addrs vals vd. induction fuel as [|n IH]; intros q pd got addrs vals vd Hinv Hf Hout.
  { by destruct pd; simpl in *; try lia; destruct Hinv. }
  destruct (deq_step _ _ _ _ _ _ _ _ _ Hinv Hout) as (pd' & q' & addrs' & vals' & vd' & Hr & Hi & Hl & He).
  assert (complete (S n) pd q = complete n pd' q') as -> by (cbn [complete]; rewrite Hr; by destruct pd).
  rewrite <- (run_pc_m_size _ _ _ _ Hr). destruct (is_out pd') eqn:E.
  - destruct pd' as [r| | | | | | | | | | | | | | |]; try done.
    assert (vd' = []) as -> by (by destruct Hi).
    exists r, q', (got ++ receives pd), addrs', vals'. split; [by destruct n|]. split_and!; [done | done|].
    destruct pd; simpl in Hr; unfold lf_at in Hr; repeat case_match; simplify_eq/=;
      try (by destruct Hinv); [|by left].
    right. rewrite app_nil_r. split_and!; try done.
    destruct (He eq_refl) as [? | ->]; [done|].
    destruct Hi as [_ _ _ _ _ _ _ _ _ Hh]. destruct Hinv as [_ _ _ _ _ _ [_ ->] _ _ Hh']. simpl in Hh, Hh'.
    rewrite Hh' in Hh. rewrite !app_nil_r in Hh. 
    apply (f_equal length) in Hh. rewrite length_app in Hh. destruct vals'; [done | simpl in Hh; lia].
  - destruct (IH q' pd' _ _ _ _ Hi ltac:(lia) E) as (r & q'' & got' & a2 & v2 & Hc & Hi2 & Hm & Ha).
    assert (receives pd = []) as Hacc by (destruct pd; try done; simpl in Hr; by simplify_eq/=).
    rewrite Hacc, app_nil_r in *. by exists r, q'', got', a2, v2.
Qed.

(** A queue at rest that holds [l]. *)
Definition lf_rep (q : lfq) (l : list Z) : Prop :=
  exists acc got cur addrs r r', lf_inv acc got cur q (Out r) (Out r') addrs l [].

Lemma lf_rep_init m : 0 <= m -> lf_rep (lfq_init m) [].
Proof. intros Hm. exists [], [], NULL, [], 0, 0. by apply lfq_init_inv. Qed.

Lemma lfq_enqueue_ok q l v :
  lf_rep q l ->
  exists q', lfq_enqueue v q = Some (Next (Z.b2z (fst (Fifo.enqueue v (Fifo.Mk l (lf_m_size q)))), q')) /\
    lf_rep q' (Fifo.items (snd (Fifo.enqueue v (Fifo.Mk l (lf_m_size q))))) /\ lf_m_size q' = lf_m_size q.
Proof.
  intros (acc & got & cur & addrs & r & r' & Hinv).
  pose proof (call_enqueue_inv _ _ _ _ _ _ _ _ _ v Hinv) as Hi. unfold lfq_enqueue.
  destruct (start_enqueue v q) as [p q1] eqn:Es. unfold start_enqueue in Es. injection Es as <- Eq.
  assert (lf_m_size q1 = lf_m_size q) as Hm1 by by subst q1.
  destruct (complete_enqueue 8 _ _ _ _ _ _ _ _ Hi) as (a & q' & acc' & addrs' & l' & Hc & Hi' & Hm & Ha);
    [simpl; lia | done|].
  exists q'. rewrite Hc. destruct Hinv as [_ _ _ _ _ _ _ Hs Hb Hh]. rewrite Hm1 in *. clear Hi Hc.
  pose proof Hi' as [_ _ _ _ _ _ _ Hs' Hb' Hh']. simpl in *. rewrite app_nil_r in *.
  unfold Fifo.enqueue, Fifo.full. cbn [Fifo.items Fifo.cap].
  destruct Ha as [(-> & ->) | (-> & -> & Hl)].
  - assert (l' = l ++ [v]) as -> by (apply (app_inv_head got); by rewrite <- Hh', Hh, <- app_assoc).
    rewrite length_app in Hs'. simpl in Hs'. rewrite (proj2 (Z.eqb_neq _ _)) by lia.
    split; [done|]. split; [|done]. by exists (acc ++ [v]), got, v, addrs', 1, r'.
  - assert (l' = l) as -> by (apply (app_inv_head got); by rewrite <- Hh', Hh).
    rewrite (proj2 (Z.eqb_eq _ _)) by done. split; [done|]. split; [|done]. by exists acc, got, v, addrs', 0, r'.
Qed.

Lemma lfq_dequeue_ok q l :
  lf_rep q l ->
  exists q', lfq_dequeue q = Some (Next (fst (Fifo.dequeue (Fifo.Mk l (lf_m_size q))), q')) /\
    lf_rep q' (Fifo.items (snd (Fifo.dequeue (Fifo.Mk l (lf_m_size q))))) /\ lf_m_size q' = lf_m_size q.
Proof.
  intros (acc & got & cur & addrs & r & r' & Hinv).
  destruct (complete_dequeue 8 _ _ _ _ _ _ _ _ _ (call_dequeue_inv _ _ _ _ _ _ _ _ _ Hinv))
    as (a & q' & got' & addrs' & l' & Hc & Hi' & Hm & Ha); [simpl; lia | done|].
  exists q'. unfold lfq_dequeue. rewrite Hc. destruct Hinv as [_ _ _ _ _ _ _ _ _ Hh].
  pose proof Hi' as [_ _ _ _ _ _ _ _ _ Hh']. simpl in Hh, Hh'. rewrite app_nil_r in Hh, Hh'. unfold Fifo.dequeue. cbn [Fifo.items].
  assert (l = a :: l' /\ got' = got ++ [a] \/ a = NULL /\ l = [] /\ l' = []) as Hl.
  { destruct Ha as [-> | (-> & -> & ->)].
    - left. split; [|done]. apply (app_inv_head got). by rewrite <- Hh, Hh', <- app_assoc.
    - right. split_and!; try done. apply (app_inv_head got). by rewrite <- Hh. }
  destruct Hl as [[-> ->] | (-> & -> & ->)]; (split; [done|]; split; [|done]).
  - by exists acc, (got ++ [a]), cur, addrs', r, a.
  - by exists acc, got', cur, addrs', r, NULL.
Qed.

(** Sequences of operations, on the queue and on the list. *)
Inductive lop : Type := LEnqueue (v : Z) | LDequeue.

Fixpoint lfq_run (os : list lop) (q : lfq) : option (list Z) :=
  match os with
  | [] => Some []
  | o :: os' =>
      match (match o with LEnqueue v => lfq_enqueue v q | LDequeue => lfq_dequeue q end) with
      | Some (Next (a, q')) => l ← lfq_run os' q'; Some (a :: l)
      | _ => None
      end
  end.

Definition lop_qop (o : lop) : Linked.qop :=
  match o with LEnqueue v => Linked.QEnqueue v | LDequeue => Linked.QDequeue end.

Lemma lfq_run_sim os q l :
  lf_rep q l -> lfq_run os q = Some (Linked.fifo_run (lop_qop <$> os) (Fifo.Mk l (lf_m_size q))).
Proof.
  revert q l. induction os as [|o os IH]; intros q l Hr; [done|]. destruct o as [v|].
  - destruct (lfq_enqueue_ok q l v Hr) as (q' & He & Hr' & Hm). cbn [lfq_run]. rewrite He.
    rewrite (IH _ _ Hr'), Hm. simpl. unfold Fifo.enqueue. by destruct (Fifo.full _).
  - destruct (lfq_dequeue_ok q l Hr) as (q' & He & Hr' & Hm). cbn [lfq_run]. rewrite He.
    rewrite (IH _ _ Hr'), Hm. simpl. by destruct l.
Qed.

(** C27: used by one thread at a time the lock-free queue is the same bounded FIFO
    as the locked one of [queue.c]: the same sequence of operations gives the
    same answers on both. *)
Theorem lfq_equivalent_to_queue (os : list lop) (m : Z) :
  0 <= m -> lfq_run os (lfq_init m) = Linked.q_run (lop_qop <$> os) (Linked.q_init m).
Proof.
  intros Hm. rewrite (lfq_run_sim os _ [] (lf_rep_init m Hm)). symmetry.
  apply Linked.q_run_sim. by apply Linked.q_init_rep.
Qed.

Lemma lfq_free_S n q r q' :
  lfq_dequeue q = Some (Next (r, q')) ->
  lfq_free (S n) q = if r =? NULL then Some (Next (lf_mem q')) else lfq_free n q'.
Proof. intros H. unfold lfq_free at 1. by rewrite H. Qed.

(** [lfq_free] never frees the dummy node. *)
Lemma lfq_free_leaks q l :
  lf_rep q l -> NULL ∉ l ->
  exists m, lfq_free (S (length l)) q = Some (Next m) /\ m <> ∅.
Proof.
  revert q. induction l as [|x l IH]; intros q Hr Hn;
    destruct (lfq_dequeue_ok q _ Hr) as (q' & He & Hr' & _); rewrite (lfq_free_S _ _ _ _ He);
    cbn [fst snd Fifo.dequeue Fifo.items length] in *.
  - exists (lf_mem q'). split; [done|]. intros Hm.
    destruct Hr' as (acc & got & cur & addrs & r & r' & [Hc _ _ _ _ _ _ _ _ _]).
    destruct (lchain_head _ _ _ _ Hc) as [y Hy]. by rewrite Hm in Hy.
  - apply not_elem_of_cons in Hn as [Hx Hn]. rewrite (proj2 (Z.eqb_neq x NULL)) by done.
    by apply IH.
Qed.

(** ** Two threads at one end *)

Definition steps (t : nat) (n : nat) : list laction := replicate n (Step t).

(** Thread 0 has read the tail; thread 1 enqueues and dequeues, which frees that
    node; thread 0 goes on. *)
Definition stale_tail : list laction :=
  CallEnqueue 0 5 :: steps 0 1 ++ CallEnqueue 1 6 :: steps 1 5 ++ CallDequeue 1 :: steps 1 8 ++ steps 0 2.

(** Thread 0 has read the head; thread 1 dequeues and frees that node. *)
Definition stale_head : list laction :=
  CallEnqueue 0 5 :: steps 0 5 ++ CallDequeue 0 :: steps 0 1 ++ CallDequeue 1 :: steps 1 8 ++ steps 0 1.

(** Thread 1 tests the size between the link and the count of thread 0; then
    thread 0 goes on enqueueing. *)
Definition overfill : list laction :=
  CallEnqueue 0 5 :: steps 0 4 ++ CallEnqueue 1 6 :: steps 1 2 ++ steps 0 1 ++ steps 1 3 ++
  CallEnqueue 0 7 :: steps 0 5 ++ CallEnqueue 0 8 :: steps 0 5.

(** C36: the queue is not safe for two threads at the same end. Two producers, or
    two consumers, can reach an access to a freed node; and two producers can
    push the size past its limit, after which the test for equality no longer
    stops anybody: a queue of capacity 1 accepts four values. *)
Theorem lfq_shared_end_unsafe :
  lrun stale_tail (linit 2 4) = Some Fault /\
  lrun stale_head (linit 2 4) = Some Fault /\
  exists s, lrun overfill (linit 2 1) = Some (Next s) /\ lpcs s = [Out 1; Out 1] /\
    lf_size (lq s) = 4 /\ lf_m_size (lq s) = 1.
Proof.
  split_and!; [by vm_compute | by vm_compute|]. eexists. split; [by vm_compute|]. by vm_compute.
Qed.

(** ** Instances *)

(** Runs of one producer and one consumer, with their history. *)
Fixpoint spsc_exec (l : list laction) (s : lstate) (acc got : list Z) (cur : Z)
  : option (lstate * list Z * list Z * Z) :=
  match l with
  | [] => Some (s, acc, got, cur)
  | a :: l' =>
      match lexec a s with
      | Some (Next s') =>
          match a with
          | CallEnqueue O v => spsc_exec l' s' acc got v
          | CallDequeue (S O) => spsc_exec l' s' acc got cur
          | Step t =>
              match lpcs s !! t with
              | Some p => spsc_exec l' s' (acc ++ accepts p cur) (got ++ receives p) cur
              | None => None
              end
          | _ => None
          end
      | _ => None
      end
  end.

Lemma spsc_exec_spsc m l s acc got cur s' acc' got' cur' :
  spsc m s acc got cur -> spsc_exec l s acc got cur = Some (s', acc', got', cur') ->
  spsc m s' acc' got' cur'.
Proof.
  revert s acc got cur. induction l as [|a l IH]; intros s acc got cur Hs He; cbn [spsc_exec] in He.
  - by injection He as <- <- <- <-.
  - destruct (lexec a s) as [[s1|]|] eqn:E; try done. destruct a as [[|t] v|[|[|t]]|t]; try done.
    + eapply IH; [|exact He]. by eapply spsc_enqueue.
    + eapply IH; [|exact He]. by eapply spsc_dequeue.
    + destruct (lpcs s !! t) as [p|] eqn:Ep; [|done]. eapply IH; [|exact He]. by eapply spsc_step.
Qed.

(** A producer in the middle of its second call, a consumer in its first. *)
Definition spsc_trace : list laction :=
  CallEnqueue 0 5 :: steps 0 5 ++ CallEnqueue 0 6 :: steps 0 3 ++ CallDequeue 1 :: steps 1 6.

Definition spsc_state : lstate :=
  match spsc_exec spsc_trace (linit 2 1) [] [] NULL with
  | Some (s, _, _, _) => s
  | None => linit 2 1
  end.

Lemma lfq_spsc_safe_witness :
  (forall t, lexec (Step t) spsc_state <> Some Fault) /\
  exists rest, Z.of_nat (length rest) <= 1 /\ ([5] = [] ++ rest \/ [5] ++ [6] = [] ++ rest).
Proof.
  apply (lfq_spsc_safe 1 spsc_state [5] [] 6); [lia|].
  eapply (spsc_exec_spsc 1 spsc_trace); [apply spsc_init | by vm_compute].
Defined.

Lemma lfq_spsc_wait_free_witness :
  (steps_left (DFree 1 5) <= 8)%nat /\
  exists s' p', lexec (Step 1) spsc_state = Some (Next s') /\ lpcs s' !! 1%nat = Some p' /\
    (steps_left p' < steps_left (DFree 1 5))%nat.
Proof.
  apply (lfq_spsc_wait_free 1 spsc_state [5] [] 6 1 (DFree 1 5)); [lia | | by vm_compute | done].
  eapply (spsc_exec_spsc 1 spsc_trace); [apply spsc_init | by vm_compute].
Defined.

Lemma lfq_equivalent_to_queue_witness :
  0 <= 2 /\
  lfq_run [LEnqueue 5; LEnqueue 6; LEnqueue 7; LDequeue; LDequeue; LDequeue] (lfq_init 2) = Some [1; 1; 0; 5; 6; 0].
Proof. split; [lia|]. rewrite lfq_equivalent_to_queue by lia. reflexivity. Defined.
