(* ===== verification/Util.v ===== *)
(** * Sockets and the latency table ([src/util.c], [include/util.h])

    The two read loops over a non-blocking socket, which cut a byte stream that
    arrives in arbitrary pieces into messages, and the histogram of latencies
    that the client prints as a cumulative distribution. *)

From Stdlib Require Import ZArith Lia.
From stdpp Require Import prelude gmap.
From S2P Require Import Prelude Config.

#[local] Open Scope Z_scope.

(** ** Reading from a socket *)

(** What successive [read]s of a non-blocking socket meet: bytes that have
    arrived, nothing yet (the answer -1), the end of the stream (the answer 0).
    A [read] of fewer bytes than have arrived leaves the others. *)
Inductive sock_event : Type :=
| Bytes (b : list Z)
| Again
| Eof.

(** The answer of a read function, the bytes in the caller's buffer and what is
    still to be read. *)
Record sock_read : Type := SockRead { rd_ret : Z; rd_buf : list Z; rd_rest : list sock_event }.

(** The loop of [read_sock] and of [read_sock_bulk], with the bytes [got] so far
    and the test after each piece ([brk]). [None]: the events end and the loop is
    still running. *)
Fixpoint read_loop (brk : Z -> bool) (count : Z) (got : list Z) (s : list sock_event) : option sock_read :=
  let readed := Z.of_nat (length got) in
  if readed <? count then
    match s with
    | [] => None
    | Again :: s' => if readed =? 0 then Some (SockRead (-1) got s') else read_loop brk count got s'
    | Eof :: _ => Some (SockRead 0 got s)
    | Bytes b :: s' =>
        if Z.of_nat (length b) <=? count - readed then
          let got' := got ++ b in
          if brk (Z.of_nat (length got')) then Some (SockRead (Z.of_nat (length got')) got' s')
          else read_loop brk count got' s'
        else
          (* more has arrived than there is room for: the loop ends *)
          Some (SockRead count (got ++ take (Z.to_nat (count - readed)) b)
                  (Bytes (drop (Z.to_nat (count - readed)) b) :: s'))
    end
  else Some (SockRead readed got s).

Definition read_sock (s : list sock_event) (count : Z) : option sock_read :=
  read_loop (fun _ => false) count [] s.

Definition read_sock_bulk (s : list sock_event) (max_objs align : Z) : option sock_read :=
  read_loop (fun readed => readed mod align =? 0) (align * max_objs) [] s.

(** ** The latency table *)

(** [table[latency/10]++], in C's division; [None] when the index is outside of
    the table. *)
Definition collect_latency (table : tmap Z) (latency : Z) : option (tmap Z) :=
  if negb (latency =? -1) then
    let i := Z.quot latency 10 in
    if (0 <=? i) && (i <? CDF_TABLE_MAX) then Some (tset table i (u64 (tget table i + 1)))
    else None
  else Some table.

(** A printed line: latency, count, and the numerator of the printed quotient. *)
Record cdf_row : Type := CdfRow { row_lat : Z; row_cnt : Z; row_sum : Z }.

(** The loop of [print_cdf] from index [i] on, for at most [n] turns. *)
Fixpoint print_cdf_from (i : Z) (n : nat) (nr_query cdf_sum : Z) (table : tmap Z) : list cdf_row * tmap Z :=
  match n with
  | O => ([], table)
  | S n' =>
      if cdf_sum =? nr_query then ([], table)
      else if negb (tget table i =? 0) then
        let cdf_sum' := u64 (cdf_sum + tget table i) in
        let '(rows, table') := print_cdf_from (i + 1) n' nr_query cdf_sum' (tset table i 0) in
        (CdfRow (i * 10) (tget table i) cdf_sum' :: rows, table')
      else print_cdf_from (i + 1) n' nr_query cdf_sum table
  end.

Definition print_cdf (table : tmap Z) (nr_query : Z) : list cdf_row * tmap Z :=
  print_cdf_from 0 (Z.to_nat CDF_TABLE_MAX) nr_query 0 table.

(** ** Lemmas on the read loops *)

(** The bytes that the events still hold. *)
Fixpoint stream (s : list sock_event) : list Z :=
  match s with
  | [] => []
  | Bytes b :: s' => b ++ stream s'
  | Again :: s' => stream s'
  | Eof :: _ => []
  end.

(** A [read] that answers a positive number brings at least one byte. *)
Definition sock_ok (s : list sock_event) : Prop :=
  Forall (fun e => match e with Bytes b => b <> [] | _ => True end) s.

(** The peer does not close the connection. *)
Definition no_eof (s : list sock_event) : Prop := Forall (fun e => e <> Eof) s.

Lemma read_loop_spec brk count got s r :
  sock_ok s -> read_loop brk count got s = Some r -> Z.of_nat (length got) <= count ->
  sock_ok (rd_rest r) /\
  ((rd_ret r = Z.of_nat (length (rd_buf r)) /\ rd_buf r ++ stream (rd_rest r) = got ++ stream s /\
    (length got <= length (rd_buf r))%nat /\
    (rd_ret r = count \/ (brk (rd_ret r) = true /\ (length got < length (rd_buf r))%nat)) /\ rd_ret r <= count) \/
   (rd_ret r = -1 /\ got = [] /\ rd_buf r = [] /\ stream (rd_rest r) = stream s) \/
   (rd_ret r = 0 /\ rd_buf r = got ++ stream s /\ stream (rd_rest r) = [] /\
    Z.of_nat (length (rd_buf r)) < count /\ exists s', rd_rest r = Eof :: s')).
Proof.
  revert got. induction s as [|e s IH]; intros got Hok Hr Hc; cbn [read_loop] in Hr; cbv zeta in Hr;
    destruct (Z.of_nat (length got) <? count) eqn:Hlt; try done.
  1, 3: injection Hr as <-; simpl; apply Z.ltb_ge in Hlt; (split; [done|]); left; split_and!; try done; lia.
  apply Z.ltb_lt in Hlt. apply Forall_cons in Hok as [He Hok]. destruct e as [b| |].
  - destruct (Z.of_nat (length b) <=? count - Z.of_nat (length got)) eqn:Hb.
    + apply Z.leb_le in Hb. assert (0 < length b)%nat by (destruct b; [done | simpl; lia]).
      assert (Z.of_nat (length (got ++ b)) <= count) by (rewrite length_app; lia).
      destruct (brk (Z.of_nat (length (got ++ b)))) eqn:Hbrk.
      * injection Hr as <-. simpl. split; [done|]. left. rewrite <- app_assoc.
        split_and!; [done | done | rewrite length_app; lia | | done].
        right. split; [done|]. rewrite length_app. lia.
      * destruct (IH (got ++ b) Hok Hr ltac:(done)) as [Hk Hx]. split; [done|]. rewrite <- app_assoc in Hx.
        destruct Hx as [(H1 & H2 & H3 & H4 & H5) | [(_ & Hx & _) | Hx]]; [left | by destruct got, b | right; right; exact Hx].
        rewrite length_app in H3, H4. split_and!; try done; try lia.
        destruct H4 as [?|[Hb1 Hb2]]; [by left | right; split; [exact Hb1 | lia]].
    + apply Z.leb_gt in Hb. injection Hr as <-. simpl. split.
      * constructor; [|done]. intros Hd. apply (f_equal length) in Hd. rewrite length_drop in Hd. simpl in Hd. lia.
      * left. rewrite length_app, length_take. split_and!; try lia.
        by rewrite <- app_assoc, (app_assoc (take _ _)), take_drop.
  - destruct (Z.of_nat (length got) =? 0) eqn:H0.
    + injection Hr as <-. apply Z.eqb_eq in H0. split; [done|]. right. left. by destruct got.
    + by apply IH.
  - injection Hr as <-. simpl. split; [by constructor|]. right. right. rewrite app_nil_r. eauto 10.
Qed.

(** [read_sock] reads a whole object or none. When it answers a positive
    number that is [count], the buffer holds the next [count] bytes of the stream
    and the rest of the stream is untouched; it answers -1 only before the first
    byte, and then nothing is lost; it answers 0 at the end of the stream. *)
Theorem read_sock_exact (s : list sock_event) (count : Z) (r : sock_read) :
  sock_ok s -> 0 < count -> read_sock s count = Some r ->
  (rd_ret r = count /\ Z.of_nat (length (rd_buf r)) = count /\ rd_buf r ++ stream (rd_rest r) = stream s) \/
  (rd_ret r = -1 /\ stream (rd_rest r) = stream s) \/
  (rd_ret r = 0 /\ Z.of_nat (length (stream s)) < count /\ rd_buf r = stream s).
Proof.
  intros Hok Hc Hr. destruct (read_loop_spec _ _ _ _ _ Hok Hr ltac:(simpl; lia)) as [_ [H | [H | H]]].
  - left. destruct H as (H1 & H2 & _ & [H4 | [? _]] & _); [|done]. simpl in H2. split_and!; [done | lia | done].
  - right. left. naive_solver.
  - right. right. destruct H as (? & Hb & _ & ? & _). simpl in Hb. rewrite <- Hb. done.
Qed.

Lemma read_sock_bulk_result s max_objs align r :
  sock_ok s -> 0 < align -> 0 < max_objs -> read_sock_bulk s max_objs align = Some r ->
  sock_ok (rd_rest r) /\
  ((0 < rd_ret r <= align * max_objs /\ rd_ret r mod align = 0 /\ rd_ret r = Z.of_nat (length (rd_buf r)) /\
    rd_buf r ++ stream (rd_rest r) = stream s) \/
   (rd_ret r = -1 /\ rd_buf r = [] /\ stream (rd_rest r) = stream s) \/
   (rd_ret r = 0 /\ rd_buf r = stream s /\ ~ no_eof (rd_rest r))).
Proof.
  intros Hok Ha Hm Hr.
  destruct (read_loop_spec _ _ _ _ _ Hok Hr ltac:(simpl; nia)) as [Hk H]. split; [done|].
  destruct H as [(H1 & H2 & _ & H4 & H5) | [H | H]]; [left | right; left; naive_solver | right; right].
  2: { destruct H as (? & ? & _ & _ & s' & ->). split_and!; [done | done|].
    intros Hn. by apply Forall_cons in Hn as [Hn _]. }
  simpl in H2. split_and!; try done.
  - destruct H4 as [-> | [_ H4]]; [nia | simpl in H4; lia].
  - destruct H4 as [-> | [H4 _]]; [|by apply Z.eqb_eq].
    rewrite Z.mul_comm. by apply Z_mod_mult.
Qed.

(** ** Messages do not depend on how they arrive *)

(** The bytes that repeated calls of [read_sock_bulk] hand over. *)
Fixpoint recv_all (fuel : nat) (s : list sock_event) (max_objs align : Z) : list Z :=
  match fuel with
  | O => []
  | S n =>
      match read_sock_bulk s max_objs align with
      | Some r =>
          if rd_ret r =? 0 then []
          else (if rd_ret r =? -1 then [] else rd_buf r) ++ recv_all n (rd_rest r) max_objs align
      | None => []
      end
  end.

Lemma read_loop_no_eof brk count got s r :
  no_eof s -> read_loop brk count got s = Some r -> no_eof (rd_rest r).
Proof.
  revert got. induction s as [|e s IH]; intros got Hn Hr; cbn [read_loop] in Hr; cbv zeta in Hr;
    destruct (Z.of_nat (length got) <? count); try (by injection Hr as <-); try done.
  apply Forall_cons in Hn as [He Hn]. destruct e as [b| |]; [| |done].
  - destruct (Z.of_nat (length b) <=? _); [|injection Hr as <-; by constructor].
    destruct (brk (Z.of_nat (length (got ++ b)))); [by injection Hr as <- | by eapply IH].
  - destruct (Z.of_nat (length got) =? 0); [by injection Hr as <- | by eapply IH].
Qed.

(** The loop goes on past the last event only in the middle of an object. *)
Lemma read_loop_None brk count got s :
  no_eof s -> read_loop brk count got s = None ->
  stream s = [] \/ brk (Z.of_nat (length (got ++ stream s))) = false.
Proof.
  revert got. induction s as [|e s IH]; intros got Hn Hr; cbn [read_loop] in Hr; cbv zeta in Hr;
    destruct (Z.of_nat (length got) <? count); try done; [by left|].
  apply Forall_cons in Hn as [He Hn]. destruct e as [b| |]; [| |done].
  - destruct (Z.of_nat (length b) <=? _); [|done]. right. simpl.
    destruct (brk (Z.of_nat (length (got ++ b)))) eqn:Hb; [done|].
    destruct (IH _ Hn Hr) as [-> | Hs]; [by rewrite app_nil_r | by rewrite app_assoc].
  - destruct (Z.of_nat (length got) =? 0); [done | by apply IH].
Qed.

(** A call that answers -1 takes an event, and any other takes bytes. *)
Lemma read_sock_bulk_again s max_objs align r :
  sock_ok s -> 0 < align -> 0 < max_objs -> read_sock_bulk s max_objs align = Some r -> rd_ret r = -1 ->
  s = Again :: rd_rest r.
Proof.
  unfold read_sock_bulk. intros Hok Ha Hm Hr Hret. destruct s as [|e s]; cbn [read_loop] in Hr; cbv zeta in Hr;
    simpl length in Hr; rewrite (proj2 (Z.ltb_lt _ _)) in Hr by nia; [done|].
  destruct e as [b| |]; [|by injection Hr as <-|by injection Hr as <-].
  assert (0 < length b)%nat by (apply Forall_cons in Hok as [Hb _]; destruct b; [done | simpl; lia]).
  exfalso. destruct (Z.of_nat (length b) <=? _); [|injection Hr as <-; simpl in Hret; nia].
  apply Forall_cons in Hok as [_ Hok]. simpl app in Hr.
  destruct (_ =? 0); [injection Hr as <-; simpl in Hret; lia|].
  destruct (decide (Z.of_nat (length b) <= align * max_objs)).
  - destruct (read_loop_spec _ _ _ _ _ Hok Hr ltac:(done)) as [_ [(H1 & _) | [(_ & -> & _) | (H1 & _)]]]; simpl in *; lia.
  - destruct s; cbn [read_loop] in Hr; cbv zeta in Hr; rewrite (proj2 (Z.ltb_ge _ _)) in Hr by lia;
      injection Hr as <-; simpl in Hret; lia.
Qed.

Lemma read_loop_shorter brk count got s r :
  read_loop brk count got s = Some r -> (length (rd_rest r) <= length s)%nat.
Proof.
  revert got. induction s as [|e s IH]; intros got Hr; cbn [read_loop] in Hr; cbv zeta in Hr;
    destruct (Z.of_nat (length got) <? count); try (by injection Hr as <-); try done.
  destruct e as [b| |]; simpl.
  - destruct (Z.of_nat (length b) <=? _); [|by injection Hr as <-].
    destruct (brk (Z.of_nat (length (got ++ b)))); [injection Hr as <-; simpl; lia | apply IH in Hr; lia].
  - destruct (Z.of_nat (length got) =? 0); [injection Hr as <-; simpl; lia | apply IH in Hr; lia].
  - by injection Hr as <-.
Qed.

(** C26: message framing. A stream of whole objects reaches the caller of
    [read_sock_bulk] completely, in order and in whole objects, however it is
    cut into pieces and however often there is nothing to read in between. *)
Theorem bulk_framing (s : list sock_event) (max_objs align : Z) (fuel : nat) :
  sock_ok s -> no_eof s -> 0 < align -> 0 < max_objs -> Z.of_nat (length (stream s)) mod align = 0 ->
  (length s + length (stream s) < fuel)%nat ->
  recv_all fuel s max_objs align = stream s /\
  forall r, read_sock_bulk s max_objs align = Some r ->
    rd_ret r = -1 \/ (0 < rd_ret r <= align * max_objs /\ rd_ret r mod align = 0 /\
                      rd_buf r = take (Z.to_nat (rd_ret r)) (stream s)).
Proof.
  intros Hok Hn Ha Hm Hal Hf. split.
  - revert s Hok Hn Hal Hf. induction fuel as [|n IH]; intros s Hok Hn Hal Hf; [lia|]. cbn [recv_all].
    destruct (read_sock_bulk s max_objs align) as [r|] eqn:Hr.
    + pose proof (read_loop_no_eof _ _ _ _ _ Hn Hr) as Hn'. pose proof (read_loop_shorter _ _ _ _ _ Hr) as Hl.
      destruct (read_sock_bulk_result _ _ _ _ Hok Ha Hm Hr) as [Hok' [(H1 & H2 & H3 & H4) | [(H1 & H2 & H3) | H]]];
        [| |by destruct H as (_ & _ & H)].
      * rewrite (proj2 (Z.eqb_neq _ 0)), (proj2 (Z.eqb_neq _ (-1))) by lia.
        rewrite IH; [done | done | done | | rewrite <- H4, length_app in Hf; lia].
        rewrite <- H4, length_app, Nat2Z.inj_add, <- H3 in Hal.
        rewrite <- Zplus_mod_idemp_l, H2 in Hal. by rewrite Z.add_0_l in Hal.
      * rewrite H1. simpl.
        pose proof (read_sock_bulk_again _ _ _ _ Hok Ha Hm Hr H1) as Hs.
        apply (f_equal length) in Hs. simpl in Hs.
        rewrite IH; [done | done | done | by rewrite H3 | rewrite H3; lia].
    + destruct (read_loop_None _ _ _ _ Hn Hr) as [-> | H]; [done|]. simpl in H. by apply Z.eqb_neq in H.
  - intros r Hr. pose proof (read_loop_no_eof _ _ _ _ _ Hn Hr) as Hn'.
    destruct (read_sock_bulk_result _ _ _ _ Hok Ha Hm Hr) as [_ [(H1 & H2 & H3 & H4) | [(H1 & _) | H]]];
      [right | by left | by destruct H as (_ & _ & H)].
    split_and!; try done; try lia. rewrite H3, <- H4, Nat2Z.id. by rewrite take_app_length.
Qed.

(** ** Streams of encoded objects *)

Section Objects.
Context {A : Type} (encode : A -> list Z) (size max : Z) (ok : A -> Prop).
Hypothesis encode_size : forall a, ok a -> length (encode a) = Z.to_nat size.
Hypothesis size_pos : 0 < size.
Hypothesis max_pos : 0 < max.

Lemma concat_encode_length l :
  Forall ok l -> length (concat (encode <$> l)) = (length l * Z.to_nat size)%nat.
Proof.
  induction 1 as [|a l Ha Hl IH]; [done|]. rewrite fmap_cons. cbn [concat length].
  rewrite length_app, encode_size, IH by done. lia.
Qed.

Lemma take_drop_encoded k l :
  Forall ok l -> (k <= length l)%nat ->
  take (k * Z.to_nat size) (concat (encode <$> l)) = concat (encode <$> take k l) /\
  drop (k * Z.to_nat size) (concat (encode <$> l)) = concat (encode <$> drop k l).
Proof.
  intros Hf Hk.
  assert (concat (encode <$> l) = concat (encode <$> take k l) ++ concat (encode <$> drop k l))
    as -> by by rewrite <- concat_app, <- fmap_app, take_drop.
  assert (length (concat (encode <$> take k l)) = (k * Z.to_nat size)%nat) as Hl.
  { rewrite concat_encode_length by by apply Forall_take. rewrite length_take_le by done. done. }
  by rewrite take_app_length', drop_app_length'.
Qed.

(** A call on a stream of objects whose first read finds something. *)
Lemma bulk_of_objects s l :
  sock_ok s -> no_eof s -> head s <> Some Again -> Forall ok l -> l <> [] -> stream s = concat (encode <$> l) ->
  exists k rest, (0 < k <= length l)%nat /\ Z.of_nat k <= max /\
    read_sock_bulk s max size =
      Some (SockRead (Z.of_nat k * size) (concat (encode <$> take k l)) rest) /\
    stream rest = concat (encode <$> drop k l).
Proof.
  intros Hok Hn Hhd Hf Hne Hs. pose proof (concat_encode_length l Hf) as Hlen.
  assert (0 < length l)%nat as Hpos by (destruct l; [done | simpl; lia]).
  destruct (read_sock_bulk s max size) as [[n b rest]|] eqn:Hr.
  2: { exfalso. destruct (read_loop_None _ _ _ _ Hn Hr) as [H0 | H0].
       - rewrite <- Hs, H0 in Hlen. simpl in Hlen. nia.
       - apply Z.eqb_neq in H0. apply H0. simpl. rewrite Hs, Hlen, Nat2Z.inj_mul, Z2Nat.id by lia. apply Z_mod_mult. }
  destruct (read_sock_bulk_result _ _ _ _ Hok size_pos max_pos Hr) as [_ [(H1 & H2 & H3 & H4) | [(H1 & _) | H]]];
    [| by pose proof (read_sock_bulk_again _ _ _ _ Hok size_pos max_pos Hr H1); subst s
     | pose proof (read_loop_no_eof _ _ _ _ _ Hn Hr); by destruct H as (_ & _ & H)].
  cbn [rd_ret rd_buf rd_rest] in *. apply Z.mod_divide in H2 as [k Hk]; [|lia].
  assert (0 < k <= max) as Hkr by nia. rewrite Hs in H4.
  assert (length b = Z.to_nat k * Z.to_nat size)%nat as Hb by (rewrite <- Z2Nat.inj_mul by lia; lia).
  assert (Z.to_nat k <= length l)%nat as Hle.
  { assert (length b <= length l * Z.to_nat size)%nat by (rewrite <- Hlen, <- H4, length_app; lia). nia. }
  destruct (take_drop_encoded (Z.to_nat k) l Hf Hle) as [Ht Hd].
  rewrite <- Hb, <- H4, take_app_length in Ht. rewrite <- Hb, <- H4, drop_app_length in Hd.
  exists (Z.to_nat k), rest. split_and!; try done; try lia. rewrite Z2Nat.id by lia. by rewrite <- Hk, Ht.
Qed.
End Objects.

(** What the loops do with an incomplete object. When the peer closes in the
    middle of it, the answer is 0 and the complete objects read with it are lost
    too; when the peer is silent in the middle of it, the loop polls the socket
    until more bytes come, however long that takes. *)
Theorem bulk_incomplete (b : list Z) (max_objs align : Z) :
  0 < align -> Z.of_nat (length b) < align * max_objs -> Z.of_nat (length b) mod align <> 0 ->
  read_sock_bulk [Bytes b; Eof] max_objs align = Some (SockRead 0 b [Eof]) /\
  forall n, read_sock_bulk (Bytes b :: replicate n Again) max_objs align = None.
Proof.
  intros Ha Hlt Hmod. unfold read_sock_bulk.
  assert (0 < length b)%nat as Hb by (destruct b; [by rewrite Zmod_0_l in Hmod | simpl; lia]).
  assert (forall s, read_loop (fun readed => readed mod align =? 0) (align * max_objs) [] (Bytes b :: s) =
            read_loop (fun readed => readed mod align =? 0) (align * max_objs) b s) as Hfirst.
  { intros s. cbn [read_loop app]. cbv zeta. rewrite (proj2 (Z.ltb_lt (Z.of_nat (length [])) _)) by (simpl; lia).
    rewrite (proj2 (Z.leb_le (Z.of_nat (length b)) _)) by (simpl; lia). by rewrite (proj2 (Z.eqb_neq _ _) Hmod). }
  split; [|intros n]; rewrite Hfirst.
  - cbn [read_loop]. cbv zeta. by rewrite (proj2 (Z.ltb_lt _ _)) by lia.
  - induction n as [|n IH]; cbn [replicate read_loop]; cbv zeta; rewrite (proj2 (Z.ltb_lt _ _)) by lia; [done|].
    by rewrite (proj2 (Z.eqb_neq _ 0)) by lia.
Qed.

(** ** The histogram *)

Fixpoint collect_all (ls : list Z) (table : tmap Z) : option (tmap Z) :=
  match ls with
  | [] => Some table
  | l :: ls' => match collect_latency table l with Some t => collect_all ls' t | None => None end
  end.

Definition zero_table : tmap Z := TMap 0 ∅.

(** How many latencies fall into bucket [i], and into the buckets up to [i]. *)
Definition in_bucket (ls : list Z) (i : Z) : Z := Z.of_nat (length (filter (fun l => Z.quot l 10 = i) ls)).
Definition up_to_bucket (ls : list Z) (i : Z) : Z := Z.of_nat (length (filter (fun l => Z.quot l 10 <= i) ls)).

(** The distribution as it is defined: a row for every bucket that is not
    empty, in order. *)
Definition cdf_rows (ls : list Z) : list cdf_row :=
  (fun i => CdfRow (i * 10) (in_bucket ls i) (up_to_bucket ls i)) <$>
    filter (fun i => in_bucket ls i <> 0) (seqZ 0 CDF_TABLE_MAX).

Lemma filter_none {A} (P : A -> Prop) `{forall x, Decision (P x)} (l : list A) :
  (forall x, x ∈ l -> ~ P x) -> filter P l = [].
Proof.
  intros Hn. apply elem_of_nil_inv. intros x [Hx Hin]%list_elem_of_filter. by apply (Hn x).
Qed.

Lemma in_bucket_cons l ls i :
  in_bucket (l :: ls) i = (if decide (Z.quot l 10 = i) then 1 else 0) + in_bucket ls i.
Proof. unfold in_bucket. rewrite filter_cons. case_decide; simpl; lia. Qed.

Lemma up_to_bucket_S ls i : up_to_bucket ls i = up_to_bucket ls (i - 1) + in_bucket ls i.
Proof.
  unfold up_to_bucket, in_bucket. induction ls as [|l ls IH]; [done|]. rewrite !filter_cons.
  repeat case_decide; simpl; lia.
Qed.

Lemma bucket_bounds ls i :
  0 <= in_bucket ls i /\ 0 <= up_to_bucket ls i <= Z.of_nat (length ls).
Proof.
  unfold in_bucket, up_to_bucket. pose proof (length_filter (fun l => Z.quot l 10 <= i) ls). lia.
Qed.

Lemma in_bucket_le ls i : in_bucket ls i <= Z.of_nat (length ls).
Proof. unfold in_bucket. pose proof (length_filter (fun l => Z.quot l 10 = i) ls). lia. Qed.

Lemma full_bucket_rest ls i j :
  up_to_bucket ls i = Z.of_nat (length ls) -> i < j -> in_bucket ls j = 0.
Proof.
  unfold up_to_bucket, in_bucket. induction ls as [|l ls IH]; [done|]. rewrite !filter_cons.
  pose proof (length_filter (fun l => Z.quot l 10 <= i) ls).
  intros Hu Hij. repeat case_decide; simpl in *; try lia.
Qed.

(** Counting every latency into an empty table gives the histogram. *)
Lemma collect_all_spec ls t0 k :
  Forall (fun l => 0 <= l < 10 * CDF_TABLE_MAX) ls -> (forall i, 0 <= tget t0 i <= k) ->
  k + Z.of_nat (length ls) < 2 ^ 64 ->
  exists t, collect_all ls t0 = Some t /\ forall i, tget t i = tget t0 i + in_bucket ls i.
Proof.
  intros Hls Hk Hb. revert t0 k Hk Hb. induction Hls as [|l ls Hl Hls IH]; intros t0 k Hk Hb.
  - exists t0. split; [done|]. intros i. unfold in_bucket. simpl. lia.
  - simpl length in Hb. cbn [collect_all]. unfold collect_latency. rewrite (proj2 (Z.eqb_neq l (-1))) by lia. cbn [negb].
    assert (0 <= Z.quot l 10 < CDF_TABLE_MAX) as Hq.
    { rewrite Z.quot_div_nonneg by lia. split; [apply Z.div_pos; lia | apply Z.div_lt_upper_bound; lia]. }
    cbv zeta. rewrite (proj2 (Z.leb_le _ _)), (proj2 (Z.ltb_lt _ _)) by lia. cbn [andb].
    specialize (Hk (Z.quot l 10)) as Hkl.
    edestruct (IH (tset t0 (Z.quot l 10) (u64 (tget t0 (Z.quot l 10) + 1))) (k + 1)) as (t & Ht & Hc); [| lia |].
    + intros i. rewrite tget_tset. case_decide; [rewrite wrap_small by lia; lia | specialize (Hk i); lia].
    + exists t. split; [done|]. intros i. rewrite Hc, tget_tset, in_bucket_cons, wrap_small by lia.
      repeat case_decide; try congruence; subst; lia.
Qed.

Lemma print_cdf_from_spec ls n i table :
  Z.of_nat (length ls) < 2 ^ 64 ->
  (forall j, i <= j -> tget table j = in_bucket ls j) -> (forall j, j < i -> tget table j = 0) ->
  print_cdf_from i n (Z.of_nat (length ls)) (up_to_bucket ls (i - 1)) table =
    ((fun j => CdfRow (j * 10) (in_bucket ls j) (up_to_bucket ls j)) <$>
       filter (fun j => in_bucket ls j <> 0) (seqZ i (Z.of_nat n)),
     snd (print_cdf_from i n (Z.of_nat (length ls)) (up_to_bucket ls (i - 1)) table)) /\
  forall j, j < i + Z.of_nat n ->
    tget (snd (print_cdf_from i n (Z.of_nat (length ls)) (up_to_bucket ls (i - 1)) table)) j = 0.
Proof.
  intros Hlen. revert i table. induction n as [|n IH]; intros i table Hge Hlt; cbn [print_cdf_from].
  - split; [done|]. intros j Hj. apply Hlt. lia.
  - pose proof (bucket_bounds ls i) as Hbi. pose proof (up_to_bucket_S ls i) as Hup.
    rewrite Nat2Z.inj_succ, seqZ_cons, Z.pred_succ by lia. rewrite filter_cons.
    destruct (up_to_bucket ls (i - 1) =? Z.of_nat (length ls)) eqn:E.
    + apply Z.eqb_eq in E.
      assert (forall j, i - 1 < j -> in_bucket ls j = 0) as H0 by (intros j; by apply full_bucket_rest).
      split; simpl.
      * f_equal. rewrite decide_False by (rewrite H0; [tauto | lia]). symmetry.
        rewrite filter_none; [done|]. intros j Hj%elem_of_seqZ. rewrite H0; [tauto | lia].
      * intros j Hj. destruct (decide (j < i)); [by apply Hlt|]. rewrite Hge, H0 by lia. done.
    + rewrite (Hge i) by lia. destruct (in_bucket ls i =? 0) eqn:Ei; cbn [negb].
      * apply Z.eqb_eq in Ei. rewrite decide_False by tauto.
        replace (up_to_bucket ls (i - 1)) with (up_to_bucket ls (Z.succ i - 1))
          by (replace (Z.succ i - 1) with i by lia; lia).
        destruct (IH (Z.succ i) table) as [H1 H2].
        { intros j Hj. apply Hge. lia. }
        { intros j Hj. destruct (decide (j = i)) as [->|]; [rewrite Hge by lia; lia | apply Hlt; lia]. }
        split; [exact H1|]. intros j Hj. apply H2. lia.
      * apply Z.eqb_neq in Ei. rewrite decide_True by done.
        rewrite (wrap_small 64) by lia. rewrite <- Hup.
        replace (up_to_bucket ls i) with (up_to_bucket ls (Z.succ i - 1)) by (f_equal; lia).
        destruct (IH (Z.succ i) (tset table i 0)) as [H1 H2].
        { intros j Hj. rewrite tget_tset_ne by lia. apply Hge. lia. }
        { intros j Hj. rewrite tget_tset. case_decide; [done | apply Hlt; lia]. }
        change (i + 1) with (Z.succ i). rewrite H1. cbn [fst snd]. split; [|intros j Hj; apply H2; lia].
        simpl. f_equal. f_equal. f_equal. f_equal. lia.
Qed.

Lemma bucket_range l : 0 <= Z.quot l 10 < CDF_TABLE_MAX <-> -10 < l < 10 * CDF_TABLE_MAX.
Proof.
  unfold CDF_TABLE_MAX. pose proof (Z.quot_rem l 10 ltac:(lia)). destruct (Z_lt_le_dec l 0).
  - pose proof (Z.rem_bound_pos_neg l 10). lia.
  - pose proof (Z.rem_bound_pos l 10). lia.
Qed.

Lemma collect_latency_in table l :
  -10 < l < 10 * CDF_TABLE_MAX -> is_Some (collect_latency table l).
Proof.
  intros Hl. unfold collect_latency. destruct (negb (l =? -1)); [|by eexists]. cbv zeta.
  apply bucket_range in Hl as [H1 H2].
  rewrite (proj2 (Z.leb_le _ _)), (proj2 (Z.ltb_lt _ _)) by done. by eexists.
Qed.

(** The printed distribution is the distribution of the collected latencies:
    one line per 10-microsecond bucket that is not empty, in order, with its
    count and the number of latencies up to it; the loop may stop early, but only
    after the last line; and the table is empty again afterwards. *)
Theorem print_cdf_correct (ls : list Z) :
  Forall (fun l => 0 <= l < 10 * CDF_TABLE_MAX) ls -> Z.of_nat (length ls) < 2 ^ 64 ->
  exists t t', collect_all ls zero_table = Some t /\
    print_cdf t (Z.of_nat (length ls)) = (cdf_rows ls, t') /\
    forall i, i < CDF_TABLE_MAX -> tget t' i = 0.
Proof.
  intros Hls Hlen. destruct (collect_all_spec ls zero_table 0 Hls) as (t & Ht & Hc); [by intros i| lia|].
  assert (forall i, tget t i = in_bucket ls i) as Hc' by (intros i; by rewrite Hc).
  assert (forall l, l ∈ ls -> 0 <= Z.quot l 10) as Hq.
  { intros l Hl. rewrite Forall_forall in Hls. apply Hls in Hl. apply Z.quot_pos; lia. }
  assert (up_to_bucket ls (0 - 1) = 0) as H0.
  { unfold up_to_bucket. rewrite filter_none; [done|]. intros l Hl. apply Hq in Hl. lia. }
  destruct (print_cdf_from_spec ls (Z.to_nat CDF_TABLE_MAX) 0 t Hlen) as [H1 H2].
  { intros j _. apply Hc'. }
  { intros j Hj. rewrite Hc'. unfold in_bucket. rewrite filter_none; [done|].
    intros l Hl. apply Hq in Hl. lia. }
  rewrite H0 in H1, H2. exists t. eexists. split; [done|]. split; [exact H1|]. intros i Hi. apply H2. lia.
Qed.

(** A latency outside of the table is stored outside of the table: from one
    second on, and for a clock that was set back by ten microseconds or more. *)
Theorem collect_latency_bounds (table : tmap Z) (latency : Z) :
  collect_latency table latency = None <-> latency <> -1 /\ (latency <= -10 \/ 10 * CDF_TABLE_MAX <= latency).
Proof.
  unfold collect_latency. destruct (latency =? -1) eqn:E; cbn [negb].
  - apply Z.eqb_eq in E. split; [done | lia].
  - apply Z.eqb_neq in E. cbv zeta.
    pose proof (bucket_range latency) as Hq.
    destruct ((0 <=? _) && _) eqn:Eb; reflect_bools; split; try done; lia.
Qed.

(** ** Instances *)

(** An object and a half, then nothing, then the other half and more. *)
Definition sample_events : list sock_event :=
  [Bytes [1; 2; 3; 4; 5; 6]; Again; Bytes [7]; Bytes [8; 9; 10; 11; 12]; Again].

Lemma sample_events_ok : sock_ok sample_events.
Proof. by repeat constructor. Qed.

Lemma read_sock_exact_witness :
  exists r, read_sock sample_events 4 = Some r /\ rd_buf r ++ stream (rd_rest r) = stream sample_events.
Proof.
  eexists. split; [by vm_compute|].
  by destruct (read_sock_exact sample_events 4 _ sample_events_ok ltac:(lia) eq_refl)
    as [(_ & _ & H) | [(H & _) | (H & _)]].
Defined.

Lemma bulk_framing_witness :
  recv_all 20 sample_events 8 4 = [1; 2; 3; 4; 5; 6; 7; 8; 9; 10; 11; 12].
Proof.
  destruct (bulk_framing sample_events 8 4 20 sample_events_ok) as [H _];
    [by repeat constructor | lia | lia | by vm_compute | simpl; lia | exact H].
Defined.

Lemma bulk_incomplete_witness :
  read_sock_bulk [Bytes [1; 2; 3; 4; 5]; Eof] 8 4 = Some (SockRead 0 [1; 2; 3; 4; 5] [Eof]).
Proof.
  apply (bulk_incomplete [1; 2; 3; 4; 5] 8 4); [lia | simpl; lia | by vm_compute].
Defined.

Lemma print_cdf_correct_witness :
  exists t t', collect_all [25; 7; 29; 113] zero_table = Some t /\
    print_cdf t 4 = (cdf_rows [25; 7; 29; 113], t') /\ forall i, i < CDF_TABLE_MAX -> tget t' i = 0.
Proof.
  apply (print_cdf_correct [25; 7; 29; 113]); [|simpl; lia].
  repeat constructor; unfold CDF_TABLE_MAX; lia.
Defined.
