(* ===== verification/Keygen.v ===== *)
(** * The key generator of the client ([src/keygen.c], [include/keygen.h])

    A pool of random keys, handed out once each in order to load a store, and
    then at random, uniformly or from a hot and a cold part. [rand] is the n-th
    answer of the C function. The pool is an array of pointers to keys that
    nothing writes after [keygen_init], so that the keys stand for the
    pointers. *)

From Stdlib Require Import ZArith Lia.
From stdpp Require Import prelude gmap.
From S2P Require Import Prelude Config.

#[local] Open Scope Z_scope.

Inductive key_dist_t : Type := KEY_DIST_UNIFORM | KEY_DIST_LOCALITY | KEY_DIST_HOTSPOT.

(** [struct keygen], less the seed, which is always 0, and the mutex; [rands]
    counts the calls of [rand]. *)
Record keygen : Type := Keygen {
  key_pool : list (list Z);
  nr_key : Z;
  key_size : Z;
  key_dist : key_dist_t;
  query_ratio : Z;
  hotset_ratio : Z;
  nr_hotset : Z;
  nr_coldset : Z;
  load_cnt : Z;
  rands : nat
}.

Section Keygen.
Variable rand : nat -> Z.

Definition rand_next : M keygen Z := fun kg =>
  Ret (rand (rands kg))
    (Keygen (key_pool kg) (nr_key kg) (key_size kg) (key_dist kg) (query_ratio kg) (hotset_ratio kg)
       (nr_hotset kg) (nr_coldset kg) (load_cnt kg) (S (rands kg))).

(** [x % y] on 64-bit unsigned operands. *)
Definition mod_u64 (x y : Z) : M keygen Z :=
  massert (negb (y =? 0)) SDivZero ;;; ret (u64 x mod y).

(** The [n] digits of a key, from the [k]-th [rand] on. *)
Definition digits (k n : nat) : list Z := (fun i : nat => 48 + Z.rem (rand (k + i)%nat) 10) <$> seq 0 n.

(** The key [i] of the pool: ["user"] and [key_size - 4] digits. *)
Definition new_key (size : Z) (i : nat) : list Z :=
  [117; 115; 101; 114] ++ digits (i * Z.to_nat (size - 4)) (Z.to_nat (size - 4)).

(** [None]: the four bytes of ["user"] do not fit a key. *)
Definition keygen_init (nr_key key_size : Z) : option keygen :=
  if (key_size <? 4) && (0 <? nr_key) then None
  else
    let hot := u64 (nr_key / 100 * 50) in
    Some (Keygen (new_key key_size <$> seq 0 (Z.to_nat nr_key)) nr_key key_size KEY_DIST_UNIFORM 50 50
            hot (u64 (nr_key - hot)) 0 (Z.to_nat nr_key * Z.to_nat (key_size - 4))).

Definition with_pool (p : list (list Z)) (kg : keygen) : keygen :=
  Keygen p (nr_key kg) (key_size kg) (key_dist kg) (query_ratio kg) (hotset_ratio kg) (nr_hotset kg)
    (nr_coldset kg) (load_cnt kg) (rands kg).

(** The exchange of [key_pool[i]] and [key_pool[pos]]. *)
Definition swap_keys (i pos : Z) : M keygen unit :=
  let* kg := mget in
  let* a := mopt SBounds (key_pool kg !! Z.to_nat i) in
  let* b := mopt SBounds (key_pool kg !! Z.to_nat pos) in
  mmod (with_pool (<[Z.to_nat pos := a]> (<[Z.to_nat i := b]> (key_pool kg)))).

(** The loop of [shuffle_key_pool] from index [i] on; [int pos] is a conversion
    to 32 bits. *)
Fixpoint shuffle_from (i : Z) (n : nat) : M keygen unit :=
  match n with
  | O => ret tt
  | S n' =>
      let* r := rand_next in
      let* kg := mget in
      let* pos := mod_u64 r (nr_key kg) in
      swap_keys i (s32 pos) ;;;
      shuffle_from (i + 1) n'
  end.

Definition shuffle_key_pool : M keygen unit :=
  let* kg := mget in shuffle_from 0 (Z.to_nat (nr_key kg)).

Definition with_dist (d : key_dist_t) (kg : keygen) : keygen :=
  Keygen (key_pool kg) (nr_key kg) (key_size kg) d (query_ratio kg) (hotset_ratio kg) (nr_hotset kg)
    (nr_coldset kg) (load_cnt kg) (rands kg).

Definition with_ratios (q h : Z) (kg : keygen) : keygen :=
  let hot := u64 (nr_key kg / 100 * h) in
  Keygen (key_pool kg) (nr_key kg) (key_size kg) (key_dist kg) q h hot (u64 (nr_key kg - hot))
    (load_cnt kg) (rands kg).

Definition set_key_dist (dist : key_dist_t) (query_ratio hotset_ratio : Z) : M keygen Z :=
  mmod (with_dist dist) ;;;
  match dist with
  | KEY_DIST_LOCALITY =>
      shuffle_key_pool ;;; shuffle_key_pool ;;; shuffle_key_pool ;;;
      mmod (with_ratios query_ratio hotset_ratio)
  | _ => ret tt
  end ;;;
  ret 0.

(** [None] for the null pointer. *)
Definition get_next_key_for_load : M keygen (option (list Z)) :=
  let* kg := mget in
  if nr_key kg <=? load_cnt kg then ret None
  else
    let* k := mopt SBounds (key_pool kg !! Z.to_nat (load_cnt kg)) in
    mmod (fun kg => Keygen (key_pool kg) (nr_key kg) (key_size kg) (key_dist kg) (query_ratio kg)
                      (hotset_ratio kg) (nr_hotset kg) (nr_coldset kg) (u64 (load_cnt kg + 1)) (rands kg)) ;;;
    ret (Some k).

Definition pool_at (i : Z) : M keygen (option (list Z)) :=
  let* kg := mget in let* k := mopt SBounds (key_pool kg !! Z.to_nat i) in ret (Some k).

Definition get_next_key : M keygen (option (list Z)) :=
  let* kg := mget in
  match key_dist kg with
  | KEY_DIST_UNIFORM =>
      let* r := rand_next in let* i := mod_u64 r (nr_key kg) in pool_at i
  | KEY_DIST_LOCALITY =>
      let* r := rand_next in
      if Z.rem r 100 <? query_ratio kg then
        let* r := rand_next in let* i := mod_u64 r (nr_hotset kg) in pool_at i
      else
        let* r := rand_next in let* i := mod_u64 r (nr_coldset kg) in pool_at (u64 (nr_hotset kg + i))
  | KEY_DIST_HOTSPOT => ret None
  end.

(** ** Well-formed generators *)

Record kg_ok (kg : keygen) : Prop := KgOk {
  ko_pool : Z.of_nat (length (key_pool kg)) = nr_key kg;
  ko_nr : 0 <= nr_key kg < 2 ^ 31;
  ko_hot : 0 <= nr_hotset kg <= nr_key kg;
  ko_cold : nr_coldset kg = nr_key kg - nr_hotset kg;
  ko_load : 0 <= load_cnt kg <= nr_key kg
}.

Hypothesis rand_nonneg : forall k, 0 <= rand k < 2 ^ 31.

(** A key as the generator makes it. *)
Definition is_key (size : Z) (k : list Z) : Prop :=
  Z.of_nat (length k) = size /\ take 4 k = [117; 115; 101; 114] /\ Forall (fun c => 48 <= c <= 57) (drop 4 k).

Lemma new_key_ok size i : 4 <= size -> is_key size (new_key size i).
Proof.
  intros Hs. unfold new_key, digits. split_and!.
  - rewrite length_app, length_fmap, length_seq. simpl. lia.
  - by rewrite take_app_le.
  - simpl. rewrite drop_0. apply Forall_fmap, Forall_true. intros x. simpl.
    pose proof (Z.rem_bound_pos (rand (i * Z.to_nat (size - 4) + x)) 10). pose proof (rand_nonneg (i * Z.to_nat (size - 4) + x)).
    lia.
Qed.

(** [keygen_init] makes a well-formed pool: as many keys as asked for, each
    of the size asked for, ["user"] followed by digits; half of the keys, rounded
    down to a multiple of fifty, are hot. *)
Theorem keygen_init_ok (n size : Z) :
  0 <= n < 2 ^ 31 -> 4 <= size ->
  exists kg, keygen_init n size = Some kg /\ kg_ok kg /\ nr_key kg = n /\ load_cnt kg = 0 /\
    Forall (is_key size) (key_pool kg).
Proof.
  intros Hn Hs. unfold keygen_init. rewrite (proj2 (Z.ltb_ge size 4)) by done. cbn [andb].
  pose proof (Z.mul_div_le n 100 ltac:(lia)). pose proof (Z.div_pos n 100 ltac:(lia) ltac:(lia)).
  eexists. split; [done|]. split_and!; try done.
  - split; simpl; try lia.
    + rewrite length_fmap, length_seq. lia.
    + rewrite wrap_small; lia.
    + rewrite !wrap_small; try lia. rewrite wrap_small; lia.
  - simpl. apply Forall_fmap, Forall_true. intros i. by apply new_key_ok.
Qed.

(** ** Shuffling *)

(** What a shuffle may change. *)
Record shuffled (kg kg' : keygen) : Prop := Shuffled {
  sh_pool : key_pool kg' ≡ₚ key_pool kg;
  sh_rest : kg' = Keygen (key_pool kg') (nr_key kg) (key_size kg) (key_dist kg) (query_ratio kg)
                    (hotset_ratio kg) (nr_hotset kg) (nr_coldset kg) (load_cnt kg) (rands kg')
}.

#[local] Instance shuffled_preorder : PreOrder shuffled.
Proof.
  split.
  - intros kg. split; [done | by destruct kg].
  - intros kg1 kg2 kg3 [Hp1 Hr1] [Hp2 Hr2]. split; [by rewrite Hp2|]. rewrite Hr2 at 1. by rewrite Hr1.
Qed.

Lemma shuffled_ok kg kg' : shuffled kg kg' -> kg_ok kg -> kg_ok kg'.
Proof. intros [Hp ->] [H1 H2 H3 H4 H5]. split; simpl; try done. by rewrite Hp. Qed.

Lemma swap_keys_ok kg i pos :
  0 <= i < Z.of_nat (length (key_pool kg)) -> 0 <= pos < Z.of_nat (length (key_pool kg)) ->
  exists kg', swap_keys i pos kg = Ret tt kg' /\ shuffled kg kg'.
Proof.
  intros Hi Hp.
  destruct (lookup_lt_is_Some_2 (key_pool kg) (Z.to_nat i)) as [a Ha]; [lia|].
  destruct (lookup_lt_is_Some_2 (key_pool kg) (Z.to_nat pos)) as [b Hb]; [lia|].
  eexists. unfold swap_keys. erewrite bind_ret by exact eq_refl.
  erewrite bind_ret by (rewrite Ha; exact eq_refl). erewrite bind_ret by (rewrite Hb; exact eq_refl).
  split; [exact eq_refl|]. split; [|done]. simpl. by apply Permutation_insert_swap.
Qed.

Lemma mod_u64_ok x y kg :
  0 <= x < 2 ^ 31 -> 0 < y -> mod_u64 x y kg = Ret (x mod y) kg /\ 0 <= x mod y < y.
Proof.
  intros Hx Hy. pose proof (Z.mod_pos_bound x y Hy). split; [|done]. unfold mod_u64, massert.
  rewrite (proj2 (Z.eqb_neq y 0)) by lia. erewrite bind_ret by exact eq_refl. by rewrite wrap_small by lia.
Qed.

Lemma shuffle_from_ok n i kg :
  kg_ok kg -> 0 <= i -> i + Z.of_nat n <= nr_key kg ->
  exists kg', shuffle_from i n kg = Ret tt kg' /\ shuffled kg kg'.
Proof.
  revert i kg. induction n as [|n IH]; intros i kg Hok Hi Hn; [by exists kg|].
  pose proof Hok as [Hlen Hnr _ _ _]. pose proof (rand_nonneg (rands kg)) as Hr. cbn [shuffle_from].
  erewrite bind_ret by exact eq_refl. set (kg1 := Keygen _ _ _ _ _ _ _ _ _ _).
  erewrite bind_ret by exact eq_refl.
  destruct (mod_u64_ok (rand (rands kg)) (nr_key kg1) kg1 Hr) as [Hm Hb]; [simpl; lia|].
  rewrite (bind_ret _ _ _ _ _ Hm). change (nr_key kg1) with (nr_key kg) in *.
  rewrite s32_small by lia.
  destruct (swap_keys_ok kg1 i (rand (rands kg) mod nr_key kg)) as (kg2 & Hs & Hsh); [simpl; lia | simpl; lia|].
  rewrite (bind_ret _ _ _ _ _ Hs).
  assert (shuffled kg kg2) as Hsh2 by (etrans; [|exact Hsh]; by split).
  destruct (IH (i + 1) kg2) as (kg3 & He & Hsh3);
    [by eapply shuffled_ok | lia | destruct Hsh2 as [_ ->]; simpl; lia|].
  exists kg3. split; [exact He|]. by etrans.
Qed.

Lemma shuffle_ok kg :
  kg_ok kg -> exists kg', shuffle_key_pool kg = Ret tt kg' /\ shuffled kg kg'.
Proof.
  intros Hok. unfold shuffle_key_pool. erewrite bind_ret by exact eq_refl.
  apply shuffle_from_ok; [done | lia|]. destruct Hok. lia.
Qed.

Lemma with_ratios_ok q h kg : kg_ok kg -> 0 <= h <= 100 -> kg_ok (with_ratios q h kg).
Proof.
  intros [H1 H2 H3 H4 H5] Hh. pose proof (Z.mul_div_le (nr_key kg) 100 ltac:(lia)).
  pose proof (Z.div_pos (nr_key kg) 100 ltac:(lia) ltac:(lia)).
  assert (0 <= nr_key kg / 100 * h <= nr_key kg) by nia.
  unfold with_ratios. rewrite !wrap_small by (rewrite ?wrap_small; lia). split; simpl; lia.
Qed.

Lemma set_key_dist_ok (d : key_dist_t) (q h : Z) (kg : keygen) :
  kg_ok kg -> 0 <= h <= 100 ->
  exists kg', set_key_dist d q h kg = Ret 0 kg' /\ kg_ok kg' /\ key_pool kg' ≡ₚ key_pool kg /\
    key_dist kg' = d /\ load_cnt kg' = load_cnt kg.
Proof.
  intros Hok Hh. unfold set_key_dist. erewrite bind_ret by exact eq_refl.
  assert (kg_ok (with_dist d kg)) as Hok0 by (destruct Hok; by split).
  destruct d; try (erewrite bind_ret by exact eq_refl; eexists; split; [exact eq_refl|]; by split_and!).
  destruct (shuffle_ok _ Hok0) as (kg1 & H1 & S1).
  destruct (shuffle_ok kg1) as (kg2 & H2 & S2); [by eapply shuffled_ok|].
  destruct (shuffle_ok kg2) as (kg3 & H3 & S3); [eapply shuffled_ok; [exact S2|]; by eapply shuffled_ok|].
  assert (shuffled (with_dist KEY_DIST_LOCALITY kg) kg3) as S by (etrans; [exact S1|]; by etrans).
  rewrite bind_assoc, (bind_ret _ _ _ _ _ H1), bind_assoc, (bind_ret _ _ _ _ _ H2), bind_assoc, (bind_ret _ _ _ _ _ H3).
  erewrite bind_ret by exact eq_refl. eexists. split; [exact eq_refl|].
  pose proof (shuffled_ok _ _ S Hok0) as Hok3. split; [by apply with_ratios_ok|].
  destruct S as [Sp ->]. done.
Qed.

(** Choosing a distribution never loses or duplicates a key: the three
    shuffles permute the pool, stay inside it, and the sizes of the hot and the
    cold part add up to the pool. *)
Theorem set_key_dist_permutes (d : key_dist_t) (q h : Z) (kg : keygen) :
  kg_ok kg -> 0 <= h <= 100 ->
  exists kg', set_key_dist d q h kg = Ret 0 kg' /\ kg_ok kg' /\ key_pool kg' ≡ₚ key_pool kg /\
    key_dist kg' = d /\ load_cnt kg' = load_cnt kg.
Proof. apply set_key_dist_ok. Qed.

(** ** Handing out keys *)

(** The answers of [n] calls of [get_next_key_for_load]. *)
Fixpoint load_keys (n : nat) : M keygen (list (option (list Z))) :=
  match n with
  | O => ret []
  | S n' => let* k := get_next_key_for_load in let* l := load_keys n' in ret (k :: l)
  end.

Definition load_counted (kg : keygen) : keygen :=
  Keygen (key_pool kg) (nr_key kg) (key_size kg) (key_dist kg) (query_ratio kg) (hotset_ratio kg)
    (nr_hotset kg) (nr_coldset kg) (load_cnt kg + 1) (rands kg).

Lemma load_counted_ok kg : kg_ok kg -> load_cnt kg < nr_key kg -> kg_ok (load_counted kg).
Proof. intros [? ? ? ? ?] Hlt. split; simpl; try done; lia. Qed.

Lemma next_for_load_end kg : nr_key kg <= load_cnt kg -> get_next_key_for_load kg = Ret None kg.
Proof.
  intros H. unfold get_next_key_for_load. erewrite bind_ret by exact eq_refl.
  by rewrite (proj2 (Z.leb_le _ _)) by lia.
Qed.

Lemma next_for_load_key kg :
  kg_ok kg -> load_cnt kg < nr_key kg ->
  exists k, key_pool kg !! Z.to_nat (load_cnt kg) = Some k /\
    get_next_key_for_load kg = Ret (Some k) (load_counted kg).
Proof.
  intros [Hlen Hnr Hh Hc Hl] Hlt.
  destruct (lookup_lt_is_Some_2 (key_pool kg) (Z.to_nat (load_cnt kg))) as [k Hk]; [lia|].
  exists k. split; [done|]. unfold get_next_key_for_load.
  erewrite bind_ret by exact eq_refl. rewrite (proj2 (Z.leb_gt _ _)) by lia.
  erewrite bind_ret by (rewrite Hk; exact eq_refl). erewrite bind_ret by exact eq_refl.
  unfold ret, load_counted. by rewrite wrap_small by lia.
Qed.

Lemma load_keys_drop n kg :
  kg_ok kg ->
  exists kg', load_keys n kg =
    Ret ((Some <$> take n (drop (Z.to_nat (load_cnt kg)) (key_pool kg))) ++
         replicate (n - (Z.to_nat (nr_key kg - load_cnt kg)))%nat None) kg'.
Proof.
  revert kg. induction n as [|n IH]; intros kg Hok; [by exists kg|].
  pose proof (ko_pool _ Hok) as Hlen. pose proof (ko_load _ Hok) as Hl. cbn [load_keys].
  destruct (decide (load_cnt kg < nr_key kg)) as [E|E].
  - destruct (next_for_load_key kg Hok E) as (k & Hk & H1). rewrite (bind_ret _ _ _ _ _ H1).
    destruct (IH (load_counted kg)) as (kg' & He); [by apply load_counted_ok|].
    exists kg'. rewrite (bind_ret _ _ _ _ _ He). rewrite (drop_S (key_pool kg) k (Z.to_nat (load_cnt kg)) Hk).
    replace (Z.to_nat (load_cnt (load_counted kg))) with (S (Z.to_nat (load_cnt kg))) by (simpl; lia).
    replace (S n - Z.to_nat (nr_key kg - load_cnt kg))%nat
      with (n - Z.to_nat (nr_key (load_counted kg) - load_cnt (load_counted kg)))%nat by (simpl; lia).
    done.
  - rewrite (bind_ret _ _ _ _ _ (next_for_load_end kg ltac:(lia))).
    destruct (IH kg Hok) as (kg' & He). rewrite (bind_ret _ _ _ _ _ He). exists kg'.
    rewrite drop_ge, !take_nil by lia. replace (Z.to_nat (nr_key kg - load_cnt kg)) with 0%nat by lia.
    simpl. by rewrite Nat.sub_0_r.
Qed.

(** The load phase hands out every key of the pool exactly once, in order,
    and the null pointer from then on. *)
Theorem load_each_key_once (kg : keygen) (extra : nat) :
  kg_ok kg -> load_cnt kg = 0 ->
  exists kg', load_keys (Z.to_nat (nr_key kg) + extra) kg =
    Ret ((Some <$> key_pool kg) ++ replicate extra None) kg'.
Proof.
  intros Hok Hl. destruct (load_keys_drop (Z.to_nat (nr_key kg) + extra) kg Hok) as (kg' & He).
  exists kg'. rewrite He, Hl, Z.sub_0_r, drop_0. destruct Hok.
  rewrite take_ge by lia. do 2 f_equal. f_equal. lia.
Qed.

(** The parts that the distribution draws from are not empty. *)
Definition drawable (kg : keygen) : Prop :=
  match key_dist kg with
  | KEY_DIST_UNIFORM => 0 < nr_key kg
  | KEY_DIST_LOCALITY => 0 < nr_hotset kg /\ 0 < nr_coldset kg
  | KEY_DIST_HOTSPOT => False
  end.

(** After [n] more calls of [rand]. *)
Definition drew (n : nat) (kg : keygen) : keygen :=
  Keygen (key_pool kg) (nr_key kg) (key_size kg) (key_dist kg) (query_ratio kg) (hotset_ratio kg)
    (nr_hotset kg) (nr_coldset kg) (load_cnt kg) (n + rands kg).

(** A draw from [m] keys that begin at index [lo]. *)
Lemma draw_key kg lo m r :
  kg_ok kg -> 0 <= lo -> 0 < m -> lo + m <= nr_key kg -> 0 <= r < 2 ^ 31 ->
  exists k, key_pool kg !! Z.to_nat (lo + r mod m) = Some k /\ pool_at (u64 (lo + r mod m)) kg = Ret (Some k) kg.
Proof.
  intros [Hlen Hnr _ _ _] Hlo Hm Hhi Hr. pose proof (Z.mod_pos_bound r m Hm).
  destruct (lookup_lt_is_Some_2 (key_pool kg) (Z.to_nat (lo + r mod m))) as [k Hk]; [lia|].
  exists k. split; [done|]. unfold pool_at. erewrite bind_ret by exact eq_refl.
  rewrite wrap_small by lia. by rewrite Hk.
Qed.

Lemma drew_ok n kg : kg_ok kg -> kg_ok (drew n kg).
Proof. by intros [? ? ? ? ?]. Qed.

Lemma get_next_key_draws kg :
  kg_ok kg -> drawable kg ->
  exists k n, get_next_key kg = Ret (Some k) (drew n kg) /\ k ∈ key_pool kg.
Proof.
  intros Hok Hd. pose proof Hok as [Hlen Hnr Hh Hc _].
  pose proof (rand_nonneg (rands kg)) as Hr0. pose proof (rand_nonneg (S (rands kg))) as Hr1.
  unfold get_next_key, drawable in *. erewrite bind_ret by exact eq_refl. destruct (key_dist kg); [| |done].
  - destruct (draw_key (drew 1 kg) 0 (nr_key kg) (rand (rands kg))) as (k & Hk & Hp);
      [by apply drew_ok | done | done | simpl; lia | done |].
    exists k, 1%nat. split; [|by eapply list_elem_of_lookup_2].
    erewrite bind_ret by exact eq_refl. destruct (mod_u64_ok (rand (rands kg)) (nr_key kg) (drew 1 kg) Hr0 Hd) as [Hm Hb].
    rewrite (bind_ret _ _ _ _ _ Hm). rewrite Z.add_0_l in Hp. by rewrite wrap_small in Hp by lia.
  - destruct Hd as [Hd1 Hd2]. erewrite bind_ret by exact eq_refl. destruct (Z.rem (rand (rands kg)) 100 <? query_ratio kg).
    + destruct (draw_key (drew 2 kg) 0 (nr_hotset kg) (rand (S (rands kg)))) as (k & Hk & Hp);
        [by apply drew_ok | done | done | simpl; lia | done |].
      exists k, 2%nat. split; [|by eapply list_elem_of_lookup_2].
      erewrite bind_ret by exact eq_refl.
      destruct (mod_u64_ok (rand (S (rands kg))) (nr_hotset kg) (drew 2 kg) Hr1 Hd1) as [Hm Hb].
      rewrite (bind_ret _ _ _ _ _ Hm). rewrite Z.add_0_l in Hp. by rewrite wrap_small in Hp by lia.
    + destruct (draw_key (drew 2 kg) (nr_hotset kg) (nr_coldset kg) (rand (S (rands kg)))) as (k & Hk & Hp);
        [by apply drew_ok | lia | done | simpl; lia | done |].
      exists k, 2%nat. split; [|by eapply list_elem_of_lookup_2].
      erewrite bind_ret by exact eq_refl.
      destruct (mod_u64_ok (rand (S (rands kg))) (nr_coldset kg) (drew 2 kg) Hr1 Hd2) as [Hm Hb].
      rewrite (bind_ret _ _ _ _ _ Hm). exact Hp.
Qed.

(** The query phase answers keys of the pool, and the hot part of it as often
    as a draw below [query_ratio] comes up; but a part that is empty stops the
    program with a division by zero. For a pool of fewer than 100 keys the hot
    part is empty whatever the ratio. *)
Theorem get_next_key_locality (kg : keygen) :
  kg_ok kg -> key_dist kg = KEY_DIST_LOCALITY ->
  let hot := Z.rem (rand (rands kg)) 100 <? query_ratio kg in
  ((if hot then nr_hotset kg else nr_coldset kg) = 0 -> get_next_key kg = Stop SDivZero) /\
  ((if hot then nr_hotset kg else nr_coldset kg) <> 0 ->
     exists i k kg', get_next_key kg = Ret (Some k) kg' /\ key_pool kg !! Z.to_nat i = Some k /\
       if hot then 0 <= i < nr_hotset kg else nr_hotset kg <= i < nr_key kg) /\
  (nr_key kg < 100 -> forall q h, nr_hotset (with_ratios q h kg) = 0).
Proof.
  intros Hok Hd hot. pose proof Hok as [Hlen Hnr Hh Hc Hl]. split_and!.
  - intros H0. unfold get_next_key. erewrite bind_ret by exact eq_refl. rewrite Hd.
    erewrite bind_ret by exact eq_refl. fold hot. unfold mod_u64, massert.
    destruct hot; (erewrite bind_ret by exact eq_refl); by rewrite H0.
  - intros H0. pose proof (rand_nonneg (S (rands kg))) as Hr.
    unfold get_next_key. erewrite bind_ret by exact eq_refl. rewrite Hd.
    erewrite bind_ret by exact eq_refl. fold hot.
    destruct hot; erewrite bind_ret by exact eq_refl; cbn [rands].
    + destruct (draw_key (drew 2 kg) 0 (nr_hotset kg) (rand (S (rands kg)))) as (k & Hk & Hp);
        [by apply drew_ok | done | lia | simpl; lia | done |].
      destruct (mod_u64_ok (rand (S (rands kg))) (nr_hotset kg) (drew 2 kg)) as [Hm Hb]; [done | lia|].
      rewrite (bind_ret _ _ _ _ _ Hm). rewrite Z.add_0_l in Hp, Hk. rewrite wrap_small in Hp by lia.
      eexists _, k, _. split; [exact Hp|]. by split.
    + destruct (draw_key (drew 2 kg) (nr_hotset kg) (nr_coldset kg) (rand (S (rands kg)))) as (k & Hk & Hp);
        [by apply drew_ok | lia | lia | simpl; lia | done |].
      destruct (mod_u64_ok (rand (S (rands kg))) (nr_coldset kg) (drew 2 kg)) as [Hm Hb]; [done | lia|].
      rewrite (bind_ret _ _ _ _ _ Hm). eexists _, k, _. split; [exact Hp|]. split; [exact Hk | lia].
  - intros Hn q h. unfold with_ratios. simpl. rewrite Z.div_small by lia. done.
Qed.
End Keygen.

(** ** Instances *)

Definition sample_rand (k : nat) : Z := (7 * Z.of_nat k + 3) mod 101.

Lemma sample_rand_ok k : 0 <= sample_rand k < 2 ^ 31.
Proof. unfold sample_rand. pose proof (Z.mod_pos_bound (7 * Z.of_nat k + 3) 101). lia. Qed.

Definition sample_pool : keygen :=
  Keygen [[1]; [2]; [3]; [4]] 4 1 KEY_DIST_LOCALITY 50 50 2 2 0 0.

Lemma sample_pool_ok : kg_ok sample_pool.
Proof. split; simpl; lia. Qed.

Lemma keygen_init_ok_witness :
  exists kg, keygen_init sample_rand 3 6 = Some kg /\ Forall (is_key 6) (key_pool kg).
Proof.
  destruct (keygen_init_ok sample_rand sample_rand_ok 3 6) as (kg & H1 & _ & _ & _ & H2); [lia | lia|].
  exists kg. split; [exact H1 | exact H2].
Defined.

Lemma set_key_dist_permutes_witness :
  exists kg', set_key_dist sample_rand KEY_DIST_LOCALITY 60 40 sample_pool = Ret 0 kg' /\
    key_pool kg' ≡ₚ [[1]; [2]; [3]; [4]].
Proof.
  destruct (set_key_dist_permutes sample_rand sample_rand_ok KEY_DIST_LOCALITY 60 40 sample_pool sample_pool_ok)
    as (kg' & H1 & _ & H2 & _); [lia|].
  exists kg'. split; [exact H1 | exact H2].
Defined.

Lemma load_each_key_once_witness :
  exists kg', load_keys 5 sample_pool = Ret [Some [1]; Some [2]; Some [3]; Some [4]; None] kg'.
Proof. exact (load_each_key_once sample_pool 1 sample_pool_ok eq_refl). Defined.

Lemma get_next_key_locality_witness :
  exists i k kg', get_next_key sample_rand sample_pool = Ret (Some k) kg' /\
    key_pool sample_pool !! Z.to_nat i = Some k /\ 0 <= i < 2.
Proof.
  destruct (get_next_key_locality sample_rand sample_rand_ok sample_pool sample_pool_ok eq_refl) as (_ & H & _).
  exact (H ltac:(by vm_compute)).
Defined.
