(* ===== verification/World.v ===== *)
(** * The state of one handler ([include/handler.h], [include/request.h],
    [include/device.h], [include/stopwatch.h])

    A [world] is one handler thread's state with the memory it uses: the index,
    the device, the in-flight counter, the six queues, the arrays of requests,
    iocbs and callbacks, the malloc'ed buffers and step parameters, the I/O
    given to the kernel and not yet reaped, and the acknowledgements written to
    sockets. The operations of the other files are state transformers on it.

    Pointers are addresses in [Z], 0 is null. [&hlr->req_arr[i]] is [i + 1], and
    the same for the other two arrays. The queues are bounded lists: [Queue]
    proves that the linked queues of the code behave so. A request's [hlr]
    member always points to the handler the world is, and is left out.
    [gettimeofday] and the result of [io_submit] are the environment's: the
    n-th call gives the n-th value. *)

From Stdlib Require Import ZArith Lia.
From stdpp Require Import prelude gmap.
From S2P Require Import Prelude Config Queue CondLock.

#[local] Open Scope Z_scope.

(** ** Data *)

(** The functions that the code reaches through pointers. *)
Inductive fn : Type :=
| FN_NULL
| FN_net_end_req
| FN_cb_keycmp
| FN_cb_part_table_read
| FN_cb_part_table_write
| FN_cb_part_table_write_for_get
| FN_reap_seg_buf.

Record timeval : Type := Timeval { tv_sec : Z; tv_usec : Z }.

Record stopwatch : Type := Stopwatch { sw_start_tv : timeval; sw_end_tv : timeval; lap_sum : Z }.

Record key_struct : Type := KeyStruct {
  key : list Z;              (* char key[KEY_LEN_MAX] *)
  key_len : Z;
  hash_low : Z;
  hash_high : Z
}.

Record val_struct : Type := ValStruct { value : Z; val_len : Z }.

Record request : Type := Request {
  req_type : req_type_t;
  seq_num : Z;
  req_key : key_struct;
  req_value : val_struct;
  req_sw : stopwatch;
  end_req : fn;
  params : Z;
  temp_buf : Z;
  cl_sock : Z
}.

Definition with_params (p : Z) (rq : request) : request :=
  Request (req_type rq) (seq_num rq) (req_key rq) (req_value rq) (req_sw rq) (end_req rq) p
    (temp_buf rq) (cl_sock rq).

Definition with_temp_buf (b : Z) (rq : request) : request :=
  Request (req_type rq) (seq_num rq) (req_key rq) (req_value rq) (req_sw rq) (end_req rq) (params rq)
    b (cl_sock rq).

Record netack : Type := Netack { ack_seq_num : Z; ack_type : req_type_t; elapsed_time : Z }.

Record callback : Type := Callback { cb_func : fn; cb_arg : Z; cb_iocb : Z }.

(** The members of libaio's [struct iocb] that [io_prep_pread] and
    [io_prep_pwrite] fill in, and its [data]. *)
Record iocb : Type := Iocb {
  io_is_write : bool;
  io_fildes : Z;
  io_buf : Z;
  io_nbytes : Z;
  io_offset : Z;
  io_data : Z
}.

Record segment : Type := Segment {
  seg_idx : Z;
  seg_state : seg_state_t;
  start_addr : Z;
  end_addr : Z;
  seg_offset : Z
}.

(** [staged_seg] points into [seg_array]: it is the index it points to. *)
Record dev_abs : Type := DevAbs {
  dev_name : list Z;         (* char dev_name[128] *)
  dev_fd : Z;
  nr_logical_block : Z;
  logical_block_size : Z;
  size_in_byte : Z;
  segment_size : Z;
  nr_segment : Z;
  seg_array : list segment;
  staged_seg : nat;
  staged_seg_idx : Z;
  staged_seg_buf : Z;
  grain_unit : Z
}.

Section World.
Context {I P : Type}.

Record world : Type := World {
  ops : I;
  dev : dev_abs;
  flying : cl_lock;
  req_q : Fifo.fifo;
  retry_q : Fifo.fifo;
  done_q : Fifo.fifo;
  req_pool : Fifo.fifo;
  iocb_pool : Fifo.fifo;
  cb_pool : Fifo.fifo;
  req_arr : gmap Z request;
  iocb_arr : gmap Z iocb;
  cb_arr : gmap Z callback;
  bufs : gmap Z (list Z);
  params_heap : gmap Z P;
  mem_next : Z;
  aio_ctx : list Z;
  acks : list (Z * netack);
  ticks : nat;
  submits : nat;
  gettimeofday : nat -> timeval;
  io_submit_rc : nat -> Z
}.

Definition set_ops (v : I) (w : world) : world :=
  World v (dev w) (flying w) (req_q w) (retry_q w) (done_q w) (req_pool w) (iocb_pool w)
    (cb_pool w) (req_arr w) (iocb_arr w) (cb_arr w) (bufs w) (params_heap w)
    (mem_next w) (aio_ctx w) (acks w) (ticks w) (submits w) (gettimeofday w)
    (io_submit_rc w).

Definition set_dev (v : dev_abs) (w : world) : world :=
  World (ops w) v (flying w) (req_q w) (retry_q w) (done_q w) (req_pool w) (iocb_pool w)
    (cb_pool w) (req_arr w) (iocb_arr w) (cb_arr w) (bufs w) (params_heap w)
    (mem_next w) (aio_ctx w) (acks w) (ticks w) (submits w) (gettimeofday w)
    (io_submit_rc w).

Definition set_flying (v : cl_lock) (w : world) : world :=
  World (ops w) (dev w) v (req_q w) (retry_q w) (done_q w) (req_pool w) (iocb_pool w)
    (cb_pool w) (req_arr w) (iocb_arr w) (cb_arr w) (bufs w) (params_heap w)
    (mem_next w) (aio_ctx w) (acks w) (ticks w) (submits w) (gettimeofday w)
    (io_submit_rc w).

Definition set_req_q (v : Fifo.fifo) (w : world) : world :=
  World (ops w) (dev w) (flying w) v (retry_q w) (done_q w) (req_pool w) (iocb_pool w)
    (cb_pool w) (req_arr w) (iocb_arr w) (cb_arr w) (bufs w) (params_heap w)
    (mem_next w) (aio_ctx w) (acks w) (ticks w) (submits w) (gettimeofday w)
    (io_submit_rc w).

Definition set_retry_q (v : Fifo.fifo) (w : world) : world :=
  World (ops w) (dev w) (flying w) (req_q w) v (done_q w) (req_pool w) (iocb_pool w)
    (cb_pool w) (req_arr w) (iocb_arr w) (cb_arr w) (bufs w) (params_heap w)
    (mem_next w) (aio_ctx w) (acks w) (ticks w) (submits w) (gettimeofday w)
    (io_submit_rc w).

Definition set_done_q (v : Fifo.fifo) (w : world) : world :=
  World (ops w) (dev w) (flying w) (req_q w) (retry_q w) v (req_pool w) (iocb_pool w)
    (cb_pool w) (req_arr w) (iocb_arr w) (cb_arr w) (bufs w) (params_heap w)
    (mem_next w) (aio_ctx w) (acks w) (ticks w) (submits w) (gettimeofday w)
    (io_submit_rc w).

Definition set_req_pool (v : Fifo.fifo) (w : world) : world :=
  World (ops w) (dev w) (flying w) (req_q w) (retry_q w) (done_q w) v (iocb_pool w)
    (cb_pool w) (req_arr w) (iocb_arr w) (cb_arr w) (bufs w) (params_heap w)
    (mem_next w) (aio_ctx w) (acks w) (ticks w) (submits w) (gettimeofday w)
    (io_submit_rc w).

Definition set_iocb_pool (v : Fifo.fifo) (w : world) : world :=
  World (ops w) (dev w) (flying w) (req_q w) (retry_q w) (done_q w) (req_pool w) v
    (cb_pool w) (req_arr w) (iocb_arr w) (cb_arr w) (bufs w) (params_heap w)
    (mem_next w) (aio_ctx w) (acks w) (ticks w) (submits w) (gettimeofday w)
    (io_submit_rc w).

Definition set_cb_pool (v : Fifo.fifo) (w : world) : world :=
  World (ops w) (dev w) (flying w) (req_q w) (retry_q w) (done_q w) (req_pool w)
    (iocb_pool w) v (req_arr w) (iocb_arr w) (cb_arr w) (bufs w) (params_heap w)
    (mem_next w) (aio_ctx w) (acks w) (ticks w) (submits w) (gettimeofday w)
    (io_submit_rc w).

Definition set_req_arr (v : gmap Z request) (w : world) : world :=
  World (ops w) (dev w) (flying w) (req_q w) (retry_q w) (done_q w) (req_pool w)
    (iocb_pool w) (cb_pool w) v (iocb_arr w) (cb_arr w) (bufs w) (params_heap w)
    (mem_next w) (aio_ctx w) (acks w) (ticks w) (submits w) (gettimeofday w)
    (io_submit_rc w).

Definition set_iocb_arr (v : gmap Z iocb) (w : world) : world :=
  World (ops w) (dev w) (flying w) (req_q w) (retry_q w) (done_q w) (req_pool w)
    (iocb_pool w) (cb_pool w) (req_arr w) v (cb_arr w) (bufs w) (params_heap w)
    (mem_next w) (aio_ctx w) (acks w) (ticks w) (submits w) (gettimeofday w)
    (io_submit_rc w).

Definition set_cb_arr (v : gmap Z callback) (w : world) : world :=
  World (ops w) (dev w) (flying w) (req_q w) (retry_q w) (done_q w) (req_pool w)
    (iocb_pool w) (cb_pool w) (req_arr w) (iocb_arr w) v (bufs w) (params_heap w)
    (mem_next w) (aio_ctx w) (acks w) (ticks w) (submits w) (gettimeofday w)
    (io_submit_rc w).

Definition set_bufs (v : gmap Z (list Z)) (w : world) : world :=
  World (ops w) (dev w) (flying w) (req_q w) (retry_q w) (done_q w) (req_pool w)
    (iocb_pool w) (cb_pool w) (req_arr w) (iocb_arr w) (cb_arr w) v (params_heap w)
    (mem_next w) (aio_ctx w) (acks w) (ticks w) (submits w) (gettimeofday w)
    (io_submit_rc w).

Definition set_params_heap (v : gmap Z P) (w : world) : world :=
  World (ops w) (dev w) (flying w) (req_q w) (retry_q w) (done_q w) (req_pool w)
    (iocb_pool w) (cb_pool w) (req_arr w) (iocb_arr w) (cb_arr w) (bufs w) v
    (mem_next w) (aio_ctx w) (acks w) (ticks w) (submits w) (gettimeofday w)
    (io_submit_rc w).

Definition set_mem_next (v : Z) (w : world) : world :=
  World (ops w) (dev w) (flying w) (req_q w) (retry_q w) (done_q w) (req_pool w)
    (iocb_pool w) (cb_pool w) (req_arr w) (iocb_arr w) (cb_arr w) (bufs w)
    (params_heap w) v (aio_ctx w) (acks w) (ticks w) (submits w) (gettimeofday w)
    (io_submit_rc w).

Definition set_aio_ctx (v : list Z) (w : world) : world :=
  World (ops w) (dev w) (flying w) (req_q w) (retry_q w) (done_q w) (req_pool w)
    (iocb_pool w) (cb_pool w) (req_arr w) (iocb_arr w) (cb_arr w) (bufs w)
    (params_heap w) (mem_next w) v (acks w) (ticks w) (submits w) (gettimeofday w)
    (io_submit_rc w).

Definition set_acks (v : list (Z * netack)) (w : world) : world :=
  World (ops w) (dev w) (flying w) (req_q w) (retry_q w) (done_q w) (req_pool w)
    (iocb_pool w) (cb_pool w) (req_arr w) (iocb_arr w) (cb_arr w) (bufs w)
    (params_heap w) (mem_next w) (aio_ctx w) v (ticks w) (submits w)
    (gettimeofday w) (io_submit_rc w).

Definition set_ticks (v : nat) (w : world) : world :=
  World (ops w) (dev w) (flying w) (req_q w) (retry_q w) (done_q w) (req_pool w)
    (iocb_pool w) (cb_pool w) (req_arr w) (iocb_arr w) (cb_arr w) (bufs w)
    (params_heap w) (mem_next w) (aio_ctx w) (acks w) v (submits w) (gettimeofday w)
    (io_submit_rc w).

Definition set_submits (v : nat) (w : world) : world :=
  World (ops w) (dev w) (flying w) (req_q w) (retry_q w) (done_q w) (req_pool w)
    (iocb_pool w) (cb_pool w) (req_arr w) (iocb_arr w) (cb_arr w) (bufs w)
    (params_heap w) (mem_next w) (aio_ctx w) (acks w) (ticks w) v (gettimeofday w)
    (io_submit_rc w).

(** ** The queues *)

Inductive qname : Type := REQ_Q | RETRY_Q | DONE_Q | REQ_POOL | IOCB_POOL | CB_POOL.

Definition qget (q : qname) (w : world) : Fifo.fifo :=
  match q with
  | REQ_Q => req_q w | RETRY_Q => retry_q w | DONE_Q => done_q w
  | REQ_POOL => req_pool w | IOCB_POOL => iocb_pool w | CB_POOL => cb_pool w
  end.

Definition qset (q : qname) (f : Fifo.fifo) : world -> world :=
  match q with
  | REQ_Q => set_req_q f | RETRY_Q => set_retry_q f | DONE_Q => set_done_q f
  | REQ_POOL => set_req_pool f | IOCB_POOL => set_iocb_pool f | CB_POOL => set_cb_pool f
  end.

Definition q_enqueue (x : Z) (q : qname) : M world bool := fun w =>
  let '(b, f) := Fifo.enqueue x (qget q w) in Ret b (qset q f w).

Definition q_dequeue (q : qname) : M world Z := fun w =>
  let '(x, f) := Fifo.dequeue (qget q w) in Ret x (qset q f w).

(** ** Memory *)

(** Following a pointer to an object that malloc or an array holds. *)
Definition deref {A} (p : Z) (m : gmap Z A) : M world A :=
  match m !! p with
  | Some a => ret a
  | None => mstop (if p =? NULL then SNull else SDangling)
  end.

Definition load_req (r : Z) : M world request := fun w => deref r (req_arr w) w.
Definition store_req (r : Z) (rq : request) : M world unit :=
  fun w => Ret tt (set_req_arr (<[r := rq]> (req_arr w)) w).
Definition load_cb (c : Z) : M world callback := fun w => deref c (cb_arr w) w.
Definition store_cb (c : Z) (cb : callback) : M world unit :=
  fun w => Ret tt (set_cb_arr (<[c := cb]> (cb_arr w)) w).
Definition load_iocb (i : Z) : M world iocb := fun w => deref i (iocb_arr w) w.
Definition store_iocb (i : Z) (io : iocb) : M world unit :=
  fun w => Ret tt (set_iocb_arr (<[i := io]> (iocb_arr w)) w).

Definition load_buf (p : Z) : M world (list Z) := fun w => deref p (bufs w) w.
Definition store_buf (p : Z) (b : list Z) : M world unit :=
  fun w => Ret tt (set_bufs (<[p := b]> (bufs w)) w).

(** [malloc] never fails here. The content of fresh memory is zero: anonymous
    mappings are, and the other buffers are filled before they are read. *)
Definition malloc (n : Z) : M world Z := fun w =>
  let p := mem_next w in
  Ret p (set_mem_next (p + 1) (set_bufs (<[p := replicate (Z.to_nat n) 0]> (bufs w)) w)).

Definition free_buf (p : Z) : M world unit :=
  if p =? NULL then ret tt
  else load_buf p ;;; fun w => Ret tt (set_bufs (delete p (bufs w)) w).

(** [memcpy(dst + doff, src, len)] from an array that is not in a buffer. *)
Definition copy_in (dst doff : Z) (src : list Z) : M world unit :=
  let* b := load_buf dst in
  let* b' := mopt SBounds (blit b doff src) in
  store_buf dst b'.

(** [memcpy(dst + doff, src + soff, n)] between two buffers. *)
Definition memcpy (dst doff src soff n : Z) : M world unit :=
  let* s := load_buf src in
  let* x := mopt SBounds (slice s soff n) in
  copy_in dst doff x.

(** The step parameters of a request are malloc'ed objects of their own. *)
Definition new_params (p : P) : M world Z := fun w =>
  let a := mem_next w in
  Ret a (set_mem_next (a + 1) (set_params_heap (<[a := p]> (params_heap w)) w)).
Definition load_params (a : Z) : M world P := fun w => deref a (params_heap w) w.
Definition store_params (a : Z) (p : P) : M world unit :=
  fun w => Ret tt (set_params_heap (<[a := p]> (params_heap w)) w).
Definition free_params (a : Z) : M world unit :=
  load_params a ;;; fun w => Ret tt (set_params_heap (delete a (params_heap w)) w).

(** [if (!req->params) req->params = make_params();] and the pointer after it. *)
Definition ensure_params (r : Z) (p0 : P) : M world Z :=
  let* rq := load_req r in
  if params rq =? NULL then
    let* p := new_params p0 in
    store_req r (with_params p rq) ;;;
    ret p
  else ret (params rq).

(** ** Time *)

Definition now_tv : M world timeval :=
  fun w => Ret (gettimeofday w (ticks w)) (set_ticks (S (ticks w)) w).

(** A world in which nothing has been allocated, for concrete runs. *)
Definition blank_dev : dev_abs := DevAbs [] 0 0 0 0 0 0 [] 0 0 0 0.

Definition blank_world (i : I) : world :=
  World i blank_dev (cl_init QDEPTH false)
    (Fifo.init QSIZE) (Fifo.init QSIZE) (Fifo.init QSIZE)
    (Fifo.init QSIZE) (Fifo.init QSIZE) (Fifo.init QSIZE)
    ∅ ∅ ∅ ∅ ∅ 1 [] [] 0 0 (fun n => Timeval (Z.of_nat n) 0) (fun _ => 1).

(** ** Lemmas on memory *)

Lemma deref_Some {A} p (m : gmap Z A) a w : m !! p = Some a -> deref p m w = Ret a w.
Proof. unfold deref. by intros ->. Qed.

Lemma deref_inv {A} p (m : gmap Z A) a w w' :
  deref p m w = Ret a w' -> m !! p = Some a /\ w' = w.
Proof. unfold deref. case_match; [by intros [= -> ->] | done]. Qed.

Lemma load_req_ok r rq w : req_arr w !! r = Some rq -> load_req r w = Ret rq w.
Proof. apply deref_Some. Qed.

Lemma load_cb_ok c cb w : cb_arr w !! c = Some cb -> load_cb c w = Ret cb w.
Proof. apply deref_Some. Qed.

Lemma load_iocb_ok i io w : iocb_arr w !! i = Some io -> load_iocb i w = Ret io w.
Proof. apply deref_Some. Qed.

Lemma load_buf_ok p b w : bufs w !! p = Some b -> load_buf p w = Ret b w.
Proof. apply deref_Some. Qed.

Lemma load_params_ok a p w : params_heap w !! a = Some p -> load_params a w = Ret p w.
Proof. apply deref_Some. Qed.

Lemma free_params_ok a p w :
  params_heap w !! a = Some p ->
  free_params a w = Ret tt (set_params_heap (delete a (params_heap w)) w).
Proof. intros H. unfold free_params. by rewrite (bind_ret _ _ _ _ _ (load_params_ok _ _ _ H)). Qed.

Lemma free_buf_ok p b w :
  p <> NULL -> bufs w !! p = Some b -> free_buf p w = Ret tt (set_bufs (delete p (bufs w)) w).
Proof.
  intros Hp H. unfold free_buf. rewrite (proj2 (Z.eqb_neq _ _)) by done.
  by rewrite (bind_ret _ _ _ _ _ (load_buf_ok _ _ _ H)).
Qed.

(** A request with fresh step parameters. *)
Definition started (r : Z) (rq : request) (p0 : P) (w : world) : world :=
  set_req_arr (<[r := with_params (mem_next w) rq]> (req_arr w))
    (set_mem_next (mem_next w + 1)
       (set_params_heap (<[mem_next w := p0]> (params_heap w)) w)).

Lemma ensure_params_new r rq p0 w :
  req_arr w !! r = Some rq -> params rq = NULL ->
  ensure_params r p0 w = Ret (mem_next w) (started r rq p0 w).
Proof.
  intros Hr Hp. unfold ensure_params. rewrite (bind_ret _ _ _ _ _ (load_req_ok _ _ _ Hr)).
  by rewrite Hp.
Qed.

Lemma ensure_params_old r rq p0 w :
  req_arr w !! r = Some rq -> params rq <> NULL -> ensure_params r p0 w = Ret (params rq) w.
Proof.
  intros Hr Hp. unfold ensure_params. rewrite (bind_ret _ _ _ _ _ (load_req_ok _ _ _ Hr)).
  by rewrite (proj2 (Z.eqb_neq _ _)).
Qed.

Lemma q_dequeue_nil q w : Fifo.items (qget q w) = [] -> q_dequeue q w = Ret NULL w.
Proof.
  unfold q_dequeue, Fifo.dequeue. intros ->. by destruct w, q.
Qed.

Lemma q_dequeue_cons q w x l :
  Fifo.items (qget q w) = x :: l ->
  q_dequeue q w = Ret x (qset q (Fifo.Mk l (Fifo.cap (qget q w))) w).
Proof. unfold q_dequeue, Fifo.dequeue. by intros ->. Qed.

Lemma q_enqueue_room q w x :
  Fifo.full (qget q w) = false ->
  q_enqueue x q w =
  Ret true (qset q (Fifo.Mk (Fifo.items (qget q w) ++ [x]) (Fifo.cap (qget q w))) w).
Proof. unfold q_enqueue, Fifo.enqueue. by intros ->. Qed.

Lemma q_enqueue_full q w x : Fifo.full (qget q w) = true -> q_enqueue x q w = Ret false w.
Proof. unfold q_enqueue, Fifo.enqueue. intros ->. by destruct w, q. Qed.

End World.

(** Unfolds the memory accesses on top of the combinators. *)
Ltac unfold_mem :=
  unfold load_req, store_req, load_cb, store_cb, load_iocb, store_iocb, load_buf, store_buf,
    load_params, store_params, deref, mstop; unfold_stmt.

Arguments world : clear implicits.
