(* ===== verification/Stopwatch.v ===== *)
(** * Elapsed time ([include/stopwatch.h]) *)

From Stdlib Require Import ZArith Lia SpecFloat.
From stdpp Require Import prelude.
From S2P Require Import Prelude World.

#[local] Open Scope Z_scope.

(** [sw_create]: calloc. *)
Definition sw_zero : stopwatch := Stopwatch (Timeval 0 0) (Timeval 0 0) 0.

Definition sw_start {I P} (sw : stopwatch) : M (world I P) stopwatch :=
  let* t := now_tv in ret (Stopwatch t (sw_end_tv sw) (lap_sum sw)).

Definition sw_end {I P} (sw : stopwatch) : M (world I P) stopwatch :=
  let* t := now_tv in ret (Stopwatch (sw_start_tv sw) t (lap_sum sw)).

Definition sw_get_usec (sw : stopwatch) : Z :=
  let usec := (tv_sec (sw_end_tv sw) - tv_sec (sw_start_tv sw)) * 1000000 in
  usec + (tv_usec (sw_end_tv sw) - tv_usec (sw_start_tv sw)).

Definition sw_lap {I P} (sw : stopwatch) : M (world I P) stopwatch :=
  let* sw1 := sw_end sw in
  ret (Stopwatch (sw_start_tv sw1) (sw_end_tv sw1) (lap_sum sw1 + sw_get_usec sw1)).

Definition sw_get_lap_sum (sw : stopwatch) : Z := lap_sum sw.

(** A [time_t] as a [double]: the binary64 number next to it. *)
Definition double_of (z : Z) : spec_float := binary_normalize 53 1024 z 0 false.

Definition sw_get_sec (sw : stopwatch) : spec_float :=
  let sec := tv_sec (sw_end_tv sw) - tv_sec (sw_start_tv sw) in
  let usec := tv_usec (sw_end_tv sw) - tv_usec (sw_start_tv sw) in
  SFadd 53 1024 (double_of sec) (SFdiv 53 1024 (double_of usec) (double_of 1000000)).

(** The three numbers [sw_print] prints. *)
Definition sw_print_fields (usec : Z) : Z * Z * Z :=
  (Z.quot usec 1000000, Z.rem (Z.quot usec 1000) 1000, Z.rem usec 1000).

(** A point in time in microseconds. *)
Definition tv_total (t : timeval) : Z := tv_sec t * 1000000 + tv_usec t.

Lemma sw_get_usec_total sw : sw_get_usec sw = tv_total (sw_end_tv sw) - tv_total (sw_start_tv sw).
Proof. unfold sw_get_usec, tv_total. lia. Qed.

(** Whole seconds are not rounded twice. *)
Lemma sw_get_sec_whole sw :
  tv_usec (sw_end_tv sw) = tv_usec (sw_start_tv sw) -> tv_sec (sw_start_tv sw) <= tv_sec (sw_end_tv sw) ->
  sw_get_sec sw = double_of (tv_sec (sw_end_tv sw) - tv_sec (sw_start_tv sw)).
Proof.
  intros Hu Hs. unfold sw_get_sec. rewrite Hu, Z.sub_diag.
  change (SFdiv 53 1024 (double_of 0) (double_of 1000000)) with (S754_zero false).
  destruct (tv_sec (sw_end_tv sw) - tv_sec (sw_start_tv sw)) as [|p|p] eqn:E; [done| |lia].
  unfold double_of, binary_normalize, binary_round. destruct (shl_align _ _ _) as [m e].
  unfold binary_round_aux. destruct (shr_fexp _ _ _ _ _) as [m1 e1]. destruct (shr_fexp _ _ _ _ _) as [m2 e2].
  destruct (shr_m m2); try done. destruct (_ <=? _); done.
Qed.

(** A second and a half. *)
Example sw_get_sec_sample : sw_get_sec (Stopwatch (Timeval 3 800000) (Timeval 5 300000) 0) = SFdiv 53 1024 (double_of 3) (double_of 2).
Proof. by vm_compute. Qed.
