(* ===== verification/KvPair.v ===== *)
(** * Keys inside stored values ([copy_key_to_value] and [keycmp_k_v] of
    [src/hopscotch.c] and, word for word the same, [src/bigkv_index.c])

    A stored value starts with one byte of key length and the key itself; a
    lookup reads the value back and compares. *)

From Stdlib Require Import ZArith Lia.
From stdpp Require Import prelude gmap.
From S2P Require Import Prelude Config World.

#[local] Open Scope Z_scope.

(** The C library's [strncmp] on unsigned characters; [None] when it would read
    past the end of one of the arrays. *)
Fixpoint strncmp (a b : list Z) (n : nat) : option Z :=
  match n with
  | O => Some 0
  | S n' =>
      match a, b with
      | x :: a', y :: b' =>
          if x =? y then (if x =? 0 then Some 0 else strncmp a' b' n') else Some (x - y)
      | _, _ => None
      end
  end.

(** [keycmp_k_v] on the bytes the value pointer leads to. *)
Definition keycmp (k : key_struct) (v : list Z) : option Z :=
  match v with
  | [] => None
  | l :: rest =>
      if negb (key_len k =? l) then Some (if l <? key_len k then 1 else -1)
      else strncmp (key k) rest (Z.to_nat (key_len k))
  end.

Definition keycmp_k_v {I P} (k : key_struct) (v : val_struct) : M (world I P) Z :=
  let* b := load_buf (value v) in
  mopt SBounds (keycmp k b).

Definition copy_key_to_value {I P} (k : key_struct) (v : val_struct) : M (world I P) unit :=
  copy_in (value v) 0 [key_len k] ;;;
  let* kb := mopt SBounds (slice (key k) 0 (key_len k)) in
  copy_in (value v) 1 kb.

(** ** Well-formed keys *)

Record key_ok (k : key_struct) : Prop := KeyOk {
  key_ok_size : Z.of_nat (length (key k)) = KEY_LEN_MAX;
  key_ok_len : 0 <= key_len k < KEY_LEN_MAX
}.

(** The bytes of the key, and the buffer that holds it in front of [rest]. *)
Definition key_bytes (k : key_struct) : list Z := take (Z.to_nat (key_len k)) (key k).

Definition stored (k : key_struct) (rest : list Z) : list Z := key_len k :: key_bytes k ++ rest.

(** ** Lemmas *)

#[local] Arguments keycmp : simpl never.

Lemma strncmp_refl a n b : (n <= length a)%nat -> strncmp a (take n a ++ b) n = Some 0.
Proof.
  revert a. induction n as [|n IH]; intros [|x a]; simpl; try done; try lia.
  intros. rewrite Z.eqb_refl. case_match; [done|]. apply IH. lia.
Qed.

(** Without a null character in the key, equality is all that answers 0. *)
Lemma strncmp_eq a b n :
  strncmp a b n = Some 0 -> Forall (fun x => x <> 0) (take n a) -> take n a = take n b.
Proof.
  revert a b. induction n as [|n IH]; intros [|x a] [|y b]; simpl; try done.
  destruct (x =? y) eqn:Hxy; reflect_bools; [|intros [= ?]; lia].
  intros H [Hx Hf]%Forall_cons. subst. rewrite (proj2 (Z.eqb_neq y 0)) in H by done.
  f_equal. by apply IH.
Qed.

Lemma key_bytes_length k : key_ok k -> length (key_bytes k) = Z.to_nat (key_len k).
Proof. intros [H1 H2]. unfold key_bytes. rewrite length_take. lia. Qed.

Lemma keycmp_stored k rest : key_ok k -> keycmp k (stored k rest) = Some 0.
Proof.
  intros [H1 H2]. unfold keycmp, stored. rewrite Z.eqb_refl. cbn [negb].
  apply strncmp_refl. lia.
Qed.

Lemma keycmp_zero k v :
  keycmp k v = Some 0 -> Forall (fun x => x <> 0) (key_bytes k) ->
  exists rest, v = key_len k :: rest /\ take (Z.to_nat (key_len k)) rest = key_bytes k.
Proof.
  unfold keycmp. destruct v as [|l rest]; [done|].
  destruct (key_len k =? l) eqn:Hl; simpl; reflect_bools; [|by case_match].
  intros H Hf. exists rest. split; [congruence|].
  symmetry. by apply strncmp_eq.
Qed.

(** The two copies leave the key in front of the old rest of the buffer. *)
Lemma copy_key_bytes k b :
  key_ok k -> 1 + key_len k <= Z.of_nat (length b) ->
  exists b1, blit b 0 [key_len k] = Some b1 /\
    slice (key k) 0 (key_len k) = Some (key_bytes k) /\
    blit b1 1 (key_bytes k) = Some (stored k (drop (S (Z.to_nat (key_len k))) b)).
Proof.
  intros Hk Hb. pose proof (key_bytes_length _ Hk) as Hkb. destruct Hk as [H1 H2].
  destruct b as [|b0 b]; simpl in Hb; [lia|].
  exists (key_len k :: b). split_and!.
  - rewrite blit_eq by (simpl; lia). done.
  - rewrite slice_eq by lia. done.
  - rewrite blit_eq by (simpl; lia). simpl. unfold stored. f_equal. f_equal.
    by rewrite Hkb.
Qed.

Lemma copy_key_to_value_ok {I P} k v b (w : world I P) :
  key_ok k -> bufs w !! value v = Some b -> 1 + key_len k <= Z.of_nat (length b) ->
  copy_key_to_value k v w =
  Ret tt (set_bufs (<[value v := stored k (drop (S (Z.to_nat (key_len k))) b)]> (bufs w)) w).
Proof.
  intros Hk Hb Hl. destruct (copy_key_bytes _ _ Hk Hl) as (b1 & H1 & H2 & H3).
  unfold copy_key_to_value, copy_in. unfold_mem.
  rewrite Hb. simpl. rewrite H1. simpl. rewrite H2. simpl.
  rewrite lookup_insert_eq. simpl. rewrite H3. simpl. by rewrite insert_insert_eq.
Qed.

(** ** Properties *)

(** [copy_key_to_value] writes the key where [keycmp_k_v] looks for it: the
    copy stays inside a buffer of at least 1 + len bytes and keeps the rest of
    it, and a comparison with the same key then answers 0. *)
Theorem copy_key_then_keycmp {I P} (k : key_struct) (v : val_struct) (b : list Z) (w : world I P) :
  key_ok k -> bufs w !! value v = Some b -> 1 + key_len k <= Z.of_nat (length b) ->
  exists w', copy_key_to_value k v w = Ret tt w' /\
    keycmp_k_v k v w' = Ret 0 w' /\
    bufs w' !! value v = Some (stored k (drop (S (Z.to_nat (key_len k))) b)).
Proof.
  intros Hk Hb Hl. rewrite (copy_key_to_value_ok _ _ _ _ Hk Hb Hl). eexists. split; [done|].
  unfold keycmp_k_v. unfold_mem. simpl. rewrite lookup_insert_eq. simpl.
  by rewrite keycmp_stored.
Qed.

(** A key of three bytes, in a buffer of eight. *)
Definition sample_key : key_struct := KeyStruct (107 :: 101 :: 121 :: replicate 253 0) 3 0 0.

Definition sample_world : world unit unit := set_bufs {[ 9 := replicate 8 255 ]} (blank_world tt).

Lemma sample_key_ok : key_ok sample_key.
Proof. split; unfold KEY_LEN_MAX; simpl; lia. Qed.

Lemma copy_key_then_keycmp_witness :
  exists w', copy_key_to_value sample_key (ValStruct 9 8) sample_world = Ret tt w' /\
    keycmp_k_v sample_key (ValStruct 9 8) w' = Ret 0 w' /\
    bufs w' !! 9 = Some [3; 107; 101; 121; 255; 255; 255; 255].
Proof.
  apply (copy_key_then_keycmp sample_key (ValStruct 9 8) (replicate 8 255) sample_world).
  - exact sample_key_ok.
  - reflexivity.
  - simpl. lia.
Defined.

(** A lookup never takes a wrong pair for its own: when [keycmp_k_v] answers
    0 and the key has no null byte, the value starts with exactly that key's
    length and bytes. *)
Theorem keycmp_zero_same_key {I P} (k : key_struct) (v : val_struct) (w w' : world I P) :
  keycmp_k_v k v w = Ret 0 w' -> Forall (fun x => x <> 0) (key_bytes k) ->
  w' = w /\ exists rest, bufs w !! value v = Some (key_len k :: rest) /\
             take (Z.to_nat (key_len k)) rest = key_bytes k.
Proof.
  intros (b & w1 & Hb & Hk)%bind_inv Hf. apply deref_inv in Hb as [Hb ->].
  unfold mopt in Hk. destruct (keycmp k b) eqn:Hc; [|done]. injection Hk as -> <-.
  split; [done|]. apply keycmp_zero in Hc as (rest & -> & Hr); [|done]. by exists rest.
Qed.

Lemma keycmp_zero_same_key_witness :
  exists rest, bufs (set_bufs {[ 9 := [3; 107; 101; 121; 0] ]} sample_world) !! 9 = Some (3 :: rest) /\
    take 3 rest = [107; 101; 121].
Proof.
  apply (keycmp_zero_same_key sample_key (ValStruct 9 5)
           (set_bufs {[ 9 := [3; 107; 101; 121; 0] ]} sample_world)
           (set_bufs {[ 9 := [3; 107; 101; 121; 0] ]} sample_world)).
  - reflexivity.
  - repeat constructor; lia.
Defined.
