(* ===== verification/Request.v ===== *)
(** * Requests ([src/request.c], the structures of [include/type.h]) *)

From Stdlib Require Import ZArith Lia.
From stdpp Require Import prelude gmap.
From S2P Require Import Prelude Config Queue CondLock World Stopwatch KvPair.

#[local] Open Scope Z_scope.

(** [struct netreq] *)
Record netreq : Type := Netreq {
  nr_type : req_type_t;
  nr_keylen : Z;
  nr_seq_num : Z;
  nr_key : list Z;           (* char key[KEY_LEN] *)
  nr_kv_size : Z
}.

Section Request.
Context {I P : Type}.

(** The city hash library: the two halves of the 128-bit hash of a key. *)
Variable CityHash128 : list Z -> Z -> Z * Z.

(** [set_value] with no SPDK: the buffer is zeroed, or filled from
    [input_val]. *)
Definition set_value (len : Z) (input_val : option (list Z)) : M (world I P) val_struct :=
  let* p := malloc (u32 len) in
  match input_val with
  | Some b => let* x := mopt SBounds (slice b 0 (u32 len)) in copy_in p 0 x
  | None => ret tt
  end ;;;
  ret (ValStruct p (u32 len)).

Definition make_request_from_netreq (nr : netreq) (sock : Z) : M (world I P) Z :=
  let* r := q_dequeue REQ_POOL in
  let* rq := load_req r in
  let* kb := mopt SBounds (slice (nr_key nr) 0 (nr_keylen nr)) in
  let* k := mopt SBounds (blit (key (req_key rq)) 0 kb) in
  let* sw := sw_start (req_sw rq) in
  store_req r
    (Request (nr_type nr) (nr_seq_num nr)
       (KeyStruct k (nr_keylen nr) (hash_low (req_key rq)) (hash_high (req_key rq)))
       (ValStruct NULL (nr_kv_size nr)) sw (end_req rq) (params rq) (temp_buf rq) sock) ;;;
  ret r.

Definition add_request_info (r : Z) : M (world I P) unit :=
  let* rq := load_req r in
  let hash128 := CityHash128 (key (req_key rq)) (key_len (req_key rq)) in
  let k := KeyStruct (key (req_key rq)) (key_len (req_key rq)) (fst hash128) (snd hash128) in
  let* v :=
    match req_type rq with
    | REQ_TYPE_GET => set_value VALUE_LEN_MAX None
    | REQ_TYPE_SET => set_value (val_len (req_value rq)) None
    | _ => ret (req_value rq)
    end in
  store_req r
    (Request (req_type rq) (seq_num rq) k v (req_sw rq) FN_net_end_req NULL NULL (cl_sock rq)).

(** [send_ack] of [src/util.c] without buffering: one write of the whole
    structure. The result of the write is not looked at by the caller. *)
Definition send_ack (sock : Z) (ack : netack) : M (world I P) unit :=
  mmod (fun w => set_acks (acks w ++ [(sock, ack)]) w).

Definition net_end_req (r : Z) : M (world I P) unit :=
  let* rq := load_req r in
  let* sw := sw_end (req_sw rq) in
  let rq' := Request (req_type rq) (seq_num rq) (req_key rq) (req_value rq) sw (end_req rq)
               (params rq) (temp_buf rq) (cl_sock rq) in
  store_req r rq' ;;;
  send_ack (cl_sock rq') (Netack (seq_num rq') (req_type rq') (sw_get_usec sw)) ;;;
  mmod (fun w => set_flying (cl_release (flying w)) w) ;;;
  (if negb (params rq' =? NULL) then free_params (params rq') else ret tt) ;;;
  free_buf (value (req_value rq')) ;;;
  q_enqueue r REQ_POOL ;;;
  ret tt.

End Request.

Section RequestSpec.
Context {I P : Type}.
Implicit Types w : world I P.

(** What a request owns: its step parameters, if any, and its value buffer. *)
Record owns w (rq : request) : Prop := Owns {
  ow_params : params rq = NULL \/ is_Some (params_heap w !! params rq);
  ow_value : value (req_value rq) <> NULL;
  ow_buf : is_Some (bufs w !! value (req_value rq))
}.

(** The acknowledgement of a request that ends at time [t]. *)
Definition ack_of (rq : request) (t : timeval) : netack :=
  Netack (seq_num rq) (req_type rq) (tv_total t - tv_total (sw_start_tv (req_sw rq))).

(** Ending a request: what changes and what does not. *)
Record ended (r : Z) (rq : request) w w' : Prop := Ended {
  en_acks : acks w' = acks w ++ [(cl_sock rq, ack_of rq (gettimeofday w (ticks w)))];
  en_flying : flying w' = cl_release (flying w);
  en_pool : req_pool w' = Fifo.Mk (Fifo.items (req_pool w) ++ [r]) (Fifo.cap (req_pool w));
  en_params : params_heap w' = (if params rq =? NULL then params_heap w else delete (params rq) (params_heap w));
  en_bufs : bufs w' = delete (value (req_value rq)) (bufs w);
  en_ops : ops w' = ops w;
  en_dev : dev w' = dev w;
  en_retry : retry_q w' = retry_q w;
  en_req : req_q w' = req_q w;
  en_cb : cb_pool w' = cb_pool w;
  en_cb_arr : cb_arr w' = cb_arr w;
  en_iocb : iocb_pool w' = iocb_pool w;
  en_iocb_arr : iocb_arr w' = iocb_arr w;
  en_aio : aio_ctx w' = aio_ctx w;
  en_next : mem_next w' = mem_next w;
  en_others : forall r', r' <> r -> req_arr w' !! r' = req_arr w !! r';
  en_self : exists rq', req_arr w' !! r = Some rq' /\ req_key rq' = req_key rq
}.

Lemma sw_end_ok sw w :
  sw_end sw w = Ret (Stopwatch (sw_start_tv sw) (gettimeofday w (ticks w)) (lap_sum sw))
                  (set_ticks (S (ticks w)) w).
Proof. done. Qed.

Lemma net_end_req_ok (r : Z) (rq : request) w :
  req_arr w !! r = Some rq -> owns w rq -> Fifo.full (req_pool w) = false ->
  exists w', net_end_req r w = Ret tt w' /\ ended r rq w w'.
Proof.
  intros Hr [Hp Hv [b Hb]] Hfull. unfold net_end_req.
  rewrite (bind_ret _ _ _ _ _ (load_req_ok _ _ _ Hr)). rewrite (bind_ret _ _ _ _ _ (sw_end_ok _ _)).
  cbn zeta. do 3 (erewrite bind_ret by exact eq_refl).
  cbn [cl_sock req_value params seq_num req_type].
  match goal with |- context [bind _ _ ?v] => set (w1 := v) end.
  assert (bufs w1 = bufs w) as Hb1 by done.
  assert (req_pool w1 = req_pool w) as Hq1 by done.
  assert (exists w2, (if negb (params rq =? NULL) then free_params (params rq) else ret tt) w1 = Ret tt w2 /\
            w2 = set_params_heap (if params rq =? NULL then params_heap w else delete (params rq) (params_heap w)) w1)
    as (w2 & Hw2 & Heq).
  { destruct (params rq =? NULL) eqn:E; cbn [negb]; reflect_bools.
    - exists w1. split; [done|]. by destruct w.
    - destruct Hp as [Hp|[p Hp]]; [done|]. erewrite free_params_ok by exact Hp. eexists. by split. }
  rewrite (bind_ret _ _ _ _ _ Hw2). clear Hw2. subst w2.
  erewrite bind_ret by (by apply (free_buf_ok _ b)).
  erewrite bind_ret by (by apply q_enqueue_room).
  eexists. split; [done|]. split; simpl; try done.
  - unfold ack_of. by rewrite sw_get_usec_total.
  - intros r' Hne. by rewrite lookup_insert_ne.
  - rewrite lookup_insert_eq. by eexists.
Qed.

(** C32: ending a request answers the client once, with the request's own
    sequence number, type and elapsed time, gives the permit back, frees the
    step parameters and the value buffer, and returns the request to the pool;
    the index, the device and the other requests are untouched. *)
Theorem net_end_req_answers_once (r : Z) (rq : request) w :
  req_arr w !! r = Some rq -> owns w rq -> Fifo.full (req_pool w) = false ->
  exists w', net_end_req r w = Ret tt w' /\
    acks w' = acks w ++ [(cl_sock rq, ack_of rq (gettimeofday w (ticks w)))] /\
    flying w' = cl_release (flying w) /\
    Fifo.items (req_pool w') = Fifo.items (req_pool w) ++ [r] /\
    bufs w' !! value (req_value rq) = None /\
    (params rq <> NULL -> params_heap w' !! params rq = None) /\
    ops w' = ops w /\ dev w' = dev w /\
    (forall r', r' <> r -> req_arr w' !! r' = req_arr w !! r').
Proof.
  intros Hr Ho Hf. destruct (net_end_req_ok r rq w Hr Ho Hf) as (w' & He & Hd).
  exists w'. split; [exact He|]. destruct Hd. split_and!; try done.
  - by rewrite en_pool0.
  - rewrite en_bufs0. apply lookup_delete_eq.
  - intros Hp. rewrite en_params0, (proj2 (Z.eqb_neq _ _)) by done. apply lookup_delete_eq.
Qed.

End RequestSpec.

(** A request with parameters at 7 and a value buffer at 8, ended 5 s after it
    began. *)
Definition ending_req : request :=
  Request REQ_TYPE_SET 42 (KeyStruct (replicate 256 97) 3 0 0) (ValStruct 8 128)
    (Stopwatch (Timeval 0 250) (Timeval 0 0) 0) FN_net_end_req 7 NULL 4.

Definition ending_world : world unit unit :=
  set_ticks 5 (set_flying (ClLock QDEPTH 3 false) (set_params_heap {[ 7 := tt ]}
    (set_bufs {[ 8 := replicate 128 0 ]} (set_req_arr {[ 1 := ending_req ]} (blank_world tt))))).

Lemma net_end_req_answers_once_witness :
  exists w', net_end_req 1 ending_world = Ret tt w' /\
    acks w' = [(4, Netack 42 REQ_TYPE_SET 4999750)] /\ flying w' = ClLock QDEPTH 2 false /\
    Fifo.items (req_pool w') = [1].
Proof.
  destruct (net_end_req_answers_once 1 ending_req ending_world) as (w' & H1 & H2 & H3 & H4 & _).
  - reflexivity.
  - split; [right; by exists tt | done | by eexists].
  - reflexivity.
  - exists w'. split_and!; [exact H1 | exact H2 | exact H3 | exact H4].
Defined.
