(* ===== verification/Device.v ===== *)
(** * The device: segments, the log allocator and staged I/O ([src/device.c],
    [src/aio.c], [make_callback] of [include/handler.h])

    Storage is a ring of fixed-size segments. One segment is staged in memory;
    space is handed out from it in 128-byte grains, and when a request does not
    fit the staged segment is written out and the next one of the ring is
    staged. Reads and writes of staged data are copies that call the callback
    at once; other reads are given to the kernel. *)

From Stdlib Require Import ZArith Lia.
From stdpp Require Import prelude gmap.
From S2P Require Import Prelude Config Queue CondLock World.

#[local] Open Scope Z_scope.

Section Device.
Context {I P : Type}.

(** The call through a function pointer: each index file supplies its own. *)
Variable call : fn -> Z -> M (world I P) unit.

Definition make_callback (f : fn) (arg : Z) : M (world I P) Z :=
  let* c := q_dequeue CB_POOL in
  load_cb c ;;;
  store_cb c (Callback f arg NULL) ;;;
  ret c.

(** ** [src/aio.c] *)

(** [io_submit] of one iocb, and the result of the C function around it. *)
Definition submit (i : Z) : M (world I P) Z := fun w =>
  let w1 := set_submits (S (submits w)) w in
  if io_submit_rc w (submits w) <? 0 then Ret (-1) w1
  else Ret 0 (set_aio_ctx (aio_ctx w ++ [i]) w1).

Definition aio_request (is_write : bool) (addr_in_byte size buf c : Z) : M (world I P) Z :=
  let* i := q_dequeue IOCB_POOL in
  load_iocb i ;;;
  let* cb := load_cb c in
  store_cb c (Callback (cb_func cb) (cb_arg cb) i) ;;;
  let* fd := mreads (fun w => dev_fd (dev w)) in
  store_iocb i (Iocb is_write fd buf (u32 size) addr_in_byte c) ;;;
  submit i.

Definition aio_read := aio_request false.
Definition aio_write := aio_request true.

(** ** [src/device.c] *)

(** [mmap] of anonymous memory, taken to succeed. *)
Definition alloc_seg_buffer (size : Z) : M (world I P) Z := malloc (u32 size).

Definition new_segment (seg_size i : Z) : segment :=
  Segment i SEG_STATE_FREE (u64 (i * seg_size)) (u64 ((i + 1) * seg_size)) (u64 (i * seg_size)).

Definition with_state (st : seg_state_t) (s : segment) : segment :=
  Segment (seg_idx s) st (start_addr s) (end_addr s) (seg_offset s).

Definition with_offset (o : Z) (s : segment) : segment :=
  Segment (seg_idx s) (seg_state s) (start_addr s) (end_addr s) o.

(** [dev_abs_init]: the file descriptor that open returns and what the two
    ioctls store, [None] when they fail. *)
Definition dev_abs_init (name : list Z) (fd : Z) (blkgetsize blksszget : option Z)
  : M (world I P) unit :=
  massert (Z.of_nat (length name) <? 128) SBounds ;;;
  massert (negb (fd <? 0)) SAbort ;;;
  let* nlb := mopt SAbort blkgetsize in
  let* lbs := mopt SAbort blksszget in
  let bytes := u64 (u32 nlb * u32 lbs) in
  let nr := u32 (bytes / SEGMENT_SIZE) in
  let segs := (fun i : nat => new_segment SEGMENT_SIZE (Z.of_nat i)) <$> seq 0 (Z.to_nat nr) in
  match segs with
  | [] => mstop SBounds
  | s0 :: rest =>
      let* b := alloc_seg_buffer SEGMENT_SIZE in
      mmod (set_dev (DevAbs name fd (u32 nlb) (u32 lbs) bytes SEGMENT_SIZE nr
                       (with_state SEG_STATE_STAGED s0 :: rest) 0 0 b GRAIN_UNIT))
  end.

(** [*dev->staged_seg], read and written. *)
Definition get_staged : M (world I P) segment := fun w =>
  mopt SBounds (seg_array (dev w) !! staged_seg (dev w)) w.

Definition with_segs (l : list segment) (d : dev_abs) : dev_abs :=
  DevAbs (dev_name d) (dev_fd d) (nr_logical_block d) (logical_block_size d) (size_in_byte d)
    (segment_size d) (nr_segment d) l (staged_seg d) (staged_seg_idx d) (staged_seg_buf d)
    (grain_unit d).

Definition with_staged (i : nat) (idx : Z) (d : dev_abs) : dev_abs :=
  DevAbs (dev_name d) (dev_fd d) (nr_logical_block d) (logical_block_size d) (size_in_byte d)
    (segment_size d) (nr_segment d) (seg_array d) i idx (staged_seg_buf d) (grain_unit d).

Definition with_buf (b : Z) (d : dev_abs) : dev_abs :=
  DevAbs (dev_name d) (dev_fd d) (nr_logical_block d) (logical_block_size d) (size_in_byte d)
    (segment_size d) (nr_segment d) (seg_array d) (staged_seg d) (staged_seg_idx d) b
    (grain_unit d).

Definition upd_staged (f : segment -> segment) : M (world I P) unit :=
  let* s := get_staged in
  mmod (fun w => set_dev (with_segs (<[staged_seg (dev w) := f s]> (seg_array (dev w))) (dev w)) w).

Definition is_staged (d : dev_abs) (ss : segment) (pba : Z) : Z :=
  let addr_in_byte := u64 (pba * grain_unit d) in
  if addr_in_byte <? start_addr ss then -1
  else if seg_offset ss <=? addr_in_byte then 1
  else 0.

Definition dev_abs_read (pba size_in_grain buf c : Z) : M (world I P) Z :=
  let* d := mreads dev in
  let* ss := get_staged in
  let size := u32 (size_in_grain * grain_unit d) in
  let addr_in_byte := u64 (pba * grain_unit d) in
  if is_staged d ss pba =? 0 then
    let offset := u64 (addr_in_byte - start_addr ss) in
    memcpy buf 0 (staged_seg_buf d) offset size ;;;
    let* cb := load_cb c in
    call (cb_func cb) (cb_arg cb) ;;;
    q_enqueue c CB_POOL ;;;
    ret 0
  else aio_read addr_in_byte size buf c.

Definition dev_abs_write (pba size_in_grain buf c : Z) : M (world I P) Z :=
  let* d := mreads dev in
  let* ss := get_staged in
  let size := u32 (size_in_grain * grain_unit d) in
  let offset := u64 (pba * grain_unit d - start_addr ss) in
  memcpy (staged_seg_buf d) offset buf 0 size ;;;
  let* cb := load_cb c in
  call (cb_func cb) (cb_arg cb) ;;;
  q_enqueue c CB_POOL ;;;
  ret 0.

Definition reap_seg_buf (arg : Z) : M (world I P) unit := free_buf arg.

Definition stage_next_segment : M (world I P) unit :=
  let* d := mreads dev in
  massert (negb (nr_segment d =? 0)) SDivZero ;;;
  let idx := u32 (staged_seg_idx d + 1) mod nr_segment d in
  mmod (fun w => set_dev (with_staged (Z.to_nat idx) idx (dev w)) w) ;;;
  upd_staged (fun s => with_offset (start_addr s) (with_state SEG_STATE_STAGED s)) ;;;
  let* b := alloc_seg_buffer (segment_size d) in
  mmod (fun w => set_dev (with_buf b (dev w)) w).

(** The branch of [get_next_pba] without space: the staged segment is given to
    the kernel and the next one staged. *)
Definition write_out_staged (ss : segment) : M (world I P) unit :=
  let* d := mreads dev in
  upd_staged (with_state SEG_STATE_USED) ;;;
  let* new_cb := make_callback FN_reap_seg_buf (staged_seg_buf d) in
  aio_write (start_addr ss) (segment_size d) (staged_seg_buf d) new_cb ;;;
  stage_next_segment.

(** The rest of [get_next_pba]: [size] bytes, rounded up to grains, from the
    staged segment. *)
Definition take_grains (size : Z) : M (world I P) Z :=
  let* d := mreads dev in
  let* ss := get_staged in
  massert (negb (grain_unit d =? 0)) SDivZero ;;;
  let pba := seg_offset ss / grain_unit d in
  let size' := if size mod grain_unit d =? 0 then size
               else u32 (size + (grain_unit d - size mod grain_unit d)) in
  massert (size' mod grain_unit d =? 0) SAbort ;;;
  upd_staged (fun s => with_offset (u64 (seg_offset s + size')) s) ;;;
  ret pba.

Definition get_next_pba (size : Z) : M (world I P) Z :=
  let* ss := get_staged in
  (if end_addr ss <? u64 (seg_offset ss + size) then write_out_staged ss else ret tt) ;;;
  take_grains size.

End Device.

(** ** The specification: an endless log on a ring of segments

    Position [lap * seg + off] counts all the bytes ever handed out; the segment
    on the device is [lap mod nr]. *)

Module Ring.
Record ring : Type := Mk { seg : Z; nr : Z; grain : Z; lap : Z; off : Z }.

Definition round_up (g n : Z) : Z := if n mod g =? 0 then n else n + (g - n mod g).

(** Whether the allocation moves on to the next segment. *)
Definition rotates (size : Z) (r : ring) : bool := seg r <? off r + size.

Definition next_lap (r : ring) : ring := Mk (seg r) (nr r) (grain r) (lap r + 1) 0.

Definition pos (r : ring) : Z := lap r * seg r + off r.

Definition take (size : Z) (r : ring) : ring :=
  Mk (seg r) (nr r) (grain r) (lap r) (off r + round_up (grain r) size).

(** Where an allocation of [size] bytes comes from. *)
Definition source (size : Z) (r : ring) : ring := if rotates size r then next_lap r else r.

(** The allocation of [size] bytes: its log position and the log after it. *)
Definition alloc (size : Z) (r : ring) : Z * ring :=
  (pos (source size r), take size (source size r)).

(** A sequence of allocations: positions, and the log after them. *)
Fixpoint allocs (sizes : list Z) (r : ring) : list Z * ring :=
  match sizes with
  | [] => ([], r)
  | s :: rest => let '(v, r1) := alloc s r in let '(l, r2) := allocs rest r1 in (v :: l, r2)
  end.

(** Where a log position is on the device. *)
Definition phys (r : ring) (v : Z) : Z := v mod (nr r * seg r).

Record ok (r : ring) : Prop := Ok {
  ok_grain : 0 < grain r;
  ok_seg : 0 < seg r;
  ok_aligned : (grain r | seg r);
  ok_nr : 0 < nr r;
  ok_lap : 0 <= lap r;
  ok_off : 0 <= off r <= seg r;
  ok_off_aligned : (grain r | off r)
}.

Lemma round_up_aligned g n : 0 < g -> (g | round_up g n).
Proof.
  intros Hg. unfold round_up. destruct (n mod g =? 0) eqn:E; reflect_bools.
  - by apply Z.mod_divide; lia.
  - exists (n / g + 1). rewrite Z.mod_eq by lia. ring.
Qed.

Lemma round_up_bounds g n : 0 < g -> n <= round_up g n < n + g.
Proof.
  intros Hg. unfold round_up. pose proof (Z.mod_pos_bound n g Hg).
  destruct (n mod g =? 0) eqn:E; reflect_bools; lia.
Qed.

(** Rounding up does not leave an aligned range: the test of the code on the
    unrounded size is enough. *)
Lemma round_up_fits g a n b :
  0 < g -> (g | a) -> (g | b) -> a + n <= b -> a + round_up g n <= b.
Proof.
  intros Hg [ka ->] [kb ->] H. pose proof (round_up_bounds g n Hg) as Hb.
  destruct (round_up_aligned g n Hg) as [k Hk]. rewrite Hk in *.
  assert ((k + ka - kb) * g < 1 * g) as Hlt by lia.
  apply Z.mul_lt_mono_pos_r in Hlt; [|done].
  assert ((k + ka) * g <= kb * g) by (apply Z.mul_le_mono_nonneg_r; lia). lia.
Qed.

Lemma next_lap_ok r : ok r -> ok (next_lap r).
Proof. intros []. split; simpl; try done; try lia. apply Z.divide_0_r. Qed.

Lemma take_ok size r : ok r -> 0 <= size -> off r + size <= seg r -> ok (take size r).
Proof.
  intros [Hg Hs Ha Hn Hl Ho Hoa] Hsz Hfit. pose proof (round_up_bounds (grain r) size Hg).
  split; simpl; try done.
  - split; [lia|]. by apply round_up_fits.
  - apply Z.divide_add_r; auto using round_up_aligned.
Qed.

(** The segment the allocation comes from has room for it. *)
Lemma source_room size r :
  ok r -> 0 <= size <= seg r ->
  ok (source size r) /\ off (source size r) + size <= seg r /\
  lap r <= lap (source size r) /\ seg (source size r) = seg r /\
  nr (source size r) = nr r /\ grain (source size r) = grain r.
Proof.
  intros Hok Hsz. unfold source, rotates.
  destruct (seg r <? off r + size) eqn:E; reflect_bools; simpl; split_and!; try done; try lia.
  by apply next_lap_ok.
Qed.

Lemma alloc_ok size r : ok r -> 0 <= size <= seg r -> ok (snd (alloc size r)).
Proof.
  intros Hok Hsz. destruct (source_room _ _ Hok Hsz) as (? & ? & ? & Hs & _).
  apply take_ok; [done | lia | by rewrite Hs].
Qed.

(** The device address of a position inside segment [lap]. *)
Lemma phys_seg r k o :
  0 < nr r -> 0 < seg r -> 0 <= o < seg r ->
  phys r (k * seg r + o) = (k mod nr r) * seg r + o.
Proof.
  intros Hn Hs Ho. unfold phys.
  rewrite (Z.div_mod k (nr r)) at 1 by lia.
  replace ((nr r * (k / nr r) + k mod nr r) * seg r + o)
    with ((k mod nr r) * seg r + o + (k / nr r) * (nr r * seg r)) by ring.
  rewrite Z.mod_add by nia. apply Z.mod_small.
  pose proof (Z.mod_pos_bound k (nr r) Hn). nia.
Qed.
(** Blocks of the log at most [nr] segments apart do not share device bytes. *)
Lemma phys_disjoint r k1 o1 n1 k2 o2 n2 :
  0 < nr r -> 0 < seg r -> k1 <= k2 < k1 + nr r ->
  0 <= o1 -> 0 < n1 -> o1 + n1 <= seg r -> 0 <= o2 -> 0 < n2 -> o2 + n2 <= seg r ->
  k1 * seg r + o1 + n1 <= k2 * seg r + o2 ->
  let p1 := phys r (k1 * seg r + o1) in
  let p2 := phys r (k2 * seg r + o2) in
  p1 + n1 <= p2 \/ p2 + n2 <= p1.
Proof.
  intros Hn Hs Hk Ho1 Hn1 Hf1 Ho2 Hn2 Hf2 Hlt. simpl.
  rewrite !phys_seg by lia.
  destruct (decide (k1 = k2)) as [->|Hne]; [lia|].
  pose proof (Z.mod_pos_bound k1 (nr r) Hn). pose proof (Z.mod_pos_bound k2 (nr r) Hn).
  assert (k1 mod nr r <> k2 mod nr r) as Hm.
  { intros He. apply Hne. replace k2 with (k1 + (k2 - k1)) in He by lia.
    replace k1 with (k1 + 0) in He at 1 by lia.
    apply mod_add_inj in He; lia. }
  destruct (decide (k1 mod nr r < k2 mod nr r)).
  - left. assert ((k1 mod nr r + 1) * seg r <= k2 mod nr r * seg r)
      by (apply Z.mul_le_mono_nonneg_r; lia). lia.
  - right. assert ((k2 mod nr r + 1) * seg r <= k1 mod nr r * seg r)
      by (apply Z.mul_le_mono_nonneg_r; lia). lia.
Qed.

(** The block of [n] bytes at log position [v] lies inside one segment, no
    earlier than the log [r] and no later than the log [r']. *)
Definition block (r r' : ring) (v n : Z) : Prop :=
  exists k o, v = k * seg r + o /\ lap r <= k <= lap r' /\ 0 <= o /\ o + n <= seg r /\
              pos r <= v /\ v + n <= pos r'.

Lemma alloc_block size r :
  ok r -> 0 < size <= seg r ->
  let r1 := snd (alloc size r) in
  block r r1 (fst (alloc size r)) (round_up (grain r) size) /\
  seg r1 = seg r /\ nr r1 = nr r /\ grain r1 = grain r /\ lap r <= lap r1 /\ pos r <= pos r1.
Proof.
  intros Hok Hsz. destruct (source_room size r Hok) as (Hok' & Hf & Hl & Hs & Hn & Hg); [lia|].
  pose proof (ok_off _ Hok') as Ho. pose proof (ok_off _ (take_ok size (source size r) Hok' ltac:(lia) ltac:(lia))) as Ho'.
  simpl in Ho'. rewrite Hg, Hs in Ho'. simpl.
  assert (pos r <= pos (source size r)) as Hpos.
  { unfold source, pos. destruct (rotates size r); simpl; [|lia]. pose proof (ok_off _ Hok). lia. }
  pose proof (round_up_bounds (grain r) size (ok_grain _ Hok)).
  unfold take, pos in *. simpl in *. rewrite Hs, Hg in *. split_and!; try done; try lia.
  exists (lap (source size r)), (off (source size r)). simpl. unfold pos. simpl. rewrite ?Hs.
  split_and!; try done; lia.
Qed.

#[global] Arguments alloc : simpl never.

Lemma allocs_spec sizes r :
  ok r -> Forall (fun s => 0 < s <= seg r) sizes ->
  let '(l, r') := allocs sizes r in
  length l = length sizes /\ lap r <= lap r' /\ pos r <= pos r' /\
  (forall i v s, l !! i = Some v -> sizes !! i = Some s -> block r r' v (round_up (grain r) s)) /\
  (forall i j vi vj si, (i < j)%nat -> l !! i = Some vi -> l !! j = Some vj -> sizes !! i = Some si ->
     vi + round_up (grain r) si <= vj).
Proof.
  revert r. induction sizes as [|s sizes IH]; intros r Hok Hf; cbn [allocs].
  - split_and!; try done; lia.
  - apply Forall_cons in Hf as [Hs Hf].
    destruct (alloc_block s r Hok Hs) as (Hb & Hsg & Hn & Hg & Hl & Hp).
    pose proof (alloc_ok s r Hok ltac:(lia)) as Hok1.
    destruct (alloc s r) as [v r1]. cbn [fst snd] in *.
    specialize (IH r1 Hok1). rewrite Hsg in IH. specialize (IH Hf).
    destruct (allocs sizes r1) as [l r2]. destruct IH as (Hlen & Hl2 & Hp2 & Hbl & Hord).
    rewrite Hg in Hbl, Hord. split_and!; [simpl; congruence | lia | lia | |].
    + intros [|i] w t; simpl.
      * intros [= <-] [= <-]. destruct Hb as (k & o & ? & ? & ? & ? & ? & ?).
        exists k, o. split_and!; try done; lia.
      * intros Hw Ht. destruct (Hbl _ _ _ Hw Ht) as (k & o & Hv & ? & ? & ? & ? & ?).
        rewrite Hsg in *. exists k, o. split_and!; try done; lia.
    + intros [|i] [|j] vi vj si Hij; simpl; try lia.
      * intros [= <-] Hj [= <-]. destruct Hb as (k & o & ? & ? & ? & ? & ? & Hle).
        assert (j < length sizes)%nat as Hjl by (rewrite <- Hlen; by eapply lookup_lt_Some).
        destruct (lookup_lt_is_Some_2 _ _ Hjl) as [sj Hsj].
        destruct (Hbl _ _ _ Hj Hsj) as (? & ? & ? & ? & ? & ? & Hge & _). lia.
      * apply Hord. lia.
Qed.

End Ring.

(** ** Well-formed devices *)

Record seg_wf (d : dev_abs) (i : nat) (s : segment) : Prop := SegWf {
  sw_idx : seg_idx s = Z.of_nat i;
  sw_start : start_addr s = Z.of_nat i * segment_size d;
  sw_end : end_addr s = (Z.of_nat i + 1) * segment_size d;
  sw_offset : start_addr s <= seg_offset s <= end_addr s;
  sw_offset_aligned : (grain_unit d | seg_offset s)
}.

Record dev_wf (d : dev_abs) : Prop := DevWf {
  dw_grain : 0 < grain_unit d;
  dw_seg : 0 < segment_size d < 2 ^ 32;
  dw_aligned : (grain_unit d | segment_size d);
  dw_nr : 0 < nr_segment d < 2 ^ 32;
  dw_len : Z.of_nat (length (seg_array d)) = nr_segment d;
  dw_total : nr_segment d * segment_size d + 2 ^ 32 <= 2 ^ 64;
  dw_segs : forall i s, seg_array d !! i = Some s -> seg_wf d i s;
  dw_idx : staged_seg_idx d = Z.of_nat (staged_seg d);
  dw_lt : (staged_seg d < length (seg_array d))%nat;
  dw_state : forall i s, seg_array d !! i = Some s ->
               (seg_state s = SEG_STATE_STAGED <-> i = staged_seg d)
}.

(** The device is where the log says. *)
Record ring_rel (r : Ring.ring) (d : dev_abs) : Prop := RingRel {
  rr_ok : Ring.ok r;
  rr_seg : Ring.seg r = segment_size d;
  rr_nr : Ring.nr r = nr_segment d;
  rr_grain : Ring.grain r = grain_unit d;
  rr_idx : staged_seg_idx d = Ring.lap r mod Ring.nr r;
  rr_off : forall s, seg_array d !! staged_seg d = Some s ->
             seg_offset s = start_addr s + Ring.off r
}.

Lemma dev_wf_staged d : dev_wf d -> is_Some (seg_array d !! staged_seg d).
Proof. intros H. apply lookup_lt_is_Some. apply H. Qed.

Lemma dev_wf_bounds d i s :
  dev_wf d -> seg_array d !! i = Some s ->
  0 <= start_addr s /\ end_addr s = start_addr s + segment_size d /\
  end_addr s <= nr_segment d * segment_size d.
Proof.
  intros H Hs. pose proof (dw_segs _ H _ _ Hs) as [_ -> -> _ _].
  apply lookup_lt_Some in Hs. destruct H as [_ Hseg _ _ Hlen _ _ _ _ _].
  assert (Z.of_nat i + 1 <= nr_segment d) by lia. nia.
Qed.

(** Replacing one segment by another well-formed one. *)
Lemma dev_wf_upd d i s' :
  dev_wf d -> seg_wf d i s' -> (seg_state s' = SEG_STATE_STAGED <-> i = staged_seg d) ->
  dev_wf (with_segs (<[i := s']> (seg_array d)) d).
Proof.
  intros [Hg Hs Ha Hn Hl Ht Hsegs Hi Hlt Hst] Hs' Hst'. split; simpl; try done.
  - by rewrite length_insert.
  - intros j s. rewrite list_lookup_insert. case_decide as Hd.
    + destruct Hd as [<- _]. intros [= <-]. by destruct Hs'; split.
    + intros Hj. by destruct (Hsegs _ _ Hj); split.
  - by rewrite length_insert.
  - intros j s. rewrite list_lookup_insert. case_decide as Hd; [|apply Hst].
    destruct Hd as [<- _]. intros [= <-]. done.
Qed.

(** ** Frames: what the allocator leaves alone *)

Section Frames.
Context {I P : Type}.
Implicit Types w : world I P.

(** Buffers are below the next address malloc hands out. *)
Record mem_ok w : Prop := MemOk {
  mo_next : 0 < mem_next w;
  mo_bufs : forall p b, bufs w !! p = Some b -> 0 < p < mem_next w
}.

(** The staged buffer is a block of one segment. *)
Definition staged_ok w : Prop :=
  exists sb, bufs w !! staged_seg_buf (dev w) = Some sb /\ Z.of_nat (length sb) = segment_size (dev w).

Record dev_frame w w' : Prop := DevFrame {
  df_ops : ops w' = ops w;
  df_flying : flying w' = flying w;
  df_req_q : req_q w' = req_q w;
  df_retry_q : retry_q w' = retry_q w;
  df_req_pool : req_pool w' = req_pool w;
  df_req_arr : req_arr w' = req_arr w;
  df_params : params_heap w' = params_heap w;
  df_acks : acks w' = acks w;
  df_ticks : ticks w' = ticks w;
  df_time : gettimeofday w' = gettimeofday w;
  df_mem : mem_ok w -> mem_ok w';
  df_bufs : mem_ok w -> forall p b, bufs w !! p = Some b -> bufs w' !! p = Some b
}.

(** The pools hold at least [n] callbacks and [n] iocbs, all of them real. *)
Record pools_ready (n : nat) w : Prop := PoolsReady {
  pr_cb : (n <= length (Fifo.items (cb_pool w)))%nat;
  pr_iocb : (n <= length (Fifo.items (iocb_pool w)))%nat;
  pr_cb_arr : Forall (fun c => is_Some (cb_arr w !! c)) (Fifo.items (cb_pool w));
  pr_iocb_arr : Forall (fun i => is_Some (iocb_arr w !! i)) (Fifo.items (iocb_pool w))
}.

(** A step that touches neither the memory nor the framed fields. *)
Ltac solve_frame := split; simpl; try done; intros []; by split.

Lemma dev_frame_refl w : dev_frame w w.
Proof. solve_frame. Qed.

Lemma dev_frame_trans w1 w2 w3 : dev_frame w1 w2 -> dev_frame w2 w3 -> dev_frame w1 w3.
Proof.
  intros [] []. split; try congruence; auto.
Qed.

Lemma dev_frame_set_dev w d : dev_frame w (set_dev d w).
Proof. solve_frame. Qed.

Lemma pools_ready_weaken n m w : (m <= n)%nat -> pools_ready n w -> pools_ready m w.
Proof. intros Hm []. split; try done; lia. Qed.

Lemma insert_is_Some_mono {A} (m : gmap Z A) k v l :
  Forall (fun c => is_Some (m !! c)) l -> Forall (fun c => is_Some (<[k := v]> m !! c)) l.
Proof.
  intros H. eapply Forall_impl; [exact H|]. intros c Hc. simpl.
  apply lookup_insert_is_Some'. by right.
Qed.

(** ** The pieces of an allocation *)

Lemma make_callback_ok f a w c cs cb :
  Fifo.items (cb_pool w) = c :: cs -> cb_arr w !! c = Some cb ->
  make_callback f a w =
  Ret c (set_cb_arr (<[c := Callback f a NULL]> (cb_arr w))
           (set_cb_pool (Fifo.Mk cs (Fifo.cap (cb_pool w))) w)).
Proof.
  intros Hi Hc. unfold make_callback.
  rewrite (bind_ret _ _ _ _ _ (q_dequeue_cons CB_POOL _ _ _ Hi)).
  unfold_mem. simpl. by rewrite Hc.
Qed.

(** On a queue without iocbs the C code follows a null pointer. *)
Lemma make_callback_empty f a w :
  Fifo.items (cb_pool w) = [] -> cb_arr w !! NULL = None ->
  make_callback f a w = Stop SNull.
Proof.
  intros Hi Hc. unfold make_callback.
  rewrite (bind_ret _ _ _ _ _ (q_dequeue_nil CB_POOL _ Hi)).
  unfold_mem. by rewrite Hc.
Qed.

Lemma make_callback_ready f a n w :
  pools_ready (S n) w ->
  exists c w', make_callback f a w = Ret c w' /\ dev_frame w w' /\ dev w' = dev w /\
    bufs w' = bufs w /\ mem_next w' = mem_next w /\ aio_ctx w' = aio_ctx w /\
    cb_arr w' !! c = Some (Callback f a NULL) /\
    (n <= length (Fifo.items (cb_pool w')))%nat /\ iocb_pool w' = iocb_pool w /\
    iocb_arr w' = iocb_arr w /\ io_submit_rc w' = io_submit_rc w /\ submits w' = submits w /\
    Forall (fun c => is_Some (cb_arr w' !! c)) (Fifo.items (cb_pool w')).
Proof.
  intros [Hc Hi Hca Hia]. destruct (Fifo.items (cb_pool w)) as [|c cs] eqn:E; simpl in Hc; [lia|].
  apply Forall_cons in Hca as [[cb Hcb] Hca].
  rewrite (make_callback_ok f a w c cs cb E Hcb). eexists _, _. split; [done|].
  split_and!; simpl; try done; try lia.
  - solve_frame.
  - by rewrite lookup_insert_eq.
  - by apply insert_is_Some_mono.
Qed.

Lemma aio_request_ready (is_w : bool) addr size b c cb n w :
  Fifo.items (iocb_pool w) <> [] -> (S n <= length (Fifo.items (iocb_pool w)))%nat ->
  Forall (fun i => is_Some (iocb_arr w !! i)) (Fifo.items (iocb_pool w)) ->
  cb_arr w !! c = Some cb ->
  exists rc w', aio_request is_w addr size b c w = Ret rc w' /\ dev_frame w w' /\ dev w' = dev w /\
    bufs w' = bufs w /\ mem_next w' = mem_next w /\ cb_pool w' = cb_pool w /\
    (forall c', is_Some (cb_arr w !! c') -> is_Some (cb_arr w' !! c')) /\
    (n <= length (Fifo.items (iocb_pool w')))%nat /\
    Forall (fun i => is_Some (iocb_arr w' !! i)) (Fifo.items (iocb_pool w')) /\
    (0 <= io_submit_rc w (submits w) ->
       exists i, aio_ctx w' = aio_ctx w ++ [i] /\
         iocb_arr w' !! i = Some (Iocb is_w (dev_fd (dev w)) b (u32 size) addr c) /\
         cb_arr w' !! c = Some (Callback (cb_func cb) (cb_arg cb) i)).
Proof.
  intros Hne Hn Hia Hc. destruct (Fifo.items (iocb_pool w)) as [|i is'] eqn:E; [done|].
  apply Forall_cons in Hia as [[io Hio] Hia].
  unfold aio_request. rewrite (bind_ret _ _ _ _ _ (q_dequeue_cons IOCB_POOL _ _ _ E)).
  unfold_mem. simpl. rewrite Hio. simpl. rewrite Hc. simpl. unfold submit. simpl.
  case_match eqn:Hrc; (eexists _, _; split; [done|]); split_and!; simpl; try done;
    try (simpl in Hn; lia); try by apply insert_is_Some_mono.
  - solve_frame.
  - intros c' Hc'. apply lookup_insert_is_Some'. by right.
  - solve_frame.
  - intros c' Hc'. apply lookup_insert_is_Some'. by right.
  - intros _. exists i. by rewrite !lookup_insert_eq.
Qed.

(** ** The allocator *)

Lemma get_staged_ok w s :
  seg_array (dev w) !! staged_seg (dev w) = Some s -> get_staged w = Ret s w.
Proof. unfold get_staged, mopt. by intros ->. Qed.

Lemma upd_staged_ok f w s :
  seg_array (dev w) !! staged_seg (dev w) = Some s ->
  upd_staged f w =
  Ret tt (set_dev (with_segs (<[staged_seg (dev w) := f s]> (seg_array (dev w))) (dev w)) w).
Proof. intros H. unfold upd_staged. by rewrite (bind_ret _ _ _ _ _ (get_staged_ok _ _ H)). Qed.

(** The code's rounding is the log's: neither 32-bit nor 64-bit sums wrap. *)
Lemma take_grains_ok size w s :
  dev_wf (dev w) -> seg_array (dev w) !! staged_seg (dev w) = Some s ->
  0 <= size -> seg_offset s + size <= end_addr s ->
  take_grains size w =
  Ret (seg_offset s / grain_unit (dev w))
    (set_dev (with_segs (<[staged_seg (dev w) :=
       with_offset (seg_offset s + Ring.round_up (grain_unit (dev w)) size) s]>
       (seg_array (dev w))) (dev w)) w).
Proof.
  intros Hwf Hs Hsz Hfit.
  pose proof (dev_wf_bounds _ _ _ Hwf Hs) as (Hb1 & Hb2 & Hb3).
  pose proof (dw_segs _ Hwf _ _ Hs) as [_ _ He Ho Hoa].
  pose proof (dw_grain _ Hwf) as Hg. pose proof (dw_seg _ Hwf) as Hsg.
  assert (seg_offset s + Ring.round_up (grain_unit (dev w)) size <= end_addr s) as Hr.
  { apply Ring.round_up_fits; auto. rewrite He. apply Z.divide_mul_r, Hwf. }
  pose proof (Ring.round_up_bounds (grain_unit (dev w)) size Hg) as Hrb.
  pose proof (Ring.round_up_aligned (grain_unit (dev w)) size Hg) as Hra.
  pose proof (dw_total _ Hwf) as Ht.
  assert ((if size mod grain_unit (dev w) =? 0 then size
           else u32 (size + (grain_unit (dev w) - size mod grain_unit (dev w))))
          = Ring.round_up (grain_unit (dev w)) size) as Heq.
  { unfold Ring.round_up in *. case_match; [done|]. apply wrap_small. lia. }
  unfold take_grains, mreads, massert. unfold bind at 1.
  rewrite (bind_ret _ _ _ _ _ (get_staged_ok _ _ Hs)). rewrite Heq.
  rewrite (proj2 (Z.eqb_neq _ _)) by lia. simpl.
  rewrite (proj2 (Z.eqb_eq _ _)) by (apply Z.mod_divide; [lia | done]).
  unfold bind at 1 2, ret at 1 2.
  rewrite (bind_ret _ _ _ _ _ (upd_staged_ok _ _ _ Hs)).
  rewrite wrap_small by lia. done.
Qed.

(** The device after the staged segment [ss] is retired and [ns] is staged with
    buffer [b]. *)
Definition rotated (d : dev_abs) (ss ns : segment) (b : Z) : dev_abs :=
  let idx := (staged_seg_idx d + 1) mod nr_segment d in
  with_buf b
    (with_segs (<[Z.to_nat idx := with_offset (start_addr ns) (with_state SEG_STATE_STAGED ns)]>
                 (<[staged_seg d := with_state SEG_STATE_USED ss]> (seg_array d)))
       (with_staged (Z.to_nat idx) idx d)).

Lemma next_idx_bounds d :
  dev_wf d ->
  u32 (staged_seg_idx d + 1) mod nr_segment d = (staged_seg_idx d + 1) mod nr_segment d /\
  (Z.to_nat ((staged_seg_idx d + 1) mod nr_segment d) < length (seg_array d))%nat.
Proof.
  intros [_ _ _ Hn Hl _ _ Hi Hlt _].
  pose proof (Z.mod_pos_bound (staged_seg_idx d + 1) (nr_segment d) (proj1 Hn)).
  rewrite wrap_small by lia. split; [done | lia].
Qed.

Lemma seg_wf_upd d i s st o :
  seg_wf d i s -> (grain_unit d | o) -> start_addr s <= o <= end_addr s ->
  seg_wf d i (with_offset o (with_state st s)).
Proof. by intros [] ? ?; split. Qed.

Lemma dev_wf_rotated d ss ns b :
  dev_wf d -> seg_array d !! staged_seg d = Some ss ->
  (<[staged_seg d := with_state SEG_STATE_USED ss]> (seg_array d))
    !! Z.to_nat ((staged_seg_idx d + 1) mod nr_segment d) = Some ns ->
  dev_wf (rotated d ss ns b).
Proof.
  intros Hwf Hss Hns. pose proof (next_idx_bounds _ Hwf) as [_ Hlt].
  unfold rotated. set (idx := (staged_seg_idx d + 1) mod nr_segment d) in *.
  assert (forall i s, (<[staged_seg d := with_state SEG_STATE_USED ss]> (seg_array d)) !! i = Some s ->
            seg_wf d i s /\ seg_state s <> SEG_STATE_STAGED) as Hall.
  { intros i s. rewrite list_lookup_insert. case_decide as Hd.
    - destruct Hd as [<- _]. intros [= <-]. split; [|done].
      by destruct (dw_segs _ Hwf _ _ Hss); split.
    - intros Hs. split; [by apply (dw_segs _ Hwf)|]. intros Hst.
      apply (dw_state _ Hwf _ _ Hs) in Hst as ->. apply Hd. split; [done | apply Hwf]. }
  destruct (Hall _ _ Hns) as [Hnw _].
  assert (seg_wf d (Z.to_nat idx) (with_offset (start_addr ns) (with_state SEG_STATE_STAGED ns))) as Hnw'.
  { apply seg_wf_upd; [done | | destruct Hnw; lia].
    rewrite (sw_start _ _ _ Hnw). apply Z.divide_mul_r, Hwf. }
  destruct Hwf as [Hg Hs Ha Hn Hl Ht Hsegs Hi Hlt0 Hst]. split; simpl; try done.
  - by rewrite !length_insert.
  - intros j s. rewrite list_lookup_insert. case_decide as Hd.
    + destruct Hd as [<- _]. intros [= <-]. by destruct Hnw'; split.
    + intros Hj. by destruct (proj1 (Hall _ _ Hj)); split.
  - rewrite Z2Nat.id; [done|]. apply Z.mod_pos_bound. lia.
  - by rewrite !length_insert.
  - intros j s. rewrite list_lookup_insert. case_decide as Hd.
    + destruct Hd as [<- _]. intros [= <-]. by split.
    + intros Hj. destruct (Hall _ _ Hj) as [_ Hne]. split; [done|]. intros ->.
      exfalso. apply Hd. split; [done|]. by rewrite length_insert.
Qed.

Lemma stage_next_ok w (d : dev_abs) ss :
  dev_wf d -> seg_array d !! staged_seg d = Some ss ->
  dev w = with_segs (<[staged_seg d := with_state SEG_STATE_USED ss]> (seg_array d)) d ->
  exists ns,
    (<[staged_seg d := with_state SEG_STATE_USED ss]> (seg_array d))
      !! Z.to_nat ((staged_seg_idx d + 1) mod nr_segment d) = Some ns /\
    stage_next_segment w =
    Ret tt (set_dev (rotated d ss ns (mem_next w))
              (set_mem_next (mem_next w + 1)
                 (set_bufs (<[mem_next w := replicate (Z.to_nat (segment_size d)) 0]> (bufs w)) w))).
Proof.
  intros Hwf Hss Hd. pose proof (next_idx_bounds _ Hwf) as [He Hlt].
  destruct (lookup_lt_is_Some_2 (<[staged_seg d := with_state SEG_STATE_USED ss]> (seg_array d))
              (Z.to_nat ((staged_seg_idx d + 1) mod nr_segment d))) as [ns Hns].
  { by rewrite length_insert. }
  exists ns. split; [done|].
  unfold stage_next_segment, mreads, massert, mmod. unfold bind at 1. rewrite Hd. simpl.
  rewrite He. rewrite (proj2 (Z.eqb_neq _ _)) by (pose proof (dw_nr _ Hwf); lia). simpl.
  unfold bind at 1 2, ret at 1. rewrite Hd.
  erewrite bind_ret by (apply upd_staged_ok; simpl; exact Hns).
  unfold alloc_seg_buffer, malloc. unfold bind. simpl.
  rewrite wrap_small by (pose proof (dw_seg _ Hwf); lia). done.
Qed.

Lemma dev_frame_new_buf w b :
  dev_frame w (set_mem_next (mem_next w + 1) (set_bufs (<[mem_next w := b]> (bufs w)) w)).
Proof.
  split; simpl; try done.
  - intros [Hn Hm]. split; simpl; [lia|]. intros p c. rewrite lookup_insert.
    case_decide; [by subst; lia|]. intros Hp. apply Hm in Hp. lia.
  - intros [Hn Hm] p c Hp. rewrite lookup_insert_ne; [done|]. apply Hm in Hp. lia.
Qed.

(** Retiring the staged segment: it goes to the kernel in one write of the
    whole segment, whose callback releases the buffer, and a fresh zeroed buffer
    is staged. *)
Lemma write_out_ready n w ss :
  dev_wf (dev w) -> seg_array (dev w) !! staged_seg (dev w) = Some ss ->
  pools_ready (S n) w ->
  exists ns w' b,
    write_out_staged ss w = Ret tt w' /\ dev_frame w w' /\
    (<[staged_seg (dev w) := with_state SEG_STATE_USED ss]> (seg_array (dev w)))
      !! Z.to_nat ((staged_seg_idx (dev w) + 1) mod nr_segment (dev w)) = Some ns /\
    dev w' = rotated (dev w) ss ns b /\ pools_ready n w' /\
    bufs w' !! b = Some (replicate (Z.to_nat (segment_size (dev w))) 0) /\
    (mem_ok w -> bufs w !! b = None) /\
    (0 <= io_submit_rc w (submits w) ->
       exists i c, aio_ctx w' = aio_ctx w ++ [i] /\
         iocb_arr w' !! i = Some (Iocb true (dev_fd (dev w)) (staged_seg_buf (dev w))
                                   (segment_size (dev w)) (start_addr ss) c) /\
         cb_arr w' !! c = Some (Callback FN_reap_seg_buf (staged_seg_buf (dev w)) i)).
Proof.
  intros Hwf Hss Hpr. unfold write_out_staged, mreads. unfold bind at 1.
  erewrite bind_ret by (by apply upd_staged_ok).
  set (w1 := set_dev _ w).
  assert (pools_ready (S n) w1) as Hpr1 by by destruct Hpr.
  destruct (make_callback_ready FN_reap_seg_buf (staged_seg_buf (dev w)) n w1 Hpr1)
    as (c & w2 & Hm & Hf2 & Hd2 & Hb2 & Hn2 & Ha2 & Hc2 & Hl2 & Hi2 & Hia2 & Hrc2 & Hsu2 & Hca2).
  rewrite (bind_ret _ _ _ _ _ Hm).
  destruct (aio_request_ready true (start_addr ss) (segment_size (dev w)) (staged_seg_buf (dev w))
              c (Callback FN_reap_seg_buf (staged_seg_buf (dev w)) NULL) n w2) as (rc & w3 & Hr & Hf3 & Hd3 & Hb3 & Hn3 & Hcp3 & Hca3 & Hl3 & Hia3 & Hio3);
    [| | | exact Hc2 |].
  { rewrite Hi2. intros H. destruct Hpr1 as [_ Hx _ _]. by rewrite H in Hx; simpl in Hx; lia. }
  { rewrite Hi2. apply Hpr1. }
  { rewrite Hi2, Hia2. apply Hpr1. }
  unfold aio_write. rewrite (bind_ret _ _ _ _ _ Hr).
  destruct (stage_next_ok w3 (dev w) ss Hwf Hss) as (ns & Hns & Hst).
  { by rewrite Hd3, Hd2. }
  exists ns. eexists _, (mem_next w3). split; [exact Hst|].
  split_and!; simpl; try done.
  - apply (dev_frame_trans _ w1); [apply dev_frame_set_dev|].
    apply (dev_frame_trans _ w2); [done|]. apply (dev_frame_trans _ w3); [done|].
    eapply dev_frame_trans; [apply dev_frame_new_buf | apply dev_frame_set_dev].
  - split; simpl; try done.
    + by rewrite Hcp3.
    + rewrite Hcp3. eapply Forall_impl; [exact Hca2|]. intros x. apply Hca3.
  - by rewrite lookup_insert_eq.
  - intros [_ Hmb]. rewrite Hn3, Hn2. destruct (bufs w !! mem_next w1) eqn:E; [|done].
    apply Hmb in E. simpl in E. lia.
  - intros Hrc. destruct Hio3 as (i & Hx & Hy & Hz); [by rewrite Hrc2, Hsu2|].
    exists i, c. rewrite Hx, Ha2, Hy, Hz, Hd2. simpl.
    rewrite (wrap_small 32 (segment_size (dev w))); [done|]. pose proof (dw_seg _ Hwf). lia.
Qed.

(** ** The code is the log *)

Lemma ring_rel_take d r size s :
  dev_wf d -> ring_rel r d -> seg_array d !! staged_seg d = Some s ->
  0 <= size -> Ring.off r + size <= Ring.seg r ->
  let d' := with_segs (<[staged_seg d :=
              with_offset (seg_offset s + Ring.round_up (grain_unit d) size) s]> (seg_array d)) d in
  dev_wf d' /\ ring_rel (Ring.take size r) d'.
Proof.
  intros Hwf [Hok Hsg Hn Hg Hi Ho] Hs Hsz Hfit. simpl.
  pose proof (Ho _ Hs) as Hos. pose proof (dw_segs _ Hwf _ _ Hs) as Hsw.
  pose proof (dev_wf_bounds _ _ _ Hwf Hs) as (Hb1 & Hb2 & Hb3).
  pose proof (Ring.take_ok size r Hok Hsz Hfit) as Hok'.
  pose proof (Ring.ok_off _ Hok') as Hoff'. simpl in Hoff'. rewrite Hg in Hoff'.
  pose proof (Ring.ok_off _ Hok). pose proof (dw_grain _ Hwf) as Hgr.
  pose proof (Ring.round_up_bounds (grain_unit d) size Hgr).
  split.
  - apply dev_wf_upd; [done | |].
    + destruct s; destruct Hsw; split; simpl in *; try done; try lia.
      apply Z.divide_add_r; [done|]. by apply Ring.round_up_aligned.
    + simpl. by apply (dw_state _ Hwf).
  - split; simpl; try done. intros s'.
    rewrite list_lookup_insert_eq by apply Hwf. intros [= <-]. simpl. rewrite Hg. lia.
Qed.

Lemma ring_rel_rotated d r ss ns b :
  dev_wf d -> ring_rel r d -> seg_array d !! staged_seg d = Some ss ->
  (<[staged_seg d := with_state SEG_STATE_USED ss]> (seg_array d))
    !! Z.to_nat ((staged_seg_idx d + 1) mod nr_segment d) = Some ns ->
  ring_rel (Ring.next_lap r) (rotated d ss ns b).
Proof.
  intros Hwf [Hok Hsg Hn Hg Hi Ho] Hss Hns.
  pose proof (next_idx_bounds _ Hwf) as [_ Hlt].
  split; simpl; try done.
  - by apply Ring.next_lap_ok.
  - rewrite Hi, <- Hn. rewrite Zplus_mod_idemp_l. done.
  - intros s. rewrite list_lookup_insert_eq by by rewrite length_insert.
    intros [= <-]. simpl. lia.
Qed.

Lemma rotated_staged d ss ns b :
  dev_wf d ->
  seg_array (rotated d ss ns b) !! staged_seg (rotated d ss ns b) =
  Some (with_offset (start_addr ns) (with_state SEG_STATE_STAGED ns)).
Proof.
  intros Hwf. pose proof (next_idx_bounds _ Hwf) as [_ Hlt]. simpl.
  by rewrite list_lookup_insert_eq by by rewrite length_insert.
Qed.

(** The grain number of a log position inside the staged segment. *)
Lemma ring_rel_pba d r s :
  dev_wf d -> ring_rel r d -> seg_array d !! staged_seg d = Some s ->
  Ring.off r < Ring.seg r -> Ring.phys r (Ring.pos r) = seg_offset s.
Proof.
  intros Hwf [Hok Hsg Hn Hg Hi Ho] Hs Hlt. unfold Ring.pos. destruct Hok.
  rewrite Ring.phys_seg by lia. rewrite (Ho _ Hs), (sw_start _ _ _ (dw_segs _ Hwf _ _ Hs)).
  rewrite <- Hi, (dw_idx _ Hwf), Hsg. done.
Qed.

Lemma get_next_pba_sim r n size w :
  dev_wf (dev w) -> ring_rel r (dev w) -> pools_ready (S n) w ->
  0 < size <= segment_size (dev w) ->
  let v := fst (Ring.alloc size r) in
  let r' := snd (Ring.alloc size r) in
  exists w',
    get_next_pba size w = Ret (Ring.phys r v / Ring.grain r) w' /\
    dev_wf (dev w') /\ ring_rel r' (dev w') /\ dev_frame w w' /\ pools_ready n w' /\
    segment_size (dev w') = segment_size (dev w) /\
    (mem_ok w -> staged_ok w -> staged_ok w' /\
       forall p b, bufs w !! p = Some b -> p <> staged_seg_buf (dev w) -> p <> staged_seg_buf (dev w')).
Proof.
  intros Hwf Hrel Hpr Hsz. destruct (dev_wf_staged _ Hwf) as [ss Hss].
  pose proof Hrel as [Hok Hsg Hn Hg Hi Ho]. pose proof (Ho _ Hss) as Hos.
  pose proof (dev_wf_bounds _ _ _ Hwf Hss) as (Hb1 & Hb2 & Hb3).
  pose proof (Ring.ok_off _ Hok) as Hof. pose proof (dw_total _ Hwf) as Ht.
  pose proof (dw_seg _ Hwf) as Hsgb.
  unfold get_next_pba. rewrite (bind_ret _ _ _ _ _ (get_staged_ok _ _ Hss)).
  rewrite wrap_small by lia.
  assert ((end_addr ss <? seg_offset ss + size) = Ring.rotates size r) as ->.
  { unfold Ring.rotates. rewrite Hsg. lia. }
  unfold Ring.alloc, Ring.source. destruct (Ring.rotates size r) eqn:Hrot;
    unfold Ring.rotates in Hrot; reflect_bools; simpl.
  - destruct (write_out_ready n w ss Hwf Hss Hpr) as (ns & w1 & b & Hw & Hf & Hns & Hd & Hp & Hb & Hfresh & _).
    rewrite (bind_ret _ _ _ _ _ Hw).
    pose proof (dev_wf_rotated _ _ _ b Hwf Hss Hns) as Hwf1.
    pose proof (ring_rel_rotated _ _ _ _ b Hwf Hrel Hss Hns) as Hrel1.
    pose proof (rotated_staged (dev w) ss ns b Hwf) as Hst. rewrite <- Hd in Hwf1, Hrel1, Hst.
    assert (segment_size (dev w1) = segment_size (dev w)) as Hsz1 by by rewrite Hd.
    assert (grain_unit (dev w1) = grain_unit (dev w)) as Hg1 by by rewrite Hd.
    assert (0 + size <= Ring.seg r) as Hfit by lia.
    pose proof (dev_wf_bounds _ _ _ Hwf1 Hst) as (_ & Hb2' & _). simpl in Hb2'.
    rewrite (take_grains_ok size w1 _ Hwf1 Hst) by (simpl; lia).
    destruct (ring_rel_take (dev w1) (Ring.next_lap r) size _ Hwf1 Hrel1 Hst) as [Hwf2 Hrel2];
      [lia | done |].
    eexists (set_dev _ w1). split; [|split_and!; [exact Hwf2 | exact Hrel2 | | | | ]]; simpl.
    + rewrite Hg1, <- Hg. f_equal. f_equal.
      symmetry. apply (ring_rel_pba _ _ _ Hwf1 Hrel1 Hst). simpl. lia.
    + eapply dev_frame_trans; [exact Hf | apply dev_frame_set_dev].
    + by destruct Hp.
    + done.
    + intros Hm _. rewrite Hd. simpl. split.
      * eexists. split; [exact Hb|]. simpl. rewrite length_replicate. pose proof Hsgb. lia.
      * intros p b' Hpb _ ->. by rewrite Hfresh in Hpb.
  - unfold bind at 1, ret at 1. rewrite (take_grains_ok size w _ Hwf Hss) by lia.
    destruct (ring_rel_take (dev w) r size _ Hwf Hrel Hss) as [Hwf2 Hrel2]; [lia | done |].
    eexists (set_dev _ w). split; [|split_and!; [exact Hwf2 | exact Hrel2 | | | | ]]; simpl.
    + rewrite <- Hg. f_equal. f_equal.
      rewrite <- (ring_rel_pba _ _ _ Hwf Hrel Hss) by lia. done.
    + apply dev_frame_set_dev.
    + apply (pools_ready_weaken (S n)); [lia|]. by destruct Hpr.
    + done.
    + done.
Qed.

(** Several allocations in a row. *)
Fixpoint alloc_many (sizes : list Z) : M (world I P) (list Z) :=
  match sizes with
  | [] => ret []
  | s :: rest =>
      let* pba := get_next_pba s in
      let* l := alloc_many rest in
      ret (pba :: l)
  end.

Lemma alloc_many_sim sizes r w :
  dev_wf (dev w) -> ring_rel r (dev w) -> pools_ready (length sizes) w ->
  Forall (fun s => 0 < s <= segment_size (dev w)) sizes ->
  exists w',
    alloc_many sizes w =
      Ret (map (fun v => Ring.phys r v / Ring.grain r) (fst (Ring.allocs sizes r))) w' /\
    dev_wf (dev w') /\ ring_rel (snd (Ring.allocs sizes r)) (dev w') /\ dev_frame w w'.
Proof.
  revert r w. induction sizes as [|s sizes IH]; intros r w Hwf Hrel Hpr Hf; cbn [Ring.allocs alloc_many].
  - exists w. cbn [fst snd map]. split_and!; [done | done | done | apply dev_frame_refl].
  - apply Forall_cons in Hf as [Hs Hf].
    destruct (get_next_pba_sim r (length sizes) s w Hwf Hrel Hpr Hs)
      as (w1 & Hg & Hwf1 & Hrel1 & Hfr1 & Hpr1 & Hsz1 & _).
    rewrite (bind_ret _ _ _ _ _ Hg).
    assert (0 < s <= Ring.seg r) as Hs' by by rewrite (rr_seg _ _ Hrel).
    destruct (Ring.alloc_block s r (rr_ok _ _ Hrel) Hs') as (_ & Hsg & Hn & Hgr & _).
    destruct (Ring.alloc s r) as [v r1]. cbn [fst snd] in *.
    destruct (IH r1 w1 Hwf1 Hrel1 Hpr1) as (w2 & Ha & Hwf2 & Hrel2 & Hfr2); [by rewrite Hsz1|].
    rewrite (bind_ret _ _ _ _ _ Ha). destruct (Ring.allocs sizes r1) as [l r2]. cbn [fst snd] in *.
    exists w2. split_and!; try done; [|by eapply dev_frame_trans].
    unfold ret, Ring.phys. by rewrite Hsg, Hn, Hgr.
Qed.

(** ** Callbacks across an allocation *)

(** A statement that leaves the callbacks alone. *)
Definition keeps_cb {A} (m : M (world I P) A) : Prop :=
  forall w a w', m w = Ret a w' -> cb_arr w' = cb_arr w /\ cb_pool w' = cb_pool w.

Lemma keeps_cb_bind {A B} (m : M (world I P) A) (f : A -> M (world I P) B) :
  keeps_cb m -> (forall a, keeps_cb (f a)) -> keeps_cb (bind m f).
Proof.
  intros Hm Hf w b w' (a & w1 & H1 & H2)%bind_inv. apply Hm in H1 as [H1 H1'].
  apply Hf in H2 as [H2 H2']. by rewrite H2, H2'.
Qed.

Lemma keeps_cb_mopt {A} s (o : option A) : keeps_cb (mopt s o).
Proof. intros w a w'. unfold mopt, mstop, ret. case_match; [by intros [_ <-]%Ret_inj | done]. Qed.

Lemma keeps_cb_massert b s : keeps_cb (massert b s).
Proof. intros w a w'. unfold massert, mstop, ret. case_match; [by intros [_ <-]%Ret_inj | done]. Qed.

Lemma keeps_cb_dev (f : world I P -> dev_abs) : keeps_cb (mmod (fun w => set_dev (f w) w)).
Proof. by intros w a w' [_ <-]%Ret_inj. Qed.

Lemma keeps_cb_reads {A} (f : world I P -> A) : keeps_cb (mreads f).
Proof. by intros w a w' [_ <-]%Ret_inj. Qed.

Lemma keeps_cb_malloc n : keeps_cb (malloc (I:=I) (P:=P) n).
Proof. by intros w a w' [_ <-]%Ret_inj. Qed.

Lemma keeps_cb_staged : keeps_cb get_staged.
Proof. intros w a w'. unfold get_staged. intros H. by apply keeps_cb_mopt in H. Qed.

Create HintDb keeps_cb_db.
Hint Resolve keeps_cb_bind keeps_cb_mopt keeps_cb_massert keeps_cb_dev keeps_cb_reads keeps_cb_malloc
  keeps_cb_staged : keeps_cb_db.

Lemma keeps_cb_upd f : keeps_cb (upd_staged f).
Proof. unfold upd_staged. auto with keeps_cb_db. Qed.

Lemma keeps_cb_ret {A} (a : A) : keeps_cb (ret a).
Proof. by intros w b w' [_ <-]%Ret_inj. Qed.
Hint Resolve keeps_cb_upd keeps_cb_ret : keeps_cb_db.

Lemma keeps_cb_stage_next : keeps_cb stage_next_segment.
Proof. unfold stage_next_segment, alloc_seg_buffer. auto 20 with keeps_cb_db. Qed.

Lemma keeps_cb_take n : keeps_cb (take_grains n).
Proof. unfold take_grains. auto 20 with keeps_cb_db. Qed.

(** A callback that is in use is not touched by an allocation, whose own
    callback comes from the pool. *)
Lemma get_next_pba_keeps_cb size w p w' c :
  Fifo.items (cb_pool w) <> [] -> c ∉ Fifo.items (cb_pool w) -> get_next_pba size w = Ret p w' ->
  cb_arr w' !! c = cb_arr w !! c.
Proof.
  intros Hne Hc (ss & w1 & H1 & H)%bind_inv. apply keeps_cb_staged in H1 as [E1 E1'].
  apply bind_inv in H as ([] & w2 & H2 & H). apply keeps_cb_take in H as [-> _].
  destruct (_ <? _); [|by apply Ret_inj in H2 as [_ <-]; rewrite E1].
  apply bind_inv in H2 as (d & w3 & H3 & H2). apply keeps_cb_reads in H3 as [E3 E3'].
  apply bind_inv in H2 as ([] & w4 & H4 & H2). apply keeps_cb_upd in H4 as [E4 E4'].
  apply bind_inv in H2 as (c' & w5 & H5 & H2).
  apply bind_inv in H5 as (c1 & w6 & H6 & H5). destruct (Fifo.items (cb_pool w4)) as [|c0 cs] eqn:Ei; [congruence|].
  rewrite (q_dequeue_cons CB_POOL _ _ _ Ei) in H6. apply Ret_inj in H6 as [<- <-].
  assert (c <> c0) as Hn by (intros ->; apply Hc; rewrite <- E1', <- E3', <- E4', Ei; by left).
  apply bind_inv in H5 as (cb0 & w7 & H7 & H5). apply deref_inv in H7 as [_ ->].
  apply bind_inv in H5 as ([] & w8 & H8 & H5). apply Ret_inj in H8 as [_ <-], H5 as [<- <-].
  apply bind_inv in H2 as (rc & w9 & H9 & H2). apply keeps_cb_stage_next in H2 as [-> _].
  unfold aio_write, aio_request in H9.
  apply bind_inv in H9 as (i & w10 & H10 & H9). unfold q_dequeue in H10.
  destruct (Fifo.dequeue _) as [i' f']. apply Ret_inj in H10 as [<- <-].
  apply bind_inv in H9 as (io & w11 & H11 & H9). apply deref_inv in H11 as [_ ->].
  apply bind_inv in H9 as (cb & w12 & H12 & H9). apply deref_inv in H12 as [_ ->].
  apply bind_inv in H9 as ([] & w13 & H13 & H9). apply Ret_inj in H13 as [_ <-].
  apply bind_inv in H9 as (fd & w14 & H14 & H9). apply Ret_inj in H14 as [_ <-].
  apply bind_inv in H9 as ([] & w15 & H15 & H9). apply Ret_inj in H15 as [_ <-].
  unfold submit in H9. destruct (_ <? 0); apply Ret_inj in H9 as [_ <-]; simpl;
    rewrite !lookup_insert_ne by done; congruence.
Qed.

End Frames.
