(* ===== verification/DeviceSpec.v ===== *)
(** * What the device promises ([src/device.c])

    The theorems on the log allocator and the staged segment, proved from the
    lemmas of [Device]. *)

From Stdlib Require Import ZArith Lia.
From stdpp Require Import prelude gmap.
From S2P Require Import Prelude Config Queue CondLock World Device.

#[local] Open Scope Z_scope.

Section DeviceSpec.
Context {I P : Type}.
Implicit Types w : world I P.

(** ** Staged I/O *)

(** The bytes [off .. off + n) of the staged segment, for [pba] and a size in
    grains. *)
Definition staged_off (d : dev_abs) (ss : segment) (pba : Z) : Z := pba * grain_unit d - start_addr ss.

(** A block inside the part of the staged segment that has been handed out. *)
Record in_staged (d : dev_abs) (ss : segment) (pba n : Z) : Prop := InStaged {
  is_seg : seg_array d !! staged_seg d = Some ss;
  is_n : 0 <= n;
  is_lo : start_addr ss <= pba * grain_unit d;
  is_hi : pba * grain_unit d + n * grain_unit d <= seg_offset ss
}.

Lemma in_staged_arith d ss pba n :
  dev_wf d -> in_staged d ss pba n ->
  u32 (n * grain_unit d) = n * grain_unit d /\
  u64 (pba * grain_unit d) = pba * grain_unit d /\
  u64 (pba * grain_unit d - start_addr ss) = staged_off d ss pba /\
  0 <= staged_off d ss pba /\ staged_off d ss pba + n * grain_unit d <= segment_size d.
Proof.
  intros Hwf [Hs Hn Hlo Hhi]. pose proof (dev_wf_bounds _ _ _ Hwf Hs) as (Hb1 & Hb2 & Hb3).
  pose proof (dw_segs _ Hwf _ _ Hs) as [_ _ _ Ho _].
  pose proof (dw_grain _ Hwf). pose proof (dw_seg _ Hwf). pose proof (dw_total _ Hwf).
  assert (0 <= n * grain_unit d) by nia. unfold staged_off.
  rewrite !wrap_small by lia. split_and!; lia.
Qed.

Lemma in_staged_is_staged d ss pba n :
  dev_wf d -> in_staged d ss pba n -> 0 < n -> is_staged d ss pba = 0.
Proof.
  intros Hwf Hin Hn. pose proof (in_staged_arith _ _ _ _ Hwf Hin) as (_ & Ha & _ & _ & _).
  destruct Hin as [_ _ Hlo Hhi]. pose proof (dw_grain _ Hwf).
  unfold is_staged. rewrite Ha. assert (0 < n * grain_unit d) by nia.
  repeat case_match; reflect_bools; lia.
Qed.

(** A write of a staged block, up to the call of its callback. *)
Lemma dev_abs_write_staged (call : fn -> Z -> M (world I P) unit) w ss pba n buf c cb sb b :
  dev_wf (dev w) -> in_staged (dev w) ss pba n ->
  bufs w !! staged_seg_buf (dev w) = Some sb ->
  Z.of_nat (length sb) = segment_size (dev w) ->
  bufs w !! buf = Some b -> n * grain_unit (dev w) <= Z.of_nat (length b) ->
  cb_arr w !! c = Some cb ->
  exists sb',
    blit sb (staged_off (dev w) ss pba) (take (Z.to_nat (n * grain_unit (dev w))) b) = Some sb' /\
    dev_abs_write call pba n buf c w =
    (call (cb_func cb) (cb_arg cb) ;;; q_enqueue c CB_POOL ;;; ret 0)
      (set_bufs (<[staged_seg_buf (dev w) := sb']> (bufs w)) w).
Proof.
  intros Hwf Hin Hsb Hl Hb Hbl Hcb.
  pose proof (in_staged_arith _ _ _ _ Hwf Hin) as (Hn & Ha & Ho & Ho1 & Ho2).
  assert (0 <= n * grain_unit (dev w)) as Hnn.
  { pose proof (is_n _ _ _ _ Hin). pose proof (dw_grain _ Hwf). nia. }
  destruct (blit_Some sb (staged_off (dev w) ss pba)
              (take (Z.to_nat (n * grain_unit (dev w))) b)) as [sb' Hsb'];
    [done | rewrite length_take; lia |].
  exists sb'. split; [done|].
  unfold dev_abs_write, mreads. unfold bind at 1.
  rewrite (bind_ret _ _ _ _ _ (get_staged_ok _ _ (is_seg _ _ _ _ Hin))).
  rewrite Hn, Ho. unfold memcpy, copy_in, mopt. unfold_mem.
  rewrite Hb, slice_eq by lia. rewrite drop_0. rewrite Hsb, Hsb'. simpl. by rewrite Hcb.
Qed.

(** A read of a staged block, up to the call of its callback. *)
Lemma dev_abs_read_staged (call : fn -> Z -> M (world I P) unit) w ss pba n buf c cb sb b :
  dev_wf (dev w) -> in_staged (dev w) ss pba n -> 0 < n ->
  bufs w !! staged_seg_buf (dev w) = Some sb ->
  Z.of_nat (length sb) = segment_size (dev w) ->
  bufs w !! buf = Some b -> n * grain_unit (dev w) <= Z.of_nat (length b) ->
  cb_arr w !! c = Some cb ->
  exists x,
    slice sb (staged_off (dev w) ss pba) (n * grain_unit (dev w)) = Some x /\
    dev_abs_read call pba n buf c w =
    (call (cb_func cb) (cb_arg cb) ;;; q_enqueue c CB_POOL ;;; ret 0)
      (set_bufs (<[buf := x ++ drop (length x) b]> (bufs w)) w).
Proof.
  intros Hwf Hin Hpos Hsb Hl Hb Hbl Hcb.
  pose proof (in_staged_arith _ _ _ _ Hwf Hin) as (Hn & Ha & Ho & Ho1 & Ho2).
  assert (0 <= n * grain_unit (dev w)) as Hnn.
  { pose proof (dw_grain _ Hwf). nia. }
  destruct (slice_Some sb (staged_off (dev w) ss pba) (n * grain_unit (dev w))) as [x Hx];
    [done | done | lia |].
  exists x. split; [done|]. pose proof (slice_length _ _ _ _ Hx) as Hxl.
  unfold dev_abs_read, mreads. unfold bind at 1.
  rewrite (bind_ret _ _ _ _ _ (get_staged_ok _ _ (is_seg _ _ _ _ Hin))).
  rewrite (in_staged_is_staged _ _ _ _ Hwf Hin Hpos). simpl.
  rewrite Hn, Ha, Ho. unfold memcpy, copy_in, mopt. unfold_mem.
  rewrite Hsb, Hx. rewrite Hb, blit_eq by lia. simpl. by rewrite Hcb.
Qed.

(** Read your write, and only your write. A write of a staged block copies
    the buffer into the staged segment before its callback runs; a read of the
    same block then returns exactly those bytes, and a read of a block that does
    not overlap it returns what the segment held before. *)
Theorem staged_write_then_read (call : fn -> Z -> M (world I P) unit) w ss pba n buf c cb sb b :
  dev_wf (dev w) -> in_staged (dev w) ss pba n ->
  bufs w !! staged_seg_buf (dev w) = Some sb ->
  Z.of_nat (length sb) = segment_size (dev w) ->
  bufs w !! buf = Some b -> n * grain_unit (dev w) <= Z.of_nat (length b) ->
  cb_arr w !! c = Some cb ->
  exists w1,
    dev_abs_write call pba n buf c w =
      (call (cb_func cb) (cb_arg cb) ;;; q_enqueue c CB_POOL ;;; ret 0) w1 /\
    dev w1 = dev w /\ cb_arr w1 = cb_arr w /\
    (forall p, p <> staged_seg_buf (dev w) -> bufs w1 !! p = bufs w !! p) /\
    forall pba2 n2 buf2 c2 cb2 b2,
      in_staged (dev w) ss pba2 n2 -> 0 < n2 ->
      bufs w1 !! buf2 = Some b2 -> n2 * grain_unit (dev w) <= Z.of_nat (length b2) ->
      cb_arr w !! c2 = Some cb2 ->
      exists w2 x,
        dev_abs_read call pba2 n2 buf2 c2 w1 =
          (call (cb_func cb2) (cb_arg cb2) ;;; q_enqueue c2 CB_POOL ;;; ret 0) w2 /\
        bufs w2 = <[buf2 := x ++ drop (length x) b2]> (bufs w1) /\
        (pba2 = pba -> n2 = n -> x = take (Z.to_nat (n * grain_unit (dev w))) b) /\
        (pba + n <= pba2 \/ pba2 + n2 <= pba ->
           slice sb (staged_off (dev w) ss pba2) (n2 * grain_unit (dev w)) = Some x).
Proof.
  intros Hwf Hin Hsb Hl Hb Hbl Hcb.
  destruct (dev_abs_write_staged call w ss pba n buf c cb sb b Hwf Hin Hsb Hl Hb Hbl Hcb)
    as (sb' & Hblit & Hw).
  set (w1 := set_bufs _ w) in Hw. exists w1. split_and!; [exact Hw | done | done | |].
  { intros p Hp. unfold w1. simpl. by rewrite lookup_insert_ne. }
  intros pba2 n2 buf2 c2 cb2 b2 Hin2 Hn2 Hb2 Hbl2 Hcb2.
  pose proof (blit_length _ _ _ _ Hblit) as Hl'.
  assert (bufs w1 !! staged_seg_buf (dev w1) = Some sb') as Hsb1 by apply lookup_insert_eq.
  destruct (dev_abs_read_staged call w1 ss pba2 n2 buf2 c2 cb2 sb' b2) as (x & Hx & Hr);
    [done | done | done | done | by rewrite Hl' | done | done | done |].
  eexists _, x. split_and!; [exact Hr | done | |]; change (dev w1) with (dev w) in *.
  - intros -> ->. apply slice_blit_same in Hblit.
    rewrite length_take_le in Hblit by lia.
    rewrite Z2Nat.id in Hblit by (pose proof (dw_grain _ Hwf); nia). congruence.
  - intros Hd. rewrite <- Hx. symmetry. eapply slice_blit_disjoint; [exact Hblit|].
    pose proof (dw_grain _ Hwf). pose proof (is_n _ _ _ _ Hin).
    rewrite length_take_le by lia. rewrite Z2Nat.id by nia. unfold staged_off.
    destruct Hd; [right|left]; nia.
Qed.

(** ** Allocated blocks *)

(** The block just taken from the log is staged, whole, and ends the used part
    of the segment. *)
Lemma ring_block_in_staged d r size :
  dev_wf d -> Ring.ok r -> ring_rel (Ring.take size r) d -> Ring.off r < Ring.seg r ->
  exists ss, seg_array d !! staged_seg d = Some ss /\
    Ring.phys r (Ring.pos r) / Ring.grain r * grain_unit d = start_addr ss + Ring.off r /\
    seg_offset ss = start_addr ss + Ring.off r + Ring.round_up (grain_unit d) size /\
    forall n, 0 <= n -> n * grain_unit d <= Ring.round_up (grain_unit d) size ->
      in_staged d ss (Ring.phys r (Ring.pos r) / Ring.grain r) n.
Proof.
  intros Hwf Hok [Hok' Hsg Hn Hg Hi Ho] Hlt. simpl in *.
  destruct (dev_wf_staged _ Hwf) as [ss Hss]. exists ss.
  pose proof (Ho _ Hss) as Hoff. pose proof (sw_start _ _ _ (dw_segs _ Hwf _ _ Hss)) as Hst.
  assert (Ring.phys r (Ring.pos r) = start_addr ss + Ring.off r) as Hp.
  { unfold Ring.pos. pose proof (Ring.ok_off _ Hok). destruct Hok.
    rewrite Ring.phys_seg by lia. rewrite Hst, <- Hi, (dw_idx _ Hwf), Hsg. done. }
  assert (start_addr ss + Ring.off r = (start_addr ss + Ring.off r) / grain_unit d * grain_unit d) as Hdiv.
  { pose proof (dw_grain _ Hwf). pose proof (Ring.ok_off_aligned _ Hok) as Ha. rewrite Hg in Ha.
    assert (grain_unit d | start_addr ss + Ring.off r) as [k Hk].
    { apply Z.divide_add_r; [|done]. rewrite Hst. apply Z.divide_mul_r, Hwf. }
    rewrite Hk, Z.div_mul by lia. done. }
  rewrite Hp, Hg, <- Hdiv. pose proof (Ring.ok_off _ Hok). rewrite Hg in Hoff.
  split_and!; [done | done | lia |]. intros n Hn0 Hnb. split; try done; lia.
Qed.

End DeviceSpec.

(** A device of three segments of four grains, with a pool of callbacks. *)
Definition mini_dev : dev_abs :=
  DevAbs [] 3 3 512 1536 512 3
    [Segment 0 SEG_STATE_STAGED 0 512 0; Segment 1 SEG_STATE_FREE 512 1024 512;
     Segment 2 SEG_STATE_FREE 1024 1536 1024] 0 0 1 128.

(** A handler with that device, six callbacks and six iocbs. *)
Definition lab {I P} (i : I) (d : dev_abs) (rqs : gmap Z request) (h : gmap Z P)
    (bs : gmap Z (list Z)) (next : Z) : world I P :=
  World i d (ClLock QDEPTH 2 false) (Fifo.init QSIZE) (Fifo.init QSIZE) (Fifo.init QSIZE)
    (Fifo.init QSIZE) (Fifo.Mk [1; 2; 3; 4; 5; 6] QSIZE) (Fifo.Mk [1; 2; 3; 4; 5; 6] QSIZE)
    rqs
    (list_to_map (map (fun c => (c, Iocb false 0 0 0 0 0)) [1; 2; 3; 4; 5; 6]))
    (list_to_map (map (fun c => (c, Callback FN_NULL 0 0)) [1; 2; 3; 4; 5; 6]))
    bs h next [] [] 0 0 (fun n => Timeval (Z.of_nat n) 0) (fun _ => 1).

Definition mini_world {I P} (i : I) : world I P :=
  lab i mini_dev ∅ ∅ {[ 1 := replicate 512 0 ]} 2.

Definition mini_ring : Ring.ring := Ring.Mk 512 3 128 0 0.

Lemma mini_dev_wf : dev_wf mini_dev.
Proof.
  split; simpl; try lia; try (by exists 4); try done.
  - intros [|[|[|i]]] s; simpl; try done; intros [= <-]; split; simpl; try lia; by apply Z.mod_divide.
  - intros [|[|[|i]]] s; simpl; try done; intros [= <-]; simpl; split; done.
Qed.

Lemma mini_ring_rel : ring_rel mini_ring mini_dev.
Proof.
  split; simpl; try done.
  - split; simpl; try lia; [by exists 4 | by exists 0].
  - by intros s [= <-].
Qed.

Lemma lab_pools_all {I P} (i : I) d rqs (h : gmap Z P) bs next : pools_ready 6 (lab i d rqs h bs next).
Proof. split; simpl; try lia; repeat (constructor; [by eexists|]); constructor. Qed.

Lemma lab_pools {I P} (i : I) d rqs (h : gmap Z P) bs next : pools_ready 4 (lab i d rqs h bs next).
Proof. apply (pools_ready_weaken 6); [lia | apply lab_pools_all]. Qed.

Lemma mini_pools {I P} (i : I) : pools_ready 4 (mini_world (P:=P) i).
Proof. apply lab_pools. Qed.

Lemma mini_mem_ok {I P} (i : I) : mem_ok (mini_world (P:=P) i).
Proof.
  split; simpl; [lia|]. intros p b. rewrite lookup_singleton_Some. intros [<- _]. lia.
Qed.

(** ** Opening the device *)

Definition init_ring (nr : Z) : Ring.ring := Ring.Mk SEGMENT_SIZE nr GRAIN_UNIT 0 0.

(** The number of segments [dev_abs_init] computes. *)
Definition init_nr (nlb lbs : Z) : Z := u32 (u64 (u32 nlb * u32 lbs) / SEGMENT_SIZE).

Lemma init_segs_wf d i s nr :
  segment_size d = SEGMENT_SIZE -> grain_unit d = GRAIN_UNIT -> 0 <= nr < 2 ^ 32 ->
  ((fun i : nat => new_segment SEGMENT_SIZE (Z.of_nat i)) <$> seq 0 (Z.to_nat nr)) !! i = Some s ->
  seg_wf d i s /\ seg_state s = SEG_STATE_FREE /\ seg_offset s = start_addr s.
Proof.
  intros Hs Hg Hnr Hi. apply list_lookup_fmap_Some in Hi as (j & -> & Hj).
  apply lookup_seq in Hj as [-> Hlt]. simpl in *.
  unfold SEGMENT_SIZE, GRAIN_UNIT, Mi, Ki in *.
  unfold new_segment. rewrite !wrap_small by lia.
  split_and!; try done. split; simpl; rewrite ?Hs, ?Hg; try lia.
  exists (Z.of_nat i * 16384). lia.
Qed.

Lemma init_nr_bounds nlb lbs : 0 <= init_nr nlb lbs < 2 ^ 32.
Proof. by apply wrap_bounds. Qed.

(** The device that [dev_abs_init] builds around the segments. *)
Lemma dev_init_wf name fd nlb lbs bytes nr s0 rest b :
  let d := DevAbs name fd nlb lbs bytes SEGMENT_SIZE nr
             (with_state SEG_STATE_STAGED s0 :: rest) 0 0 b GRAIN_UNIT in
  0 < nr < 2 ^ 32 -> Z.of_nat (length (s0 :: rest)) = nr ->
  (forall i s, (s0 :: rest) !! i = Some s ->
     seg_wf d i s /\ seg_state s = SEG_STATE_FREE /\ seg_offset s = start_addr s) ->
  dev_wf d /\ ring_rel (init_ring nr) d.
Proof.
  intros d Hnr Hlen Hall. destruct (Hall 0%nat s0 eq_refl) as (Hw0 & _ & Ho0).
  split; split; simpl; try done; try (simpl in Hlen; lia).
  - by exists 16384.
  - unfold SEGMENT_SIZE, Mi, Ki. lia.
  - intros [|i] s; simpl.
    + intros [= <-]. by destruct Hw0; split.
    + intros Hi. by apply (Hall (S i) s).
  - intros [|i] s; simpl.
    + by intros [= <-].
    + intros Hi. destruct (Hall (S i) s Hi) as (_ & -> & _). done.
  - split; simpl; unfold SEGMENT_SIZE, GRAIN_UNIT, Mi, Ki; try lia; [by exists 16384 | by exists 0].
  - intros s [= <-]. simpl. rewrite Ho0. lia.
Qed.

Lemma dev_abs_init_ok {I P} name fd nlb lbs (w : world I P) :
  (length name < 128)%nat -> 0 <= fd -> 0 < init_nr nlb lbs ->
  exists d, dev_abs_init name fd (Some nlb) (Some lbs) w =
      Ret tt (set_dev d (set_mem_next (mem_next w + 1)
        (set_bufs (<[mem_next w := replicate (Z.to_nat SEGMENT_SIZE) 0]> (bufs w)) w))) /\
    dev_wf d /\ ring_rel (init_ring (init_nr nlb lbs)) d /\ staged_seg_buf d = mem_next w /\ dev_fd d = fd.
Proof.
  intros Hname Hfd Hnr. pose proof (init_nr_bounds nlb lbs) as Hb.
  assert ((Z.of_nat (length name) <? 128) = true) as E1 by lia.
  assert ((fd <? 0) = false) as E2 by lia.
  unfold dev_abs_init. rewrite E1, E2.
  rewrite (bind_ret _ _ w tt w) by exact eq_refl. rewrite (bind_ret _ _ w tt w) by exact eq_refl.
  rewrite (bind_ret _ _ w nlb w) by exact eq_refl. rewrite (bind_ret _ _ w lbs w) by exact eq_refl.
  cbn zeta. fold (init_nr nlb lbs).
  pose proof (fun d i s Hs Hg => init_segs_wf d i s (init_nr nlb lbs) Hs Hg Hb) as Hall.
  assert (Z.of_nat (length ((fun i : nat => new_segment SEGMENT_SIZE (Z.of_nat i)) <$>
                              seq 0 (Z.to_nat (init_nr nlb lbs)))) = init_nr nlb lbs) as Hlen
    by (rewrite length_fmap, length_seq; lia).
  destruct (_ <$> _) as [|s0 rest]; [simpl in Hlen; lia|].
  unfold alloc_seg_buffer, malloc, bind, mmod.
  assert (u32 SEGMENT_SIZE = SEGMENT_SIZE) as -> by by vm_compute.
  eexists. split; [done|].
  destruct (dev_init_wf name fd (u32 nlb) (u32 lbs) (u64 (u32 nlb * u32 lbs)) (init_nr nlb lbs)
              s0 rest (mem_next w)) as [Hwf Hrel]; [lia | done | by intros; apply Hall |].
  split; [exact Hwf|]. by split; [exact Hrel|].
Qed.

(** Opening a device establishes everything the allocator relies on: the
    segments tile the device from address 0, exactly segment 0 is staged, the
    log starts at position 0, and the staged buffer is a fresh block of one
    segment of zeroes. *)
Theorem dev_abs_init_wf {I P} (name : list Z) (fd nlb lbs : Z) (w : world I P) :
  (length name < 128)%nat -> 0 <= fd -> 0 < init_nr nlb lbs -> mem_ok w ->
  exists w', dev_abs_init name fd (Some nlb) (Some lbs) w = Ret tt w' /\
    dev_wf (dev w') /\ ring_rel (init_ring (init_nr nlb lbs)) (dev w') /\ mem_ok w' /\
    bufs w !! staged_seg_buf (dev w') = None /\
    bufs w' !! staged_seg_buf (dev w') = Some (replicate (Z.to_nat SEGMENT_SIZE) 0).
Proof.
  intros Hname Hfd Hnr Hmem.
  destruct (dev_abs_init_ok name fd nlb lbs w) as (d & Hi & Hwf & Hrel & Hb & _); [done..|].
  eexists. split; [exact Hi|]. destruct Hmem as [Hm1 Hm2].
  split; [exact Hwf|]. split; [exact Hrel|]. split.
  { eapply (df_mem w); [|by split].
    eapply dev_frame_trans; [apply dev_frame_new_buf | apply dev_frame_set_dev]. }
  cbn [dev set_dev bufs set_bufs set_mem_next]. rewrite Hb. split; [|apply lookup_insert_eq].
  destruct (bufs w !! mem_next w) eqn:E; [|done]. apply Hm2 in E. lia.
Qed.

(** A device of two segments. *)
Lemma dev_abs_init_wf_witness :
  exists w', dev_abs_init [47; 100] 3 (Some 8192) (Some 512) (blank_world (P:=unit) tt) = Ret tt w' /\
    dev_wf (dev w') /\ ring_rel (init_ring 2) (dev w').
Proof.
  destruct (dev_abs_init_wf (P:=unit) [47; 100] 3 8192 512 (blank_world tt)) as (w' & H1 & H2 & H3 & _);
    [simpl; lia | lia | by vm_compute | by split |].
  exists w'. split_and!; [exact H1 | exact H2 | exact H3].
Defined.

(** A device smaller than one segment: the loop makes no segment, and staging
    segment 0 leaves the array. *)
Lemma dev_abs_init_small {I P} (name : list Z) (fd nlb lbs : Z) (w : world I P) :
  (length name < 128)%nat -> 0 <= fd -> init_nr nlb lbs = 0 ->
  dev_abs_init name fd (Some nlb) (Some lbs) w = Stop SBounds.
Proof.
  intros Hname Hfd Hnr.
  assert ((Z.of_nat (length name) <? 128) = true) as E1 by lia.
  assert ((fd <? 0) = false) as E2 by lia.
  unfold dev_abs_init. rewrite E1, E2.
  rewrite (bind_ret _ _ w tt w) by exact eq_refl. rewrite (bind_ret _ _ w tt w) by exact eq_refl.
  rewrite (bind_ret _ _ w nlb w) by exact eq_refl. rewrite (bind_ret _ _ w lbs w) by exact eq_refl.
  cbn zeta. fold (init_nr nlb lbs). by rewrite Hnr.
Qed.

(** ** Allocation *)

Section Alloc.
Context {I P : Type}.
Implicit Types w : world I P.

Lemma pba_phys d r size :
  dev_wf d -> Ring.ok r -> ring_rel (Ring.take size r) d -> Ring.off r < Ring.seg r ->
  Ring.phys r (Ring.pos r) / Ring.grain r * grain_unit d = Ring.phys r (Ring.pos r).
Proof.
  intros Hwf Hok Hrel Hlt. pose proof (rr_grain _ _ Hrel) as Hg. simpl in Hg. rewrite <- Hg.
  destruct Hok. unfold Ring.pos. rewrite Ring.phys_seg by lia.
  assert (Ring.grain r | Ring.lap r mod Ring.nr r * Ring.seg r + Ring.off r) as [k ->].
  { apply Z.divide_add_r; [by apply Z.divide_mul_r | done]. }
  by rewrite Z.div_mul by lia.
Qed.

Lemma get_next_pba_log (r : Ring.ring) (n : nat) (size : Z) w :
  dev_wf (dev w) -> ring_rel r (dev w) -> pools_ready (S n) w ->
  0 < size <= segment_size (dev w) ->
  exists pba w' ss,
    get_next_pba size w = Ret pba w' /\
    pba * grain_unit (dev w') = Ring.phys r (fst (Ring.alloc size r)) /\
    dev_wf (dev w') /\ ring_rel (snd (Ring.alloc size r)) (dev w') /\ dev_frame w w' /\ pools_ready n w' /\
    (forall k, 0 <= k -> k * grain_unit (dev w') <= Ring.round_up (grain_unit (dev w')) size ->
       in_staged (dev w') ss pba k) /\
    (mem_ok w -> staged_ok w -> staged_ok w' /\
       forall p b, bufs w !! p = Some b -> p <> staged_seg_buf (dev w) -> p <> staged_seg_buf (dev w')).
Proof.
  intros Hwf Hrel Hpr Hsz. pose proof (rr_ok _ _ Hrel) as Hok.
  destruct (get_next_pba_sim r n size w Hwf Hrel Hpr Hsz)
    as (w' & Hg & Hwf' & Hrel' & Hfr & Hpr' & _ & Hst).
  destruct (Ring.source_room size r Hok) as (Hok' & Hroom & _ & Hs & Hn & Hgr);
    [by rewrite (rr_seg _ _ Hrel); lia|].
  unfold Ring.alloc in *. cbn [fst snd] in *.
  assert (Ring.off (Ring.source size r) < Ring.seg (Ring.source size r)) as Hlt by lia.
  assert (forall v, Ring.phys r v = Ring.phys (Ring.source size r) v) as Hph
    by (intros; unfold Ring.phys; by rewrite Hs, Hn).
  destruct (ring_block_in_staged _ _ _ Hwf' Hok' Hrel' Hlt) as (ss & _ & _ & _ & Hin).
  pose proof (pba_phys _ _ _ Hwf' Hok' Hrel' Hlt) as Hp.
  rewrite Hgr, <- Hph in Hin, Hp.
  eexists _, w', ss. split; [exact Hg|]. by split_and!.
Qed.

(** C5: the allocator implements the endless log. A request of up to one
    segment always succeeds; the address returned is the log position, on the
    ring of segments; the whole rounded-up block lies in the staged segment, so
    the write that follows it is a copy in bounds; and the invariant of the
    device is kept. *)
Theorem get_next_pba_refines_log (r : Ring.ring) (n : nat) (size : Z) w :
  dev_wf (dev w) -> ring_rel r (dev w) -> pools_ready (S n) w ->
  0 < size <= segment_size (dev w) ->
  let '(v, r') := Ring.alloc size r in
  exists pba w' ss,
    get_next_pba size w = Ret pba w' /\
    pba * grain_unit (dev w') = Ring.phys r v /\
    dev_wf (dev w') /\ ring_rel r' (dev w') /\ dev_frame w w' /\ pools_ready n w' /\
    (forall k, 0 <= k -> k * grain_unit (dev w') <= Ring.round_up (grain_unit (dev w')) size ->
       in_staged (dev w') ss pba k).
Proof.
  intros Hwf Hrel Hpr Hsz.
  destruct (get_next_pba_log r n size w Hwf Hrel Hpr Hsz) as (pba & w' & ss & H).
  destruct (Ring.alloc size r) as [v r']. exists pba, w', ss.
  destruct H as (? & ? & ? & ? & ? & ? & ? & _). by split_and!.
Qed.

(** The size in grains of the block an allocation of [size] bytes takes. *)
Definition grains (g size : Z) : Z := Ring.round_up g size / g.

Lemma grains_le g size p q :
  0 < g -> p + Ring.round_up g size <= q -> p / g + grains g size <= q / g.
Proof.
  intros Hg Hle. unfold grains. destruct (Ring.round_up_aligned g size Hg) as [k Hk].
  rewrite Hk, Z.div_mul by lia. rewrite <- Z.div_add by lia. apply Z.div_le_mono; lia.
Qed.

Lemma log_blocks_disjoint r r' vi vj si sj :
  Ring.ok r ->
  Ring.block r r' vi (Ring.round_up (Ring.grain r) si) ->
  Ring.block r r' vj (Ring.round_up (Ring.grain r) sj) ->
  0 < si -> 0 < sj -> vi + Ring.round_up (Ring.grain r) si <= vj ->
  Ring.lap r' < Ring.lap r + Ring.nr r ->
  Ring.phys r vi / Ring.grain r + grains (Ring.grain r) si <= Ring.phys r vj / Ring.grain r \/
  Ring.phys r vj / Ring.grain r + grains (Ring.grain r) sj <= Ring.phys r vi / Ring.grain r.
Proof.
  intros [Hg Hs _ Hn _ _ _] (ki & oi & -> & Hki & Hoi & Hei & _) (kj & oj & -> & Hkj & Hoj & Hej & _)
    Hsi Hsj Hlt Hlap.
  pose proof (Ring.round_up_bounds (Ring.grain r) si Hg).
  pose proof (Ring.round_up_bounds (Ring.grain r) sj Hg).
  assert (ki <= kj) by (destruct (decide (kj < ki)); [nia | lia]).
  destruct (Ring.phys_disjoint r ki oi (Ring.round_up (Ring.grain r) si)
              kj oj (Ring.round_up (Ring.grain r) sj)) as [Hd|Hd]; try lia.
  - left. by apply grains_le.
  - right. by apply grains_le.
Qed.

(** C10: live data is never handed out again within a lap of the ring: as long
    as a run of allocations spans fewer than [nr_segment] segments, the blocks
    it returns are pairwise disjoint on the device. *)
Theorem allocations_disjoint (sizes : list Z) (r : Ring.ring) w :
  dev_wf (dev w) -> ring_rel r (dev w) -> pools_ready (length sizes) w ->
  Forall (fun s => 0 < s <= segment_size (dev w)) sizes ->
  Ring.lap (snd (Ring.allocs sizes r)) < Ring.lap r + nr_segment (dev w) ->
  exists l w', alloc_many sizes w = Ret l w' /\ length l = length sizes /\
    forall i j pi pj si sj, (i < j)%nat ->
      l !! i = Some pi -> l !! j = Some pj -> sizes !! i = Some si -> sizes !! j = Some sj ->
      pi + grains (grain_unit (dev w)) si <= pj \/ pj + grains (grain_unit (dev w)) sj <= pi.
Proof.
  intros Hwf Hrel Hpr Hf Hlap. pose proof (rr_ok _ _ Hrel) as Hok.
  destruct (alloc_many_sim sizes r w Hwf Hrel Hpr Hf) as (w' & Ha & _ & _ & _).
  pose proof (Ring.allocs_spec sizes r Hok) as Hspec. rewrite (rr_seg _ _ Hrel) in Hspec.
  specialize (Hspec Hf). destruct (Ring.allocs sizes r) as [l r']. cbn [fst snd] in *.
  destruct Hspec as (Hlen & _ & _ & Hbl & Hord).
  eexists _, w'. split; [exact Ha|]. split; [by rewrite length_map|].
  intros i j pi pj si sj Hij Hpi Hpj Hsi Hsj.
  apply list_lookup_fmap_Some in Hpi as (vi & -> & Hvi).
  apply list_lookup_fmap_Some in Hpj as (vj & -> & Hvj).
  pose proof (Hord _ _ _ _ _ Hij Hvi Hvj Hsi) as Hlt.
  destruct (log_blocks_disjoint r r' vi vj si sj Hok) as [H|H];
    [by eauto | by eauto | | | done | rewrite (rr_nr _ _ Hrel); lia | |].
  1,2: apply Forall_lookup_1 with (x := si) (i := i) in Hf as ?; [|done];
       apply Forall_lookup_1 with (x := sj) (i := j) in Hf as ?; [|done]; lia.
  all: rewrite <- (rr_grain _ _ Hrel); auto.
Qed.

Lemma ok_seg_aligned r : Ring.ok r -> Ring.round_up (Ring.grain r) (Ring.seg r) = Ring.seg r.
Proof.
  intros [Hg _ Ha _ _ _ _]. unfold Ring.round_up.
  by rewrite (proj2 (Z.eqb_eq _ _)) by (apply Z.mod_divide; [lia | done]).
Qed.

(** Allocations of whole segments walk the ring one segment at a time. *)
Lemma allocs_full n r i :
  Ring.ok r -> (i < n)%nat ->
  fst (Ring.allocs (replicate n (Ring.seg r)) r) !! i =
  Some ((Ring.lap (Ring.source (Ring.seg r) r) + Z.of_nat i) * Ring.seg r).
Proof.
  revert r i. induction n as [|n IH]; intros r i Hok Hi; [lia|].
  pose proof (ok_seg_aligned r Hok) as Hru.
  destruct (Ring.source_room (Ring.seg r) r Hok) as (Hok1 & Hf & _ & Hs & Hn & Hg);
    [pose proof (Ring.ok_seg _ Hok); lia|].
  pose proof (Ring.ok_off _ Hok1) as Ho. pose proof (Ring.ok_seg _ Hok) as Hsg.
  pose proof (Ring.alloc_ok (Ring.seg r) r Hok ltac:(lia)) as Hok2.
  cbn [replicate Ring.allocs]. unfold Ring.alloc in *. cbn [fst snd] in *.
  set (r1 := Ring.take (Ring.seg r) (Ring.source (Ring.seg r) r)) in *.
  assert (Ring.seg r1 = Ring.seg r) as Hs1 by done.
  assert (Ring.lap (Ring.source (Ring.seg r1) r1) = Ring.lap (Ring.source (Ring.seg r) r) + 1) as Hl1.
  { assert (Ring.off r1 = Ring.seg r) as Ho1 by (unfold r1; simpl; rewrite Hg, Hru; lia).
    assert (Ring.rotates (Ring.seg r1) r1 = true) as Hrot
      by (unfold Ring.rotates; rewrite Hs1, Ho1; lia).
    unfold Ring.source. by rewrite Hrot. }
  destruct (Ring.allocs (replicate n (Ring.seg r)) r1) as [l r2] eqn:E. cbn [fst].
  destruct i as [|i]; cbn [lookup list_lookup].
  - unfold Ring.pos. f_equal. rewrite Hs. lia.
  - specialize (IH r1 i Hok2 ltac:(lia)). rewrite Hs1, E in IH. cbn [fst] in IH.
    etransitivity; [exact IH|]. f_equal. rewrite Hs1 in Hl1. rewrite Hl1. lia.
Qed.

(** The ring has no other reclamation than going round: after
    [nr_segment] further whole-segment allocations the same device address is
    handed out again, whatever was stored there. *)
Theorem ring_reuses_addresses (r : Ring.ring) w :
  dev_wf (dev w) -> ring_rel r (dev w) -> pools_ready (S (Z.to_nat (nr_segment (dev w)))) w ->
  exists l w' pba,
    alloc_many (replicate (S (Z.to_nat (nr_segment (dev w)))) (segment_size (dev w))) w = Ret l w' /\
    l !! 0%nat = Some pba /\ l !! Z.to_nat (nr_segment (dev w)) = Some pba.
Proof.
  intros Hwf Hrel Hpr. pose proof (rr_ok _ _ Hrel) as Hok.
  pose proof (dw_seg _ Hwf). pose proof (dw_nr _ Hwf).
  destruct (alloc_many_sim (replicate (S (Z.to_nat (nr_segment (dev w)))) (segment_size (dev w))) r w)
    as (w' & Ha & _); try done.
  { by rewrite length_replicate. }
  { apply Forall_replicate. lia. }
  pose proof (allocs_full (S (Z.to_nat (nr_segment (dev w)))) r) as Hl.
  rewrite (rr_seg _ _ Hrel) in Hl.
  pose proof (Hl 0%nat Hok ltac:(lia)) as Hl0.
  pose proof (Hl (Z.to_nat (nr_segment (dev w))) Hok ltac:(lia)) as Hl1.
  eexists _, w', _. split; [exact Ha|].
  change (@map Z Z) with (@fmap list _ Z Z). rewrite !list_lookup_fmap, Hl0, Hl1. simpl.
  split; [done|]. do 2 f_equal. unfold Ring.phys.
  rewrite (rr_seg _ _ Hrel), (rr_nr _ _ Hrel), Z2Nat.id by lia.
  rewrite Z.add_0_r, Z.mul_add_distr_r.
  match goal with |- (?a + ?n) mod _ = _ => replace (a + n) with (a + 1 * n) by ring end.
  apply Z_mod_plus_full.
Qed.

(** C34: A segment that cannot take a request is written out whole: one write of
    the staged buffer to the segment's own address is submitted, the buffer
    keeps its bytes until the callback of that write frees it, and a different,
    zeroed buffer is staged for the next segment of the ring. *)
Theorem full_segment_written_out (r : Ring.ring) (n : nat) (size : Z) w ss sb :
  dev_wf (dev w) -> ring_rel r (dev w) -> pools_ready (S n) w -> mem_ok w ->
  0 < size <= segment_size (dev w) -> Ring.rotates size r = true ->
  0 <= io_submit_rc w (submits w) ->
  seg_array (dev w) !! staged_seg (dev w) = Some ss ->
  bufs w !! staged_seg_buf (dev w) = Some sb ->
  exists pba w' i c,
    get_next_pba size w = Ret pba w' /\
    aio_ctx w' = aio_ctx w ++ [i] /\
    iocb_arr w' !! i = Some (Iocb true (dev_fd (dev w)) (staged_seg_buf (dev w))
                              (segment_size (dev w)) (start_addr ss) c) /\
    cb_arr w' !! c = Some (Callback FN_reap_seg_buf (staged_seg_buf (dev w)) i) /\
    bufs w' !! staged_seg_buf (dev w) = Some sb /\
    staged_seg_buf (dev w') <> staged_seg_buf (dev w) /\
    bufs w' !! staged_seg_buf (dev w') = Some (replicate (Z.to_nat (segment_size (dev w))) 0) /\
    staged_seg_idx (dev w') = (staged_seg_idx (dev w) + 1) mod nr_segment (dev w).
Proof.
  intros Hwf Hrel Hpr Hmem Hsz Hrot Hrc Hss Hsb.
  pose proof (rr_off _ _ Hrel _ Hss) as Hos. pose proof (rr_seg _ _ Hrel) as Hsg.
  pose proof (dev_wf_bounds _ _ _ Hwf Hss) as (Hb1 & Hb2 & Hb3).
  pose proof (Ring.ok_off _ (rr_ok _ _ Hrel)) as Hof.
  pose proof (dw_total _ Hwf) as Ht. pose proof (dw_seg _ Hwf) as Hsgb.
  destruct (write_out_ready n w ss Hwf Hss Hpr)
    as (ns & w1 & b & Hw & Hf & Hns & Hd & Hp & Hb & Hfresh & Hio).
  destruct (Hio Hrc) as (i & c & Hctx & Hi & Hc).
  pose proof (dev_wf_rotated _ _ _ b Hwf Hss Hns) as Hwf1.
  pose proof (rotated_staged (dev w) ss ns b Hwf) as Hst. rewrite <- Hd in Hwf1, Hst.
  pose proof (dev_wf_bounds _ _ _ Hwf1 Hst) as (_ & Hb2' & _). simpl in Hb2'.
  assert (segment_size (dev w1) = segment_size (dev w)) as Hsz1 by by rewrite Hd.
  unfold Ring.rotates in Hrot. reflect_bools.
  unfold get_next_pba. rewrite (bind_ret _ _ _ _ _ (get_staged_ok _ _ Hss)).
  rewrite wrap_small by lia. rewrite (proj2 (Z.ltb_lt _ _)) by lia.
  rewrite (bind_ret _ _ _ _ _ Hw).
  rewrite (take_grains_ok size w1 _ Hwf1 Hst) by (simpl; lia).
  eexists _, _, i, c. split; [done|]. rewrite Hd. simpl.
  split_and!; try done.
  - by apply (df_bufs _ _ Hf Hmem).
  - intros ->. by rewrite Hfresh in Hsb.
Qed.

Lemma dev_abs_read_unstaged (call : fn -> Z -> M (world I P) unit) (n : nat) w ss pba k buf c cb :
  dev_wf (dev w) -> seg_array (dev w) !! staged_seg (dev w) = Some ss ->
  pba * grain_unit (dev w) < start_addr ss \/ seg_offset ss <= pba * grain_unit (dev w) ->
  0 <= pba -> 0 <= k -> pba * grain_unit (dev w) < 2 ^ 64 -> k * grain_unit (dev w) < 2 ^ 32 ->
  pools_ready (S n) w -> cb_arr w !! c = Some cb -> 0 <= io_submit_rc w (submits w) ->
  exists rc w' i,
    dev_abs_read call pba k buf c w = Ret rc w' /\
    aio_ctx w' = aio_ctx w ++ [i] /\
    iocb_arr w' !! i = Some (Iocb false (dev_fd (dev w)) buf (k * grain_unit (dev w))
                              (pba * grain_unit (dev w)) c) /\
    cb_arr w' !! c = Some (Callback (cb_func cb) (cb_arg cb) i) /\
    bufs w' = bufs w /\ dev w' = dev w /\ dev_frame w w'.
Proof.
  intros Hwf Hss Hout Hp0 Hk0 Hp Hk [Hc Hi Hca Hia] Hcb Hrc.
  pose proof (dw_grain _ Hwf) as Hg.
  assert (u32 (k * grain_unit (dev w)) = k * grain_unit (dev w)) as Hu by (apply wrap_small; nia).
  destruct (aio_request_ready false (pba * grain_unit (dev w)) (k * grain_unit (dev w)) buf c cb n w)
    as (rc & w' & Hr & Hfr & Hd & Hb & _ & _ & _ & _ & _ & Hio); [| done | done | done |].
  { intros H. rewrite H in Hi. simpl in Hi. lia. }
  destruct (Hio Hrc) as (i & H1 & H2 & H3). rewrite Hu in H2.
  exists rc, w', i. split_and!; try done.
  unfold dev_abs_read, mreads. unfold bind at 1.
  rewrite (bind_ret _ _ _ _ _ (get_staged_ok _ _ Hss)).
  assert (u64 (pba * grain_unit (dev w)) = pba * grain_unit (dev w)) as Ha by (apply wrap_small; nia).
  assert ((is_staged (dev w) ss pba =? 0) = false) as ->; [|by rewrite Hu, Ha].
  unfold is_staged. rewrite Ha. repeat case_match; reflect_bools; lia.
Qed.

(** A block outside the staged segment is read from the device: one read of
    exactly the block's bytes into the caller's buffer is submitted under the
    caller's callback, which does not run yet, and no memory changes. *)
Theorem unstaged_read_submitted (call : fn -> Z -> M (world I P) unit) (n : nat) w ss pba k buf c cb :
  dev_wf (dev w) -> seg_array (dev w) !! staged_seg (dev w) = Some ss ->
  pba * grain_unit (dev w) < start_addr ss \/ seg_offset ss <= pba * grain_unit (dev w) ->
  0 <= pba -> 0 <= k -> pba * grain_unit (dev w) < 2 ^ 64 -> k * grain_unit (dev w) < 2 ^ 32 ->
  pools_ready (S n) w -> cb_arr w !! c = Some cb -> 0 <= io_submit_rc w (submits w) ->
  exists rc w' i,
    dev_abs_read call pba k buf c w = Ret rc w' /\
    aio_ctx w' = aio_ctx w ++ [i] /\
    iocb_arr w' !! i = Some (Iocb false (dev_fd (dev w)) buf (k * grain_unit (dev w))
                              (pba * grain_unit (dev w)) c) /\
    cb_arr w' !! c = Some (Callback (cb_func cb) (cb_arg cb) i) /\
    bufs w' = bufs w /\ dev w' = dev w /\ dev_frame w w'.
Proof. exact (dev_abs_read_unstaged call n w ss pba k buf c cb). Qed.

End Alloc.

Definition mini : world unit unit := mini_world tt.

(** An allocation of 200 bytes takes two grains. *)
Lemma get_next_pba_refines_log_witness :
  exists pba w', get_next_pba 200 mini = Ret pba w' /\ pba * 128 = 0 /\ dev_wf (dev w') /\
    ring_rel (Ring.Mk 512 3 128 0 256) (dev w').
Proof.
  destruct (get_next_pba_refines_log mini_ring 3 200 mini mini_dev_wf mini_ring_rel
              (mini_pools tt) ltac:(simpl; lia)) as (pba & w' & ss & H1 & H2 & H3 & H4 & Hf & _).
  exists pba, w'. split; [exact H1|]. split; [|by split].
  vm_compute in H1. injection H1 as <- _. reflexivity.
Defined.

(** Three blocks that need a rotation. *)
Lemma allocations_disjoint_witness :
  exists w', alloc_many [200; 300; 130] mini = Ret [0; 4; 8] w' /\ 0 + grains 128 200 <= 4.
Proof.
  destruct (allocations_disjoint [200; 300; 130] mini_ring mini mini_dev_wf mini_ring_rel
              (pools_ready_weaken 4 3 _ ltac:(lia) (mini_pools tt))) as (l & w' & H1 & H2 & H3).
  - simpl. repeat constructor; lia.
  - vm_compute. reflexivity.
  - vm_compute in H1. injection H1 as <- <-. eexists. split; [vm_compute; reflexivity|].
    destruct (H3 0%nat 1%nat 0 4 200 300) as [H|H]; try reflexivity; [lia | exact H |].
    exfalso. vm_compute in H. by apply H.
Defined.

Lemma ring_reuses_addresses_witness :
  exists w', alloc_many [512; 512; 512; 512] mini = Ret [0; 4; 8; 0] w'.
Proof.
  destruct (ring_reuses_addresses mini_ring mini mini_dev_wf mini_ring_rel (mini_pools tt))
    as (l & w' & pba & H1 & H2 & H3).
  exists w'. assert (l = [0; 4; 8; 0]) as Hl.
  { vm_compute in H1. by injection H1. }
  rewrite <- Hl. exact H1.
Defined.

(** The device after one grain has been taken, with the buffers of a writer and a
    reader. *)
Definition mini_taken : dev_abs :=
  with_segs [Segment 0 SEG_STATE_STAGED 0 512 128; Segment 1 SEG_STATE_FREE 512 1024 512;
             Segment 2 SEG_STATE_FREE 1024 1536 1024] mini_dev.

Definition mini_rw : world unit unit :=
  set_bufs (<[8 := replicate 128 7]> (<[9 := replicate 128 1]> (bufs mini))) (set_dev mini_taken mini).

Lemma mini_taken_wf : dev_wf mini_taken.
Proof.
  apply (dev_wf_upd mini_dev 0 (Segment 0 SEG_STATE_STAGED 0 512 128)); [apply mini_dev_wf | | done].
  split; simpl; try lia. by exists 1.
Qed.

Lemma mini_in_staged : in_staged mini_taken (Segment 0 SEG_STATE_STAGED 0 512 128) 0 1.
Proof. split; simpl; try lia. done. Qed.

Lemma staged_write_then_read_witness :
  exists w1 w2 : world unit unit,
    dev_abs_write (fun _ _ => ret tt) 0 1 8 1 mini_rw =
      (ret tt ;;; q_enqueue 1 CB_POOL ;;; ret 0) w1 /\
    dev_abs_read (fun _ _ => ret tt) 0 1 9 2 w1 = (ret tt ;;; q_enqueue 2 CB_POOL ;;; ret 0) w2 /\
    bufs w2 !! 9 = Some (replicate 128 7).
Proof.
  destruct (staged_write_then_read (fun _ _ => ret tt) mini_rw _ 0 1 8 1 (Callback FN_NULL 0 0)
              (replicate 512 0) (replicate 128 7) mini_taken_wf mini_in_staged)
    as (w1 & Hw & _ & _ & Hfr & Hr);
    [by vm_compute | by vm_compute | by vm_compute | by vm_compute | by vm_compute |].
  assert (bufs w1 !! 9 = Some (replicate 128 1)) as H9.
  { rewrite Hfr by (vm_compute; lia). by vm_compute. }
  destruct (Hr 0 1 9 2 (Callback FN_NULL 0 0) (replicate 128 1) mini_in_staged)
    as (w2 & x & H1 & H2 & H3 & _); [lia | exact H9 | by vm_compute | by vm_compute |].
  exists w1, w2. split; [exact Hw|]. split; [exact H1|].
  rewrite H2, lookup_insert_eq, (H3 eq_refl eq_refl). reflexivity.
Defined.

(** 200 bytes when only 112 are left. *)
Definition mini_full : dev_abs :=
  with_segs [Segment 0 SEG_STATE_STAGED 0 512 384; Segment 1 SEG_STATE_FREE 512 1024 512;
             Segment 2 SEG_STATE_FREE 1024 1536 1024] mini_dev.

Definition mini_full_ring : Ring.ring := Ring.Mk 512 3 128 0 384.

Lemma mini_full_wf : dev_wf mini_full /\ ring_rel mini_full_ring mini_full.
Proof.
  split; [|split; try done].
  - apply (dev_wf_upd mini_dev 0 (Segment 0 SEG_STATE_STAGED 0 512 384)); [apply mini_dev_wf | | done].
    split; simpl; try lia. by exists 3.
  - split; simpl; try lia; [by exists 4 | by exists 3].
  - by intros s [= <-].
Qed.

Lemma full_segment_written_out_witness :
  exists pba w' i c, get_next_pba 200 (set_dev mini_full mini) = Ret pba w' /\
    aio_ctx w' = [i] /\ iocb_arr w' !! i = Some (Iocb true 3 1 512 0 c) /\
    cb_arr w' !! c = Some (Callback FN_reap_seg_buf 1 i) /\ staged_seg_idx (dev w') = 1.
Proof.
  destruct (full_segment_written_out mini_full_ring 3 200 (set_dev mini_full mini)
              (Segment 0 SEG_STATE_STAGED 0 512 384) (replicate 512 0)
              (proj1 mini_full_wf) (proj2 mini_full_wf))
    as (pba & w' & i & c & H1 & H2 & H3 & H4 & _ & _ & _ & H5).
  - destruct (mini_pools (P:=unit) tt) as [A B C D]. split; [exact A | exact B | exact C | exact D].
  - destruct (mini_mem_ok (P:=unit) tt) as [A B]. split; [exact A | exact B].
  - simpl. lia.
  - reflexivity.
  - simpl. lia.
  - reflexivity.
  - reflexivity.
  - exists pba, w', i, c. split_and!; [exact H1 | exact H2 | exact H3 | exact H4 | exact H5].
Defined.

Lemma unstaged_read_submitted_witness :
  exists rc w' i, dev_abs_read (fun _ _ => ret tt) 5 2 9 1 mini_rw = Ret rc w' /\
    aio_ctx w' = [i] /\ iocb_arr w' !! i = Some (Iocb false 3 9 256 640 1).
Proof.
  destruct (unstaged_read_submitted (fun _ _ => ret tt) 3 mini_rw
              (Segment 0 SEG_STATE_STAGED 0 512 128) 5 2 9 1 (Callback FN_NULL 0 0) mini_taken_wf)
    as (rc & w' & i & H1 & H2 & H3 & _);
    [by vm_compute | right; by vm_compute | lia | lia | by vm_compute | by vm_compute | | by vm_compute
    | by vm_compute |].
  - destruct (mini_pools (P:=unit) tt) as [A B C D]. split; [exact A | exact B | exact C | exact D].
  - exists rc, w', i. split_and!; [exact H1 | exact H2 | exact H3].
Defined.
