(* ===== verification/Handler.v ===== *)
(** * The handler: construction and request queues ([src/handler.c],
    [include/handler.h], [include/kv_ops.h])

    One handler owns an index, a device, three pools and the queues that
    connect the thread that receives requests, the handler thread and the
    poller. [KvOps] is the interface of [struct kv_ops]: what an index file
    gives to the handler. *)

From Stdlib Require Import ZArith Lia.
From stdpp Require Import prelude gmap.
From S2P Require Import Prelude Config Queue CondLock World Stopwatch KvPair Request Device DeviceSpec.

#[local] Open Scope Z_scope.

(** [struct kv_ops]: the private state [init] leaves, the operations, and the
    functions of the index file that callbacks point to. *)
Class KvOps (I P : Type) : Type := {
  ops_init : I;
  get_kv : Z -> M (world I P) Z;
  set_kv : Z -> M (world I P) Z;
  delete_kv : Z -> M (world I P) Z;
  exec : fn -> Z -> M (world I P) unit
}.

(** What the handler relies on: the two functions that are not the index's own
    are the ones of [request.c] and [device.c]. *)
Class KvOpsLaws (I P : Type) `{KvOps I P} : Prop := {
  exec_end : forall (r : Z) (w : world I P), exec FN_net_end_req r w = net_end_req r w;
  exec_reap : forall (b : Z) (w : world I P), exec FN_reap_seg_buf b w = reap_seg_buf b w
}.

Section Queues.
Context {I P : Type}.
Implicit Types w : world I P.

(** ** Construction *)

Definition zero_request : request :=
  Request REQ_TYPE_PADDING 0 (KeyStruct (replicate (Z.to_nat KEY_LEN_MAX) 0) 0 0 0)
    (ValStruct NULL 0) sw_zero FN_NULL NULL NULL 0.

Definition zero_iocb : iocb := Iocb false 0 0 0 0 0.
Definition zero_callback : callback := Callback FN_NULL 0 NULL.

(** [calloc] of an array of [n] objects: element [i] has address [i + 1]. *)
Definition calloc_array {A} (n : Z) (a : A) : gmap Z A :=
  list_to_map ((fun i : nat => (Z.of_nat i + 1, a)) <$> seq 0 (Z.to_nat n)).

(** [for (i = 0; i < n; i++) q_enqueue(&arr[i], pool);] *)
Fixpoint fill_pool (q : qname) (i : Z) (n : nat) : M (world I P) unit :=
  match n with
  | O => ret tt
  | S n' => q_enqueue (i + 1) q ;;; fill_pool q (i + 1) n'
  end.

Definition q_init (q : qname) : M (world I P) unit := mmod (qset q (Fifo.init QSIZE)).

Definition handler_init (init : I) (name : list Z) (fd : Z) (blkgetsize blksszget : option Z)
  : M (world I P) unit :=
  mmod (set_ops init) ;;;
  mmod (set_flying (cl_init QDEPTH false)) ;;;
  q_init REQ_Q ;;; q_init RETRY_Q ;;; q_init DONE_Q ;;;
  q_init REQ_POOL ;;; q_init IOCB_POOL ;;; q_init CB_POOL ;;;
  dev_abs_init name fd blkgetsize blksszget ;;;
  mmod (set_req_arr (calloc_array QSIZE zero_request)) ;;;
  fill_pool REQ_POOL 0 (Z.to_nat QSIZE) ;;;
  mmod (set_iocb_arr (calloc_array QSIZE zero_iocb)) ;;;
  fill_pool IOCB_POOL 0 (Z.to_nat QSIZE) ;;;
  mmod (set_cb_arr (calloc_array QSIZE zero_callback)) ;;;
  fill_pool CB_POOL 0 (Z.to_nat QSIZE) ;;;
  mmod (set_aio_ctx []).

(** ** Queues *)

(** [forward_req_to_hlr], in the thread that receives requests. *)
Definition forward_req_to_hlr (r : Z) : M (world I P) Z :=
  let* cl := mreads flying in
  let* cl' := mopt SBlock (cl_grap cl) in
  mmod (set_flying cl') ;;;
  let* ok := q_enqueue r REQ_Q in
  ret (if ok : bool then 0 else -1).

Definition retry_req_to_hlr (r : Z) : M (world I P) Z :=
  let* ok := q_enqueue r RETRY_Q in
  ret (if ok : bool then 0 else 1).

Section Next.
Variable CityHash128 : list Z -> Z -> Z * Z.

Definition get_next_request : M (world I P) Z :=
  let* r := q_dequeue RETRY_Q in
  if negb (r =? NULL) then ret r
  else
    let* r := q_dequeue REQ_Q in
    if negb (r =? NULL) then
      let* rq := load_req r in
      (if value (req_value rq) =? NULL then add_request_info CityHash128 r else ret tt) ;;;
      ret r
    else ret r.
End Next.

(** ** Lemmas on construction *)

Lemma calloc_array_lookup {A} n (a : A) i :
  calloc_array n a !! i = if decide (1 <= i <= n) then Some a else None.
Proof.
  unfold calloc_array.
  assert (NoDup (((fun i : nat => (Z.of_nat i + 1, a)) <$> seq 0 (Z.to_nat n)).*1)) as Hnd.
  { rewrite <- list_fmap_compose. apply NoDup_fmap_2; [|apply NoDup_seq].
    intros x y. simpl. lia. }
  case_decide as Hi.
  - apply elem_of_list_to_map; [done|]. apply list_elem_of_fmap.
    exists (Z.to_nat (i - 1)). split; [f_equal; lia|]. apply elem_of_seq. lia.
  - apply not_elem_of_list_to_map_1. rewrite <- list_fmap_compose.
    intros (x & -> & Hx)%list_elem_of_fmap. apply elem_of_seq in Hx. simpl in Hi. lia.
Qed.

(** Addresses [i + 1], [i + 2], ... of the elements of an array. *)
Definition addrs (i : Z) (n : nat) : list Z := (fun k : nat => i + 1 + Z.of_nat k) <$> seq 0 n.

Lemma addrs_S i n : addrs i (S n) = (i + 1) :: addrs (i + 1) n.
Proof.
  unfold addrs. simpl. f_equal; [lia|]. rewrite <- fmap_S_seq, <- list_fmap_compose.
  apply list_fmap_ext. intros k x _. simpl. lia.
Qed.

Lemma qset_qset q f g w : qset q f (qset q g w) = qset q f w.
Proof. by destruct q. Qed.

Lemma qget_qset q f w : qget q (qset q f w) = f.
Proof. by destruct q. Qed.

Lemma fill_pool_ok q n i l c w :
  qget q w = Fifo.Mk l c -> Z.of_nat (length l) + Z.of_nat n <= c ->
  fill_pool q i n w = Ret tt (qset q (Fifo.Mk (l ++ addrs i n) c) w).
Proof.
  revert i l w. induction n as [|n IH]; intros i l w Hq Hc.
  - simpl. rewrite app_nil_r. unfold ret. rewrite <- Hq. by destruct q, w.
  - cbn [fill_pool]. erewrite bind_ret by (apply q_enqueue_room; rewrite Hq; unfold Fifo.full; simpl; lia).
    rewrite Hq. simpl. rewrite (IH (i + 1) (l ++ [i + 1])).
    + rewrite qset_qset, <- app_assoc, addrs_S. done.
    + apply qget_qset.
    + rewrite length_app. simpl. lia.
Qed.

Lemma addrs_length i n : length (addrs i n) = n.
Proof. unfold addrs. by rewrite length_fmap, length_seq. Qed.

Lemma addrs_calloc {A} n (a : A) :
  Forall (fun p => is_Some (calloc_array n a !! p)) (addrs 0 (Z.to_nat n)).
Proof.
  apply Forall_forall. intros p (k & -> & Hk)%list_elem_of_fmap. apply elem_of_seq in Hk.
  rewrite calloc_array_lookup. rewrite decide_True by lia. done.
Qed.

(** The state of a handler that has just been made. *)
Record fresh_handler (init : I) (nr : Z) w : Prop := FreshHandler {
  fh_dev : dev_wf (dev w);
  fh_ring : ring_rel (init_ring nr) (dev w);
  fh_mem : mem_ok w;
  fh_ops : ops w = init;
  fh_flying : flying w = ClLock QDEPTH 0 false;
  fh_queues : req_q w = Fifo.Mk [] QSIZE /\ retry_q w = Fifo.Mk [] QSIZE /\ done_q w = Fifo.Mk [] QSIZE;
  fh_pools : forall q, q = REQ_POOL \/ q = IOCB_POOL \/ q = CB_POOL ->
               qget q w = Fifo.Mk (addrs 0 (Z.to_nat QSIZE)) QSIZE;
  fh_req : req_arr w = calloc_array QSIZE zero_request;
  fh_ready : pools_ready (Z.to_nat QSIZE) w;
  fh_aio : aio_ctx w = [];
  fh_arrays : iocb_arr w = calloc_array QSIZE zero_iocb /\ cb_arr w = calloc_array QSIZE zero_callback
}.

Lemma fill_pool_fresh q w :
  qget q w = Fifo.Mk [] QSIZE ->
  fill_pool q 0 (Z.to_nat QSIZE) w =
  Ret tt (qset q (Fifo.Mk (addrs 0 (Z.to_nat QSIZE)) QSIZE) w).
Proof. intros Hq. rewrite (fill_pool_ok q _ 0 [] QSIZE); [done | done | unfold QSIZE; cbn [length]; lia]. Qed.

(** [handler_init] returns a handler in which every object of the three
    arrays is in its pool exactly once, in order, nothing is queued or in
    flight, the index is the initial one and the device is ready to allocate. *)
Theorem handler_init_fresh (init : I) (name : list Z) (fd nlb lbs : Z) w :
  (length name < 128)%nat -> 0 <= fd -> 0 < init_nr nlb lbs -> mem_ok w ->
  exists w', handler_init init name fd (Some nlb) (Some lbs) w = Ret tt w' /\
    fresh_handler init (init_nr nlb lbs) w' /\ dev_fd (dev w') = fd /\ acks w' = acks w.
Proof.
  intros Hname Hfd Hnr Hmem. unfold handler_init, q_init.
  do 8 (erewrite bind_ret by (unfold mmod; exact eq_refl)).
  match goal with |- context [bind _ _ ?v] => set (w1 := v) end.
  destruct (dev_abs_init_ok name fd nlb lbs w1) as (d & Hi & Hwf & Hrel & Hb & Hd); [done..|].
  rewrite (bind_ret _ _ _ _ _ Hi). clear Hi.
  do 3 (erewrite bind_ret by (unfold mmod; exact eq_refl);
        erewrite bind_ret by (apply fill_pool_fresh; exact eq_refl)).
  unfold mmod. eexists. split; [exact eq_refl|]. split; [|split; [exact Hd | exact eq_refl]].
  assert (mem_ok (set_mem_next (mem_next w1 + 1)
            (set_bufs (<[mem_next w1 := replicate (Z.to_nat SEGMENT_SIZE) 0]> (bufs w1)) w1)))
    as [Hm1 Hm2].
  { apply (df_mem w1); [apply dev_frame_new_buf|]. by destruct Hmem. }
  pose proof (addrs_length 0 (Z.to_nat QSIZE)) as Hlen.
  split; [exact Hwf | exact Hrel | by split | done | done | done | | | | done | by split].
  - by intros q [-> | [-> | ->]].
  - exact eq_refl.
  - split.
    + rewrite <- Hlen at 1. exact (le_n _).
    + rewrite <- Hlen at 1. exact (le_n _).
    + exact (addrs_calloc QSIZE zero_callback).
    + exact (addrs_calloc QSIZE zero_iocb).
Qed.

(** Without a descriptor the program ends. *)
Lemma handler_init_aborts (init : I) name blkgetsize blksszget w :
  (length name < 128)%nat -> handler_init init name (-1) blkgetsize blksszget w = Stop SAbort.
Proof.
  intros Hn. unfold handler_init, q_init. do 8 (erewrite bind_ret by (unfold mmod; exact eq_refl)).
  apply bind_stop. unfold dev_abs_init, massert. rewrite (proj2 (Z.ltb_lt _ _)) by lia. done.
Qed.

(** ** Flow control *)

Lemma retry_req_ok r w :
  Fifo.full (retry_q w) = false ->
  retry_req_to_hlr r w =
  Ret 0 (set_retry_q (Fifo.Mk (Fifo.items (retry_q w) ++ [r]) (Fifo.cap (retry_q w))) w).
Proof.
  intros H. unfold retry_req_to_hlr. by rewrite (bind_ret _ _ _ _ _ (q_enqueue_room RETRY_Q w r H)).
Qed.

(** The requests queued are in flight, and the queues were made by
    [handler_init]. *)
Record flow_ok w : Prop := FlowOk {
  fo_lock : zero_lock (flying w) = false;
  fo_cnt : cnt (flying w) = QDEPTH;
  fo_now : now (flying w) <= QDEPTH;
  fo_caps : Fifo.cap (req_q w) = QSIZE /\ Fifo.cap (retry_q w) = QSIZE;
  fo_len : Z.of_nat (length (Fifo.items (req_q w)) + length (Fifo.items (retry_q w))) <= now (flying w)
}.

(** No request is lost for want of room. While fewer than [QDEPTH] requests
    are in flight [forward_req_to_hlr] takes a permit, appends the request and
    returns 0; at [QDEPTH] it waits instead. The queue of [QSIZE] never
    overflows. *)
Theorem forward_never_drops (r : Z) w :
  flow_ok w ->
  (now (flying w) = QDEPTH -> forward_req_to_hlr r w = Stop SBlock) /\
  (now (flying w) <> QDEPTH ->
     exists w', forward_req_to_hlr r w = Ret 0 w' /\ flow_ok w' /\
       Fifo.items (req_q w') = Fifo.items (req_q w) ++ [r] /\
       now (flying w') = now (flying w) + 1 /\ retry_q w' = retry_q w).
Proof.
  intros [Hz Hc Hn [Hc1 Hc2] Hl]. unfold forward_req_to_hlr, cl_grap, grap_waits, grap_update.
  split; intros Hnow; unfold mreads, bind at 1; rewrite Hz, Hc.
  - by rewrite (proj2 (Z.eqb_eq _ _)).
  - rewrite (proj2 (Z.eqb_neq _ _)) by done. simpl. unfold mmod, bind at 1 2, ret at 1.
    erewrite bind_ret.
    2: { apply q_enqueue_room. unfold Fifo.full. simpl. rewrite Hc1.
         apply Z.eqb_neq. unfold QDEPTH, QSIZE in *. lia. }
    eexists. split; [done|]. simpl. split_and!; try done.
    split; simpl; try done; try lia. rewrite length_app. simpl. lia.
Qed.

Section Next.
Variable CityHash128 : list Z -> Z -> Z * Z.

(** The value buffer [add_request_info] allocates: 4 KiB for a GET, the length
    announced by the client for a SET. *)
Definition info_len (rq : request) : Z :=
  match req_type rq with REQ_TYPE_GET => VALUE_LEN_MAX | _ => val_len (req_value rq) end.

Definition with_info (rq : request) (p : Z) : request :=
  let h := CityHash128 (key (req_key rq)) (key_len (req_key rq)) in
  Request (req_type rq) (seq_num rq)
    (KeyStruct (key (req_key rq)) (key_len (req_key rq)) (fst h) (snd h))
    (ValStruct p (u32 (info_len rq))) (req_sw rq) FN_net_end_req NULL NULL (cl_sock rq).

Lemma add_request_info_ok r rq w :
  req_arr w !! r = Some rq -> (req_type rq = REQ_TYPE_GET \/ req_type rq = REQ_TYPE_SET) ->
  add_request_info CityHash128 r w =
  Ret tt (set_req_arr (<[r := with_info rq (mem_next w)]> (req_arr w))
    (set_mem_next (mem_next w + 1)
       (set_bufs (<[mem_next w := replicate (Z.to_nat (u32 (info_len rq))) 0]> (bufs w)) w))).
Proof.
  intros Hr Ht. unfold add_request_info, set_value, with_info, info_len.
  rewrite (bind_ret _ _ _ _ _ (load_req_ok r rq w Hr)).
  by destruct Ht as [-> | ->].
Qed.

(** The world in which a new request has been taken and completed. *)
Definition taken (r : Z) (l : list Z) (rq : request) w : world I P :=
  set_req_arr (<[r := with_info rq (mem_next w)]> (req_arr w))
    (set_mem_next (mem_next w + 1)
       (set_bufs (<[mem_next w := replicate (Z.to_nat (u32 (info_len rq))) 0]> (bufs w))
          (set_req_q (Fifo.Mk l (Fifo.cap (req_q w))) w))).

Lemma get_next_request_new w r l rq :
  Fifo.items (retry_q w) = [] -> Fifo.items (req_q w) = r :: l -> r <> NULL ->
  req_arr w !! r = Some rq -> value (req_value rq) = NULL ->
  req_type rq = REQ_TYPE_GET \/ req_type rq = REQ_TYPE_SET ->
  get_next_request CityHash128 w = Ret r (taken r l rq w).
Proof.
  intros Hl Hq Hr Hrq Hv Ht. unfold get_next_request.
  rewrite (bind_ret _ _ _ _ _ (q_dequeue_nil RETRY_Q _ Hl)). simpl.
  rewrite (bind_ret _ _ _ _ _ (q_dequeue_cons REQ_Q _ _ _ Hq)).
  rewrite (proj2 (Z.eqb_neq _ _)) by done. simpl.
  rewrite (bind_ret _ _ _ _ _ (load_req_ok r rq (set_req_q _ w) Hrq)).
  rewrite Hv. simpl.
  by rewrite (bind_ret _ _ _ _ _ (add_request_info_ok r rq (set_req_q _ w) Hrq Ht)).
Qed.

(** [get_next_request] serves retries before new requests, each queue in
    order; a new request leaves it with its hash, its end function and a zeroed
    value buffer of its own, and an empty handler gives null. *)
Theorem get_next_request_spec w :
  (forall r l, Fifo.items (retry_q w) = r :: l -> r <> NULL ->
     get_next_request CityHash128 w = Ret r (set_retry_q (Fifo.Mk l (Fifo.cap (retry_q w))) w)) /\
  (forall r l rq, Fifo.items (retry_q w) = [] -> Fifo.items (req_q w) = r :: l -> r <> NULL ->
     req_arr w !! r = Some rq -> value (req_value rq) = NULL ->
     req_type rq = REQ_TYPE_GET \/ req_type rq = REQ_TYPE_SET ->
     exists w', get_next_request CityHash128 w = Ret r w' /\
       req_arr w' = <[r := with_info rq (mem_next w)]> (req_arr w) /\
       bufs w' = <[mem_next w := replicate (Z.to_nat (u32 (info_len rq))) 0]> (bufs w) /\
       Fifo.items (req_q w') = l /\ retry_q w' = retry_q w /\ ops w' = ops w /\ dev w' = dev w) /\
  (Fifo.items (retry_q w) = [] -> Fifo.items (req_q w) = [] ->
     get_next_request CityHash128 w = Ret NULL w).
Proof.
  split_and!.
  - intros r l Hl Hr. unfold get_next_request. rewrite (bind_ret _ _ _ _ _ (q_dequeue_cons RETRY_Q _ _ _ Hl)).
    by rewrite (proj2 (Z.eqb_neq _ _)).
  - intros r l rq Hl Hq Hr Hrq Hv Ht. exists (taken r l rq w).
    split; [by apply get_next_request_new | by split].
  - intros Hl Hq. unfold get_next_request. rewrite (bind_ret _ _ _ _ _ (q_dequeue_nil RETRY_Q _ Hl)). simpl.
    by rewrite (bind_ret _ _ _ _ _ (q_dequeue_nil REQ_Q _ Hq)).
Qed.

End Next.
End Queues.

(** Two requests queued behind one that waits for a retry. *)
Definition queued_world : world unit unit :=
  let rq := Request REQ_TYPE_GET 5 (KeyStruct (replicate 256 97) 3 0 0) (ValStruct NULL 0) sw_zero
              FN_NULL NULL NULL 4 in
  set_req_q (Fifo.Mk [1; 2] QSIZE) (set_retry_q (Fifo.Mk [3] QSIZE)
    (set_flying (ClLock QDEPTH 3 false) (set_req_arr {[ 1 := rq; 2 := rq; 3 := rq ]} (blank_world tt)))).

Lemma forward_never_drops_witness :
  exists w', forward_req_to_hlr 4 queued_world = Ret 0 w' /\
    Fifo.items (req_q w') = [1; 2; 4] /\ now (flying w') = 4.
Proof.
  destruct (forward_never_drops 4 queued_world) as [_ H];
    [split; simpl; try lia; done|].
  destruct H as (w' & H1 & _ & H2 & H3 & _); [by vm_compute|].
  exists w'. split_and!; [exact H1 | exact H2 | exact H3].
Defined.

Lemma get_next_request_spec_witness :
  exists w', get_next_request (fun _ _ => (11, 12)) (set_retry_q (Fifo.Mk [] QSIZE) queued_world) = Ret 1 w' /\
    Fifo.items (req_q w') = [2] /\ bufs w' !! 1 = Some (replicate 4096 0).
Proof.
  destruct (get_next_request_spec (fun _ _ => (11, 12)) (set_retry_q (Fifo.Mk [] QSIZE) queued_world))
    as (_ & H & _).
  destruct (H 1 [2] _ eq_refl eq_refl ltac:(done) eq_refl eq_refl (or_introl eq_refl))
    as (w' & H1 & _ & H2 & H3 & _).
  exists w'. split; [exact H1|]. split; [exact H3|]. rewrite H2. apply lookup_insert_eq.
Defined.

Lemma handler_init_fresh_witness :
  exists w' : world nat unit, handler_init 7%nat [47; 100] 3 (Some 8192) (Some 512) (blank_world 0%nat) = Ret tt w' /\
    fresh_handler 7%nat 2 w'.
Proof.
  destruct (handler_init_fresh 7%nat [47; 100] 3 8192 512 (blank_world (P:=unit) 0%nat)) as (w' & H1 & H2 & _);
    [simpl; lia | lia | by vm_compute | by split|].
  exists w'. split; [exact H1 | exact H2].
Defined.
