(* ===== verification/Runtime.v ===== *)
(** * The two threads of a handler ([request_handler] of [src/handler.c] and
    [aio_poller] of [src/poller.c])

    Both are loops around a step; the steps are proved against the interface
    [KvOps], for any index. *)

From Stdlib Require Import ZArith Lia.
From stdpp Require Import prelude gmap.
From S2P Require Import Prelude Config Queue CondLock World Stopwatch KvPair Request Device DeviceSpec Handler.

#[local] Open Scope Z_scope.

Definition EINVAL : Z := 22.

(** [struct io_event] of libaio: the iocb, its [data] and the result. *)
Record io_event : Type := IoEvent { ev_obj : Z; ev_data : Z; ev_res : Z }.

Section Runtime.
Context {I P : Type} `{KvOps I P}.
Variable CityHash128 : list Z -> Z -> Z * Z.
Variable stopflag_hlr : bool.
Implicit Types w : world I P.

(** One turn of the loop of [request_handler], as the code is: a request is
    ended as soon as it is taken from its queue, and [continue] skips the rest
    of the body. The answer tells whether the loop goes on. *)
Definition request_handler_step : M (world I P) bool :=
  let* cl := mreads flying in
  if stopflag_hlr && (now cl =? 0) then ret false
  else
    let* r := get_next_request CityHash128 in
    if r =? NULL then ret true
    else
      let* rq := load_req r in
      exec (end_req rq) r ;;;
      ret true.

(** The callbacks in [done_q], at most [n] of them. *)
Fixpoint drain_done (n : nat) : M (world I P) unit :=
  match n with
  | O => ret tt
  | S n' =>
      let* c := q_dequeue DONE_Q in
      if c =? NULL then ret tt
      else
        let* cb := load_cb c in
        exec (cb_func cb) (cb_arg cb) ;;;
        q_enqueue c CB_POOL ;;;
        drain_done n'
  end.

(** The part of the loop body behind the [continue], which is never reached. *)
Definition dispatch (n : nat) (r : Z) : M (world I P) bool :=
  drain_done n ;;;
  let* rq := load_req r in
  match req_type rq with
  | REQ_TYPE_SET => set_kv r ;;; ret true
  | REQ_TYPE_GET =>
      let* rc := get_kv r in
      (if negb (rc =? 0) then exec (end_req rq) r else ret tt) ;;;
      ret true
  | _ => ret false
  end.

(** [n] turns of the loop. *)
Fixpoint request_handler (n : nat) : M (world I P) unit :=
  match n with
  | O => ret tt
  | S n' =>
      let* go := request_handler_step in
      if go : bool then request_handler n' else ret tt
  end.

(** One event of [aio_poller]. *)
Definition poll_event (ev : io_event) : M (world I P) unit :=
  let* io := load_iocb (ev_obj ev) in
  (if ev_res ev =? EINVAL then ret tt else massert (ev_res ev =? io_nbytes io) SAbort) ;;;
  let* cb := load_cb (ev_data ev) in
  exec (cb_func cb) (cb_arg cb) ;;;
  q_enqueue (ev_obj ev) IOCB_POOL ;;;
  q_enqueue (ev_data ev) CB_POOL ;;;
  ret tt.

(** One turn of [aio_poller] on the events that [io_getevents] gave. *)
Fixpoint poll_events (evs : list io_event) : M (world I P) unit :=
  match evs with
  | [] => ret tt
  | ev :: rest => poll_event ev ;;; poll_events rest
  end.

Definition aio_poller_step (evs : list io_event) : M (world I P) bool :=
  if stopflag_hlr then ret false else poll_events evs ;;; ret true.

(** The loop, on the successive answers of [io_getevents]; whether it goes on. *)
Fixpoint aio_poller (turns : list (list io_event)) : M (world I P) bool :=
  match turns with
  | [] => ret true
  | evs :: rest =>
      let* go := aio_poller_step evs in
      if go : bool then aio_poller rest else ret false
  end.

(** Built with [LINUX_AIO]; the variant for SPDK is empty. *)
Definition device_poller (turns : list (list io_event)) : M (world I P) bool := aio_poller turns.

(** ** The handler thread *)

(** A request as [make_request_from_netreq] queues it. *)
Definition fresh_request w (r : Z) (rq : request) : Prop :=
  r <> NULL /\ req_arr w !! r = Some rq /\ value (req_value rq) = NULL /\
  (req_type rq = REQ_TYPE_GET \/ req_type rq = REQ_TYPE_SET).

(** What the client sees of an acknowledgement, but for the time. *)
Definition answer_of (a : Z * netack) : Z * Z * req_type_t :=
  (fst a, ack_seq_num (snd a), ack_type (snd a)).
Definition answer_for (rq : request) : Z * Z * req_type_t := (cl_sock rq, seq_num rq, req_type rq).

Context `{!KvOpsLaws I P}.

Lemma request_handler_step_ends w r l rq :
  mem_ok w -> stopflag_hlr && (now (flying w) =? 0) = false ->
  Fifo.items (retry_q w) = [] -> Fifo.items (req_q w) = r :: l -> fresh_request w r rq ->
  Fifo.full (req_pool w) = false ->
  exists w', request_handler_step w = Ret true w' /\ mem_ok w' /\
    answer_of <$> acks w' = (answer_of <$> acks w) ++ [answer_for rq] /\
    bufs w' = bufs w /\ ops w' = ops w /\ dev w' = dev w /\ aio_ctx w' = aio_ctx w /\
    Fifo.items (retry_q w') = [] /\ Fifo.items (req_q w') = l /\
    flying w' = cl_release (flying w) /\
    req_pool w' = Fifo.Mk (Fifo.items (req_pool w) ++ [r]) (Fifo.cap (req_pool w)) /\
    (forall r', r' <> r -> req_arr w' !! r' = req_arr w !! r') /\
    Fifo.cap (req_q w') = Fifo.cap (req_q w) /\
    exists rq', req_arr w' !! r = Some rq' /\ key (req_key rq') = key (req_key rq).
Proof.
  intros Hm Hstop Hretry Hq (Hr & Hrq & Hv & Ht) Hpool.
  unfold request_handler_step. erewrite bind_ret by exact eq_refl. rewrite Hstop.
  rewrite (bind_ret _ _ _ _ _ (get_next_request_new CityHash128 w r l rq Hretry Hq Hr Hrq Hv Ht)).
  rewrite (proj2 (Z.eqb_neq r NULL) Hr). set (w1 := taken _ _ _ _ _).
  set (rq' := with_info CityHash128 rq (mem_next w)).
  assert (req_arr w1 !! r = Some rq') as Hrq1 by apply lookup_insert_eq.
  rewrite (bind_ret _ _ _ _ _ (load_req_ok _ _ _ Hrq1)). destruct Hm as [Hm1 Hm2].
  destruct (net_end_req_ok r rq' w1 Hrq1) as (w2 & He & Hen); [| done |].
  { split; [by left | simpl; unfold NULL; lia | eexists; apply lookup_insert_eq]. }
  exists w2. rewrite (bind_ret _ _ w1 tt w2) by (change (end_req rq') with FN_net_end_req; by rewrite exec_end).
  destruct Hen. simpl in *. rewrite en_bufs, en_acks.
  assert (bufs w !! mem_next w = None) as Hfresh.
  { destruct (bufs w !! mem_next w) eqn:E; [|done]. apply Hm2 in E. lia. }
  split; [done|]. split_and!; try done.
  - split; [rewrite en_next; lia|]. intros p b. rewrite en_next, en_bufs, delete_insert_id by done. intros Hp. apply Hm2 in Hp. lia.
  - by rewrite fmap_app.
  - by rewrite delete_insert_id.
  - by rewrite en_retry.
  - by rewrite en_req.
  - intros r' Hne. rewrite en_others by done. by rewrite lookup_insert_ne.
  - by rewrite en_req.
  - destruct en_self as (rq2 & H2 & H3). exists rq2. split; [done|]. by rewrite H3.
Qed.

(** Serving a queue of new requests. *)
Record served (rs : list Z) (rqs : list request) w w' : Prop := Served {
  sv_run : forall n, request_handler (length rs + n) w = request_handler n w';
  sv_acks : answer_of <$> acks w' = (answer_of <$> acks w) ++ (answer_for <$> rqs);
  sv_ops : ops w' = ops w;
  sv_dev : dev w' = dev w;
  sv_bufs : bufs w' = bufs w;
  sv_aio : aio_ctx w' = aio_ctx w;
  sv_queues : Fifo.items (req_q w') = [] /\ Fifo.items (retry_q w') = [];
  sv_pool : Fifo.items (req_pool w') = Fifo.items (req_pool w) ++ rs;
  sv_flying : zero_lock (flying w) = false ->
    zero_lock (flying w') = false /\ now (flying w') = now (flying w) - Z.of_nat (length rs)
}.

Lemma release_now cl : zero_lock cl = false -> zero_lock (cl_release cl) = false /\ now (cl_release cl) = now cl - 1.
Proof. intros Hz. unfold cl_release, release_update. rewrite Hz. by case_match. Qed.

(** With the stop flag set the thread goes on as long as permits are out. *)
Lemma serve_queue (rs : list Z) (rqs : list request) w :
  mem_ok w -> (stopflag_hlr = true -> zero_lock (flying w) = false /\ Z.of_nat (length rs) <= now (flying w)) ->
  Fifo.items (retry_q w) = [] -> Fifo.items (req_q w) = rs -> NoDup rs ->
  Forall2 (fresh_request w) rs rqs ->
  Z.of_nat (length (Fifo.items (req_pool w)) + length rs) <= Fifo.cap (req_pool w) ->
  exists w', served rs rqs w w'.
Proof.
  intros Hm Hstop Hretry Hq Hnd Hfr. revert w Hm Hstop Hretry Hq Hfr. revert rqs.
  induction rs as [|r rs IH]; intros rqs w Hm Hstop Hretry Hq Hfr Hcap.
  - inversion Hfr; subst. exists w. split; simpl; try done; rewrite ?app_nil_r; try done. intros Hz. split; [done | lia].
  - inversion Hfr as [|? rq ? rqs' Hr Hfr' E1 E2]; subst. apply NoDup_cons in Hnd as [Hn Hnd]. cbn [length] in *.
    assert (stopflag_hlr && (now (flying w) =? 0) = false) as Hgo.
    { destruct stopflag_hlr; [|done]. destruct (Hstop eq_refl). cbn [andb]. apply Z.eqb_neq. lia. }
    destruct (request_handler_step_ends w r rs rq Hm Hgo Hretry Hq Hr)
      as (w1 & He & Hm1 & Hack & Hb & Ho & Hd & Ha & Hre & Hq1 & Hfl & Hpool & Hoth & _).
    { unfold Fifo.full. apply Z.eqb_neq. lia. }
    destruct (IH Hnd rqs' w1 Hm1) as (w2 & [Hs Hack2 Ho2 Hd2 Hb2 Ha2 Hq2 Hp2 Hf2]); [|exact Hre|exact Hq1| | |].
    { intros Hs. destruct (Hstop Hs) as [Hz Hle]. rewrite Hfl.
      destruct (release_now _ Hz) as [-> ->]. split; [done | lia]. }
    { apply Forall2_same_length_lookup in Hfr' as [Hl Hf].
      apply Forall2_same_length_lookup. split; [done|]. intros i r' rq' E1 E2.
      destruct (Hf i r' rq' E1 E2) as (N1 & N2 & N3 & N4).
      split; [done|]. rewrite Hoth; [done|]. intros ->. apply Hn. by eapply list_elem_of_lookup_2. }
    { rewrite Hpool. simpl. rewrite length_app. simpl. lia. }
    exists w2. split; [| | congruence | congruence | congruence | congruence | exact Hq2 | |].
    + intros n. cbn [length Nat.add request_handler]. rewrite (bind_ret _ _ _ _ _ He). apply Hs.
    + rewrite Hack2, Hack, fmap_cons, <- app_assoc. done.
    + rewrite Hp2, Hpool. cbn. by rewrite <- app_assoc.
    + intros Hz. rewrite Hfl in Hf2. destruct (release_now _ Hz) as [Hz1 Hn1].
      destruct (Hf2 Hz1) as [? ->]. split; [done|]. rewrite Hn1. cbn [length]. lia.
Qed.

(** The handler thread answers every request without executing it. When it
    has served a queue of new requests, each client has its acknowledgement, in
    order, and the index, the device, the memory and the outstanding I/O are
    what they were: no SET stored anything and no GET looked anything up. *)
Theorem request_handler_executes_nothing (rs : list Z) (rqs : list request) w :
  mem_ok w -> stopflag_hlr = false ->
  Fifo.items (retry_q w) = [] -> Fifo.items (req_q w) = rs -> NoDup rs ->
  Forall2 (fresh_request w) rs rqs ->
  Z.of_nat (length (Fifo.items (req_pool w)) + length rs) <= Fifo.cap (req_pool w) ->
  exists w', request_handler (length rs) w = Ret tt w' /\
    answer_of <$> acks w' = (answer_of <$> acks w) ++ (answer_for <$> rqs) /\
    ops w' = ops w /\ dev w' = dev w /\ bufs w' = bufs w /\ aio_ctx w' = aio_ctx w /\
    Fifo.items (req_q w') = [] /\ Fifo.items (req_pool w') = Fifo.items (req_pool w) ++ rs.
Proof.
  intros Hm Hstop Hretry Hq Hnd Hfr Hcap.
  destruct (serve_queue rs rqs w Hm ltac:(by rewrite Hstop) Hretry Hq Hnd Hfr Hcap) as (w' & [Hrun Hack ? ? ? ? [Hq' _] ? _]).
  exists w'. specialize (Hrun 0%nat). rewrite Nat.add_0_r in Hrun. split; [exact Hrun | by split_and!].
Qed.

(** ** The poller *)

(** The poller gives everything back. The completion of the write of a
    full segment frees the segment's buffer and returns the iocb and the
    callback to their pools, and nothing else changes; a completion of another
    length stops the program. *)
Theorem poll_event_returns_resources w (ev : io_event) (io : iocb) (b : list Z) (buf i : Z) :
  iocb_arr w !! ev_obj ev = Some io -> cb_arr w !! ev_data ev = Some (Callback FN_reap_seg_buf buf i) ->
  buf <> NULL -> bufs w !! buf = Some b ->
  Fifo.full (iocb_pool w) = false -> Fifo.full (cb_pool w) = false -> ev_res ev <> EINVAL ->
  (ev_res ev <> io_nbytes io -> poll_event ev w = Stop SAbort) /\
  (ev_res ev = io_nbytes io ->
     exists w', poll_event ev w = Ret tt w' /\
       bufs w' = delete buf (bufs w) /\
       Fifo.items (iocb_pool w') = Fifo.items (iocb_pool w) ++ [ev_obj ev] /\
       Fifo.items (cb_pool w') = Fifo.items (cb_pool w) ++ [ev_data ev] /\
       ops w' = ops w /\ dev w' = dev w /\ req_arr w' = req_arr w /\ retry_q w' = retry_q w).
Proof.
  intros Hio Hcb Hbuf Hb Hf1 Hf2 Hei. unfold poll_event.
  rewrite (bind_ret _ _ _ _ _ (load_iocb_ok _ _ _ Hio)). rewrite (proj2 (Z.eqb_neq _ _) Hei).
  split; intros Hres.
  - unfold massert. by rewrite (proj2 (Z.eqb_neq _ _) Hres).
  - unfold massert. rewrite (proj2 (Z.eqb_eq _ _) Hres). erewrite bind_ret by exact eq_refl.
    rewrite (bind_ret _ _ _ _ _ (load_cb_ok _ _ _ Hcb)). cbn [cb_func cb_arg].
    erewrite bind_ret by (rewrite exec_reap; by apply (free_buf_ok _ b)).
    erewrite bind_ret by (by apply (q_enqueue_room IOCB_POOL)).
    erewrite bind_ret by (by apply (q_enqueue_room CB_POOL)).
    eexists. split; [done|]. by split_and!.
Qed.

End Runtime.

(** ** Instances *)

(** An index that keeps nothing, for the instances below. *)
#[local] Instance null_ops : KvOps unit unit := {
  ops_init := tt;
  get_kv := fun _ => ret 0;
  set_kv := fun _ => ret 0;
  delete_kv := fun _ => ret 0;
  exec := fun f a =>
    match f with
    | FN_net_end_req => net_end_req a
    | FN_reap_seg_buf => reap_seg_buf a
    | _ => ret tt
    end
}.

#[local] Instance null_laws : KvOpsLaws unit unit.
Proof. by split. Qed.

(** Two SETs have arrived. *)
Definition set_request (sock : Z) : request :=
  Request REQ_TYPE_SET 5 (KeyStruct (replicate 256 97) 3 0 0) (ValStruct NULL 256) sw_zero FN_NULL NULL
    NULL sock.

Definition arrived_world : world unit unit :=
  set_req_q (Fifo.Mk [1; 2] QSIZE) (set_flying (ClLock QDEPTH 2 false)
    (set_req_arr {[ 1 := set_request 4; 2 := set_request 5 ]} (blank_world tt))).

Lemma request_handler_executes_nothing_witness :
  exists w', request_handler (fun _ _ => (11, 12)) false 2 arrived_world = Ret tt w' /\
    (answer_of <$> acks w') = [(4, 5, REQ_TYPE_SET); (5, 5, REQ_TYPE_SET)].
Proof.
  destruct (request_handler_executes_nothing (fun _ _ => (11, 12)) false [1; 2]
              [set_request 4; set_request 5] arrived_world)
    as (w' & H1 & H2 & _).
  - split; simpl; [lia|]. intros p b Hp. by rewrite lookup_empty in Hp.
  - exact eq_refl.
  - exact eq_refl.
  - exact eq_refl.
  - repeat constructor; set_solver.
  - repeat constructor; try done; try exact eq_refl; by right.
  - by vm_compute.
  - exists w'. split; [exact H1|]. rewrite H2. exact eq_refl.
Defined.

(** The write of a segment has completed. *)
Definition written_world : world unit unit :=
  set_bufs {[ 9 := replicate 512 7 ]} (set_iocb_arr {[ 1 := Iocb true 3 9 512 0 1 ]}
    (set_cb_arr {[ 1 := Callback FN_reap_seg_buf 9 1 ]} (blank_world tt))).

Lemma poll_event_returns_resources_witness :
  exists w', poll_event (IoEvent 1 1 512) written_world = Ret tt w' /\
    bufs w' = delete 9 (bufs written_world) /\ Fifo.items (cb_pool w') = [1].
Proof.
  destruct (poll_event_returns_resources written_world (IoEvent 1 1 512) (Iocb true 3 9 512 0 1)
              (replicate 512 7) 9 1 eq_refl eq_refl ltac:(done) eq_refl eq_refl eq_refl ltac:(done))
    as [_ H].
  destruct (H eq_refl) as (w' & H1 & H2 & _ & H3 & _). exists w'. by split_and!.
Defined.
