(* ===== verification/Ledger.v ===== *)
(** * Nothing is lost: the accounts of a handler

    A request is an object of [req_arr], an I/O needs an iocb and a callback. They
    wander between the pools, the queues, the kernel and the local variables of the
    threads. This file keeps the accounts: every operation of a handler moves each
    of these objects from one place to another, and the permits and the
    acknowledgements agree with where the requests are. The operations of an index
    enter through an interface, [KvLedger], that [LedgerIndex] proves of both. *)

From Stdlib Require Import ZArith Lia.
From stdpp Require Import prelude gmap.
From S2P Require Import Prelude Config Queue CondLock World Stopwatch KvPair Request Device DeviceSpec Handler Runtime.

#[local] Open Scope Z_scope.

(** ** Triples *)

Section Triple.
Context {W : Type}.

(** If [m] returns from a state with [Pre], its answer and the state satisfy [Q].
    A call that stops (the program aborted, or waits) is not restricted. *)
Definition triple {A} (Pre : W -> Prop) (m : M W A) (Q : A -> W -> Prop) : Prop :=
  forall w a w', Pre w -> m w = Ret a w' -> Q a w'.

Lemma triple_bind {A B} Pre (m : M W A) (k : A -> M W B) R Q :
  triple Pre m R -> (forall a, triple (R a) (k a) Q) -> triple Pre (bind m k) Q.
Proof. intros Hm Hk w b w' Hp. unfold bind. destruct (m w) eqn:E; [|done]. intros Hr. by eapply Hk, Hr; eapply Hm. Qed.

Lemma triple_ret {A} (a : A) (Pre : W -> Prop) (Q : A -> W -> Prop) : (forall w, Pre w -> Q a w) -> triple Pre (ret a) Q.
Proof. intros HQ w b w' Hp [= <- <-]. by apply HQ. Qed.

Lemma triple_stop {A} s Pre (Q : A -> W -> Prop) : triple Pre (mstop s) Q.
Proof. by intros w a w' _. Qed.

Lemma triple_conseq {A} (Pre Pre' : W -> Prop) (m : M W A) (Q Q' : A -> W -> Prop) :
  triple Pre' m Q' -> (forall w, Pre w -> Pre' w) -> (forall a w, Q' a w -> Q a w) -> triple Pre m Q.
Proof. intros Hm H1 H2 w a w' Hp Hr. by eapply H2, Hm, Hr; apply H1. Qed.

Lemma triple_pure {A} (phi : Prop) Pre (m : M W A) Q :
  (phi -> triple Pre m Q) -> triple (fun w => Pre w /\ phi) m Q.
Proof. intros Hm w a w' [Hp Hf]. by apply Hm. Qed.

Lemma triple_assert b s Pre : triple Pre (massert b s) (fun _ w => Pre w /\ b = true).
Proof. intros w a w' Hp. unfold massert. by destruct b; [intros [= <- <-]|]. Qed.

Lemma triple_opt {A} s (o : option A) Pre : triple Pre (mopt s o) (fun a w => Pre w /\ o = Some a).
Proof. intros w a w' Hp. unfold mopt. by destruct o; [intros [= <- <-]|]. Qed.
End Triple.

(** ** The accounts *)

(** The request that a call of [f] with [a] ends or sends back. *)
Definition owes (f : fn) (a : Z) : list Z :=
  match f with
  | FN_reap_seg_buf | FN_cb_part_table_write_for_get => []
  | _ => [a]
  end.

(** The functions that [req->end_req] can be. *)
Definition end_ok (f : fn) : Prop := f = FN_NULL \/ f = FN_net_end_req.

Lemma end_owes f r : end_ok f -> owes f r = [r].
Proof. by intros [-> | ->]. Qed.

(** An I/O that was given to the kernel and not reported yet: the iocb, its
    callback, what that calls, and which call of [io_submit] it was. *)
Record flight : Type := Flight { fl_iocb : Z; fl_cb : Z; fl_fn : fn; fl_arg : Z; fl_try : nat }.
Definition fl_owes (x : flight) : list Z := owes (fl_fn x) (fl_arg x).

(** All objects of the three arrays. *)
Record totals : Type := Totals { t_req : list Z; t_iocb : list Z; t_cb : list Z }.

Record totals_ok (T : totals) : Prop := TotalsOk {
  to_req : NoDup (t_req T);
  to_iocb : NoDup (t_iocb T);
  to_cb : NoDup (t_cb T);
  to_null : NULL ∉ t_req T
}.

(** Two sums of objects are the same when every object occurs equally often. *)
Abbreviation times := (count_occ Z.eq_dec).

Lemma perm_times l1 l2 : l1 ≡ₚ l2 <-> forall x, times l1 x = times l2 x.
Proof. apply Permutation_count_occ. Qed.

Definition one (a x : Z) : nat := times [a] x.

Lemma times_cons a l x : times (a :: l) x = (one a x + times l x)%nat.
Proof. unfold one. cbn. by destruct (Z.eq_dec a x). Qed.

Lemma times_nil x : times [] x = 0%nat.
Proof. done. Qed.

(** Decides equations between sums of objects. *)
Ltac sums :=
  repeat match goal with E : _ ≡ₚ _ |- _ => rewrite perm_times in E end;
  rewrite perm_times; let x := fresh "x" in intros x;
  repeat match goal with E : forall y : Z, times _ y = times _ y |- _ => specialize (E x) end;
  repeat rewrite ?count_occ_app, ?times_cons, ?times_nil in *; lia.

Lemma NoDup_times (l : list Z) : NoDup l <-> forall x, (times l x <= 1)%nat.
Proof. rewrite NoDup_ListNoDup. apply NoDup_count_occ. Qed.

Lemma perm_fresh a (l T : list Z) : NoDup T -> a :: l ≡ₚ T -> a ∉ l.
Proof. intros Hn Hp. rewrite <- Hp in Hn. by apply NoDup_cons in Hn as [? _]. Qed.

Lemma filter_split {A} (Q : A -> Prop) `{!forall x, Decision (Q x)} (l : list A) k x :
  filter Q l !! k = Some x -> exists l1 l2, l = l1 ++ x :: l2 /\ length (filter Q l1) = k /\ Q x.
Proof.
  revert k. induction l as [|y l IH]; intros k; [done|]. rewrite filter_cons. case_decide as Hy.
  - destruct k as [|k]; cbn; [intros [= ->]; by exists [], l|]. intros (l1 & l2 & -> & <- & Hx)%IH.
    exists (y :: l1), l2. by rewrite filter_cons_True.
  - intros (l1 & l2 & -> & <- & Hx)%IH. exists (y :: l1), l2. by rewrite filter_cons_False.
Qed.

Section Accounts.
Context {I P : Type}.
Implicit Types w : world I P.
Variable T : totals.

Definition fl_ok w (x : flight) : Prop :=
  (exists io, iocb_arr w !! fl_iocb x = Some io /\ io_data io = fl_cb x) /\
  exists j, cb_arr w !! fl_cb x = Some (Callback (fl_fn x) (fl_arg x) j).

(** A callback in a local variable, with what it calls. *)
Definition held_ok w (h : Z * (fn * Z)) : Prop :=
  exists j, cb_arr w !! h.1 = Some (Callback h.2.1 h.2.2 j).

(** What does not change. *)
Record setting w : Prop := Setting {
  se_caps : Z.of_nat (length (t_req T)) < Fifo.cap (req_pool w) + 1 /\
            Z.of_nat (length (t_req T)) < Fifo.cap (req_q w) + 1 /\
            Z.of_nat (length (t_req T)) < Fifo.cap (retry_q w) + 1;
  se_caps_io : Z.of_nat (length (t_iocb T)) < Fifo.cap (iocb_pool w) + 1 /\
               Z.of_nat (length (t_cb T)) < Fifo.cap (cb_pool w) + 1;
  se_done : Fifo.items (done_q w) = [];
  se_null : iocb_arr w !! NULL = None /\ cb_arr w !! NULL = None;
  se_ends : forall r rq, req_arr w !! r = Some rq -> end_ok (end_req rq);
  se_lock : zero_lock (flying w) = false
}.

(** The kernel took the I/O: [io_submit] answered no error. *)
Definition taken w (x : flight) : Prop := 0 <= io_submit_rc w (fl_try x).

#[export] Instance taken_dec w x : Decision (taken w x) := decide (0 <= io_submit_rc w (fl_try x)).

Lemma filter_taken w w' (l : list flight) : io_submit_rc w' = io_submit_rc w -> filter (taken w') l = filter (taken w) l.
Proof. intros E. apply list_filter_iff. intros x. unfold taken. by rewrite E. Qed.

(** The books, with the callbacks [hc] and iocbs [hi] in local variables, the
    requests [hr] in local variables that hold a permit and those [hn] that do not,
    the I/O [fl] that were submitted, and [n] requests accepted so far. *)
Record books (n : Z) (hc : list (Z * (fn * Z))) (hi hn hr : list Z) (fl : list flight) w : Prop := Books {
  bk_set : setting w;
  bk_aio : aio_ctx w = fl_iocb <$> filter (taken w) fl;
  bk_try : NoDup (fl_try <$> fl) /\ Forall (fun x => fl_try x < submits w)%nat fl;
  bk_fl : Forall (fl_ok w) fl;
  bk_held : Forall (held_ok w) hc;
  bk_req : hn ++ hr ++ Fifo.items (req_pool w) ++ Fifo.items (req_q w) ++ Fifo.items (retry_q w) ++
             concat (fl_owes <$> fl) ≡ₚ t_req T;
  bk_iocb : hi ++ Fifo.items (iocb_pool w) ++ (fl_iocb <$> fl) ≡ₚ t_iocb T;
  bk_cb : hc.*1 ++ Fifo.items (cb_pool w) ++ (fl_cb <$> fl) ≡ₚ t_cb T;
  bk_now : now (flying w) = Z.of_nat (length hr + length (Fifo.items (req_q w)) +
             length (Fifo.items (retry_q w)) + length (concat (fl_owes <$> fl)));
  bk_acks : Z.of_nat (length (acks w)) + now (flying w) = n
}.

Definition ledger n hc hi hn hr w : Prop := exists fl, books n hc hi hn hr fl w.

(** ** Steps that leave the books alone *)

Record inert w w' : Prop := Inert {
  in_pools : req_pool w' = req_pool w /\ iocb_pool w' = iocb_pool w /\ cb_pool w' = cb_pool w;
  in_queues : req_q w' = req_q w /\ retry_q w' = retry_q w /\ done_q w' = done_q w;
  in_arrays : iocb_arr w' = iocb_arr w /\ cb_arr w' = cb_arr w;
  in_aio : aio_ctx w' = aio_ctx w /\ io_submit_rc w' = io_submit_rc w /\ submits w' = submits w;
  in_flying : flying w' = flying w /\ acks w' = acks w;
  in_ends : (forall r rq, req_arr w !! r = Some rq -> end_ok (end_req rq)) ->
            forall r rq, req_arr w' !! r = Some rq -> end_ok (end_req rq)
}.

#[export] Instance inert_preorder : PreOrder inert.
Proof.
  split; [by intros w; split|].
  intros w1 w2 w3 [(? & ? & ?) (? & ? & ?) [? ?] (? & ? & ?) [? ?] He1] [(? & ? & ?) (? & ? & ?) [? ?] (? & ? & ?) [? ?] He2].
  split; try (split_and!; congruence). exact (fun H => He2 (He1 H)).
Qed.

Lemma ledger_inert n hc hi hn hr w w' : inert w w' -> ledger n hc hi hn hr w -> ledger n hc hi hn hr w'.
Proof.
  intros [(A1 & A2 & A3) (B1 & B2 & B3) [C1 C2] (D1 & D2 & D3) [E1 E2] F] [fl [[] ? ? Hfl Hh ? ? ? ? ?]]. exists fl.
  split; rewrite ?(filter_taken _ _ _ D2); unfold fl_ok, held_ok in *; rewrite ?A1, ?A2, ?A3, ?B1, ?B2, ?C1, ?C2, ?D1, ?D2, ?D3, ?E1, ?E2; try done.
  split; rewrite ?A1, ?A2, ?A3, ?B1, ?B2, ?B3, ?C1, ?C2, ?E1; try done. by apply F.
Qed.

Definition inert_op {A} (m : M (world I P) A) : Prop := forall w a w', m w = Ret a w' -> inert w w'.

Lemma triple_inert {A} (m : M (world I P) A) n hc hi hn hr :
  inert_op m -> triple (ledger n hc hi hn hr) m (fun _ => ledger n hc hi hn hr).
Proof. intros Hm w a w' Hp Hr. eapply ledger_inert, Hp. by eapply Hm. Qed.

Lemma inert_bind {A B} (m : M (world I P) A) (k : A -> M (world I P) B) :
  inert_op m -> (forall a, inert_op (k a)) -> inert_op (bind m k).
Proof.
  intros Hm Hk w b w'. unfold bind. destruct (m w) as [a w1|] eqn:E; [|done]. intros Hr.
  etrans; [by eapply Hm | by eapply Hk].
Qed.

Lemma inert_ret {A} (a : A) : inert_op (ret a).
Proof. by intros w b w' [= _ <-]. Qed.

Lemma inert_stop {A} s : inert_op (A:=A) (mstop s).
Proof. by intros w b w'. Qed.

Lemma inert_assert b s : inert_op (massert b s).
Proof. intros w a w'. unfold massert. by destruct b; [intros [= _ <-]|]. Qed.

Lemma inert_opt {A} s (o : option A) : inert_op (mopt s o).
Proof. intros w a w'. unfold mopt. by destruct o; [intros [= _ <-]|]. Qed.

Lemma inert_reads {A} (f : world I P -> A) : inert_op (mreads f).
Proof. by intros w a w' [= _ <-]. Qed.

Lemma inert_deref {A} p (f : world I P -> gmap Z A) : inert_op (fun w => deref p (f w) w).
Proof. intros w a w' [_ ->]%deref_inv. done. Qed.

Lemma inert_mod (f : world I P -> world I P) : (forall w, inert w (f w)) -> inert_op (mmod f).
Proof. intros Hf w a w' [= _ <-]. apply Hf. Qed.

Lemma inert_fun {A} (f : world I P -> A) (g : world I P -> world I P) :
  (forall w, inert w (g w)) -> inert_op (fun w => Ret (f w) (g w)).
Proof. intros Hf w a w' [= _ <-]. apply Hf. Qed.
End Accounts.

Create HintDb inert.
#[export] Hint Resolve inert_ret inert_stop inert_assert inert_opt inert_reads inert_bind : inert.
#[export] Hint Extern 4 (inert _ _) => by split : inert.
#[export] Hint Extern 2 (inert_op (load_req _)) => apply inert_deref : inert.
#[export] Hint Extern 2 (inert_op (load_cb _)) => apply inert_deref : inert.
#[export] Hint Extern 2 (inert_op (load_iocb _)) => apply inert_deref : inert.
#[export] Hint Extern 2 (inert_op (load_buf _)) => apply inert_deref : inert.
#[export] Hint Extern 2 (inert_op (load_params _)) => apply inert_deref : inert.
#[export] Hint Extern 3 (inert_op (mmod _)) => apply inert_mod : inert.
#[export] Hint Extern 3 (inert_op (fun w => Ret _ _)) => apply inert_fun; intros : inert.
#[export] Hint Extern 2 (inert_op (if ?b then _ else _)) => destruct b : inert.
#[export] Hint Extern 2 (inert_op (match ?o with _ => _ end)) => destruct o : inert.

(** ** The operations that only touch memory, the device and the index *)

Section Inert.
Context {I P : Type}.
Abbreviation iop := (@inert_op I P _).

Lemma inert_store_buf p b : iop (store_buf p b).
Proof. unfold store_buf. auto with inert. Qed.
Lemma inert_malloc n : iop (malloc n).
Proof. unfold malloc. apply (inert_fun mem_next). auto with inert. Qed.
Lemma inert_free_buf p : iop (free_buf p).
Proof. unfold free_buf. auto 10 with inert. Qed.
Lemma inert_copy_in d o l : iop (copy_in d o l).
Proof. unfold copy_in. auto 10 using inert_store_buf with inert. Qed.
Lemma inert_memcpy d o s o' n : iop (memcpy d o s o' n).
Proof. unfold memcpy. auto 10 using inert_copy_in with inert. Qed.
Lemma inert_new_params p : iop (new_params p).
Proof. unfold new_params. apply (inert_fun mem_next). auto with inert. Qed.
Lemma inert_store_params a p : iop (store_params a p).
Proof. unfold store_params. auto with inert. Qed.
Lemma inert_free_params a : iop (free_params a).
Proof. unfold free_params. auto 10 with inert. Qed.
Lemma inert_now_tv : iop now_tv.
Proof. unfold now_tv. apply (inert_fun (fun w => gettimeofday w (ticks w))). auto with inert. Qed.
End Inert.


#[export] Hint Resolve inert_store_buf inert_malloc inert_free_buf inert_copy_in inert_memcpy inert_new_params
  inert_store_params inert_free_params inert_now_tv : inert.

(** ** Moves between the places *)

Section Moves.
Context {I P : Type}.
Implicit Types w : world I P.
Variable T : totals.
Hypothesis HT : totals_ok T.
Abbreviation books := (@books I P T).
Abbreviation ledger := (@ledger I P T).

Lemma q_dequeue_inv q w x w' :
  q_dequeue q w = Ret x w' ->
  (Fifo.items (qget q w) = [] /\ x = NULL /\ w' = w) \/
  (exists l, Fifo.items (qget q w) = x :: l /\ w' = qset q (Fifo.Mk l (Fifo.cap (qget q w))) w).
Proof.
  destruct (Fifo.items (qget q w)) as [|y l] eqn:E.
  - rewrite q_dequeue_nil by done. intros [= <- <-]. by left.
  - rewrite (q_dequeue_cons _ _ _ _ E). intros [= <- <-]. right. by exists l.
Qed.

Lemma q_enqueue_inv q w x b w' :
  q_enqueue x q w = Ret b w' ->
  Z.of_nat (length (Fifo.items (qget q w))) <> Fifo.cap (qget q w) ->
  w' = qset q (Fifo.Mk (Fifo.items (qget q w) ++ [x]) (Fifo.cap (qget q w))) w.
Proof. intros Hr Hc. rewrite q_enqueue_room in Hr by (by apply Z.eqb_neq). by injection Hr as _ <-. Qed.

Lemma setting_qset q f w :
  Fifo.cap f = Fifo.cap (qget q w) -> (q = DONE_Q -> Fifo.items f = []) -> setting T w -> setting T (qset q f w).
Proof.
  intros Hc Hd [? ? ? ? ? ?]. destruct q; cbn [qget qset] in *; split; simpl; rewrite ?Hc; auto.
Qed.

(** A request that was taken from a queue, if any. *)
Definition tok (r : Z) : list Z := if r =? NULL then [] else [r].

Lemma tok_req n hc hi hn hr fl w r : books n hc hi hn hr fl w ->
  r ∈ Fifo.items (req_pool w) ++ Fifo.items (req_q w) ++ Fifo.items (retry_q w) -> tok r = [r].
Proof.
  intros Hb Hin. unfold tok. rewrite (proj2 (Z.eqb_neq r NULL)); [done|]. intros ->.
  apply (to_null _ HT). rewrite <- (bk_req _ _ _ _ _ _ _ _ Hb). set_solver.
Qed.

Ltac open_books w a w' fl :=
  intros w a w' [fl [Hset Haio Htry Hfl Hheld Hreq Hiocb Hcb Hnow Hacks]].

Lemma triple_dequeue_pool n hc hi hn hr :
  triple (ledger n hc hi hn hr) (q_dequeue REQ_POOL) (fun r => ledger n hc hi (tok r ++ hn) hr).
Proof.
  intros w r w' [fl Hb] [(_ & -> & ->) | (l & Hl & ->)]%q_dequeue_inv; [by exists fl|]. cbn [qget] in Hl.
  rewrite (tok_req _ _ _ _ _ _ _ _ Hb) by (rewrite Hl; set_solver). destruct Hb as [Hset Haio Htry Hfl Hheld Hreq Hiocb Hcb Hnow Hacks].
  exists fl. split; simpl; try done; [by apply (setting_qset REQ_POOL) | rewrite Hl in Hreq; sums].
Qed.

Lemma triple_dequeue_req q n hc hi hn hr :
  q = REQ_Q \/ q = RETRY_Q ->
  triple (ledger n hc hi hn hr) (q_dequeue q) (fun r => ledger n hc hi hn (tok r ++ hr)).
Proof.
  intros Hq w r w' [fl Hb] [(_ & -> & ->) | (l & Hl & ->)]%q_dequeue_inv; [by exists fl|].
  assert (tok r = [r]) as -> by (eapply tok_req; [exact Hb | destruct Hq as [-> | ->]; cbn [qget] in Hl; rewrite Hl; set_solver]).
  destruct Hb as [Hset Haio Htry Hfl Hheld Hreq Hiocb Hcb Hnow Hacks].
  exists fl. destruct Hq as [-> | ->]; cbn [qget] in *; (split; simpl; try done;
    [ by apply setting_qset with (q := REQ_Q) || by apply setting_qset with (q := RETRY_Q)
    | rewrite Hl in Hreq; sums | rewrite Hnow, Hl; simpl; lia ]).
Qed.

Lemma triple_dequeue_done n hc hi hn hr :
  triple (ledger n hc hi hn hr) (q_dequeue DONE_Q) (fun c w => ledger n hc hi hn hr w /\ c = NULL).
Proof.
  intros w r w' [fl Hb] [(_ & -> & ->) | (l & Hl & ->)]%q_dequeue_inv; [split; [by exists fl | done]|].
  cbn [qget] in Hl. by rewrite (se_done _ _ (bk_set _ _ _ _ _ _ _ _ Hb)) in Hl.
Qed.

(** Every queue has room for all objects. *)
Lemma room_req n hc hi hn hr fl w : books n hc hi hn hr fl w ->
  Z.of_nat (length hn + length hr + length (Fifo.items (req_pool w)) + length (Fifo.items (req_q w)) +
    length (Fifo.items (retry_q w))) <= Z.of_nat (length (t_req T)).
Proof. intros Hb. rewrite <- (bk_req _ _ _ _ _ _ _ _ Hb), !length_app. lia. Qed.

Lemma triple_enqueue_pool r n hc hi hn hr :
  triple (ledger n hc hi (r :: hn) hr) (q_enqueue r REQ_POOL) (fun _ => ledger n hc hi hn hr).
Proof.
  intros w b w' [fl Hb] He. pose proof (room_req _ _ _ _ _ _ _ Hb) as Hroom. cbn [length] in Hroom.
  destruct Hb as [Hset Haio Htry Hfl Hheld Hreq Hiocb Hcb Hnow Hacks].
  apply q_enqueue_inv in He as ->; [|destruct Hset; cbn [qget]; lia].
  exists fl. split; simpl; try done; [by apply (setting_qset REQ_POOL) | sums].
Qed.

Lemma triple_enqueue_req r q n hc hi hn hr :
  q = REQ_Q \/ q = RETRY_Q ->
  triple (ledger n hc hi hn (r :: hr)) (q_enqueue r q) (fun _ => ledger n hc hi hn hr).
Proof.
  intros Hq w b w' [fl Hb] He. pose proof (room_req _ _ _ _ _ _ _ Hb) as Hroom. cbn [length] in Hroom.
  destruct Hb as [Hset Haio Htry Hfl Hheld Hreq Hiocb Hcb Hnow Hacks].
  apply q_enqueue_inv in He as ->; [|destruct Hset, Hq as [-> | ->]; cbn [qget]; lia].
  exists fl. destruct Hq as [-> | ->]; (split; simpl; try done;
    [ by apply setting_qset with (q := REQ_Q) || by apply setting_qset with (q := RETRY_Q)
    | sums | rewrite Hnow, length_app; simpl; lia ]).
Qed.

Lemma triple_enqueue_cb c h n hc hi hn hr :
  triple (ledger n ((c, h) :: hc) hi hn hr) (q_enqueue c CB_POOL) (fun _ => ledger n hc hi hn hr).
Proof.
  intros w b w' [fl [Hset Haio Htry Hfl Hheld Hreq Hiocb Hcb Hnow Hacks]] He.
  assert (Z.of_nat (S (length (Fifo.items (cb_pool w)))) <= Z.of_nat (length (t_cb T)))
    by (rewrite <- Hcb; cbn [fmap list_fmap app length]; rewrite !length_app; lia).
  apply q_enqueue_inv in He as ->; [|destruct Hset; cbn [qget]; lia].
  apply Forall_cons in Hheld as [_ Hheld]. rewrite fmap_cons in Hcb. cbn [fst app] in Hcb.
  exists fl. split; simpl; try done; [by apply (setting_qset CB_POOL) | sums].
Qed.

Lemma triple_enqueue_iocb i n hc hi hn hr :
  triple (ledger n hc (i :: hi) hn hr) (q_enqueue i IOCB_POOL) (fun _ => ledger n hc hi hn hr).
Proof.
  intros w b w' [fl [Hset Haio Htry Hfl Hheld Hreq Hiocb Hcb Hnow Hacks]] He.
  assert (Z.of_nat (S (length (Fifo.items (iocb_pool w)))) <= Z.of_nat (length (t_iocb T)))
    by (rewrite <- Hiocb; cbn [app length]; rewrite !length_app; lia).
  apply q_enqueue_inv in He as ->; [|destruct Hset; cbn [qget]; lia].
  exists fl. split; simpl; try done; [by apply (setting_qset IOCB_POOL) | sums].
Qed.

(** *** Callbacks and iocbs *)

Lemma fl_ok_store_cb c cb fl w :
  c ∉ fl_cb <$> fl -> Forall (fl_ok w) fl -> Forall (fl_ok (set_cb_arr (<[c := cb]> (cb_arr w)) w)) fl.
Proof.
  intros Hc Hfl. apply Forall_forall. intros x Hx. destruct (proj1 (Forall_forall _ _) Hfl x Hx) as [H1 (j & H2)].
  split; [done|]. exists j. cbn [cb_arr set_cb_arr]. rewrite lookup_insert_ne; [done|].
  intros ->. apply Hc. by apply list_elem_of_fmap_2.
Qed.

Lemma held_ok_store_cb c cb hc w :
  c ∉ hc.*1 -> Forall (held_ok w) hc -> Forall (held_ok (set_cb_arr (<[c := cb]> (cb_arr w)) w)) hc.
Proof.
  intros Hc Hh. apply Forall_forall. intros x Hx. destruct (proj1 (Forall_forall _ _) Hh x Hx) as (j & H2).
  exists j. cbn [cb_arr set_cb_arr]. rewrite lookup_insert_ne; [done|].
  intros ->. apply Hc. by apply list_elem_of_fmap_2.
Qed.

(** One of the callbacks, set apart from the others. *)
Lemma cb_apart c l : NoDup (t_cb T) -> c :: l ≡ₚ t_cb T -> c ∉ l.
Proof. apply perm_fresh. Qed.

Lemma triple_make_callback f a n hc hi hn hr :
  triple (ledger n hc hi hn hr) (make_callback f a) (fun c => ledger n ((c, (f, a)) :: hc) hi hn hr).
Proof.
  intros w c w' [fl [Hset Haio Htry Hfl Hheld Hreq Hiocb Hcb Hnow Hacks]]. unfold make_callback, bind at 1.
  destruct (q_dequeue CB_POOL w) as [c0 w1|] eqn:E; [|done].
  apply q_dequeue_inv in E as [(_ & -> & ->) | (l & Hl & ->)]; unfold bind, load_cb, deref.
  { by rewrite (proj2 (se_null _ _ Hset)). }
  cbn [qget qset] in *. destruct (_ !! c0) as [cb|] eqn:Hc0; [|done]. intros [= <- <-].
  rewrite Hl in Hcb. assert (c0 <> NULL) as Hn0 by (intros ->; cbn in Hc0; by rewrite (proj2 (se_null _ _ Hset)) in Hc0).
  assert (c0 ∉ hc.*1 ++ l ++ (fl_cb <$> fl)) as Hfresh by (apply (cb_apart _ _ (to_cb _ HT)); sums).
  rewrite !not_elem_of_app in Hfresh. destruct Hfresh as (F1 & F2 & F3). exists fl. split; try done.
  - destruct Hset as [? ? ? [? ?] ? ?]. split; simpl; try done. by split; [|rewrite lookup_insert_ne].
  - by apply (fl_ok_store_cb c0 _ fl (set_cb_pool _ w)).
  - constructor; [eexists; by apply lookup_insert_eq|]. by apply (held_ok_store_cb c0 _ hc (set_cb_pool _ w)).
  - rewrite fmap_cons. simpl. sums.
Qed.

Lemma triple_load_held c f a n hc hi hn hr :
  triple (ledger n ((c, (f, a)) :: hc) hi hn hr) (load_cb c)
    (fun cb w => ledger n ((c, (f, a)) :: hc) hi hn hr w /\ cb_func cb = f /\ cb_arg cb = a).
Proof.
  intros w cb w' [fl Hb] [Hc ->]%deref_inv. split; [by exists fl|].
  pose proof (bk_held _ _ _ _ _ _ _ _ Hb) as [(j & Hj) _]%Forall_cons. cbn in Hj. by simplify_eq.
Qed.

Lemma fl_ok_store_iocb i io fl w :
  i ∉ fl_iocb <$> fl -> Forall (fl_ok w) fl -> Forall (fl_ok (set_iocb_arr (<[i := io]> (iocb_arr w)) w)) fl.
Proof.
  intros Hc Hfl. apply Forall_forall. intros x Hx. destruct (proj1 (Forall_forall _ _) Hfl x Hx) as [(io' & H1) H2].
  split; [|done]. exists io'. cbn [iocb_arr set_iocb_arr]. rewrite lookup_insert_ne; [done|].
  intros ->. apply Hc. by apply list_elem_of_fmap_2.
Qed.

Lemma submit_inv i w rc w' : submit i w = Ret rc w' ->
  w' = set_aio_ctx (aio_ctx w ++ (if decide (0 <= io_submit_rc w (submits w)) then [i] else []))
         (set_submits (S (submits w)) w).
Proof.
  unfold submit. destruct (_ <? 0) eqn:E; reflect_bools; intros [= _ <-];
    [rewrite decide_False by lia | by rewrite decide_True by lia].
  rewrite app_nil_r. by destruct w.
Qed.

(** The callback goes to the kernel with the request it will call back for; if the
    kernel refuses the I/O they go nowhere. *)
Lemma triple_aio_request wr addr size buf c f a n hc hi hn hr :
  triple (ledger n ((c, (f, a)) :: hc) hi hn (owes f a ++ hr)) (aio_request wr addr size buf c)
    (fun _ => ledger n hc hi hn hr).
Proof.
  intros w rc w' [fl [Hset Haio Htry Hfl Hheld Hreq Hiocb Hcb Hnow Hacks]]. unfold aio_request, bind at 1.
  destruct (q_dequeue IOCB_POOL w) as [i w1|] eqn:E; [|done].
  apply q_dequeue_inv in E as [(_ & -> & ->) | (l & Hl & ->)]; unfold bind, load_iocb, load_cb, deref.
  { by rewrite (proj1 (se_null _ _ Hset)). }
  cbn [qget qset] in *. destruct (_ !! i) as [io|] eqn:Hi; [|done]. cbn [ret].
  apply Forall_cons in Hheld as [(j & Hj) Hheld]. cbn [fst snd] in Hj. cbn [cb_arr set_iocb_pool]. rewrite Hj. cbn [ret cb_func cb_arg].
  unfold store_cb, mreads, store_iocb, mmod. intros Hs%submit_inv.
  cbn [submits io_submit_rc aio_ctx set_cb_arr set_iocb_arr set_iocb_pool] in Hs. subst w'.
  assert (i <> NULL) as Hn0 by (intros ->; cbn in Hi; by rewrite (proj1 (se_null _ _ Hset)) in Hi).
  assert (c <> NULL) as Hc0 by (intros ->; by rewrite (proj2 (se_null _ _ Hset)) in Hj).
  rewrite Hl in Hiocb. rewrite fmap_cons in Hcb. cbn [fst app] in Hcb.
  assert (i ∉ hi ++ l ++ (fl_iocb <$> fl)) as Fi by (apply (perm_fresh i _ (t_iocb T)); [apply HT | sums]).
  assert (c ∉ hc.*1 ++ Fifo.items (cb_pool w) ++ (fl_cb <$> fl)) as Fc by (apply (cb_apart _ _ (to_cb _ HT)); sums).
  rewrite !not_elem_of_app in Fi, Fc. destruct Fi as (_ & _ & Fi), Fc as (Fc1 & _ & Fc2).
  exists (fl ++ [Flight i c f a (submits w)]). split.
  - destruct Hset as [? ? ? [? ?] ? ?]. split; simpl; try done. by split; rewrite lookup_insert_ne.
  - simpl. rewrite filter_app, fmap_app, Haio. simpl. rewrite filter_cons. unfold taken. simpl.
    by destruct (decide _).
  - destruct Htry as [Hn Hlt]. rewrite fmap_app. split.
    + apply NoDup_app. split; [done|]. split; [|apply NoDup_singleton].
      intros k (x & -> & Hx)%list_elem_of_fmap Hk%list_elem_of_singleton.
      apply (proj1 (Forall_forall _ _) Hlt) in Hx. simpl in Hk, Hx. lia.
    + simpl. apply Forall_app. split; [|constructor; [simpl; lia | done]].
      eapply Forall_impl; [exact Hlt|]. simpl. lia.
  - apply Forall_app. split; [|constructor; [|constructor]].
    + apply (fl_ok_store_iocb i _ fl (set_cb_arr _ (set_iocb_pool _ w))); [done|].
      by apply (fl_ok_store_cb c _ fl (set_iocb_pool _ w)).
    + split; [eexists; split; [by apply lookup_insert_eq | done] | eexists; by apply lookup_insert_eq].
  - by apply (held_ok_store_cb c _ hc (set_iocb_pool _ w)).
  - rewrite fmap_app, concat_app. simpl. rewrite app_nil_r. change (fl_owes _) with (owes f a). sums.
  - rewrite fmap_app. simpl. sums.
  - rewrite fmap_app. simpl. sums.
  - simpl. rewrite Hnow, fmap_app, concat_app, !length_app. simpl. rewrite app_nil_r.
    change (fl_owes _) with (owes f a). lia.
  - done.
Qed.
End Moves.

(** Runs a body against the books: calls that leave them alone are passed over,
    conditions are split on. *)
Ltac pass := eapply triple_bind; [apply triple_inert; solve [auto 10 with inert] | intros ?; cbv beta].
Tactic Notation "by_move" uconstr(H) :=
  eapply triple_bind; [eapply H; first [eassumption | tauto | idtac] | intros ?; cbv beta].
Ltac done_here := apply triple_ret; intros ? ?; try done.

(** An I/O that the kernel refuses is in none of the places: the iocb has left its
    pool, the callback and the request it owes are known to nobody, and the callers
    of [dev_abs_read] drop the -1. *)
Lemma refused_io_is_lost {I P} wr addr size buf c cb i l io (w : world I P) :
  Fifo.items (iocb_pool w) = i :: l -> iocb_arr w !! i = Some io -> cb_arr w !! c = Some cb ->
  io_submit_rc w (submits w) < 0 ->
  exists w', aio_request wr addr size buf c w = Ret (-1) w' /\ Fifo.items (iocb_pool w') = l /\
    aio_ctx w' = aio_ctx w /\ cb_pool w' = cb_pool w /\ req_pool w' = req_pool w /\ req_q w' = req_q w /\
    retry_q w' = retry_q w /\ acks w' = acks w /\ flying w' = flying w.
Proof.
  intros Hl Hi Hc Hrc. unfold aio_request. rewrite (bind_ret _ _ _ _ _ (q_dequeue_cons IOCB_POOL _ _ _ Hl)).
  erewrite bind_ret by (by apply load_iocb_ok). erewrite bind_ret by (by apply load_cb_ok).
  do 3 (erewrite bind_ret by exact eq_refl). unfold submit. cbn [submits io_submit_rc set_iocb_arr set_cb_arr qset set_iocb_pool].
  rewrite (proj2 (Z.ltb_lt _ _) Hrc). eexists. by split_and!.
Qed.

(** ** Requests *)

Section Requests.
Context {I P : Type}.
Implicit Types w : world I P.
Variable T : totals.
Hypothesis HT : totals_ok T.
Abbreviation ledger := (@ledger I P T).

(** An acknowledgement is one more; a permit that is given back one less. *)
Lemma triple_send_ack sock na n hc hi hn hr :
  triple (ledger n hc hi hn hr) (send_ack sock na) (fun _ => ledger (n + 1) hc hi hn hr).
Proof.
  intros w a w' [fl [[] ? ? ? ? ? ? ? Hnow Hacks]] [= _ <-]. exists fl. split; try done; simpl.
  rewrite length_app. simpl. lia.
Qed.

Lemma triple_release r n hc hi hn hr :
  triple (ledger (n + 1) hc hi hn (r :: hr)) (mmod (fun w => set_flying (cl_release (flying w)) w))
    (fun _ => ledger n hc hi (r :: hn) hr).
Proof.
  intros w a w' [fl [[] ? ? ? ? Hreq ? ? Hnow Hacks]] [= _ <-].
  assert (cl_release (flying w) = set_now (flying w) (now (flying w) - 1)) as E.
  { unfold cl_release, release_update. destruct (flying w) as [cn nw zl]. cbn in *. subst zl. by destruct (_ =? _). }
  exists fl. split; simpl; rewrite ?E; try done; [sums | cbn [now set_now]; rewrite Hnow; simpl; lia | cbn [now set_now]; lia].
Qed.

Lemma triple_grap r n hc hi hn hr cl' :
  triple (fun w => ledger n hc hi (r :: hn) hr w /\ cl_grap (flying w) = Some cl') (mmod (set_flying cl'))
    (fun _ => ledger (n + 1) hc hi hn (r :: hr)).
Proof.
  intros w a w' [[fl [[] ? ? ? ? Hreq ? ? Hnow Hacks]] Hg] [= _ <-].
  assert (cl' = set_now (flying w) (now (flying w) + 1)) as E.
  { unfold cl_grap, grap_update in Hg. destruct (grap_waits _); [done|]. injection Hg as <-.
    destruct (flying w) as [cn nw zl]. cbn in *. by subst zl. }
  exists fl. subst cl'. split; simpl; try done; [sums | rewrite Hnow; simpl; lia | lia].
Qed.

(** Writing a request back with the [end_req] it had, or with [net_end_req]. *)
Lemma triple_store_req r rq n hc hi hn hr :
  end_ok (end_req rq) -> triple (ledger n hc hi hn hr) (store_req r rq) (fun _ => ledger n hc hi hn hr).
Proof.
  intros He w a w' [fl Hb] [= _ <-]. eapply ledger_inert; [|by exists fl]. split; try done.
  intros Hends r' rq'. cbn [req_arr set_req_arr]. rewrite lookup_insert. case_decide; [intros [= <-]; done | apply Hends].
Qed.

Lemma triple_load_req r n hc hi hn hr :
  triple (ledger n hc hi hn hr) (load_req r) (fun rq w => ledger n hc hi hn hr w /\ end_ok (end_req rq)).
Proof.
  intros w rq w' [fl Hb] [Hr ->]%deref_inv. split; [by exists fl|].
  by apply (se_ends _ _ (bk_set _ _ _ _ _ _ _ _ Hb) _ _ Hr).
Qed.

Lemma inert_sw_end sw : inert_op (I:=I) (P:=P) (Stopwatch.sw_end sw).
Proof. unfold Stopwatch.sw_end. auto with inert. Qed.
Lemma inert_sw_start sw : inert_op (I:=I) (P:=P) (Stopwatch.sw_start sw).
Proof. unfold Stopwatch.sw_start. auto with inert. Qed.
Lemma inert_set_value len v : inert_op (I:=I) (P:=P) (set_value len v).
Proof. unfold set_value. auto 10 with inert. Qed.

Ltac load := eapply triple_bind; [apply triple_load_req | intros ?; apply triple_pure; intros ?].

Lemma triple_net_end_req r n hc hi hn hr :
  triple (ledger n hc hi hn (r :: hr)) (net_end_req r) (fun _ => ledger n hc hi hn hr).
Proof.
  unfold net_end_req. load. eapply triple_bind; [apply triple_inert, inert_sw_end | intros sw; cbv beta zeta].
  eapply triple_bind; [by apply triple_store_req | intros ?; cbv beta].
  by_move triple_send_ack. by_move triple_release. pass. pass. by_move triple_enqueue_pool. done_here.
Qed.

Lemma triple_retry r n hc hi hn hr :
  triple (ledger n hc hi hn (r :: hr)) (retry_req_to_hlr r) (fun _ => ledger n hc hi hn hr).
Proof. unfold retry_req_to_hlr. by_move triple_enqueue_req. done_here. Qed.

Variable CityHash128 : list Z -> Z -> Z * Z.

Lemma triple_add_request_info r n hc hi hn hr :
  triple (ledger n hc hi hn hr) (add_request_info CityHash128 r) (fun _ => ledger n hc hi hn hr).
Proof.
  unfold add_request_info. load. cbv zeta.
  eapply triple_bind; [apply triple_inert; destruct (req_type _); auto using inert_set_value with inert | intros v].
  apply triple_store_req. by right.
Qed.

Lemma tok_null : tok NULL = [].
Proof. done. Qed.

Lemma triple_get_next_request n hc hi hn hr :
  triple (ledger n hc hi hn hr) (get_next_request CityHash128) (fun r => ledger n hc hi hn (tok r ++ hr)).
Proof.
  unfold get_next_request. eapply triple_bind; [apply (triple_dequeue_req T HT); tauto | intros r; cbv beta].
  destruct (r =? NULL) eqn:E; cbn [negb]; [|done_here]. reflect_bools. subst r. rewrite tok_null. cbn [app].
  eapply triple_bind; [apply (triple_dequeue_req T HT); tauto | intros r; cbv beta].
  destruct (r =? NULL) eqn:E; cbn [negb]; [done_here|].
  load. apply (triple_bind _ _ _ (fun _ => ledger n hc hi hn (tok r ++ hr))); [|intros ?; done_here].
  destruct (value _ =? NULL); [apply triple_add_request_info | done_here].
Qed.

(** [make_request_from_netreq] takes an object without a permit,
    [forward_req_to_hlr] takes the permit and queues it. *)
Lemma triple_make_request nr sock n hc hi hn hr :
  triple (ledger n hc hi hn hr) (make_request_from_netreq nr sock) (fun r => ledger n hc hi (tok r ++ hn) hr).
Proof.
  unfold make_request_from_netreq. eapply triple_bind; [apply (triple_dequeue_pool T HT) | intros r; cbv beta].
  load. pass. pass. eapply triple_bind; [apply triple_inert, inert_sw_start | intros sw].
  eapply triple_bind; [by apply triple_store_req | intros ?; cbv beta]. done_here.
Qed.

Lemma triple_forward r n hc hi hn hr :
  triple (ledger n hc hi (r :: hn) hr) (forward_req_to_hlr r) (fun _ => ledger (n + 1) hc hi hn hr).
Proof.
  unfold forward_req_to_hlr.
  eapply (triple_bind _ _ _ (fun cl w => ledger n hc hi (r :: hn) hr w /\ flying w = cl)).
  { by intros w cl w' Hl [= <- <-]. }
  intros cl. eapply (triple_bind _ _ _ (fun cl' w => ledger n hc hi (r :: hn) hr w /\ cl_grap (flying w) = Some cl')).
  { intros w cl' w' [Hl <-]. unfold mopt. destruct (cl_grap (flying w)) eqn:E; [|done]. by intros [= <- <-]. }
  intros cl'. eapply triple_bind; [apply triple_grap | intros ?; cbv beta].
  by_move triple_enqueue_req. done_here.
Qed.
End Requests.

(** ** The device *)

Section Device.
Context {I P : Type}.
Implicit Types w : world I P.
Variable T : totals.
Hypothesis HT : totals_ok T.
Abbreviation ledger := (@ledger I P T).

(** A call through a function pointer moves the request it owes, and nothing
    else. *)
Definition keeps_books (call : fn -> Z -> M (world I P) unit) : Prop :=
  forall f a n hc hi hn hr, triple (ledger n hc hi hn (owes f a ++ hr)) (call f a) (fun _ => ledger n hc hi hn hr).

Lemma inert_get_staged : inert_op (I:=I) (P:=P) get_staged.
Proof. intros w a w'. unfold get_staged, mopt. by destruct (_ !! _); [intros [= _ <-]|]. Qed.

Lemma inert_upd_staged f : inert_op (I:=I) (P:=P) (upd_staged f).
Proof. unfold upd_staged. auto using inert_get_staged with inert. Qed.

Lemma inert_stage_next_segment : inert_op (I:=I) (P:=P) stage_next_segment.
Proof. unfold stage_next_segment, alloc_seg_buffer. auto 10 using inert_upd_staged with inert. Qed.

Lemma inert_take_grains size : inert_op (I:=I) (P:=P) (take_grains size).
Proof. unfold take_grains. auto 15 using inert_get_staged, inert_upd_staged with inert. Qed.

Lemma triple_get_next_pba size n hc hi hn hr :
  triple (ledger n hc hi hn hr) (get_next_pba size) (fun _ => ledger n hc hi hn hr).
Proof.
  unfold get_next_pba. eapply triple_bind; [apply triple_inert, inert_get_staged | intros ss; cbv beta].
  apply (triple_bind _ _ _ (fun _ => ledger n hc hi hn hr)); [|intros ?; apply triple_inert, inert_take_grains].
  destruct (_ <? _); [|done_here]. unfold write_out_staged. pass.
  eapply triple_bind; [apply triple_inert, inert_upd_staged | intros ?; cbv beta].
  eapply triple_bind; [by apply triple_make_callback | intros c; cbv beta].
  eapply triple_bind; [apply (triple_aio_request T HT true _ _ _ c FN_reap_seg_buf (staged_seg_buf a) n hc hi hn hr) | intros ?; cbv beta].
  apply triple_inert, inert_stage_next_segment.
Qed.

Variable call : fn -> Z -> M (world I P) unit.
Hypothesis Hcall : keeps_books call.

(** The callback is called at once and put back. *)
Lemma triple_call_back c f a n hc hi hn hr :
  triple (ledger n ((c, (f, a)) :: hc) hi hn (owes f a ++ hr))
    (let* cb := load_cb c in call (cb_func cb) (cb_arg cb) ;;; q_enqueue c CB_POOL ;;; ret 0) (fun _ => ledger n hc hi hn hr).
Proof.
  eapply triple_bind; [apply triple_load_held | intros cb]. apply triple_pure. intros [-> ->].
  eapply triple_bind; [apply Hcall | intros ?; cbv beta].
  eapply triple_bind; [by apply triple_enqueue_cb | intros ?; cbv beta]. done_here.
Qed.

Lemma triple_dev_abs_read p size buf c f a n hc hi hn hr :
  triple (ledger n ((c, (f, a)) :: hc) hi hn (owes f a ++ hr)) (dev_abs_read call p size buf c)
    (fun _ => ledger n hc hi hn hr).
Proof.
  unfold dev_abs_read. pass. eapply triple_bind; [apply triple_inert, inert_get_staged | intros ss; cbv beta zeta].
  destruct (_ =? 0); [|by apply triple_aio_request]. pass. apply triple_call_back.
Qed.

Lemma triple_dev_abs_write p size buf c f a n hc hi hn hr :
  triple (ledger n ((c, (f, a)) :: hc) hi hn (owes f a ++ hr)) (dev_abs_write call p size buf c)
    (fun _ => ledger n hc hi hn hr).
Proof.
  unfold dev_abs_write. pass. eapply triple_bind; [apply triple_inert, inert_get_staged | intros ss; cbv beta zeta].
  pass. apply triple_call_back.
Qed.
End Device.

(** ** The interface of an index *)

(** What an index promises: its callbacks move the request they owe, an insertion
    the one it is given, and a lookup the same unless it answers non-zero, which
    leaves the request to the handler thread. *)
Class KvLedger (I P : Type) `{KvOps I P} : Prop := {
  kl_exec : forall T, totals_ok T -> keeps_books (I:=I) (P:=P) T exec;
  kl_set : forall T r n hc hi hn hr, totals_ok T ->
    triple (ledger (I:=I) (P:=P) T n hc hi hn (r :: hr)) (set_kv r) (fun _ => ledger T n hc hi hn hr);
  kl_get : forall T r n hc hi hn hr, totals_ok T ->
    triple (ledger (I:=I) (P:=P) T n hc hi hn (r :: hr)) (get_kv r)
      (fun rc => ledger T n hc hi hn (if rc =? 0 then hr else r :: hr))
}.

(** ** The threads *)

Section Threads.
Context {I P : Type} `{HK : KvOps I P} `{!KvLedger I P}.
Implicit Types w : world I P.
Variable T : totals.
Hypothesis HT : totals_ok T.
Variable CityHash128 : list Z -> Z -> Z * Z.
Variable stopflag_hlr : bool.
Abbreviation ledger := (@ledger I P T).

Lemma triple_end rq r n hc hi hn hr :
  end_ok (end_req rq) -> triple (ledger n hc hi hn (r :: hr)) (exec (end_req rq) r) (fun _ => ledger n hc hi hn hr).
Proof. intros He. pose proof (kl_exec T HT (end_req rq) r n hc hi hn hr) as H. by rewrite end_owes in H. Qed.

Lemma triple_handler_step n hc hi hn hr :
  triple (ledger n hc hi hn hr) (request_handler_step CityHash128 stopflag_hlr) (fun _ => ledger n hc hi hn hr).
Proof.
  unfold request_handler_step. pass. destruct (_ && _); [done_here|].
  eapply triple_bind; [by apply triple_get_next_request | intros r; cbv beta]. unfold tok.
  destruct (r =? NULL); [done_here|]. cbn [app].
  eapply triple_bind; [apply triple_load_req | intros rq; apply triple_pure; intros He].
  eapply triple_bind; [by apply triple_end | intros ?; cbv beta]. done_here.
Qed.

Lemma triple_drain k n hc hi hn hr :
  triple (ledger n hc hi hn hr) (drain_done k) (fun _ => ledger n hc hi hn hr).
Proof.
  destruct k as [|k]; [apply triple_ret; by intros|]. cbn [drain_done].
  eapply triple_bind; [by apply triple_dequeue_done | intros c; apply triple_pure; intros ->].
  apply triple_ret. by intros.
Qed.

(** The request is dispatched; one of another type ends the thread. *)
Lemma triple_dispatch k r n hc hi hn hr :
  triple (ledger n hc hi hn (r :: hr)) (dispatch k r) (fun go w => go = true -> ledger n hc hi hn hr w).
Proof.
  unfold dispatch. eapply triple_bind; [apply triple_drain | intros ?; cbv beta].
  eapply triple_bind; [apply triple_load_req | intros rq; apply triple_pure; intros He].
  destruct (req_type rq); try (apply triple_ret; done).
  - eapply triple_bind; [by apply kl_set | intros ?; cbv beta]. apply triple_ret. by intros.
  - eapply triple_bind; [by apply kl_get | intros rc; cbv beta].
    apply (triple_bind _ _ _ (fun _ => ledger n hc hi hn hr)); [|intros ?; apply triple_ret; by intros].
    destruct (rc =? 0); cbn [negb]; [apply triple_ret; by intros | by apply triple_end].
Qed.

(** [io_getevents] takes the I/O at position [k] out of the context and reports it
    with the result [res]. *)
Definition complete (k : nat) (res : Z) : M (world I P) unit := fun w =>
  match aio_ctx w !! k with
  | Some i =>
      let data := match iocb_arr w !! i with Some io => io_data io | None => NULL end in
      poll_event (IoEvent i data res) (set_aio_ctx (delete k (aio_ctx w)) w)
  | None => Stop SBlock
  end.

Lemma triple_poll_event i c f a res n hc hi hn hr :
  triple (ledger n ((c, (f, a)) :: hc) (i :: hi) hn (owes f a ++ hr)) (poll_event (IoEvent i c res))
    (fun _ => ledger n hc hi hn hr).
Proof.
  unfold poll_event. cbn [ev_obj ev_data ev_res]. pass. pass.
  eapply triple_bind; [apply triple_load_held | intros cb]. apply triple_pure. intros [-> ->].
  eapply triple_bind; [by apply kl_exec | intros ?; cbv beta].
  by_move triple_enqueue_iocb. by_move triple_enqueue_cb. done_here.
Qed.

Lemma triple_complete k res n hc hi hn hr :
  triple (ledger n hc hi hn hr) (complete k res) (fun _ => ledger n hc hi hn hr).
Proof.
  intros w u w' [fl [Hset Haio Htry Hfl Hheld Hreq Hiocb Hcb Hnow Hacks]]. unfold complete. rewrite Haio, list_lookup_fmap.
  destruct (filter _ fl !! k) as [x|] eqn:Hk; [|done]. apply filter_split in Hk as (fl1 & fl2 & -> & <- & Htk).
  destruct x as [i c f a kt]. cbn [fmap option_fmap option_map fl_iocb].
  apply Forall_app in Hfl as [Hfl1 [[(io & Hio & Hdata) Hc] Hfl2]%Forall_cons]. cbn in Hio, Hdata, Hc. rewrite Hio, Hdata.
  rewrite !fmap_app, !fmap_cons, ?concat_app in *. cbn [concat fl_iocb fl_cb] in *.
  change (fl_owes _) with (owes f a) in *. rewrite !length_app in *.
  rewrite filter_app, filter_cons_True, fmap_app, fmap_cons by done.
  rewrite <- (length_fmap fl_iocb (filter _ fl1)), delete_middle.
  set (w1 := set_aio_ctx _ w). intros Hr.
  assert (ledger n ((c, (f, a)) :: hc) (i :: hi) hn (owes f a ++ hr) w1) as Hl.
  { exists (fl1 ++ fl2). split; rewrite ?filter_app, ?fmap_app, ?concat_app; try done; [by destruct Hset; split | | | | | | |].
    - destruct Htry as [Hn Hlt]. split.
      + rewrite NoDup_app, NoDup_cons in Hn. rewrite NoDup_app. set_solver.
      + rewrite Forall_app, Forall_cons in Hlt. apply Forall_app. tauto.
    - by apply Forall_app.
    - by constructor.
    - simpl. sums.
    - simpl. sums.
    - rewrite fmap_cons. simpl. sums.
    - simpl. rewrite Hnow, !length_app. lia. }
  exact (triple_poll_event i c f a res n hc hi hn hr w1 u w' Hl Hr).
Qed.
End Threads.

(** ** Runs *)

Section Runs.
Context {I P : Type} `{HK : KvOps I P} `{!KvLedger I P}.
Variable CityHash128 : list Z -> Z -> Z * Z.
Variable stopflag_hlr : bool.

(** The handler, and the request that the master has made and not forwarded. *)
Record run_state : Type := RunState { rs_world : world I P; rs_made : list Z }.

(** The turns of the three threads: the master makes a request of a message and
    forwards it, the handler thread takes its turn as the code is ([Turn]) or as it
    was before a request was ended unseen ([Dispatch], the part behind the
    [continue]), and the poller calls back for an I/O that the kernel has done. *)
Inductive action : Type :=
| Make (nr : netreq) (sock : Z)
| Forward
| Turn
| Dispatch (n : nat)
| Complete (k : nat) (res : Z).

(** A turn; [None] if it waits, ends its thread, or the program stops in it. *)
Definition run_step (a : action) (s : run_state) : option run_state :=
  match a with
  | Make nr sock =>
      match rs_made s with
      | [] =>
          match make_request_from_netreq nr sock (rs_world s) with
          | Ret r w => Some (RunState w (tok r))
          | Stop _ => None
          end
      | _ => None
      end
  | Forward =>
      match rs_made s with
      | [r] => match forward_req_to_hlr r (rs_world s) with Ret _ w => Some (RunState w []) | Stop _ => None end
      | _ => None
      end
  | Turn =>
      match request_handler_step CityHash128 stopflag_hlr (rs_world s) with
      | Ret _ w => Some (RunState w (rs_made s))
      | Stop _ => None
      end
  | Dispatch n =>
      match (let* r := get_next_request CityHash128 in if r =? NULL then ret true else dispatch n r) (rs_world s) with
      | Ret true w => Some (RunState w (rs_made s))
      | _ => None
      end
  | Complete k res =>
      match complete k res (rs_world s) with Ret _ w => Some (RunState w (rs_made s)) | Stop _ => None end
  end.

Fixpoint run (l : list action) (s : run_state) : option run_state :=
  match l with
  | [] => Some s
  | a :: l' => match run_step a s with Some s1 => run l' s1 | None => None end
  end.

(** How many requests were accepted. *)
Fixpoint forwarded (l : list action) : Z :=
  match l with
  | [] => 0
  | Forward :: l' => 1 + forwarded l'
  | _ :: l' => forwarded l'
  end.

Definition accounted (T : totals) (n : Z) (s : run_state) : Prop := ledger T n [] [] (rs_made s) [] (rs_world s).

Lemma triple_dispatch_turn T k n hn :
  totals_ok T ->
  triple (ledger (I:=I) (P:=P) T n [] [] hn [])
    (let* r := get_next_request CityHash128 in if r =? NULL then ret true else dispatch k r)
    (fun go w => go = true -> ledger T n [] [] hn [] w).
Proof.
  intros HT. eapply triple_bind; [by apply triple_get_next_request | intros r; cbv beta]. unfold tok.
  destruct (r =? NULL); [apply triple_ret; by intros | by apply triple_dispatch].
Qed.

Lemma run_step_accounted T n a s s' :
  totals_ok T -> accounted T n s -> run_step a s = Some s' -> accounted T (n + forwarded [a]) s'.
Proof.
  intros HT Ha. destruct s as [w made]. unfold accounted in *. cbn [rs_made rs_world] in *.
  destruct a as [nr sock| | |k|k res]; cbn [run_step forwarded rs_made rs_world]; rewrite ?Z.add_0_r.
  - destruct made; [|done]. destruct (make_request_from_netreq nr sock w) as [r w'|] eqn:E; [|done]. intros [= <-].
    cbn [rs_made rs_world]. rewrite <- (app_nil_r (tok r)). by eapply triple_make_request.
  - destruct made as [|r [|]]; [done| |done]. destruct (forward_req_to_hlr r w) as [rc w'|] eqn:E; [|done]. intros [= <-].
    by eapply triple_forward.
  - destruct (request_handler_step CityHash128 stopflag_hlr w) as [go w'|] eqn:E; [|done]. intros [= <-].
    by eapply triple_handler_step.
  - destruct (bind _ _ w) as [go w'|] eqn:E; [|done]. destruct go; [|done]. intros [= <-].
    by eapply triple_dispatch_turn.
  - destruct (complete k res w) as [u w'|] eqn:E; [|done]. intros [= <-]. by eapply triple_complete.
Qed.

Lemma forwarded_cons a l : forwarded (a :: l) = forwarded [a] + forwarded l.
Proof. by destruct a. Qed.

Lemma run_accounted T n l s s' :
  totals_ok T -> accounted T n s -> run l s = Some s' -> accounted T (n + forwarded l) s'.
Proof.
  intros HT. revert n s. induction l as [|a l IH]; intros n s Ha; cbn [run].
  - intros [= <-]. cbn. by rewrite Z.add_0_r.
  - destruct (run_step a s) as [s1|] eqn:E; [|done]. intros Hr.
    rewrite forwarded_cons, Z.add_assoc. eapply IH, Hr. by eapply run_step_accounted.
Qed.

(** The arrays of a handler. *)
Definition all_objects : list Z := addrs 0 (Z.to_nat QSIZE).
Definition handler_totals : totals := Totals all_objects all_objects all_objects.

Lemma handler_totals_ok : totals_ok handler_totals.
Proof.
  assert (NoDup all_objects) as Hn by (apply NoDup_fmap_2; [intros x y; lia | apply NoDup_seq]).
  split; try done. intros (k & Hk & _)%list_elem_of_fmap. unfold NULL in Hk. lia.
Qed.

Lemma fresh_accounted (init : I) nr w :
  fresh_handler init nr w -> acks w = [] -> accounted handler_totals 0 (RunState w []).
Proof.
  intros Hw Hack. exists []. destruct Hw as [_ _ _ _ Hfl (Hq & Hre & Hd) Hp Hreq _ Haio [Hi Hc]].
  pose proof (Hp REQ_POOL ltac:(by left)) as P1. pose proof (Hp IOCB_POOL ltac:(by right; left)) as P2.
  pose proof (Hp CB_POOL ltac:(by right; right)) as P3. cbn [qget] in P1, P2, P3. cbn [rs_world rs_made].
  assert (Z.of_nat (length all_objects) = QSIZE) as Hlen by (unfold all_objects; rewrite addrs_length; unfold QSIZE; lia).
  split; rewrite ?Hq, ?Hre, ?P1, ?P2, ?P3, ?Hfl, ?Hack, ?Haio; cbn [Fifo.items app now fmap list_fmap concat length];
    rewrite ?app_nil_r; try done; [|by split; constructor].
  split; rewrite ?Hq, ?Hre, ?P1, ?P2, ?P3, ?Hfl, ?Hd; cbn [Fifo.cap t_req t_iocb t_cb handler_totals]; try done; try lia.
  - by rewrite Hi, Hc, !calloc_array_lookup.
  - intros r rq. rewrite Hreq, calloc_array_lookup. case_decide; [|done]. intros [= <-]. by left.
Qed.
End Runs.
