(* ===== verification/Net.v ===== *)
(** * Setting up sockets ([src/master.c], [src/client.cc])

    The system calls that open, configure and watch descriptors, as the two
    programs call them. What the kernel answers is an input; what it keeps per
    descriptor (open, its status flags, watched by epoll) is the state, so that a
    descriptor that an error path forgets can be seen. *)

From Stdlib Require Import ZArith Lia.
From stdpp Require Import prelude gmap.
From S2P Require Import Prelude Config World Device DeviceSpec Handler.

#[local] Open Scope Z_scope.

(** ** The kernel's side *)

Record net : Type := Net {
  answers : list Z;          (* of the next system calls *)
  open_fds : gset Z;
  status_flags : gmap Z Z;
  watched : gset Z
}.

Definition O_NONBLOCK : Z := 2048.

(** The next answer: a negative number is a failure. A call whose answer is not
    given has not returned. *)
Definition sys : M net Z := fun n =>
  match answers n with
  | a :: rest => Ret (if a <? 0 then -1 else 0) (Net rest (open_fds n) (status_flags n) (watched n))
  | [] => Stop SBlock
  end.

(** POSIX: a new descriptor is the lowest that is not open. *)
Definition lowest_fd (s : gset Z) : Z :=
  default 0 (for_first 0 (S (size s)) (fun i => bool_decide (i ∉ s))).

(** A new descriptor is open for reading and writing ([O_RDWR], 2); the further flags
    of a device's, which nothing reads, are left out. *)
Definition opened (fd : Z) (n : net) : net :=
  Net (answers n) ({[ fd ]} ∪ open_fds n) (<[fd := 2]> (status_flags n)) (watched n).
Definition closed (fd : Z) (n : net) : net :=
  Net (answers n) (open_fds n ∖ {[ fd ]}) (status_flags n) (watched n ∖ {[ fd ]}).
Definition flagged (fd flags : Z) (n : net) : net :=
  Net (answers n) (open_fds n) (<[fd := flags]> (status_flags n)) (watched n).
Definition watching (fd : Z) (n : net) : net :=
  Net (answers n) (open_fds n) (status_flags n) ({[ fd ]} ∪ watched n).

(** [socket], [accept], [epoll_create1] and [open]. *)
Definition sys_open : M net Z :=
  let* rc := sys in
  if rc <? 0 then ret (-1)
  else
    let* fd := mreads (fun n => lowest_fd (open_fds n)) in
    mmod (opened fd) ;;; ret fd.

(** [close]; its answer is not looked at. *)
Definition sys_close (fd : Z) : M net unit := mmod (closed fd).

(** [fcntl] with [F_GETFL] and with [F_SETFL]. *)
Definition sys_getfl (fd : Z) : M net Z :=
  let* rc := sys in
  if rc <? 0 then ret (-1) else mreads (fun n => default 0 (status_flags n !! fd)).
Definition sys_setfl (fd flags : Z) : M net Z :=
  let* rc := sys in (if rc <? 0 then ret tt else mmod (flagged fd flags)) ;;; ret rc.

(** [epoll_ctl(epfd, EPOLL_CTL_ADD, fd, ...)]: a descriptor that is not open is
    refused. *)
Definition sys_watch (fd : Z) : M net Z :=
  let* rc := sys in
  let* open := mreads open_fds in
  if (rc <? 0) || bool_decide (fd ∉ open) then ret (-1) else mmod (watching fd) ;;; ret 0.

(** ** The code *)

Definition socket_init : M net Z :=
  let* fd := sys_open in
  if fd =? -1 then ret (-1)
  else
    let* flags := sys_getfl fd in
    let* rc := sys_setfl fd (Z.lor flags O_NONBLOCK) in
    if rc <? 0 then sys_close fd ;;; ret (-1)
    else
      let* rc := sys in (* setsockopt *)
      if rc <? 0 then sys_close fd ;;; ret (-1)
      else
        let* rc := sys in (* bind *)
        if rc =? -1 then sys_close fd ;;; ret (-1)
        else
          let* rc := sys in (* listen *)
          if rc =? -1 then sys_close fd ;;; ret (-1)
          else ret fd.

Definition accept_new_client : M net Z :=
  let* fd := sys_open in
  if fd <? 0 then ret (-1)
  else
    let* flags := sys_getfl fd in
    let* rc := sys_setfl fd (Z.lor flags O_NONBLOCK) in
    if rc <? 0 then sys_close fd ;;; ret (-1)
    else
      let* rc := sys_watch fd in
      if rc <? 0 then sys_close fd ;;; ret (-1)
      else ret fd.

(** [connect_server] of the client: the connected socket. *)
Definition connect_server : M net Z :=
  let* sock := sys_open in
  if sock =? -1 then mstop SAbort
  else
    let* rc := sys in (* connect *)
    if rc =? -1 then mstop SAbort else ret sock.

Section MasterInit.
Context {I P : Type}.

(** What [handler_init] needs to know of [device[i]]: its name and what the two
    ioctls on it answer. *)
Record device : Type := MkDevice {
  d_name : list Z; d_size : option Z; d_block : option Z
}.

Record master : Type := Master {
  num_dev : Z;
  mas_device : list device;
  hlr : list (world I P);
  fd : Z;
  epfd : Z
}.

(** [mas->hlr[i] = handler_init(device[i])], from [i] on; [hlr] has 32 slots. The
    descriptor that [dev_abs_init] opens is one of this kernel; a failure of [open]
    aborts in [handler_init]. *)
Fixpoint init_handlers (init : I) (i : nat) (n : nat) (device : list device) : M net (list (world I P)) :=
  match n with
  | O => ret []
  | S n' =>
      let* d := mopt SBounds (device !! i) in
      massert (Z.of_nat i <? 32) SBounds ;;;
      let* dev_fd := sys_open in
      match handler_init init (d_name d) dev_fd (d_size d) (d_block d) (blank_world init) with
      | Ret _ w => let* ws := init_handlers init (S i) n' device in ret (w :: ws)
      | Stop s => mstop s
      end
  end.

(** [None] is the null pointer. *)
Definition master_init (init : I) (num_dev : Z) (device : list device) : M net (option master) :=
  let* fd := socket_init in
  let* epfd := sys_open in
  if epfd <? 0 then ret None
  else
    let* rc := sys_watch fd in
    if negb (rc =? 0) then sys_close epfd ;;; ret None
    else
      let* ws := init_handlers init 0 (Z.to_nat num_dev) device in
      ret (Some (Master num_dev device ws fd epfd)).

(** [master_free] closes the epoll descriptor only. *)
Definition master_free (m : master) : M net unit := sys_close (epfd m).
End MasterInit.

Arguments master : clear implicits.

(** ** Descriptors *)

Definition nonblocking (n : net) (fd : Z) : Prop :=
  exists flags, status_flags n !! fd = Some flags /\ Z.testbit flags 11 = true.

Lemma lowest_fd_fresh (s : gset Z) : 0 <= lowest_fd s /\ lowest_fd s ∉ s.
Proof.
  unfold lowest_fd. destruct (for_first _ _ _) as [i|] eqn:Hf; simpl.
  - apply for_first_Some in Hf as (Hr & Hi & _). apply bool_decide_eq_true in Hi. split; [lia | done].
  - exfalso. assert (list_to_set (seqZ 0 (Z.of_nat (S (size s)))) ⊆ s) as Hsub.
    { intros i Hi. apply elem_of_list_to_set, elem_of_seqZ in Hi.
      pose proof (proj1 (for_first_None _ _ _) Hf i ltac:(lia)) as Hb.
      apply bool_decide_eq_false in Hb. by destruct (decide (i ∈ s)). }
    apply subseteq_size in Hsub. rewrite size_list_to_set, length_seqZ in Hsub by apply NoDup_seqZ. lia.
Qed.

Lemma lor_nonblock flags : Z.testbit (Z.lor flags O_NONBLOCK) 11 = true.
Proof. rewrite Z.lor_spec. change (Z.testbit O_NONBLOCK 11) with true. apply orb_true_r. Qed.

(** Runs the calls up to the next answer of the kernel. *)
Ltac run_net :=
  cbv beta iota delta [answers open_fds status_flags watched opened closed flagged watching orb];
  change (-1 <? 0) with true; change (0 <? 0) with false;
  change (-1 =? -1) with true; change (0 =? -1) with false;
  cbv beta iota delta [answers open_fds status_flags watched opened closed flagged watching orb].

(** Splits on the next answer of the kernel. *)
Ltac next_answer Hans :=
  match type of Hans with
  | (S _ <= length ?l)%nat =>
      let a := fresh "a" in
      destruct l as [|a ?]; [simpl in Hans; lia|]; simpl in Hans; apply le_S_n in Hans;
      run_net; destruct (a <? 0); run_net
  end.

Ltac unfold_net :=
  unfold sys_open, sys_getfl, sys_setfl, sys_watch, sys_close, sys, bind, ret, mreads, mmod.

Lemma socket_init_ok (n : net) :
  (6 <= length (answers n))%nat ->
  exists fd n', socket_init n = Ret fd n' /\ (length (answers n) <= length (answers n') + 6)%nat /\
    ((fd = -1 /\ open_fds n' = open_fds n) \/
     (0 <= fd /\ (fd ∉ open_fds n) /\ open_fds n' = {[ fd ]} ∪ open_fds n /\ nonblocking n' fd)).
Proof.
  destruct n as [ans op fl wa]. cbn [answers open_fds]. intros Hans. unfold socket_init. unfold_net.
  pose proof (lowest_fd_fresh op) as [Hlo Hni]. next_answer Hans.
  { eexists _, _. split; [done|]. split; [simpl; lia|]. by left. }
  rewrite (proj2 (Z.eqb_neq (lowest_fd op) (-1))) by lia. revert Hlo Hni. generalize (lowest_fd op) as f.
  intros f Hlo Hni.
  next_answer Hans; next_answer Hans;
    [eexists _, _; split; [done|]; split; [simpl; lia|]; left; split; [done|]; set_solver | |
     eexists _, _; split; [done|]; split; [simpl; lia|]; left; split; [done|]; set_solver | ].
  all: do 3 (next_answer Hans; [eexists _, _; split; [done|]; split; [simpl; lia|]; left; split; [done|]; cbn; set_solver|]).
  all: eexists _, _; split; [done|]; split; [simpl; lia|]; right; split_and!; [done|done|done|].
  all: eexists; split; [apply lookup_insert_eq | apply lor_nonblock].
Qed.

Lemma accept_new_client_ok (n : net) :
  (4 <= length (answers n))%nat ->
  exists fd n', accept_new_client n = Ret fd n' /\
    ((fd = -1 /\ open_fds n' = open_fds n) \/
     (0 <= fd /\ (fd ∉ open_fds n) /\ open_fds n' = {[ fd ]} ∪ open_fds n /\ nonblocking n' fd /\ fd ∈ watched n')).
Proof.
  destruct n as [ans op fl wa]. cbn [answers open_fds]. intros Hans. unfold accept_new_client. unfold_net.
  pose proof (lowest_fd_fresh op) as [Hlo Hni]. next_answer Hans.
  { eexists _, _. split; [done|]. by left. }
  rewrite (proj2 (Z.ltb_ge (lowest_fd op) 0)) by lia. revert Hlo Hni. generalize (lowest_fd op) as f.
  intros f Hlo Hni.
  next_answer Hans; next_answer Hans;
    [eexists _, _; split; [done|]; left; split; [done|]; set_solver | |
     eexists _, _; split; [done|]; left; split; [done|]; set_solver | ].
  all: next_answer Hans; [eexists _, _; split; [done|]; left; split; [done|]; cbn; set_solver|].
  all: rewrite bool_decide_eq_false_2 by set_solver; run_net.
  all: eexists _, _; split; [done|]; right; split_and!; [done|done|done| |set_solver].
  all: eexists; split; [apply lookup_insert_eq | apply lor_nonblock].
Qed.

(** [__socket_init] and [__accept_new_client] leave no descriptor behind.
    Whichever of its calls fails, either answers -1 with the set of open
    descriptors it began with; otherwise it returns a new non-blocking descriptor,
    the only one it opened, and a client's is watched. *)
Theorem sockets_not_leaked (n : net) :
  (6 <= length (answers n))%nat ->
  (exists fd n', socket_init n = Ret fd n' /\
    ((fd = -1 /\ open_fds n' = open_fds n) \/
     (0 <= fd /\ (fd ∉ open_fds n) /\ open_fds n' = {[ fd ]} ∪ open_fds n /\ nonblocking n' fd))) /\
  (exists fd n', accept_new_client n = Ret fd n' /\
    ((fd = -1 /\ open_fds n' = open_fds n) \/
     (0 <= fd /\ (fd ∉ open_fds n) /\ open_fds n' = {[ fd ]} ∪ open_fds n /\ nonblocking n' fd /\
      fd ∈ watched n'))).
Proof.
  intros Hans. split.
  - destruct (socket_init_ok n Hans) as (fd & n' & H1 & _ & H2). by exists fd, n'.
  - apply accept_new_client_ok. lia.
Qed.

(** ** The master's descriptors and handlers *)

(** A device that [handler_init] accepts. *)
Definition device_ok (d : device) : Prop :=
  (length (d_name d) < 128)%nat /\
  exists nlb lbs, d_size d = Some nlb /\ d_block d = Some lbs /\ 0 < init_nr nlb lbs.

Section MasterSpec.
Context {I P : Type}.

(** A handler of its own for each device. *)
Definition handlers_of (init : I) (ds : list device) (ws : list (world I P)) : Prop :=
  Forall2 (fun d w => exists nlb lbs, d_size d = Some nlb /\ d_block d = Some lbs /\
             fresh_handler init (init_nr nlb lbs) w /\ acks w = []) ds ws.

(** The descriptors of the handlers' devices. *)
Definition device_fds (ws : list (world I P)) : list Z := (fun w => dev_fd (dev w)) <$> ws.

(** [n'] is [n] with the new descriptors [fds] and some answers less. *)
Record more_open (fds : list Z) (n n' : net) : Prop := MoreOpen {
  mo_distinct : NoDup fds;
  mo_new : forall f, f ∈ fds -> 0 <= f /\ (f ∉ open_fds n);
  mo_open : open_fds n' = list_to_set fds ∪ open_fds n;
  mo_watched : watched n' = watched n;
  mo_flags : forall f, f ∈ open_fds n -> status_flags n' !! f = status_flags n !! f
}.

Lemma more_open_cons f fds n n1 n' :
  0 <= f -> f ∉ open_fds n -> open_fds n1 = {[ f ]} ∪ open_fds n -> watched n1 = watched n ->
  (forall g, g ∈ open_fds n -> status_flags n1 !! g = status_flags n !! g) ->
  more_open fds n1 n' -> more_open (f :: fds) n n'.
Proof.
  intros Hf Hni Ho Hw Hfl [H1 H2 H3 H4 H5]. rewrite Ho in H2. split.
  - constructor; [|done]. intros Hin. destruct (H2 f Hin) as [_ []]. set_solver.
  - intros g [-> | Hg]%elem_of_cons; [done|]. destruct (H2 g Hg). set_solver.
  - rewrite H3, Ho. cbn [list_to_set]. set_solver.
  - congruence.
  - intros g Hg. rewrite H5 by (rewrite Ho; set_solver). by apply Hfl.
Qed.

(** The next answer of the kernel decides whether [open] succeeds. *)
Lemma sys_open_ok n a rest : answers n = a :: rest ->
  (a < 0 /\ sys_open n = Ret (-1) (Net rest (open_fds n) (status_flags n) (watched n))) \/
  (0 <= a /\ exists f n1, sys_open n = Ret f n1 /\ answers n1 = rest /\ 0 <= f /\ (f ∉ open_fds n) /\
     open_fds n1 = {[ f ]} ∪ open_fds n /\ watched n1 = watched n /\
     forall g, g ∈ open_fds n -> status_flags n1 !! g = status_flags n !! g).
Proof.
  intros Ha. unfold sys_open, sys. rewrite (bind_ret _ _ _ (if a <? 0 then -1 else 0) (Net rest (open_fds n) (status_flags n) (watched n)))
    by by rewrite Ha.
  pose proof (lowest_fd_fresh (open_fds n)) as [Hlo Hni].
  destruct (a <? 0) eqn:E; reflect_bools; [by left | right]. split; [done|].
  exists (lowest_fd (open_fds n)). eexists. split; [exact eq_refl|]. split_and!; try done.
  intros g Hg. cbn. apply lookup_insert_ne. by intros <-.
Qed.

(** One handler per device, unless an [open] fails, which ends the program. *)
Lemma init_handlers_ok (init : I) (ds : list device) (k i : nat) (n : net) :
  Forall device_ok ds -> length ds = (i + k)%nat -> Z.of_nat (length ds) <= 32 -> (k <= length (answers n))%nat ->
  match init_handlers init i k ds n with
  | Ret ws n' => handlers_of init (drop i ds) ws /\ more_open (device_fds ws) n n'
  | Stop s => s = SAbort /\ exists j a, (j < k)%nat /\ answers n !! j = Some a /\ a < 0
  end.
Proof.
  intros Hds. revert i n. induction k as [|k IH]; intros i n Hlen H32 Hans.
  - cbn. split; [rewrite drop_ge by lia; constructor|]. split; cbn; try done; [constructor | set_solver | set_solver].
  - destruct (lookup_lt_is_Some_2 ds i) as [d Hd]; [lia|]. cbn [init_handlers].
    rewrite Hd. erewrite bind_ret by exact eq_refl. unfold massert. rewrite (proj2 (Z.ltb_lt _ _)) by lia.
    erewrite bind_ret by exact eq_refl. destruct (answers n) as [|a rest] eqn:Ha; [simpl in Hans; lia|].
    destruct (proj1 (Forall_lookup _ _) Hds _ _ Hd) as (Hn & nlb & lbs & E1 & E2 & Hnr).
    destruct (sys_open_ok n a rest Ha) as [[Hneg Ho] | (Hpos & f & n1 & Ho & Hr & Hf & Hni & Ho1 & Hw1 & Hfl)];
      rewrite (bind_ret _ _ _ _ _ Ho); rewrite E1, E2.
    + rewrite handler_init_aborts by done. split; [done|]. exists 0%nat, a. split_and!; [lia | done | done].
    + destruct (handler_init_fresh init (d_name d) f nlb lbs (blank_world (P:=P) init)) as (w & Hw & Hfr & Hfd & Hack);
        [done | done | done | by split |]. rewrite Hw.
      specialize (IH (S i) n1 ltac:(lia) H32 ltac:(rewrite Hr; simpl in Hans; lia)). unfold bind.
      destruct (init_handlers init (S i) k ds n1) as [ws n'|s].
      * destruct IH as [Hall Hmore]. split.
        -- rewrite (drop_S ds d i Hd). constructor; [by exists nlb, lbs | done].
        -- unfold device_fds. rewrite fmap_cons, Hfd. by apply (more_open_cons f _ n n1).
      * destruct IH as (-> & j & b & Hj & Hb & Hneg). split; [done|]. exists (S j), b. rewrite Hr in Hb.
        split_and!; [lia | done | done].
Qed.

(** C33: [master_init]. With good devices it either returns a master whose
    handlers are fresh, one per device, and whose listening socket is open,
    non-blocking and watched; the descriptors it has opened are this socket, the
    epoll descriptor and one more for each device. Or it answers null, and then
    the listening socket that [__socket_init] opened is still open. Or an [open] of a
    device fails, which ends the program. *)
Theorem master_init_outcome (init : I) (ds : list device) (n : net) :
  (8 + length ds <= length (answers n))%nat -> Forall device_ok ds -> Z.of_nat (length ds) <= 32 ->
  (forall f, f ∈ open_fds n -> 0 <= f) ->
  exists lfd n1, socket_init n = Ret lfd n1 /\
    match master_init (P:=P) init (Z.of_nat (length ds)) ds n with
    | Ret (Some m) n' =>
        fd m = lfd /\ 0 <= lfd /\ lfd ∈ watched n' /\ nonblocking n' lfd /\
        handlers_of init ds (hlr m) /\ NoDup (epfd m :: device_fds (hlr m)) /\
        (forall f, f ∈ epfd m :: device_fds (hlr m) -> 0 <= f /\ (f ∉ open_fds n1)) /\
        open_fds n' = list_to_set (epfd m :: device_fds (hlr m)) ∪ open_fds n1
    | Ret None n' => open_fds n' = open_fds n1 /\ (0 <= lfd -> lfd ∈ open_fds n')
    | Stop s => s = SAbort /\ exists j a, (j < length ds)%nat /\ answers n1 !! (2 + j)%nat = Some a /\ a < 0
    end.
Proof.
  intros Hans Hds H32 Hpos.
  destruct (socket_init_ok n ltac:(lia)) as (lfd & n1 & Hs & Hleft & Hopen).
  unfold master_init. rewrite (bind_ret _ _ _ _ _ Hs).
  assert (lfd = -1 /\ open_fds n1 = open_fds n \/ 0 <= lfd /\ lfd ∈ open_fds n1 /\ nonblocking n1 lfd) as Hl
    by (destruct Hopen as [?|(H1 & _ & H3 & H4)]; [by left | right; split_and!; [done | set_solver | done]]).
  clear Hopen. assert (2 + length ds <= length (answers n1))%nat as Hans1 by lia. clear Hleft Hans.
  assert (0 <= lfd -> lfd ∈ open_fds n1) as Hin by (destruct Hl as [[-> _]|(_ & H & _)]; [lia | done]).
  exists lfd, n1. split; [done|]. destruct (answers n1) as [|a1 [|a2 rest]] eqn:Ha; [simpl in Hans1; lia..|].
  destruct (sys_open_ok n1 a1 _ Ha) as [[_ Ho] | (_ & e & n2 & Ho & Hr & He & Hne & Ho2 & Hw2 & Hf2)];
    rewrite (bind_ret _ _ _ _ _ Ho); [by split|].
  rewrite (proj2 (Z.ltb_ge e 0)) by lia. unfold sys_watch, sys.
  set (n3 := Net rest (open_fds n2) (status_flags n2) (watched n2)).
  rewrite (bind_ret _ _ n2 (if decide (a2 < 0 \/ lfd < 0) then -1 else 0)
    (if decide (a2 < 0 \/ lfd < 0) then n3 else watching lfd n3)).
  2:{ rewrite (bind_ret _ _ n2 (if a2 <? 0 then -1 else 0) n3) by by rewrite Hr.
      erewrite bind_ret by exact eq_refl. cbn [open_fds n3]. rewrite Ho2.
      destruct Hl as [[-> Hl] | (Hl & Hlin & _)].
      - do 2 rewrite (decide_True (P := a2 < 0 \/ -1 < 0)) by (right; lia). rewrite bool_decide_eq_true_2, orb_true_r; [done|].
        rewrite Hl. intros [Hx%elem_of_singleton | Hx%Hpos]%elem_of_union; lia.
      - rewrite bool_decide_eq_false_2 by set_solver. rewrite orb_false_r. destruct (a2 <? 0) eqn:E; reflect_bools.
        + by do 2 rewrite decide_True by by left.
        + by do 2 rewrite decide_False by lia. }
  destruct (decide (a2 < 0 \/ lfd < 0)) as [Hbad|Hgood]; cbn [negb Z.eqb].
  { cbn. rewrite Ho2. split; [set_solver|]. intros Hp. specialize (Hin Hp). set_solver. }
  destruct Hl as [[-> _] | (Hl0 & Hlin & Hnb)]; [lia|].
  pose proof (init_handlers_ok init ds (length ds) 0 (watching lfd n3) Hds eq_refl H32 ltac:(simpl in Hans1 |- *; lia)) as Hh.
  rewrite Nat2Z.id. unfold bind. destruct (init_handlers init 0 (length ds) ds (watching lfd n3)) as [ws n'|s]; cbn.
  - destruct Hh as [Hall [M1 M2 M3 M4 M5]]. cbn in M2, M3, M4, M5. rewrite Ho2 in M2, M3, M5.
    split_and!; [done | done | rewrite M4; set_solver | | done | | |].
    + destruct Hnb as (flags & Hf & Hb). exists flags. split; [|done]. rewrite M5 by set_solver. by rewrite Hf2.
    + constructor; [|done]. intros Hx%M2. set_solver.
    + intros f [-> | Hf%M2]%elem_of_cons; [done|]. set_solver.
    + rewrite M3. set_solver.
  - destruct Hh as (-> & j & b & Hj & Hb & Hneg). split; [done|]. by exists j, b.
Qed.
End MasterSpec.

(** ** Concrete runs *)

(** Standard input, output and error are open; [bind] fails. *)
Definition three_fds (ans : list Z) : net := Net ans {[ 0; 1; 2 ]} ∅ ∅.

Lemma sockets_not_leaked_witness :
  exists fd n', socket_init (three_fds [0; 0; 0; 0; -1; 0]) = Ret fd n' /\ fd = -1 /\
    open_fds n' = {[ 0; 1; 2 ]}.
Proof.
  destruct (sockets_not_leaked (three_fds [0; 0; 0; 0; -1; 0])) as [(fd & n' & H1 & H2) _]; [simpl; lia|].
  assert (fd = -1) as -> by (revert H1; vm_compute; congruence).
  exists (-1), n'. split; [exact H1|]. split; [reflexivity|].
  destruct H2 as [[_ H2] | [H2 _]]; [exact H2 | lia].
Defined.

Definition sample_device : device := MkDevice [47; 100] (Some 8192) (Some 512).

(** [epoll_create1] fails: the listening socket, descriptor 3, stays open. *)
Lemma master_init_outcome_witness :
  (exists n', master_init (P:=unit) tt 1 [sample_device] (three_fds [0; 0; 0; 0; 0; 0; -1; 0; 0]) = Ret None n' /\
    3 ∈ open_fds n') /\
  (exists m n', master_init (P:=unit) tt 1 [sample_device] (three_fds [0; 0; 0; 0; 0; 0; 0; 0; 0]) = Ret (Some m) n' /\
    epfd m :: device_fds (hlr m) = [4; 5] /\ exists n1, open_fds n' = list_to_set [4; 5] ∪ open_fds n1).
Proof.
  assert (Forall device_ok [sample_device]) as Hds
    by (constructor; [|constructor]; split; [simpl; lia|]; exists 8192, 512; by vm_compute).
  assert (forall l f, f ∈ open_fds (three_fds l) -> 0 <= f) as Hpos by (intros l f; set_unfold; lia).
  split.
  - destruct (master_init_outcome (P:=unit) tt [sample_device] (three_fds [0; 0; 0; 0; 0; 0; -1; 0; 0]))
      as (lfd & n1 & H1 & H2); [simpl; lia | exact Hds | simpl; lia | apply Hpos|].
    change (Z.of_nat (length [sample_device])) with 1 in H2.
    assert (lfd = 3) as -> by (revert H1; vm_compute; congruence).
    set (r := master_init tt 1 [sample_device] (three_fds [0; 0; 0; 0; 0; 0; -1; 0; 0])) in *.
    assert (match r with Ret None _ => True | _ => False end) as Hr by (vm_compute; exact Logic.I).
    destruct r as [[m|] n'|e]; [done| |done]. exists n'. split; [done|]. apply H2. lia.
  - destruct (master_init_outcome (P:=unit) tt [sample_device] (three_fds [0; 0; 0; 0; 0; 0; 0; 0; 0]))
      as (lfd & n1 & H1 & H2); [simpl; lia | exact Hds | simpl; lia | apply Hpos|].
    change (Z.of_nat (length [sample_device])) with 1 in H2.
    set (r := master_init tt 1 [sample_device] (three_fds [0; 0; 0; 0; 0; 0; 0; 0; 0])) in *.
    assert (match r with
            | Ret (Some m) _ => epfd m = 4 /\ device_fds (hlr m) = [5]
            | _ => False
            end) as Hr by (vm_compute; split; reflexivity).
    destruct r as [[m|] n'|e]; [|done..]. destruct Hr as [R1 R2]. destruct H2 as (_ & _ & _ & _ & _ & _ & _ & H2).
    exists m, n'. rewrite R1, R2 in H2. rewrite R1, R2. split; [done|]. split; [done|]. by exists n1.
Defined.
