(* ===== verification/Server.v ===== *)
(** * The server program ([src/temp.cc])

    [main] reads the command line, and [master_init] opens the devices it names.
    The answers of [getopt_long] and the argument vector are input. *)

From Stdlib Require Import ZArith Lia.
From stdpp Require Import prelude gmap.
From S2P Require Import Prelude Config World Device DeviceSpec Handler Net.

#[local] Open Scope Z_scope.

(** Characters are their codes; a string of the argument vector is the list of its
    characters. *)
Abbreviation str := (list Z).

(** [getopt_long]: the option [d] with its [optarg] and the [optind] after it, an
    unknown option, or something else. *)
Inductive opt : Type :=
| OptDevices (optarg : str) (optind : nat)
| OptUnknown
| OptOther.

Definition is_digit (c : Z) : bool := (48 <=? c) && (c <=? 57).

(** The number that the leading digits of [s] make. *)
Fixpoint digits_value (acc : Z) (s : str) : Z :=
  match s with
  | c :: s' => if is_digit c then digits_value (10 * acc + (c - 48)) s' else acc
  | [] => acc
  end.

(** [atoi]: white space, a sign, digits. *)
Fixpoint atoi (s : str) : Z :=
  match s with
  | c :: s' =>
      if (c =? 32) || ((9 <=? c) && (c <=? 13)) then atoi s'
      else if c =? 45 then s32 (- digits_value 0 s')
      else if c =? 43 then s32 (digits_value 0 s')
      else s32 (digits_value 0 s)
  | [] => 0
  end.

(** [device] points to 32-byte blocks, or is null where nothing was assigned. *)
Record server : Type := Server { srv_num_dev : Z; srv_device : list (option (list Z)) }.

Definition zero_server : server := Server 0 (replicate 32 None).

(** [calloc(32)] and [strncpy] of all characters of the argument. *)
Definition copy_name (name : str) : option (list Z) := blit (replicate 32 0) 0 name.

(** The loop over [argv[optind+i]]; [n] is what is left of [num_dev]. *)
Fixpoint copy_devices (argv : list str) (optind i n : nat) : M server unit :=
  match n with
  | O => ret tt
  | S n' =>
      massert (Z.of_nat i <? 32) SBounds ;;;
      let* name := mopt SNull (argv !! (optind + i)%nat) in
      let* b := mopt SBounds (copy_name name) in
      mmod (fun srv => Server (srv_num_dev srv) (<[i := Some b]> (srv_device srv))) ;;;
      copy_devices argv optind (S i) n'
  end.

(** The answer is the flag that [-d] was seen; the program exits without it. *)
Fixpoint server_getopt (argv : list str) (opts : list opt) (dev_flag : bool) : M server bool :=
  match opts with
  | [] => ret dev_flag
  | OptDevices optarg optind :: rest =>
      mmod (fun srv => Server (atoi optarg) (srv_device srv)) ;;;
      copy_devices argv optind 0 (Z.to_nat (atoi optarg)) ;;;
      server_getopt argv rest true
  | OptUnknown :: rest => server_getopt argv rest dev_flag
  | OptOther :: _ => mstop SAbort
  end.

(** A block read as a C string; [None] when no zero byte ends it. *)
Fixpoint c_string (b : list Z) : option str :=
  match b with
  | [] => None
  | c :: b' => if c =? 0 then Some [] else s ← c_string b'; Some (c :: s)
  end.

Section Main.
Context {I P : Type}.
(** What the two ioctls on a device answer. *)
Variable open_device : str -> option Z * option Z.

Definition device_at (name : str) : device :=
  let '(size, block) := open_device name in MkDevice name size block.

Fixpoint devices_of (bs : list (option (list Z))) : M net (list device) :=
  match bs with
  | [] => ret []
  | None :: _ => mstop SNull
  | Some b :: bs' =>
      let* name := mopt SBounds (c_string b) in
      let* ds := devices_of bs' in
      ret (device_at name :: ds)
  end.

(** [server_init], with the blocks as [handler_init] reads them. *)
Definition server_init (init : I) (srv : server) : M net (option (master I P)) :=
  let* ds := devices_of (take (Z.to_nat (srv_num_dev srv)) (srv_device srv)) in
  master_init init (srv_num_dev srv) ds.

(** [main] up to [pthread_join]; [None] when the program exits for want of
    devices or has no master to join. *)
Definition server_main (init : I) (argv : list str) (opts : list opt) : M net (option (master I P)) :=
  match server_getopt argv opts false zero_server with
  | Ret true srv => server_init init srv
  | Ret false _ => ret None
  | Stop s => mstop s
  end.
End Main.

(** ** The command line *)

(** A name that fits its block with a zero byte behind it. *)
Definition name_ok (name : str) : Prop := (length name < 32)%nat /\ Forall (fun c => c <> 0) name.

Definition block_of (name : str) : list Z := name ++ replicate (32 - length name) 0.

Lemma copy_name_ok name : name_ok name -> copy_name name = Some (block_of name).
Proof.
  intros [Hl _]. unfold copy_name. rewrite blit_eq by (rewrite ?length_replicate; lia).
  unfold block_of. simpl take. by rewrite drop_replicate.
Qed.

Lemma c_string_block name : name_ok name -> c_string (block_of name) = Some name.
Proof.
  intros [Hl Hn]. unfold block_of. destruct (32 - length name)%nat as [|k] eqn:E; [lia|]. clear Hl E.
  induction Hn as [|c name Hc Hn IH]; [done|]. cbn [app c_string]. rewrite (proj2 (Z.eqb_neq c 0)) by done.
  by rewrite IH.
Qed.

Lemma copy_devices_ok argv optind names i srv :
  Forall name_ok names -> take (length names) (drop (optind + i) argv) = names ->
  (i + length names <= 32)%nat -> length (srv_device srv) = 32%nat ->
  copy_devices argv optind i (length names) srv =
    Ret tt (Server (srv_num_dev srv)
              (take i (srv_device srv) ++ (Some <$> (block_of <$> names)) ++ drop (i + length names) (srv_device srv))).
Proof.
  intros Hok. revert i srv. induction Hok as [|name names Hname Hok IH]; intros i srv Harg Hi Hlen.
  - cbn [length copy_devices fmap list_fmap app]. rewrite Nat.add_0_r, take_drop. by destruct srv.
  - cbn [length] in *. destruct (drop (optind + i) argv) as [|a l] eqn:E; [done|]. injection Harg as -> Harg.
    assert (argv !! (optind + i)%nat = Some name) as Ha by (rewrite <- (Nat.add_0_r (optind + i)), <- lookup_drop, E; done).
    cbn [copy_devices]. unfold massert. rewrite (proj2 (Z.ltb_lt _ _)) by lia. rewrite Ha.
    do 2 (erewrite bind_ret by exact eq_refl). rewrite copy_name_ok by done. do 2 (erewrite bind_ret by exact eq_refl). rewrite (IH (S i)); cbn [srv_device srv_num_dev].
    + do 2 f_equal. rewrite !fmap_cons. cbn [app].
      rewrite (take_S_r _ _ (Some (block_of name))) by (apply list_lookup_insert_eq; lia).
      rewrite take_insert_ge by lia. rewrite <- app_assoc. cbn [app]. do 2 f_equal.
      rewrite drop_insert_lt by lia. f_equal. f_equal. lia.
    + rewrite <- plus_n_Sm. change (S (optind + i)) with (1 + (optind + i))%nat. rewrite Nat.add_comm, <- drop_drop, E. done.
    + lia.
    + by rewrite length_insert.
Qed.

Lemma devices_of_blocks open_device names n :
  Forall name_ok names ->
  devices_of open_device (Some <$> (block_of <$> names)) n = Ret (device_at open_device <$> names) n.
Proof.
  induction 1 as [|name names Hn Hnames IH]; [done|]. rewrite !fmap_cons. cbn [devices_of].
  rewrite c_string_block by done. erewrite bind_ret by exact eq_refl. by rewrite (bind_ret _ _ _ _ _ IH).
Qed.

Section Start.
Context {I P : Type}.
Variable open_device : str -> option Z * option Z.

(** A device that the handler can use, under its name. *)
Definition openable (name : str) : Prop :=
  name_ok name /\ let '(size, block) := open_device name in exists nlb lbs, size = Some nlb /\ block = Some lbs /\ 0 < init_nr nlb lbs.

Lemma server_main_ok (init : I) argv optind optarg names n :
  Forall openable names -> atoi optarg = Z.of_nat (length names) -> (length names <= 32)%nat ->
  take (length names) (drop optind argv) = names ->
  server_main (P:=P) open_device init argv [OptDevices optarg optind] n =
    master_init init (Z.of_nat (length names))
      (device_at open_device <$> names) n.
Proof.
  intros Hok Hat Hl Harg. assert (Forall name_ok names) as Hnames by (eapply Forall_impl; [exact Hok|]; by intros ? [? _]).
  unfold server_main. cbn [server_getopt]. erewrite bind_ret by exact eq_refl. rewrite Hat, Nat2Z.id.
  erewrite bind_ret by (apply copy_devices_ok; [done | by rewrite Nat.add_0_r | lia | done]).
  unfold server_init. cbn [ret srv_num_dev srv_device].
  unfold server_init. cbn [srv_num_dev srv_device]. rewrite Nat2Z.id. simpl take at 2. cbn [app].
  rewrite take_app_length' by by rewrite !length_fmap. by rewrite (bind_ret _ _ _ _ _ (devices_of_blocks open_device names n Hnames)).
Qed.

(** Start-up. [-d n] with [n] names of at most 31 characters: the program
    gives exactly these devices to [master_init], whatever else the argument
    vector holds; a longer name is written past its block, and too few names
    dereference the null pointer that ends the vector. *)
Theorem server_main_opens_devices (init : I) (argv : list str) (optind : nat) (optarg : str) (names : list str) (n : net) :
  Forall openable names -> atoi optarg = Z.of_nat (length names) -> (length names <= 32)%nat ->
  take (length names) (drop optind argv) = names ->
  server_main (P:=P) open_device init argv [OptDevices optarg optind] n =
    master_init init (Z.of_nat (length names))
      (device_at open_device <$> names) n /\
  (forall name srv, (32 < length name)%nat ->
     copy_devices [name] 0 0 1 srv = Stop SBounds) /\
  (forall srv, server_getopt argv [OptDevices [49] (length argv)] false srv = Stop SNull).
Proof.
  intros Hok Hat Hl Harg. split; [by apply server_main_ok|]. split.
  - intros name srv Hlong. cbn [copy_devices]. do 2 (erewrite bind_ret by exact eq_refl).
    unfold copy_name, blit. rewrite length_replicate. rewrite (proj2 (Z.leb_gt (0 + _) _)) by lia. done.
  - intros srv. cbn [server_getopt]. erewrite bind_ret by exact eq_refl.
    change (Z.to_nat (atoi [49])) with 1%nat. cbn [copy_devices].
    apply bind_stop. erewrite bind_ret by exact eq_refl. rewrite (lookup_ge_None_2 argv) by lia. done.
Qed.
End Start.

(** ["server -d 1 /d"] *)
Definition sample_argv : list str := [[115]; [45; 100]; [49]; [47; 100]].
Definition sample_open (name : str) : option Z * option Z := (Some 8192, Some 512).

Lemma server_main_opens_devices_witness :
  server_main (P:=unit) sample_open tt sample_argv [OptDevices [49] 3] (three_fds [0; 0; 0; 0; 0; 0; -1; 0]) =
    master_init tt 1 [sample_device] (three_fds [0; 0; 0; 0; 0; 0; -1; 0]).
Proof.
  destruct (server_main_opens_devices (P:=unit) sample_open tt sample_argv 3 [49] [[47; 100]]
              (three_fds [0; 0; 0; 0; 0; 0; -1; 0])) as (H & _).
  - constructor; [|constructor]. split.
    + split; [simpl; lia|]. constructor; [lia|]. constructor; [lia | constructor].
    + exists 8192, 512. by vm_compute.
  - reflexivity.
  - simpl. lia.
  - reflexivity.
  - exact H.
Defined.
