(* ===== verification/Master.v ===== *)
(** * The master thread ([src/master.c], [include/master.h])

    The master reads messages from the sockets of the clients, picks the handler
    of each by the hash of its key, makes a request from the handler's pool and
    queues it there. The handlers are a list of worlds; what the sockets hold is
    given as the events of [Util]. *)

From Stdlib Require Import ZArith Lia.
From stdpp Require Import prelude gmap.
From S2P Require Import Prelude Config Bytes Util Queue CondLock World Stopwatch KvPair Request.
From S2P Require Import Device DeviceSpec Handler.

#[local] Open Scope Z_scope.

Definition MAX_NETREQ_BUF : Z := 1024.

(** ** Messages *)

(** [sizeof(struct netreq)], packed. *)
Definition NETREQ_SIZE : Z := 1 + 1 + 4 + KEY_LEN + 4.

Definition req_type_code (t : req_type_t) : Z :=
  match t with
  | REQ_TYPE_PADDING => 0
  | REQ_TYPE_SET => 1
  | REQ_TYPE_GET => 2
  | REQ_TYPE_DELETE => 3
  | REQ_TYPE_RANGE => 4
  | REQ_TYPE_ITERATOR => 5
  end.

(** A byte that is no enumerator is left out of the model. *)
Definition req_type_of (c : Z) : option req_type_t :=
  match c with
  | 0 => Some REQ_TYPE_PADDING
  | 1 => Some REQ_TYPE_SET
  | 2 => Some REQ_TYPE_GET
  | 3 => Some REQ_TYPE_DELETE
  | 4 => Some REQ_TYPE_RANGE
  | 5 => Some REQ_TYPE_ITERATOR
  | _ => None
  end.

Definition encode_netreq (nr : netreq) : list Z :=
  [req_type_code (nr_type nr); nr_keylen nr] ++ le_bytes 4 (nr_seq_num nr) ++ nr_key nr ++
  le_bytes 4 (nr_kv_size nr).

Definition decode_netreq (l : list Z) : option netreq :=
  match l with
  | t :: keylen :: l' =>
      match req_type_of t with
      | Some ty =>
          Some (Netreq ty keylen (le_value (take 4 l')) (take (Z.to_nat KEY_LEN) (drop 4 l'))
                  (le_value (take 4 (drop (4 + Z.to_nat KEY_LEN) l'))))
      | None => None
      end
  | _ => None
  end.

(** The first [n] messages of [netreq_buf]. *)
Fixpoint decode_netreqs (n : nat) (l : list Z) : option (list netreq) :=
  match n with
  | O => Some []
  | S n' =>
      nr ← decode_netreq (take (Z.to_nat NETREQ_SIZE) l);
      nrs ← decode_netreqs n' (drop (Z.to_nat NETREQ_SIZE) l);
      Some (nr :: nrs)
  end.

Section Master.
Context {I P : Type}.
Variable CityHash128 : list Z -> Z -> Z * Z.
Variable num_dev : Z.
Abbreviation handlers := (list (world I P)).

(** An operation on [mas->hlr[i]]; a slot that [master_init] has not filled yet
    is null. *)
Definition on_hlr {A} (i : Z) (m : M (world I P) A) : M handlers A := fun ws =>
  match ws !! Z.to_nat i with
  | Some w =>
      match m w with
      | Ret a w' => Ret a (<[Z.to_nat i := w']> ws)
      | Stop s => Stop s
      end
  | None => Stop SNull
  end.

(** The handler of a message: the local [hash_high] is the first half of the
    hash, which requests call [hash_low]. *)
Definition hlr_idx (nr : netreq) : Z :=
  Z.shiftr (fst (CityHash128 (nr_key nr) (nr_keylen nr))) 32 mod num_dev.

(** The loop of [__process_request]. *)
Fixpoint forward_all (nrs : list netreq) (fd : Z) : M handlers Z :=
  match nrs with
  | [] => ret 0
  | nr :: nrs' =>
      massert (negb (num_dev =? 0)) SDivZero ;;;
      let i := s32 (hlr_idx nr) in
      let* req := on_hlr i (make_request_from_netreq nr fd) in
      let* rc := on_hlr i (forward_req_to_hlr req) in
      if negb (rc =? 0) then ret rc else forward_all nrs' fd
  end.

(** The answer, whether the socket was closed, and what is left unread. A read
    loop that is still running when the events end is a wait. *)
Record processed : Type := Processed { pr_rc : Z; pr_closed : bool; pr_rest : list sock_event }.

Definition process_request (s : list sock_event) (fd : Z) : M handlers processed :=
  let* r := mopt SBlock (read_sock_bulk s MAX_NETREQ_BUF NETREQ_SIZE) in
  if rd_ret r =? -1 then ret (Processed 0 false (rd_rest r))
  else if rd_ret r =? 0 then ret (Processed 1 true (rd_rest r))
  else
    let n_obj := rd_ret r / NETREQ_SIZE in
    let* nrs := mopt SBounds (decode_netreqs (Z.to_nat n_obj) (rd_buf r)) in
    let* rc := forward_all nrs fd in
    ret (Processed rc false (rd_rest r)).

(** What [epoll_wait] reports: a client to accept, with the answer of
    [__accept_new_client], or a client with something to read. *)
Inductive epoll_event : Type :=
| Accept (fd : Z)
| Readable (fd : Z) (s : list sock_event).

(** The inner loop of [master_thread]; the answer tells whether the thread goes
    on. *)
Fixpoint master_turn (evs : list epoll_event) : M handlers bool :=
  match evs with
  | [] => ret true
  | Accept fd :: rest => if fd <? 0 then ret false else master_turn rest
  | Readable fd s :: rest =>
      let* p := process_request s fd in
      if negb (pr_rc p =? 0) then ret false else master_turn rest
  end.

(** The outer loop, on the successive answers of [epoll_wait]: [None] is an
    error, and an empty list a time-out. The number of turns that were begun. *)
Fixpoint master_thread (turns : list (option (list epoll_event))) : M handlers nat :=
  match turns with
  | [] => ret 0%nat
  | None :: _ => ret 1%nat
  | Some evs :: rest =>
      let* go := master_turn evs in
      if go : bool then let* n := master_thread rest in ret (S n) else ret 1%nat
  end.

(** ** The bytes of a message *)

Record netreq_ok (nr : netreq) : Prop := NetreqOk {
  no_keylen : 0 <= nr_keylen nr < 256;
  no_seq : 0 <= nr_seq_num nr < 2 ^ 32;
  no_key : length (nr_key nr) = Z.to_nat KEY_LEN;
  no_size : 0 <= nr_kv_size nr < 2 ^ 32
}.

Lemma encode_netreq_length nr : netreq_ok nr -> length (encode_netreq nr) = Z.to_nat NETREQ_SIZE.
Proof. intros [_ _ Hk _]. unfold encode_netreq. rewrite !length_app, !le_bytes_length, Hk. done. Qed.

Lemma req_type_of_code t : req_type_of (req_type_code t) = Some t.
Proof. by destruct t. Qed.

Lemma decode_encode_netreq nr : netreq_ok nr -> decode_netreq (encode_netreq nr) = Some nr.
Proof.
  intros [H1 H2 H3 H4]. unfold decode_netreq, encode_netreq. cbn [app].
  rewrite req_type_of_code. rewrite take_app_length', drop_app_length' by by rewrite le_bytes_length.
  rewrite take_app_length' by done. rewrite <- drop_drop.
  rewrite drop_app_length' by by rewrite le_bytes_length. rewrite drop_app_length' by done.
  rewrite (take_ge (le_bytes 4 (nr_kv_size nr))) by by rewrite le_bytes_length.
  rewrite !le_value_bytes by (change (256 ^ Z.of_nat 4) with (2 ^ 32); lia).
  by destruct nr.
Qed.

Lemma decode_netreqs_ok nrs :
  Forall netreq_ok nrs -> decode_netreqs (length nrs) (concat (encode_netreq <$> nrs)) = Some nrs.
Proof.
  induction 1 as [|nr nrs Hnr Hnrs IH]; [done|]. rewrite fmap_cons. cbn [concat length decode_netreqs].
  rewrite take_app_length', drop_app_length' by by rewrite encode_netreq_length.
  rewrite decode_encode_netreq by done. simpl. by rewrite IH.
Qed.

Lemma code_of_req_type t c : req_type_of c = Some t -> req_type_code t = c.
Proof.
  intros H. destruct c as [|c|c]; [by injection H as <- | | done].
  do 3 (destruct c as [c|c|]; try done; try by injection H as <-).
Qed.

Lemma encode_decode_netreq l nr :
  bytes l -> length l = Z.to_nat NETREQ_SIZE -> decode_netreq l = Some nr -> netreq_ok nr /\ encode_netreq nr = l.
Proof.
  intros Hb Hl Hd. destruct l as [|t [|kl l]]; try done. unfold decode_netreq in Hd.
  apply Forall_cons in Hb as [_ Hb]. apply Forall_cons in Hb as [Hkl Hb].
  assert (length l = 40%nat) as Hl' by (injection Hl as Hl; exact Hl). change (Z.to_nat KEY_LEN) with 32%nat in Hd.
  destruct (req_type_of t) as [ty|] eqn:Ht; [|done]. injection Hd as <-. apply code_of_req_type in Ht as Ht.
  assert (length (take 4 (drop (4 + 32) l)) = 4%nat) as H4 by (rewrite length_take, length_drop; lia).
  assert (length (take 4 l) = 4%nat) as H4' by (rewrite length_take; lia).
  split.
  - split; cbn [nr_keylen nr_seq_num nr_key nr_kv_size]; [exact Hkl | | | ].
    + pose proof (le_value_bound (take 4 l) (Forall_take _ _ _ Hb)) as H. rewrite H4' in H. exact H.
    + rewrite length_take, length_drop. change (Z.to_nat KEY_LEN) with 32%nat. lia.
    + pose proof (le_value_bound (take 4 (drop (4 + 32) l)) (Forall_take _ _ _ (Forall_drop _ _ _ Hb))) as H.
      rewrite H4 in H. exact H.
  - unfold encode_netreq. cbn [nr_type nr_keylen nr_seq_num nr_key nr_kv_size app]. rewrite Ht.
    rewrite !le_bytes_value; [ | | done | by apply Forall_take | done]; [|by apply Forall_take, Forall_drop].
    do 2 f_equal. rewrite (take_ge (drop (4 + 32) l)) by (rewrite length_drop; lia).
    by rewrite <- drop_drop, (take_drop 32), (take_drop 4).
Qed.

(** The bytes of messages. A buffer of whole messages is cut into exactly
    those messages; and a buffer that is cut into messages consists of their
    bytes. *)
Theorem netreqs_roundtrip (nrs : list netreq) (l : list Z) :
  (Forall netreq_ok nrs -> decode_netreqs (length nrs) (concat (encode_netreq <$> nrs)) = Some nrs) /\
  (bytes l -> length l = (length nrs * Z.to_nat NETREQ_SIZE)%nat ->
   decode_netreqs (length nrs) l = Some nrs -> Forall netreq_ok nrs /\ concat (encode_netreq <$> nrs) = l).
Proof.
  split; [apply decode_netreqs_ok|]. revert l. induction nrs as [|nr nrs IH]; intros l Hb Hl Hd.
  - split; [done|]. by destruct l.
  - cbn [length decode_netreqs] in Hd.
    destruct (decode_netreq (take (Z.to_nat NETREQ_SIZE) l)) as [nr'|] eqn:E; [|done]. simpl in Hd.
    destruct (decode_netreqs (length nrs) (drop (Z.to_nat NETREQ_SIZE) l)) as [nrs'|] eqn:E'; [|done].
    injection Hd as -> ->. cbn [length] in Hl. rewrite Nat.mul_succ_l in Hl.
    destruct (encode_decode_netreq _ _ (Forall_take _ _ _ Hb) ltac:(rewrite length_take, Hl; apply Nat.min_l, Nat.le_add_l) E) as [H1 H2].
    destruct (IH _ (Forall_drop _ _ _ Hb) ltac:(rewrite length_drop, Hl; apply Nat.add_sub) E') as [H3 H4].
    split; [by constructor|]. rewrite fmap_cons. cbn [concat]. by rewrite H2, H4, take_drop.
Qed.

(** ** One message *)

Implicit Types w : world I P.

(** [req] as [make_request_from_netreq] leaves it, at time [tv]. *)
Definition made (nr : netreq) (sock : Z) (tv : timeval) (rq : request) : request :=
  Request (nr_type nr) (nr_seq_num nr)
    (KeyStruct (take (Z.to_nat (nr_keylen nr)) (nr_key nr) ++ drop (Z.to_nat (nr_keylen nr)) (key (req_key rq)))
       (nr_keylen nr) (hash_low (req_key rq)) (hash_high (req_key rq)))
    (ValStruct NULL (nr_kv_size nr))
    (Stopwatch tv (sw_end_tv (req_sw rq)) (lap_sum (req_sw rq)))
    (end_req rq) (params rq) (temp_buf rq) sock.

Lemma make_request_ok nr sock w r l rq :
  Fifo.items (req_pool w) = r :: l -> req_arr w !! r = Some rq -> r <> NULL ->
  0 <= nr_keylen nr <= Z.of_nat (length (nr_key nr)) -> nr_keylen nr <= Z.of_nat (length (key (req_key rq))) ->
  make_request_from_netreq nr sock w =
    Ret r (set_req_arr (<[r := made nr sock (gettimeofday w (ticks w)) rq]> (req_arr w))
             (set_ticks (S (ticks w)) (set_req_pool (Fifo.Mk l (Fifo.cap (req_pool w))) w))).
Proof.
  intros Hl Hrq Hr Hk Hkl. unfold make_request_from_netreq.
  rewrite (bind_ret _ _ _ _ _ (q_dequeue_cons REQ_POOL _ _ _ Hl)).
  erewrite bind_ret by (by apply load_req_ok).
  erewrite bind_ret by (by rewrite slice_eq by lia).
  assert (length (take (Z.to_nat (nr_keylen nr)) (nr_key nr)) = Z.to_nat (nr_keylen nr)) as Hlen
    by (rewrite length_take; lia).
  erewrite bind_ret by (by rewrite drop_0, blit_eq by (rewrite ?Hlen; lia)).
  erewrite bind_ret by exact eq_refl. erewrite bind_ret by exact eq_refl.
  unfold ret, made. rewrite Hlen. done.
Qed.

(** What the handler thread finds in a queued request. *)
Record message : Type := Message { ms_type : req_type_t; ms_seq : Z; ms_key : list Z; ms_size : Z; ms_sock : Z }.

Definition message_of (sock : Z) (nr : netreq) : message :=
  Message (nr_type nr) (nr_seq_num nr) (take (Z.to_nat (nr_keylen nr)) (nr_key nr)) (nr_kv_size nr) sock.

Definition queued_message (rq : request) : message :=
  Message (req_type rq) (seq_num rq) (take (Z.to_nat (key_len (req_key rq))) (key (req_key rq)))
    (val_len (req_value rq)) (cl_sock rq).

(** The requests that wait for the handler thread, oldest first. *)
Definition inbox w : list (option message) :=
  (fun r => queued_message <$> req_arr w !! r) <$> Fifo.items (req_q w).

(** A handler that has permits, request objects and room for [n] messages. *)
Record accepts (n : nat) w : Prop := Accepts {
  ac_counted : zero_lock (flying w) = false;
  ac_permits : 0 <= now (flying w) /\ now (flying w) + Z.of_nat n <= cnt (flying w);
  ac_pool : (n <= length (Fifo.items (req_pool w)))%nat;
  ac_room : Z.of_nat (length (Fifo.items (req_q w)) + n) <= Fifo.cap (req_q w);
  ac_distinct : NoDup (Fifo.items (req_pool w) ++ Fifo.items (req_q w));
  ac_objects : Forall (fun r => r <> NULL /\ exists rq, req_arr w !! r = Some rq /\
                 length (key (req_key rq)) = Z.to_nat KEY_LEN_MAX) (Fifo.items (req_pool w))
}.

(** A message whose key length is within its key field. *)
Definition fits (nr : netreq) : Prop := netreq_ok nr /\ nr_keylen nr <= KEY_LEN.

(** [w] with [n] more permits taken, the first [n] request objects moved from the
    pool to the end of the queue, the clock read [n] times, and the requests [ra];
    the rest as it was. *)
Definition after_taking (n : nat) (ra : gmap Z request) w : world I P :=
  set_flying (set_now (flying w) (now (flying w) + Z.of_nat n))
    (set_req_pool (Fifo.Mk (drop n (Fifo.items (req_pool w))) (Fifo.cap (req_pool w)))
       (set_req_q (Fifo.Mk (Fifo.items (req_q w) ++ take n (Fifo.items (req_pool w))) (Fifo.cap (req_q w)))
          (set_req_arr ra (set_ticks (ticks w + n) w)))).

(** What queueing the messages [l] does to one handler: the requests that left the
    pool hold one message each, with the time of its arrival, and no other request
    has changed. *)
Definition took (sock : Z) (l : list netreq) w w' : Prop :=
  exists ra, w' = after_taking (length l) ra w /\
    (forall k nr, l !! k = Some nr -> exists r rq, Fifo.items (req_pool w) !! k = Some r /\
       req_arr w !! r = Some rq /\ ra !! r = Some (made nr sock (gettimeofday w (ticks w + k)) rq)) /\
    forall r, r ∉ take (length l) (Fifo.items (req_pool w)) -> ra !! r = req_arr w !! r.

Lemma forward_req_ok r w :
  zero_lock (flying w) = false -> now (flying w) < cnt (flying w) ->
  Z.of_nat (length (Fifo.items (req_q w))) < Fifo.cap (req_q w) ->
  forward_req_to_hlr r w =
    Ret 0 (set_req_q (Fifo.Mk (Fifo.items (req_q w) ++ [r]) (Fifo.cap (req_q w)))
             (set_flying (set_now (flying w) (now (flying w) + 1)) w)).
Proof.
  intros Hz Hn Hr. unfold forward_req_to_hlr. erewrite bind_ret by exact eq_refl.
  unfold cl_grap, grap_waits, grap_update. rewrite Hz, (proj2 (Z.eqb_neq _ _)) by lia.
  do 2 (erewrite bind_ret by exact eq_refl).
  erewrite bind_ret by (apply q_enqueue_room; unfold Fifo.full; apply Z.eqb_neq; simpl; lia). done.
Qed.

Lemma accept_one nr sock n w :
  accepts (S n) w -> fits nr ->
  exists r w1 w2, make_request_from_netreq nr sock w = Ret r w1 /\ forward_req_to_hlr r w1 = Ret 0 w2 /\
    inbox w2 = inbox w ++ [Some (message_of sock nr)] /\ accepts n w2 /\ took sock [nr] w w2.
Proof.
  intros [Hz Hp Hpool Hroom Hnd Hobj] [Hok Hkl].
  destruct (Fifo.items (req_pool w)) as [|r l] eqn:Hl; [simpl in Hpool; lia|].
  apply Forall_cons in Hobj as [(Hr & rq & Hrq & Hlen) Hobj]. apply NoDup_cons in Hnd as [Hni Hnd].
  pose proof (no_key _ Hok). pose proof (no_keylen _ Hok). change KEY_LEN_MAX with 256 in Hlen.
  eexists r, _, _. split; [apply (make_request_ok nr sock w r l rq); try done; unfold KEY_LEN in *; lia|].
  split; [apply forward_req_ok; cbn; try done; lia|]. split_and!.
  - unfold inbox. cbn. rewrite fmap_app. f_equal.
    + apply list_fmap_ext. intros i r' Hr'. rewrite lookup_insert_ne; [done|].
      intros <-. apply Hni. apply elem_of_app. right. by apply list_elem_of_lookup_2 in Hr'.
    + cbn. rewrite lookup_insert_eq. unfold made, queued_message, message_of. cbn.
      rewrite take_app_length' by (rewrite length_take; unfold KEY_LEN in *; lia). done.
  - split; cbn; try done.
    + lia.
    + simpl in Hpool. lia.
    + rewrite length_app. simpl. lia.
    + rewrite app_assoc. rewrite <- Permutation_cons_append. by constructor.
    + eapply Forall_impl; [apply Forall_and; split; [exact Hobj|apply Forall_forall; intros x Hx; exact Hx]|].
      intros r' [[? (rq' & ? & ?)] Hin]. split; [done|]. exists rq'. split; [|done].
      rewrite lookup_insert_ne; [done|]. intros <-. apply Hni, elem_of_app. by left.
  - eexists. cbn [length]. split; [|split].
    + unfold after_taking. rewrite Hl, Nat.add_1_r. cbn [take drop]. exact eq_refl.
    + intros [|k] nr' Hk; [injection Hk as <- | done]. exists r, rq. rewrite Hl, Nat.add_0_r. split_and!; [done | done|].
      apply lookup_insert_eq.
    + intros r'. rewrite Hl. cbn [take]. rewrite list_elem_of_singleton. intros Hne. by apply lookup_insert_ne.
Qed.

(** ** Many messages, many handlers *)

(** The messages that belong to handler [i], in their order. *)
Definition routed (i : nat) (nrs : list netreq) : list netreq := filter (fun nr => hlr_idx nr = Z.of_nat i) nrs.

Definition all_accept (nrs : list netreq) (ws : handlers) : Prop :=
  forall i w, ws !! i = Some w -> accepts (length (routed i nrs)) w.

(** Every handler got its own messages, in order, and nothing else. *)
Definition delivered (sock : Z) (nrs : list netreq) (ws ws' : handlers) : Prop :=
  length ws' = length ws /\
  forall i w, ws !! i = Some w -> exists w', ws' !! i = Some w' /\
    inbox w' = inbox w ++ ((fun nr => Some (message_of sock nr)) <$> routed i nrs) /\
    took sock (routed i nrs) w w'.

Lemma took_nil sock w : took sock [] w w.
Proof.
  exists (req_arr w). split; [|done]. destruct w as [? ? [] [] ? ? [] ? ? ? ? ? ? ? ? ? ? ? ? ? ?].
  unfold after_taking, set_now. cbn. by rewrite app_nil_r, Z.add_0_r, Nat.add_0_r.
Qed.

Lemma took_cons sock nr l w w1 w2 :
  NoDup (Fifo.items (req_pool w)) -> took sock [nr] w w1 -> took sock l w1 w2 -> took sock (nr :: l) w w2.
Proof.
  intros Hnd (ra & -> & M1 & O1) (rb & -> & M2 & O2). exists rb. cbn [length] in *.
  destruct (M1 0%nat nr eq_refl) as (r & rq & Hr & Hrq & Hra). rewrite Nat.add_0_r in Hra.
  destruct (Fifo.items (req_pool w)) as [|r0 pool] eqn:Hp; [done|]. injection Hr as ->.
  apply NoDup_cons in Hnd as [Hni Hnd]. unfold after_taking in M2, O2. cbn in M2, O2. rewrite Hp in M2, O2. cbn in M2, O2.
  split; [|split].
  - unfold after_taking, set_now. cbn -[Z.of_nat Nat.add]. rewrite Hp. cbn [take drop]. rewrite <- app_assoc. cbn [app].
    replace (ticks w + 1 + length l)%nat with (ticks w + S (length l))%nat by lia.
    replace (now (flying w) + Z.of_nat 1 + Z.of_nat (length l)) with (now (flying w) + Z.of_nat (S (length l))) by lia. done.
  - intros [|k] nr' Hk.
    + injection Hk as <-. exists r, rq. rewrite Nat.add_0_r. split_and!; [done | done|]. rewrite O2; [done|].
      contradict Hni. by eapply subseteq_take.
    + destruct (M2 k nr' Hk) as (r' & rq' & H1 & H2 & H3). exists r', rq'. split; [done|].
      assert (r' <> r) as Hne by (intros ->; apply Hni; by eapply list_elem_of_lookup_2).
      rewrite O1 in H2 by by apply not_elem_of_cons; split; [|apply not_elem_of_nil].
      split; [done|]. by rewrite H3, <- Nat.add_assoc.
  - intros r'. cbn [take]. rewrite not_elem_of_cons. intros [Hne Hr']. rewrite O2 by done. apply O1.
    cbn [take]. by rewrite list_elem_of_singleton.
Qed.

Lemma accepts_le n m w : (m <= n)%nat -> accepts n w -> accepts m w.
Proof. intros Hle [? ? ? ? ? ?]. split; try done; lia. Qed.

Lemma routed_prefix i n nrs : (length (routed i (take n nrs)) <= length (routed i nrs))%nat.
Proof. rewrite <- (take_drop n nrs) at 2. unfold routed. rewrite filter_app, length_app. lia. Qed.

Lemma all_accept_take n nrs ws : all_accept nrs ws -> all_accept (take n nrs) ws.
Proof. intros Ha i w Hi. eapply accepts_le; [apply routed_prefix | by apply Ha]. Qed.

Lemma hlr_idx_range nr : 0 < num_dev -> 0 <= hlr_idx nr < num_dev.
Proof. intros. by apply Z.mod_pos_bound. Qed.

Lemma on_hlr_ok {A} (i : nat) (m : M (world I P) A) (ws : handlers) w a w' :
  ws !! i = Some w -> m w = Ret a w' -> on_hlr (Z.of_nat i) m ws = Ret a (<[i := w']> ws).
Proof. intros Hi Hm. unfold on_hlr. by rewrite Nat2Z.id, Hi, Hm. Qed.

Lemma delivered_cons sock nr nrs i w w1 ws ws' :
  hlr_idx nr = Z.of_nat i -> ws !! i = Some w -> NoDup (Fifo.items (req_pool w)) ->
  inbox w1 = inbox w ++ [Some (message_of sock nr)] -> took sock [nr] w w1 ->
  delivered sock nrs (<[i := w1]> ws) ws' -> delivered sock (nr :: nrs) ws ws'.
Proof.
  intros Hnr Hi Hnd Hbox Htk [Hlen Hd]. split; [by rewrite Hlen, length_insert|]. intros j wj Hj.
  unfold routed at 1 2. rewrite filter_cons. fold (routed j nrs). destruct (decide (i = j)) as [<-|Hne].
  - simplify_eq. rewrite decide_True by done.
    destruct (Hd i w1) as (w2 & H1 & H2 & H3); [apply list_lookup_insert_eq; by apply lookup_lt_Some in Hi|].
    exists w2. split; [done|]. split; [|by apply (took_cons sock nr _ w w1)].
    rewrite fmap_cons, H2, Hbox, <- app_assoc. done.
  - rewrite decide_False by (rewrite Hnr; lia). apply Hd. by rewrite list_lookup_insert_ne.
Qed.

Lemma forward_all_ok nrs sock ws :
  0 < num_dev <= 32 -> num_dev = Z.of_nat (length ws) -> Forall fits nrs -> all_accept nrs ws ->
  exists ws', forward_all nrs sock ws = Ret 0 ws' /\ delivered sock nrs ws ws'.
Proof.
  intros Hdev Hlen Hfits. revert ws Hlen. induction Hfits as [|nr nrs Hnr Hfits IH]; intros ws Hlen Hacc.
  - exists ws. split; [done|]. split; [done|]. intros i w Hi. exists w. split_and!; [done | by rewrite app_nil_r | apply took_nil].
  - pose proof (hlr_idx_range nr ltac:(lia)) as Hr. set (i := Z.to_nat (hlr_idx nr)).
    assert (hlr_idx nr = Z.of_nat i) as Hi by (unfold i; lia).
    destruct (lookup_lt_is_Some_2 ws i) as [w Hw]; [lia|].
    pose proof (Hacc i w Hw) as Ha. unfold routed in Ha. rewrite filter_cons_True in Ha by done.
    pose proof (ac_distinct _ _ Ha) as Hnd.
    destruct (accept_one nr sock _ w Ha Hnr) as (r & w1 & w2 & H1 & H2 & H3 & H4 & H5).
    destruct (IH (<[i := w2]> ws)) as (ws' & Hf & Hd).
    + by rewrite length_insert.
    + intros j wj Hj. destruct (decide (i = j)) as [<-|Hne].
      * rewrite list_lookup_insert_eq in Hj by (by apply lookup_lt_Some in Hw). by simplify_eq.
      * rewrite list_lookup_insert_ne in Hj by done. specialize (Hacc j wj Hj). unfold routed in Hacc.
        by rewrite filter_cons_False in Hacc by (rewrite Hi; lia).
    + exists ws'. split; [|apply (delivered_cons sock nr nrs i w w2); try done; by apply NoDup_app in Hnd as [? _]].

      cbn [forward_all]. unfold massert. rewrite (proj2 (Z.eqb_neq num_dev 0)) by lia.
      erewrite bind_ret by exact eq_refl. cbv zeta. rewrite s32_small by lia. rewrite Hi.
      rewrite (bind_ret _ _ _ _ _ (on_hlr_ok i _ ws w r w1 Hw H1)).
      erewrite bind_ret; [|apply (on_hlr_ok i _ _ w1 0 w2);
        [apply list_lookup_insert_eq; by apply lookup_lt_Some in Hw | exact H2]].
      rewrite list_insert_insert_eq. exact Hf.
Qed.

(** C23: routing. Each message of a batch is queued at the handler that the hash
    of its key selects, with the message's own content and socket, in the order of
    arrival. For each message of its own a handler gives one permit, one
    object of the pool, which holds the message and keeps the rest of what it
    held, and one reading of the clock; everything else of every handler, the other
    requests, the pools, the queues, the buffers, the device and the index, is
    as it was. *)
Theorem forward_all_routes (nrs : list netreq) (sock : Z) (ws : handlers) :
  0 < num_dev <= 32 -> num_dev = Z.of_nat (length ws) -> Forall fits nrs -> all_accept nrs ws ->
  exists ws', forward_all nrs sock ws = Ret 0 ws' /\ length ws' = length ws /\
    (forall nr, nr ∈ nrs -> exists i, (i < length ws)%nat /\ hlr_idx nr = Z.of_nat i) /\
    forall i w, ws !! i = Some w -> exists ra, let l := routed i nrs in
      ws' !! i = Some (after_taking (length l) ra w) /\
      inbox (after_taking (length l) ra w) = inbox w ++ ((fun nr => Some (message_of sock nr)) <$> l) /\
      (forall k nr, l !! k = Some nr -> exists r rq, Fifo.items (req_pool w) !! k = Some r /\
         req_arr w !! r = Some rq /\ ra !! r = Some (made nr sock (gettimeofday w (ticks w + k)) rq)) /\
      forall r, r ∉ take (length l) (Fifo.items (req_pool w)) -> ra !! r = req_arr w !! r.
Proof.
  intros Hdev Hlen Hfits Hacc. destruct (forward_all_ok nrs sock ws Hdev Hlen Hfits Hacc) as (ws' & Hf & Hl & Hd).
  exists ws'. split_and!; [done | done | |].
  - intros nr _. pose proof (hlr_idx_range nr ltac:(lia)). exists (Z.to_nat (hlr_idx nr)). lia.
  - intros i w Hi. destruct (Hd i w Hi) as (w' & H1 & H2 & ra & -> & H3 & H4). by exists ra.
Qed.

(** ** A master that has just been made *)

Lemma fresh_accepts (init : I) nr n w :
  fresh_handler init nr w -> Z.of_nat n <= QDEPTH -> accepts n w.
Proof.
  intros [_ _ _ _ Hfl (Hq & _ & _) Hp Hreq _ _] Hn. specialize (Hp REQ_POOL ltac:(by left)). cbn [qget] in Hp.
  unfold QDEPTH in *. split; rewrite ?Hfl, ?Hq, ?Hp; cbn [zero_lock now cnt Fifo.items Fifo.cap].
  - done.
  - lia.
  - rewrite addrs_length. unfold QSIZE. lia.
  - cbn [length]. unfold QSIZE. lia.
  - rewrite app_nil_r. apply NoDup_fmap_2; [intros x y; lia | apply NoDup_seq].
  - apply Forall_forall. intros p (k & -> & Hk)%list_elem_of_fmap. apply elem_of_seq in Hk.
    rewrite Hreq, calloc_array_lookup, decide_True by (unfold QSIZE in *; lia).
    split; [unfold NULL; lia|]. by eexists.
Qed.

Lemma fresh_inbox (init : I) nr w : fresh_handler init nr w -> inbox w = [].
Proof. intros [_ _ _ _ _ (Hq & _) _ _ _ _]. unfold inbox. by rewrite Hq. Qed.

Lemma routed_permutation n nrs :
  0 < num_dev ->
  concat ((fun i => routed i nrs) <$> seq 0 n) ≡ₚ filter (fun nr => hlr_idx nr < Z.of_nat n) nrs.
Proof.
  intros Hdev. induction n as [|n IH].
  - simpl. induction nrs as [|nr nrs IHn]; [done|].
    rewrite filter_cons_False by (pose proof (hlr_idx_range nr Hdev); lia). done.
  - rewrite seq_S, fmap_app, concat_app, IH. simpl. rewrite app_nil_r. clear IH.
    induction nrs as [|nr nrs IH]; [done|]. unfold routed in *. rewrite !filter_cons.
    repeat case_decide; try lia; rewrite <- IH; try done. by rewrite <- Permutation_middle.
Qed.

Lemma routed_all nrs :
  0 < num_dev -> concat ((fun i => routed i nrs) <$> seq 0 (Z.to_nat num_dev)) ≡ₚ nrs.
Proof.
  intros Hdev. rewrite routed_permutation by done. rewrite Z2Nat.id by lia.
  induction nrs as [|nr nrs IH]; [done|]. pose proof (hlr_idx_range nr Hdev).
  rewrite filter_cons_True by lia. by rewrite IH.
Qed.

(** Up to [QDEPTH] messages reach the handlers of a new master without a
    wait, each of them once: the inboxes together are the messages. *)
Theorem fresh_master_queues_all (init : I) (nrs : list netreq) (sock : Z) (ws : handlers) :
  0 < num_dev <= 32 -> num_dev = Z.of_nat (length ws) ->
  Forall (fun w => exists nr, fresh_handler init nr w) ws ->
  Forall fits nrs -> Z.of_nat (length nrs) <= QDEPTH ->
  exists ws', forward_all nrs sock ws = Ret 0 ws' /\
    concat (inbox <$> ws') ≡ₚ (fun nr => Some (message_of sock nr)) <$> nrs.
Proof.
  intros Hdev Hlen Hfr Hfits Hn.
  assert (all_accept nrs ws) as Hacc.
  { intros i w Hi. destruct (proj1 (Forall_lookup _ _) Hfr _ _ Hi) as [nr Hw]. eapply fresh_accepts; [exact Hw|].
    unfold routed. pose proof (length_filter (fun nr => hlr_idx nr = Z.of_nat i) nrs). lia. }
  destruct (forward_all_ok nrs sock ws Hdev Hlen Hfits Hacc) as (ws' & Hf & Hl & Hd). exists ws'. split; [done|].
  assert (inbox <$> ws' = (fun l => (fun nr => Some (message_of sock nr)) <$> l) <$> ((fun i => routed i nrs) <$> seq 0 (length ws)))
    as ->.
  { apply list_eq. intros i. rewrite !list_lookup_fmap. destruct (decide (i < length ws)%nat) as [Hi|Hi].
    - rewrite lookup_seq_lt by done. destruct (lookup_lt_is_Some_2 ws i Hi) as [w Hw].
      destruct (Hd i w Hw) as (w' & Hw' & Hbox & _). destruct (proj1 (Forall_lookup _ _) Hfr _ _ Hw) as [nr Hfw].
      rewrite Hw'. cbn [fmap option_fmap option_map]. by rewrite Hbox, (fresh_inbox _ _ _ Hfw).
    - rewrite (lookup_ge_None_2 ws') by lia. by rewrite lookup_seq_ge by lia. }
  replace (length ws) with (Z.to_nat num_dev) by lia.
  rewrite (eq_sym (concat_map _ _)).
  apply Permutation_map, routed_all. lia.
Qed.

(** ** A wake-up *)

(** C16: one wake-up for a client. Whatever pieces its messages arrived in, one
    call takes the first [k] of them, at least one and at most
    [MAX_NETREQ_BUF], queues exactly those, and leaves the others unread. *)
Theorem process_request_delivers (s : list sock_event) (sock : Z) (nrs : list netreq) (ws : handlers) :
  0 < num_dev <= 32 -> num_dev = Z.of_nat (length ws) -> Forall fits nrs -> nrs <> [] -> all_accept nrs ws ->
  sock_ok s -> no_eof s -> head s <> Some Again -> stream s = concat (encode_netreq <$> nrs) ->
  exists k rest ws', (0 < k <= length nrs)%nat /\ Z.of_nat k <= MAX_NETREQ_BUF /\
    process_request s sock ws = Ret (Processed 0 false rest) ws' /\
    delivered sock (take k nrs) ws ws' /\ stream rest = concat (encode_netreq <$> drop k nrs).
Proof.
  intros Hdev Hlen Hf Hne Hacc Hok Hn Hhd Hs.
  destruct (bulk_of_objects encode_netreq NETREQ_SIZE MAX_NETREQ_BUF fits (fun nr H => encode_netreq_length nr (proj1 H))
              eq_refl eq_refl s nrs Hok Hn Hhd Hf Hne Hs) as (k & rest & Hk & Hmax & Hr & Hrest).
  destruct (forward_all_ok (take k nrs) sock ws Hdev Hlen) as (ws' & Hw & Hd);
    [by apply Forall_take | by apply all_accept_take|].
  exists k, rest, ws'. split_and!; try done; try lia. unfold process_request.
  rewrite Hr. erewrite bind_ret by exact eq_refl. cbn [rd_ret rd_buf rd_rest].
  assert (0 < Z.of_nat k * NETREQ_SIZE) by (unfold NETREQ_SIZE, KEY_LEN; lia).
  rewrite !(proj2 (Z.eqb_neq _ _)) by lia. cbv zeta. rewrite Z.div_mul, Nat2Z.id by done.
  replace k with (length (take k nrs)) at 1 by (rewrite length_take; lia).
  rewrite decode_netreqs_ok by (apply Forall_take; eapply Forall_impl; [exact Hf | by intros ? [? _]]). erewrite bind_ret by exact eq_refl.
  by rewrite (bind_ret _ _ _ _ _ Hw).
Qed.

Lemma master_turn_app evs1 evs2 ws ws1 :
  master_turn evs1 ws = Ret true ws1 -> master_turn (evs1 ++ evs2) ws = master_turn evs2 ws1.
Proof.
  revert ws. induction evs1 as [|e evs1 IH]; intros ws; [by intros [= ->]|]. cbn [app master_turn].
  destruct e as [fd|fd s].
  - destruct (fd <? 0); [done | apply IH].
  - unfold bind. destruct (process_request s fd ws) as [p w'|]; [|done].
    destruct (pr_rc p =? 0); simpl; [apply IH | done].
Qed.

(** C40: a client that disconnects ends the master. [__process_request] answers 1,
    whatever it had read of the client, the thread leaves both loops, and no later
    event, of this or any other client, is handled. *)
Theorem disconnect_ends_master (evs1 evs2 : list epoll_event) (fd : Z) (s : list sock_event)
    (turns : list (option (list epoll_event))) (r : sock_read) (ws ws1 : handlers) :
  master_turn evs1 ws = Ret true ws1 -> read_sock_bulk s MAX_NETREQ_BUF NETREQ_SIZE = Some r -> rd_ret r = 0 ->
  process_request s fd ws1 = Ret (Processed 1 true (rd_rest r)) ws1 /\
  master_turn (evs1 ++ Readable fd s :: evs2) ws = Ret false ws1 /\
  master_thread (Some (evs1 ++ Readable fd s :: evs2) :: turns) ws = Ret 1%nat ws1.
Proof.
  intros Hevs Hr H0.
  assert (process_request s fd ws1 = Ret (Processed 1 true (rd_rest r)) ws1) as Hp.
  { unfold process_request. rewrite Hr. erewrite bind_ret by exact eq_refl. by rewrite H0. }
  assert (master_turn (evs1 ++ Readable fd s :: evs2) ws = Ret false ws1) as Ht.
  { rewrite (master_turn_app _ _ _ _ Hevs). cbn [master_turn]. by rewrite (bind_ret _ _ _ _ _ Hp). }
  split_and!; [done | done |]. cbn [master_thread]. by rewrite (bind_ret _ _ _ _ _ Ht).
Qed.

(** A handler without permits holds up the master: the message is taken from
    the pool, and [cl_grap] waits, whatever other handlers could take. *)
Theorem full_handler_blocks_master (nr : netreq) (nrs : list netreq) (sock : Z) (ws : handlers) (i : nat) w :
  0 < num_dev <= 32 -> hlr_idx nr = Z.of_nat i -> ws !! i = Some w -> fits nr ->
  zero_lock (flying w) = false -> now (flying w) = cnt (flying w) ->
  (exists r l rq, Fifo.items (req_pool w) = r :: l /\ r <> NULL /\ req_arr w !! r = Some rq /\
     length (key (req_key rq)) = Z.to_nat KEY_LEN_MAX) ->
  forward_all (nr :: nrs) sock ws = Stop SBlock.
Proof.
  intros Hdev Hi Hw [Hok Hkl] Hz Hn (r & l & rq & Hl & Hr & Hrq & Hlen).
  pose proof (no_key _ Hok). pose proof (no_keylen _ Hok). change KEY_LEN_MAX with 256 in Hlen.
  pose proof (make_request_ok nr sock w r l rq Hl Hrq Hr ltac:(unfold KEY_LEN in *; lia)
                ltac:(unfold KEY_LEN in *; lia)) as Hm.
  cbn [forward_all]. unfold massert. rewrite (proj2 (Z.eqb_neq num_dev 0)) by lia.
  erewrite bind_ret by exact eq_refl. cbv zeta.
  pose proof (hlr_idx_range nr ltac:(lia)). rewrite s32_small by lia. rewrite Hi.
  rewrite (bind_ret _ _ _ _ _ (on_hlr_ok i _ ws w _ _ Hw Hm)).
  apply bind_stop. unfold on_hlr. rewrite Nat2Z.id, list_lookup_insert_eq by (by apply lookup_lt_Some in Hw).
  unfold forward_req_to_hlr. erewrite bind_ret by exact eq_refl.
  unfold cl_grap, grap_waits. cbn [flying set_req_arr set_ticks set_req_pool]. by rewrite Hz, Hn, Z.eqb_refl.
Qed.
End Master.

(** ** Concrete runs *)

(** Two handlers; the hash selects by the first byte of the key. *)
Definition first_byte_hash (k : list Z) (len : Z) : Z * Z := (Z.shiftl (default 0 (head k)) 32, 0).

Definition small_handler : world unit unit :=
  set_req_arr {[ 1 := zero_request; 2 := zero_request ]} (set_req_pool (Fifo.Mk [1; 2] QSIZE) (blank_world tt)).

Definition sample_netreq (b seq : Z) : netreq := Netreq REQ_TYPE_SET 32 seq (replicate 32 b) 1024.
Definition sample_batch : list netreq := [sample_netreq 1 7; sample_netreq 0 8; sample_netreq 3 9].

Lemma sample_batch_fits : Forall fits sample_batch.
Proof. repeat constructor; simpl; try lia; try done. Qed.

Lemma small_handler_accepts n : (n <= 2)%nat -> accepts n small_handler.
Proof.
  intros Hn. split; try done.
  - split; [done|]. change (cnt (flying small_handler)) with 256. change (now (flying small_handler)) with 0. lia.
  - change (length (Fifo.items (req_q small_handler)) + n)%nat with n.
    change (Fifo.cap (req_q small_handler)) with 1024. lia.
  - change (NoDup [1; 2]). repeat constructor; set_solver.
  - repeat constructor; try done; by eexists.
Qed.

Lemma sample_all_accept : all_accept first_byte_hash 2 sample_batch [small_handler; small_handler].
Proof.
  intros i w Hi. destruct i as [|[|i]]; [| |done]; injection Hi as <-; apply small_handler_accepts;
    apply Nat.leb_le; by vm_compute.
Qed.

Lemma netreqs_roundtrip_witness :
  Forall netreq_ok sample_batch /\ decode_netreqs 3 (concat (encode_netreq <$> sample_batch)) = Some sample_batch.
Proof.
  assert (Forall netreq_ok sample_batch) as H by (eapply Forall_impl; [exact sample_batch_fits|]; by intros ? [? _]).
  split; [exact H | exact (proj1 (netreqs_roundtrip sample_batch []) H)].
Defined.

Lemma forward_all_routes_witness :
  exists ws', forward_all first_byte_hash 2 sample_batch 5 [small_handler; small_handler] = Ret 0 ws' /\
    exists w0 w1, ws' !! 0%nat = Some w0 /\ ws' !! 1%nat = Some w1 /\
      inbox w0 = [Some (message_of 5 (sample_netreq 0 8))] /\
      inbox w1 = [Some (message_of 5 (sample_netreq 1 7)); Some (message_of 5 (sample_netreq 3 9))].
Proof.
  destruct (forward_all_routes first_byte_hash 2 sample_batch 5 [small_handler; small_handler])
    as (ws' & H1 & _ & _ & H2); [lia | reflexivity | exact sample_batch_fits | exact sample_all_accept|].
  destruct (H2 0%nat small_handler eq_refl) as (r0 & H3 & H4 & _).
  destruct (H2 1%nat small_handler eq_refl) as (r1 & H5 & H6 & _).
  exists ws'. split; [exact H1|]. eexists _, _. split; [exact H3|]. split; [exact H5|].
  split; [rewrite H4; by vm_compute | rewrite H6; by vm_compute].
Defined.

(** The batch in three pieces, with nothing to read in between. *)
Definition sample_pieces : list sock_event :=
  let l := concat (encode_netreq <$> sample_batch) in
  [Bytes (take 30 l); Again; Bytes (take 54 (drop 30 l)); Bytes (drop 84 l)].

Lemma process_request_delivers_witness :
  exists k rest ws', (0 < k <= 3)%nat /\
    process_request first_byte_hash 2 sample_pieces 5 [small_handler; small_handler] =
      Ret (Processed 0 false rest) ws' /\
    stream rest = concat (encode_netreq <$> drop k sample_batch).
Proof.
  destruct (process_request_delivers first_byte_hash 2 sample_pieces 5 sample_batch [small_handler; small_handler])
    as (k & rest & ws' & H1 & _ & H2 & _ & H3);
    [lia | reflexivity | exact sample_batch_fits | discriminate | exact sample_all_accept
    | repeat constructor; discriminate | repeat constructor; discriminate | discriminate | by vm_compute |].
  exists k, rest, ws'. split; [exact H1|]. split; [exact H2 | exact H3].
Defined.

(** A client sends a message and one more byte and closes. *)
Lemma disconnect_ends_master_witness :
  let s := [Bytes (encode_netreq (sample_netreq 0 1) ++ [1]); Eof] in
  master_thread first_byte_hash 2 [Some [Accept 6; Readable 5 s; Readable 6 sample_pieces]; Some [Accept 7]]
    [small_handler; small_handler] = Ret 1%nat [small_handler; small_handler].
Proof.
  intros s.
  destruct (disconnect_ends_master first_byte_hash 2 [Accept 6] [Readable 6 sample_pieces] 5 s [Some [Accept 7]]
              (SockRead 0 (encode_netreq (sample_netreq 0 1) ++ [1]) [Eof])
              [small_handler; small_handler] [small_handler; small_handler]) as (_ & _ & H);
    [reflexivity | by vm_compute | reflexivity | exact H].
Defined.

Lemma fresh_master_queues_all_witness :
  exists (ws ws' : list (world unit unit)), length ws = 2%nat /\
    forward_all first_byte_hash 2 sample_batch 5 ws = Ret 0 ws' /\
    concat (inbox <$> ws') ≡ₚ (fun nr => Some (message_of 5 nr)) <$> sample_batch.
Proof.
  destruct (handler_init_fresh (P:=unit) tt [47; 100] 3 8192 512 (blank_world tt)) as (w & _ & Hw & _);
    [simpl; lia | lia | by vm_compute | by split|].
  destruct (fresh_master_queues_all first_byte_hash 2 tt sample_batch 5 [w; w]) as (ws' & H1 & H2).
  - lia.
  - reflexivity.
  - constructor; [|constructor; [|constructor]]; exists (init_nr 8192 512); exact Hw.
  - exact sample_batch_fits.
  - change (Z.of_nat (length sample_batch)) with 3. unfold QDEPTH. lia.
  - exists [w; w], ws'. split; [reflexivity|]. split; [exact H1 | exact H2].
Defined.

Definition full_handler : world unit unit := set_flying (ClLock QDEPTH QDEPTH false) small_handler.

Lemma full_handler_blocks_master_witness :
  forward_all first_byte_hash 2 sample_batch 5 [small_handler; full_handler] = Stop SBlock.
Proof.
  apply (full_handler_blocks_master first_byte_hash 2 (sample_netreq 1 7) [sample_netreq 0 8; sample_netreq 3 9] 5
           [small_handler; full_handler] 1 full_handler);
    [lia | by vm_compute | reflexivity | by pose proof (Forall_inv sample_batch_fits) | reflexivity | reflexivity|].
  by exists 1, [2], zero_request.
Defined.
