(* ===== verification/Client.v ===== *)
(** * The load client ([src/client.cc], the semaphore of [src/util.c])

    The main thread takes a permit per request, fills batches and sends them; the
    thread [ack_poller] gives a permit back for each acknowledgement. The two
    threads share only the semaphore and the socket, so that their interleaving is
    a sequence of steps of the one and of the other. *)

From Stdlib Require Import ZArith Lia.
From stdpp Require Import prelude gmap.
From S2P Require Import Prelude Config Bytes Util Keygen World Request Net Master.

#[local] Open Scope Z_scope.

Definition CLIENT_QDEPTH : Z := 1024.
Definition NR_BATCH : nat := 128.

(** ** Acknowledgements *)

(** [sizeof(struct netack)], packed. *)
Definition NETACK_SIZE : Z := 4 + 1 + 8.

(** A signed 64-bit integer from its representation. *)
Definition s64 (x : Z) : Z := (x + 2 ^ 63) mod 2 ^ 64 - 2 ^ 63.

Definition encode_netack (na : netack) : list Z :=
  le_bytes 4 (ack_seq_num na) ++ [req_type_code (ack_type na)] ++ le_bytes 8 (u64 (elapsed_time na)).

Definition decode_netack (l : list Z) : option netack :=
  match drop 4 l with
  | t :: l' =>
      match req_type_of t with
      | Some ty => Some (Netack (le_value (take 4 l)) ty (s64 (le_value (take 8 l'))))
      | None => None
      end
  | [] => None
  end.

Fixpoint decode_netacks (n : nat) (l : list Z) : option (list netack) :=
  match n with
  | O => Some []
  | S n' =>
      na ← decode_netack (take (Z.to_nat NETACK_SIZE) l);
      nas ← decode_netacks n' (drop (Z.to_nat NETACK_SIZE) l);
      Some (na :: nas)
  end.

(** ** The client *)

(** Where the main thread is: in [load_kvpairs] at the test of the outer loop, at
    the test of the inner loop, before [req_in] with the next key, before
    [send_request_bulk], in [wait_until_finish]; in [run_bench] at the test of the
    loop, before [req_in], in [wait_until_finish]; or past either function. *)
Inductive client_pc : Type :=
| Outer
| Inner (j : nat)
| ReqIn (j : nat) (next_key : list Z)
| SendBulk (j : nat)
| LoadWait
| QueryTop
| QueryIn
| QueryWait
| Done.

Record client : Type := Client {
  kg : keygen;
  sem : Z;
  seq_num_global : Z;
  nr_arr : list netreq;
  cdf_table : tmap Z;
  idx : Z;                   (* the loop counter i *)
  cpc : client_pc;
  sent : list (list netreq); (* one entry per write *)
  acked : nat                (* acknowledgements that were processed *)
}.

Definition at_pc (p : client_pc) (s : client) : client :=
  Client (kg s) (sem s) (seq_num_global s) (nr_arr s) (cdf_table s) (idx s) p (sent s) (acked s).
Definition with_kg (k : keygen) (s : client) : client :=
  Client k (sem s) (seq_num_global s) (nr_arr s) (cdf_table s) (idx s) (cpc s) (sent s) (acked s).
Definition with_table (t : tmap Z) (s : client) : client :=
  Client (kg s) (sem s) (seq_num_global s) (nr_arr s) t (idx s) (cpc s) (sent s) (acked s).
Definition with_sent (b : list netreq) (s : client) : client :=
  Client (kg s) (sem s) (seq_num_global s) (nr_arr s) (cdf_table s) (idx s) (cpc s) (sent s ++ [b]) (acked s).

(** [req_in], when it does not wait; then the thread fills the next request, with
    a fresh sequence number. *)
Definition permit_taken (arr : list netreq) (s : client) : client :=
  Client (kg s) (sem s - 1) (u32 (seq_num_global s + 1)) arr (cdf_table s) (idx s + 1) (cpc s) (sent s) (acked s).

(** [req_out]. *)
Definition permit_back (s : client) : client :=
  Client (kg s) (sem s + 1) (seq_num_global s) (nr_arr s) (cdf_table s) (idx s) (cpc s) (sent s) (S (acked s)).

(** The members that stay the same in all requests of a phase; then the key and
    the sequence number. *)
Definition template (t : req_type_t) : netreq := Netreq t KEY_LEN 0 (replicate (Z.to_nat KEY_LEN) 0) VALUE_LEN.
Definition fill_netreq (nr : netreq) (key : list Z) (seq : Z) : netreq :=
  Netreq (nr_type nr) (nr_keylen nr) seq key (nr_kv_size nr).

Section Client.
Variable rand : nat -> Z.
Variable NR_KEY NR_QUERY : Z.

(** [bench_init], with the keys that [keygen_init] makes, at the start of
    [load_kvpairs]. *)
Definition bench_init : option client :=
  match keygen_init rand NR_KEY KEY_LEN with
  | Some k => Some (Client k CLIENT_QDEPTH 0 (replicate NR_BATCH (template REQ_TYPE_SET)) zero_table 0 Outer [] 0)
  | None => None
  end.

(** The start of [run_bench]. *)
Definition run_bench (dist : key_dist_t) (query_ratio hotset_ratio : Z) (s : client) : option client :=
  match set_key_dist rand dist query_ratio hotset_ratio (kg s) with
  | Ret _ k => Some (Client k (sem s) (seq_num_global s) (nr_arr s) (cdf_table s) 0 QueryTop (sent s) (acked s))
  | Stop _ => None
  end.

(** One step of the main thread. [Stop SBlock]: it waits. *)
Definition main_step : M client unit := fun s =>
  match cpc s with
  | Outer =>
      if idx s <? NR_KEY then
        if NR_KEY / 100 =? 0 then Stop SDivZero (* the test for the progress line *)
        else Ret tt (at_pc (Inner 0) s)
      else Ret tt (at_pc LoadWait s)
  | Inner j =>
      if (j <? NR_BATCH)%nat then
        match get_next_key_for_load (kg s) with
        | Ret (Some k) kg' => Ret tt (at_pc (ReqIn j k) (with_kg kg' s))
        | Ret None kg' => Ret tt (at_pc (SendBulk j) (with_kg kg' s))
        | Stop e => Stop e
        end
      else Ret tt (at_pc (SendBulk j) s)
  | ReqIn j k =>
      if sem s =? 0 then Stop SBlock
      else
        match slice k 0 KEY_LEN, nr_arr s !! j with
        | Some b, Some nr =>
            Ret tt (at_pc (Inner (S j))
                      (permit_taken (<[j := fill_netreq nr b (u32 (seq_num_global s + 1))]> (nr_arr s)) s))
        | _, _ => Stop SBounds
        end
  | SendBulk j => Ret tt (at_pc Outer (with_sent (take j (nr_arr s)) s))
  | LoadWait => if sem s =? CLIENT_QDEPTH then Ret tt (at_pc Done s) else Stop SBlock
  | QueryTop =>
      if idx s <? NR_QUERY then
        if NR_QUERY / 100 =? 0 then Stop SDivZero else Ret tt (at_pc QueryIn s)
      else Ret tt (at_pc QueryWait s)
  | QueryIn =>
      if sem s =? 0 then Stop SBlock
      else
        match get_next_key rand (kg s) with
        | Ret (Some k) kg' =>
            match slice k 0 KEY_LEN with
            | Some b =>
                let nr := fill_netreq (template REQ_TYPE_GET) b (u32 (seq_num_global s + 1)) in
                Ret tt (at_pc QueryTop (with_sent [nr] (permit_taken (nr_arr s) (with_kg kg' s))))
            | None => Stop SBounds
            end
        | Ret None _ => Stop SNull
        | Stop e => Stop e
        end
  | QueryWait =>
      if sem s =? CLIENT_QDEPTH then
        Ret tt (at_pc Done (with_table (snd (print_cdf (cdf_table s) NR_QUERY)) s))
      else Stop SBlock
  | Done => Stop SBlock
  end.

(** The body of the loop of [ack_poller] over the acknowledgements of one read. *)
Definition poll_ack (na : netack) : M client unit :=
  (if decide (ack_type na = REQ_TYPE_GET) then
     let* t := mreads cdf_table in
     let* t' := mopt SBounds (collect_latency t (elapsed_time na)) in
     mmod (with_table t')
   else ret tt) ;;;
  mmod permit_back.

Fixpoint poll_acks (nas : list netack) : M client unit :=
  match nas with
  | [] => ret tt
  | na :: nas' => poll_ack na ;;; poll_acks nas'
  end.

(** One turn of [ack_poller]: whether it goes on, and what is left unread. *)
Definition ack_poller (stopflag : bool) (s : list sock_event) : M client (bool * list sock_event) :=
  if stopflag then ret (false, s)
  else
    let* r := mopt SBlock (read_sock_bulk s 128 NETACK_SIZE) in
    if rd_ret r =? -1 then ret (true, rd_rest r)
    else if rd_ret r =? 0 then ret (false, rd_rest r)
    else
      let* nas := mopt SBounds (decode_netacks (Z.to_nat (rd_ret r / NETACK_SIZE)) (rd_buf r)) in
      poll_acks nas ;;;
      ret (true, rd_rest r).

(** ** Runs *)

Inductive client_action : Type :=
| MainThread
| AckArrives (na : netack).

(** The server answers as many requests as it received, each once, and with a
    latency that the table has room for. *)
Definition answers_request (na : netack) (s : client) : Prop :=
  (acked s < length (concat (sent s)))%nat /\ (exists nr, nr ∈ concat (sent s) /\ ack_type na = nr_type nr) /\
  -10 < elapsed_time na < 10 * CDF_TABLE_MAX.

Inductive client_run : client -> list client_action -> client -> Prop :=
| client_run_nil s : client_run s [] s
| client_run_main s s1 l s' :
    main_step s = Ret tt s1 -> client_run s1 l s' -> client_run s (MainThread :: l) s'
| client_run_ack s s1 na l s' :
    answers_request na s -> poll_ack na s = Ret tt s1 -> client_run s1 l s' ->
    client_run s (AckArrives na :: l) s'.

(** ** The load phase *)

Section Load.
Variable pool : list (list Z).

(** The request for the key number [n] of the pool. *)
Definition load_req (n : nat) (k : list Z) : netreq :=
  fill_netreq (template REQ_TYPE_SET) k (u32 (Z.of_nat n + 1)).

Definition load_all : list netreq := imap load_req pool.

(** How many requests of the array are filled and not sent. *)
Definition filled (p : client_pc) : nat :=
  match p with Inner j | ReqIn j _ | SendBulk j => j | _ => 0%nat end.

Definition made (s : client) : list netreq := concat (sent s) ++ take (filled (cpc s)) (nr_arr s).

Definition pc_ok (s : client) : Prop :=
  match cpc s with
  | Outer => load_cnt (kg s) = idx s
  | Inner j => load_cnt (kg s) = idx s /\ (j <= NR_BATCH)%nat /\ (j = 0%nat -> idx s < NR_KEY)
  | ReqIn j k =>
      load_cnt (kg s) = idx s + 1 /\ (j < NR_BATCH)%nat /\ idx s < NR_KEY /\ pool !! Z.to_nat (idx s) = Some k
  | SendBulk j => load_cnt (kg s) = idx s /\ (j <= NR_BATCH)%nat
  | LoadWait => idx s = NR_KEY
  | Done => idx s = NR_KEY /\ sem s = CLIENT_QDEPTH
  | _ => False
  end.

Record load_inv (s : client) : Prop := LoadInv {
  li_kg : kg_ok (kg s);
  li_nr : Keygen.nr_key (kg s) = NR_KEY;
  li_pool : key_pool (kg s) = pool;
  li_idx : 0 <= idx s <= NR_KEY;
  li_arr : length (nr_arr s) = NR_BATCH;
  li_template : Forall (fun nr => exists k q, nr = fill_netreq (template REQ_TYPE_SET) k q) (nr_arr s);
  li_made : made s = take (Z.to_nat (idx s)) load_all;
  li_seq : seq_num_global s = u32 (idx s);
  li_sem : 0 <= sem s /\ sem s + idx s = CLIENT_QDEPTH + Z.of_nat (acked s);
  li_acked : (acked s <= length (concat (sent s)))%nat;
  li_batch : Forall (fun b => (length b <= NR_BATCH)%nat) (sent s);
  li_pc : pc_ok s
}.

Hypothesis pool_keys : Forall (is_key KEY_LEN) pool.

(** Bounds the length of a run. *)
Definition load_measure (s : client) : Z :=
  5 * (NR_KEY - idx s) + (NR_KEY - Z.of_nat (acked s)) +
  match cpc s with
  | Outer => 2 | Inner O => 1 | Inner (S _) => 4 | ReqIn _ _ => 0 | SendBulk _ => 3 | LoadWait => 1 | _ => 0
  end.

Lemma load_all_length : length load_all = length pool.
Proof. apply length_imap. Qed.

Lemma load_inv_made_length s :
  load_inv s -> (length (concat (sent s)) + filled (cpc s))%nat = Z.to_nat (idx s).
Proof.
  intros [Hk Hn Hp Hi Ha _ Hm _ _ _ _ Hpc]. apply (f_equal length) in Hm. unfold made in Hm.
  rewrite length_app, !length_take, load_all_length, Ha in Hm. pose proof (ko_pool _ Hk). rewrite Hp, Hn in *.
  assert (filled (cpc s) <= NR_BATCH)%nat; [|lia].
  unfold pc_ok in Hpc. destruct (cpc s); simpl; lia.
Qed.

Lemma pool_length s : load_inv s -> Z.of_nat (length pool) = NR_KEY.
Proof. intros H. rewrite <- (li_pool _ H), <- (li_nr _ H). apply ko_pool, H. Qed.

Lemma pool_key n k : pool !! n = Some k -> slice k 0 KEY_LEN = Some k.
Proof.
  intros Hk. destruct (proj1 (Forall_lookup _ _) pool_keys _ _ Hk) as [Hl _].
  rewrite slice_eq by (unfold KEY_LEN in *; lia). by rewrite drop_0, take_ge by (unfold KEY_LEN in *; lia).
Qed.

(** A step that only moves the main thread. *)
Lemma load_inv_move p s :
  load_inv s -> filled p = filled (cpc s) -> pc_ok (at_pc p s) -> load_inv (at_pc p s).
Proof.
  intros [? ? ? ? ? ? Hm ? ? ? ? _] Hf Hpc. split; try done. unfold made in *. simpl. by rewrite Hf.
Qed.

Lemma load_step_inner s j s1 :
  load_inv s -> cpc s = Inner j -> main_step s = Ret tt s1 -> load_inv s1 /\ load_measure s1 < load_measure s.
Proof.
  intros Hinv Hpc Hs. pose proof (li_pc _ Hinv) as Hp. unfold pc_ok in Hp. rewrite Hpc in Hp.
  destruct Hp as (Hl & Hj & H0). unfold main_step in Hs. rewrite Hpc in Hs.
  destruct (j <? NR_BATCH)%nat eqn:Hlt.
  - apply Nat.ltb_lt in Hlt. destruct (decide (idx s < NR_KEY)) as [Hi|Hi].
    + destruct (next_for_load_key (kg s)) as (k & Hk & Hn); [apply Hinv | rewrite (li_nr _ Hinv); lia|].
      rewrite Hn in Hs. injection Hs as <-. rewrite (li_pool _ Hinv), Hl in Hk. split.
      * destruct Hinv as [H1 H2 H3 H4 H5 H6 H7 H8 H9 H10 H11 _]. split; try done.
        -- apply load_counted_ok; [done | simpl in *; lia].
        -- unfold made in *. rewrite Hpc in H7. done.
        -- unfold pc_ok. simpl. split_and!; try done; lia.
      * unfold load_measure. simpl. rewrite Hpc. destruct j; lia.
    + rewrite next_for_load_end in Hs by (rewrite (li_nr _ Hinv); lia). injection Hs as <-.
      replace (with_kg (kg s) s) with s by by destruct s. split.
      * apply load_inv_move; [done | by rewrite Hpc | unfold pc_ok; simpl; lia].
      * unfold load_measure. simpl. rewrite Hpc. destruct j; lia.
  - injection Hs as <-. apply Nat.ltb_ge in Hlt. split.
    + apply load_inv_move; [done | by rewrite Hpc | unfold pc_ok; simpl; lia].
    + unfold load_measure. simpl. rewrite Hpc. unfold NR_BATCH in *. destruct j; lia.
Qed.

Lemma load_step_req_in s j k s1 :
  load_inv s -> cpc s = ReqIn j k -> main_step s = Ret tt s1 -> load_inv s1 /\ load_measure s1 < load_measure s.
Proof.
  intros Hinv Hpc Hs. pose proof (li_pc _ Hinv) as Hp. unfold pc_ok in Hp. rewrite Hpc in Hp.
  destruct Hp as (Hl & Hj & Hi & Hk). unfold main_step in Hs. rewrite Hpc, (pool_key _ _ Hk) in Hs.
  destruct (sem s =? 0) eqn:H0; [done|]. apply Z.eqb_neq in H0.
  destruct (nr_arr s !! j) as [nr|] eqn:Hnr; [|done]. injection Hs as <-.
  pose proof (load_inv_made_length _ Hinv) as Hlen. rewrite Hpc in Hlen. cbn [filled] in Hlen.
  destruct (proj1 (Forall_lookup _ _) (li_template _ Hinv) _ _ Hnr) as (k0 & q0 & ->).
  pose proof (pool_length _ Hinv) as HNR. pose proof (lookup_lt_Some _ _ _ Hnr) as Hlt.
  destruct Hinv as [H1 H2 H3 H4 H5 H6 H7 H8 H9 H10 H11 _].
  assert (u32 (seq_num_global s + 1) = u32 (idx s + 1)) as Hseq.
  { rewrite H8. unfold wrap. by rewrite Zplus_mod_idemp_l. }
  split.
  - split; cbn; try done; try lia.
    + by rewrite length_insert.
    + apply Forall_insert; [done|]. by eexists _, _.
    + unfold made in *. cbn. rewrite Hpc in H7. cbn [filled] in H7.
      rewrite (take_S_r _ _ (load_req (Z.to_nat (idx s)) k)).
      2: { rewrite list_lookup_insert_eq by done. rewrite Hseq. unfold load_req.
           by rewrite Z2Nat.id by lia. }
      rewrite take_insert_ge by lia. rewrite app_assoc, H7.
      replace (Z.to_nat (idx s + 1)) with (S (Z.to_nat (idx s))) by lia.
      rewrite (take_S_r load_all _ (load_req (Z.to_nat (idx s)) k)); [done|].
      unfold load_all. rewrite list_lookup_imap, Hk. done.
  - unfold load_measure. cbn. rewrite Hpc. destruct j; lia.
Qed.

Lemma load_step_send s j s1 :
  load_inv s -> cpc s = SendBulk j -> main_step s = Ret tt s1 -> load_inv s1 /\ load_measure s1 < load_measure s.
Proof.
  intros Hinv Hpc Hs. pose proof (li_pc _ Hinv) as Hp. unfold pc_ok in Hp. rewrite Hpc in Hp.
  destruct Hp as (Hl & Hj). unfold main_step in Hs. rewrite Hpc in Hs. injection Hs as <-.
  destruct Hinv as [H1 H2 H3 H4 H5 H6 H7 H8 H9 H10 H11 _]. split.
  - split; cbn; try done.
    + unfold made in *. cbn. rewrite Hpc in H7. cbn [filled] in H7.
      by rewrite concat_app, app_nil_r; cbn; rewrite app_nil_r.
    + rewrite concat_app, length_app. lia.
    + apply Forall_app. split; [done|]. constructor; [|done]. rewrite length_take. lia.
  - unfold load_measure. cbn. rewrite Hpc. lia.
Qed.

Lemma load_step s s1 :
  load_inv s -> main_step s = Ret tt s1 -> load_inv s1 /\ load_measure s1 < load_measure s.
Proof.
  intros Hinv Hs. pose proof (li_pc _ Hinv) as Hp. unfold pc_ok in Hp. destruct (cpc s) as [|j|j k|j| | | | |] eqn:Hpc;
    [| by eapply load_step_inner | by eapply load_step_req_in | by eapply load_step_send | | done | done | done |];
    unfold main_step in Hs; rewrite Hpc in Hs; [| |done].
  - pose proof (li_idx _ Hinv). unfold load_measure.
    destruct (idx s <? NR_KEY) eqn:Hlt; [destruct (NR_KEY / 100 =? 0); [done|]|]; injection Hs as <-;
      reflect_bools; simpl; rewrite Hpc; (split; [apply load_inv_move; [done | by rewrite Hpc | unfold pc_ok; simpl; unfold NR_BATCH; lia] | lia]).
  - destruct (sem s =? CLIENT_QDEPTH) eqn:Hq; [|done]. injection Hs as <-. reflect_bools.
    split; [apply load_inv_move; [done | by rewrite Hpc | done]|]. unfold load_measure. simpl. rewrite Hpc. lia.
Qed.

Lemma poll_ack_ok na s :
  load_inv s -> answers_request na s -> poll_ack na s = Ret tt (permit_back s).
Proof.
  intros Hinv (Hlt & (nr & Hin & Hty) & _). unfold poll_ack. rewrite decide_False; [done|].
  assert (nr ∈ made s) as Hm by (unfold made; apply elem_of_app; by left).
  rewrite (li_made _ Hinv) in Hm. apply list_elem_of_lookup in Hm as [i Hi].
  apply lookup_take_Some in Hi as [Hi _]. unfold load_all in Hi. rewrite list_lookup_imap in Hi.
  destruct (pool !! i) as [k|]; [|done]. injection Hi as <-. by rewrite Hty.
Qed.

Lemma load_step_ack na s s1 :
  load_inv s -> answers_request na s -> poll_ack na s = Ret tt s1 ->
  load_inv s1 /\ load_measure s1 < load_measure s.
Proof.
  intros Hinv Ha Hs. rewrite poll_ack_ok in Hs by done. injection Hs as <-. destruct Ha as [Ha _].
  destruct Hinv as [H1 H2 H3 H4 H5 H6 H7 H8 H9 H10 H11 Hp]. split.
  - split; cbn; try done; try lia. unfold pc_ok in *. cbn. destruct (cpc s) eqn:E; try done.
    pose proof (load_inv_made_length s ltac:(by split; try done; unfold pc_ok; rewrite E)) as Hm.
    rewrite E in Hm. cbn in Hm. lia.
  - unfold load_measure. cbn. lia.
Qed.

Lemma load_run_ok s l s' :
  load_inv s -> client_run s l s' ->
  load_inv s' /\ Z.of_nat (length l) + load_measure s' <= load_measure s.
Proof.
  intros Hinv Hrun. induction Hrun as [s | s s1 l s' Hs Hrun IH | s s1 na l s' Ha Hs Hrun IH].
  - split; [done | simpl; lia].
  - destruct (load_step _ _ Hinv Hs) as [H1 H2]. destruct (IH H1). split; [done | simpl length; lia].
  - destruct (load_step_ack _ _ _ Hinv Ha Hs) as [H1 H2]. destruct (IH H1). split; [done | simpl length; lia].
Qed.

Lemma progress_divisor n : 100 <= n -> (n / 100 =? 0) = false.
Proof. intros Hn. apply Z.eqb_neq. pose proof (Z.div_le_lower_bound n 100 1). lia. Qed.

(** A main thread that cannot go on waits for acknowledgements, or is done. *)
Lemma load_blocked s :
  100 <= NR_KEY -> load_inv s -> (forall s1, main_step s <> Ret tt s1) -> acked s = length (concat (sent s)) -> cpc s = Done.
Proof.
  intros H100 Hinv Hno Hack. pose proof (load_inv_made_length _ Hinv) as Hlen.
  pose proof (progress_divisor NR_KEY H100) as Hdiv. pose proof (li_sem _ Hinv) as Hsem.
  pose proof (li_idx _ Hinv) as Hidx. pose proof (li_pc _ Hinv) as Hp. unfold pc_ok in Hp. unfold main_step in Hno.
  destruct (cpc s) as [|j|j k|j| | | | |] eqn:Hpc; try done; exfalso; cbn [filled] in Hlen;
    try (by eapply Hno).
  - rewrite Hdiv in Hno. destruct (idx s <? NR_KEY); by eapply Hno.
  - destruct (j <? NR_BATCH)%nat; [|by eapply Hno]. destruct (decide (idx s < NR_KEY)) as [Hi|Hi].
    + destruct (next_for_load_key (kg s)) as (k & Hk & Hn); [apply Hinv | rewrite (li_nr _ Hinv); lia|].
      rewrite Hn in Hno. by eapply Hno.
    + rewrite next_for_load_end in Hno by (rewrite (li_nr _ Hinv); lia). by eapply Hno.
  - destruct Hp as (_ & Hj & _ & Hk). rewrite (pool_key _ _ Hk) in Hno.
    destruct (lookup_lt_is_Some_2 (nr_arr s) j) as [nr Hnr]; [by rewrite (li_arr _ Hinv)|]. rewrite Hnr in Hno.
    rewrite (proj2 (Z.eqb_neq _ _)) in Hno by (unfold CLIENT_QDEPTH, NR_BATCH in *; lia). by eapply Hno.
  - rewrite (proj2 (Z.eqb_eq _ _)) in Hno by lia. by eapply Hno.
Qed.
End Load.

(** ** The query phase *)

Section Query.
Variable pool : list (list Z).
Variable before : list (list netreq).    (* what was sent before *)
Hypothesis pool_keys : Forall (is_key KEY_LEN) pool.
Hypothesis rand_nonneg : forall k, 0 <= rand k < 2 ^ 31.

(** A query: a GET for a key of the pool. *)
Definition is_query (q : netreq) : Prop :=
  exists k n, k ∈ pool /\ q = fill_netreq (template REQ_TYPE_GET) k n.

Definition query_pc_ok (s : client) : Prop :=
  match cpc s with
  | QueryTop => True
  | QueryIn => idx s < NR_QUERY
  | QueryWait => idx s = NR_QUERY
  | Done => idx s = NR_QUERY /\ sem s = CLIENT_QDEPTH
  | _ => False
  end.

Record query_inv (s : client) : Prop := QueryInv {
  qi_kg : kg_ok (kg s);
  qi_draw : drawable (kg s);
  qi_pool : forall k, k ∈ key_pool (kg s) -> k ∈ pool;
  qi_idx : 0 <= idx s <= NR_QUERY;
  qi_sent : exists qs, sent s = before ++ ((fun q => [q]) <$> qs) /\ Z.of_nat (length qs) = idx s /\
              Forall is_query qs;
  qi_sem : 0 <= sem s /\ sem s + idx s + Z.of_nat (length (concat before)) = CLIENT_QDEPTH + Z.of_nat (acked s);
  qi_acked : (acked s <= length (concat (sent s)))%nat;
  qi_pc : query_pc_ok s
}.

Definition query_measure (s : client) : Z :=
  2 * (NR_QUERY - idx s) + (Z.of_nat (length (concat before)) + NR_QUERY - Z.of_nat (acked s)) +
  match cpc s with QueryTop => 2 | QueryIn => 1 | QueryWait => 1 | _ => 0 end.

Lemma concat_singletons {A} (l : list A) : concat ((fun a => [a]) <$> l) = l.
Proof. induction l as [|a l IH]; [done|]. rewrite fmap_cons. simpl. by rewrite IH. Qed.

Lemma query_inv_length s :
  query_inv s -> Z.of_nat (length (concat (sent s))) = Z.of_nat (length (concat before)) + idx s.
Proof.
  intros H. destruct (qi_sent _ H) as (qs & -> & <- & _).
  rewrite concat_app, concat_singletons, length_app. lia.
Qed.

Lemma query_inv_move p s : query_inv s -> query_pc_ok (at_pc p s) -> query_inv (at_pc p s).
Proof. intros [? ? ? ? ? ? ? _] Hp. by split. Qed.

Lemma query_key k : k ∈ pool -> slice k 0 KEY_LEN = Some k.
Proof. intros [n Hn]%list_elem_of_lookup. by eapply pool_key. Qed.

Lemma query_step_in s s1 :
  query_inv s -> cpc s = QueryIn -> main_step s = Ret tt s1 -> query_inv s1 /\ query_measure s1 < query_measure s.
Proof.
  intros Hinv Hpc Hs. pose proof (qi_pc _ Hinv) as Hp. unfold query_pc_ok in Hp. rewrite Hpc in Hp.
  unfold main_step in Hs. rewrite Hpc in Hs. destruct (sem s =? 0) eqn:H0; [done|]. apply Z.eqb_neq in H0.
  destruct (get_next_key_draws rand rand_nonneg (kg s)) as (k & n & Hn & Hk); [apply Hinv | apply Hinv |].
  apply (qi_pool _ Hinv) in Hk. rewrite Hn, (query_key _ Hk) in Hs. injection Hs as <-.
  destruct Hinv as [H1 H2 H3 H4 (qs & H5 & H6 & H7) H8 H9 _]. split.
  - split; cbn; try done; try lia.
    + by apply drew_ok.
    + exists (qs ++ [fill_netreq (template REQ_TYPE_GET) k (u32 (seq_num_global s + 1))]). split_and!.
      * by rewrite H5, fmap_app, <- app_assoc.
      * rewrite length_app. simpl. lia.
      * apply Forall_app. split; [done|]. constructor; [|done]. by eexists k, _.
    + rewrite concat_app, length_app. lia.
  - unfold query_measure. cbn. rewrite Hpc. lia.
Qed.

Lemma query_step s s1 :
  query_inv s -> main_step s = Ret tt s1 -> query_inv s1 /\ query_measure s1 < query_measure s.
Proof.
  intros Hinv Hs. pose proof (qi_pc _ Hinv) as Hp. unfold query_pc_ok in Hp.
  destruct (cpc s) as [| | | | | | | |] eqn:Hpc; try done; [|by eapply query_step_in| |];
    unfold main_step in Hs; rewrite Hpc in Hs; [| |done].
  - pose proof (qi_idx _ Hinv). unfold query_measure.
    destruct (idx s <? NR_QUERY) eqn:Hlt; [destruct (NR_QUERY / 100 =? 0); [done|]|]; injection Hs as <-;
      reflect_bools; simpl; rewrite Hpc; (split; [apply query_inv_move; [done | unfold query_pc_ok; simpl; lia] | lia]).
  - destruct (sem s =? CLIENT_QDEPTH) eqn:Hq; [|done]. injection Hs as <-. reflect_bools. split.
    + destruct Hinv. by split.
    + unfold query_measure. simpl. rewrite Hpc. lia.
Qed.

Lemma query_ack na s :
  query_inv s -> answers_request na s ->
  exists s1, poll_ack na s = Ret tt s1 /\ query_inv s1 /\ query_measure s1 < query_measure s /\
    acked s1 = S (acked s).
Proof.
  intros Hinv (Hlt & _ & Hl).
  destruct (collect_latency_in (cdf_table s) _ Hl) as [t Ht].
  assert (forall t, query_inv (permit_back (with_table t s)) /\
            query_measure (permit_back (with_table t s)) < query_measure s) as Hgo.
  { intros t'. pose proof (query_inv_length _ Hinv) as Hlen. destruct Hinv as [H1 H2 H3 H4 H5 H6 H7 Hp]. split.
    - split; cbn; try done; try lia. unfold query_pc_ok in *. cbn. destruct (cpc s); try done. lia.
    - unfold query_measure. cbn. lia. }
  unfold poll_ack. case_decide.
  - erewrite bind_ret by (erewrite bind_ret by exact eq_refl; rewrite Ht; exact eq_refl).
    eexists. split; [exact eq_refl|]. destruct (Hgo t). by split_and!.
  - erewrite bind_ret by exact eq_refl. eexists. split; [exact eq_refl|]. destruct (Hgo (cdf_table s)).
    replace (with_table (cdf_table s) s) with s in * by by destruct s. by split_and!.
Qed.

Lemma query_run_ok s l s' :
  query_inv s -> client_run s l s' ->
  query_inv s' /\ Z.of_nat (length l) + query_measure s' <= query_measure s.
Proof.
  intros Hinv Hrun. induction Hrun as [s | s s1 l s' Hs Hrun IH | s s1 na l s' Ha Hs Hrun IH].
  - split; [done | simpl; lia].
  - destruct (query_step _ _ Hinv Hs) as [H1 H2]. destruct (IH H1). split; [done | simpl length; lia].
  - destruct (query_ack _ _ Hinv Ha) as (s2 & H0 & H1 & H2 & _). rewrite H0 in Hs. injection Hs as ->.
    destruct (IH H1). split; [done | simpl length; lia].
Qed.

Lemma query_blocked s :
  100 <= NR_QUERY -> query_inv s -> (forall s1, main_step s <> Ret tt s1) -> acked s = length (concat (sent s)) -> cpc s = Done.
Proof.
  intros H100 Hinv Hno Hack. pose proof (query_inv_length _ Hinv) as Hlen.
  pose proof (progress_divisor NR_QUERY H100) as Hdiv. pose proof (qi_sem _ Hinv) as Hsem.
  pose proof (qi_pc _ Hinv) as Hp. unfold query_pc_ok in Hp. unfold main_step in Hno.
  destruct (cpc s) as [| | | | | | | |] eqn:Hpc; try done; exfalso; try (by eapply Hno).
  - rewrite Hdiv in Hno. destruct (idx s <? NR_QUERY); by eapply Hno.
  - rewrite (proj2 (Z.eqb_neq _ _)) in Hno by (unfold CLIENT_QDEPTH in *; lia).
    destruct (get_next_key_draws rand rand_nonneg (kg s)) as (k & n & Hn & Hk); [apply Hinv | apply Hinv |].
    apply (qi_pool _ Hinv) in Hk. rewrite Hn, (query_key _ Hk) in Hno. by eapply Hno.
  - rewrite (proj2 (Z.eqb_eq _ _)) in Hno by lia. by eapply Hno.
Qed.
End Query.

(** ** Whole phases *)

Hypothesis rand_nonneg : forall k, 0 <= rand k < 2 ^ 31.
Hypothesis nr_key_range : 100 <= NR_KEY < 2 ^ 31.

Lemma bench_init_inv s0 :
  bench_init = Some s0 ->
  load_inv (key_pool (kg s0)) s0 /\ Forall (is_key KEY_LEN) (key_pool (kg s0)) /\
  load_measure s0 = 6 * NR_KEY + 2.
Proof.
  intros H. unfold bench_init in H.
  destruct (keygen_init_ok rand rand_nonneg NR_KEY KEY_LEN ltac:(lia)) as (k & Hk & Hok & Hn & Hl & Hkeys); [done|].
  rewrite Hk in H. injection H as <-. cbn [kg]. split_and!; [|done|].
  - split; cbn; try done; try lia. repeat constructor; by exists (replicate (Z.to_nat KEY_LEN) 0), 0.
  - unfold load_measure. cbn. lia.
Qed.

Lemma load_no_crash pool s e :
  Forall (is_key KEY_LEN) pool -> load_inv pool s -> main_step s = Stop e -> e = SBlock.
Proof.
  intros Hkeys Hinv Hs. pose proof (li_pc _ _ Hinv) as Hp. unfold pc_ok in Hp. unfold main_step in Hs.
  destruct (cpc s) as [|j|j k|j| | | | |] eqn:Hpc; try done.
  - rewrite progress_divisor in Hs by lia. by destruct (idx s <? NR_KEY).
  - destruct (j <? NR_BATCH)%nat; [|done]. destruct (decide (idx s < NR_KEY)) as [Hi|Hi].
    + destruct (next_for_load_key (kg s)) as (k & Hk & Hn); [apply Hinv | rewrite (li_nr _ _ Hinv); lia|].
      by rewrite Hn in Hs.
    + by rewrite next_for_load_end in Hs by (rewrite (li_nr _ _ Hinv); lia).
  - destruct Hp as (_ & Hj & _ & Hk). rewrite (pool_key _ Hkeys _ _ Hk) in Hs.
    destruct (lookup_lt_is_Some_2 (nr_arr s) j) as [nr Hnr]; [by rewrite (li_arr _ _ Hinv)|]. rewrite Hnr in Hs.
    destruct (sem s =? 0); [by injection Hs | done].
  - destruct (sem s =? CLIENT_QDEPTH); [done | by injection Hs].
  - by injection Hs.
Qed.

Lemma load_done pool s :
  load_inv pool s -> cpc s = Done -> concat (sent s) = load_all pool /\ Z.of_nat (acked s) = NR_KEY.
Proof.
  intros Hinv Hd. pose proof (load_inv_made_length _ _ Hinv) as Hlen. pose proof (li_idx _ _ Hinv) as Hidx.
  pose proof (pool_length _ _ Hinv) as Hpl. pose proof (li_sem _ _ Hinv).
  pose proof (li_pc _ _ Hinv) as Hp. unfold pc_ok in Hp. rewrite Hd in Hp. destruct Hp as [Hi Hs].
  split; [|lia]. pose proof (li_made _ _ Hinv) as Hmade. unfold made in Hmade. rewrite Hd in Hmade.
  cbn [filled] in Hmade. rewrite take_0, app_nil_r in Hmade. rewrite Hmade. apply take_ge.
  rewrite load_all_length. lia.
Qed.

Lemma run_bench_inv pool d q h s1 s2 :
  load_inv pool s1 -> cpc s1 = Done -> 0 <= h <= 100 -> 0 <= NR_QUERY ->
  run_bench d q h s1 = Some s2 -> drawable (kg s2) ->
  query_inv pool (sent s1) s2 /\ query_measure (sent s1) s2 = 3 * NR_QUERY + 2.
Proof.
  intros Hinv Hd Hh Hn Hr Hdraw. destruct (load_done _ _ Hinv Hd) as [Hs Ha].
  pose proof (pool_length _ _ Hinv) as Hpl. pose proof (load_all_length pool) as Hla.
  pose proof (li_sem _ _ Hinv) as Hpos. unfold run_bench in Hr.
  destruct (set_key_dist_ok rand rand_nonneg d q h (kg s1)) as (k & Hk & Hok & Hperm & _); [apply Hinv | done |].
  rewrite Hk in Hr. injection Hr as <-.
  pose proof (li_pc _ _ Hinv) as Hp. unfold pc_ok in Hp. rewrite Hd in Hp. destruct Hp as [Hi Hsem]. split.
  - split; cbn; try done; try lia.
    + intros x Hx. by rewrite Hperm, (li_pool _ _ Hinv) in Hx.
    + exists []. split_and!; [by rewrite app_nil_r | done | done].
    + rewrite Hs, Hla. lia.
    + rewrite Hs, Hla. lia.
  - unfold query_measure. cbn. rewrite Hs, Hla. lia.
Qed.

(** C24: the load phase, however the two threads interleave: the requests go out
    for the keys of the pool in order, with consecutive sequence numbers, in
    batches of at most 128; at most [CLIENT_QDEPTH] of them are unanswered; and
    the main thread stops only to wait. *)
Theorem load_window (s0 s : client) (l : list client_action) :
  bench_init = Some s0 -> client_run s0 l s ->
  concat (sent s) `prefix_of` load_all (key_pool (kg s0)) /\
  Forall (fun b => (length b <= NR_BATCH)%nat) (sent s) /\
  Z.of_nat (acked s) <= Z.of_nat (length (concat (sent s))) <= Z.of_nat (acked s) + CLIENT_QDEPTH /\
  0 <= sem s <= CLIENT_QDEPTH /\
  forall e, main_step s = Stop e -> e = SBlock.
Proof.
  intros H0 Hrun. destruct (bench_init_inv s0 H0) as (Hinv0 & Hkeys & _).
  destruct (load_run_ok _ Hkeys _ _ _ Hinv0 Hrun) as [Hinv _].
  pose proof (load_inv_made_length _ _ Hinv) as Hlen. pose proof (li_idx _ _ Hinv). pose proof (li_sem _ _ Hinv).
  pose proof (li_acked _ _ Hinv). split_and!; try done; try lia.
  - transitivity (made s); [by apply prefix_app_r|]. rewrite (li_made _ _ Hinv). apply prefix_take.
  - apply Hinv.
  - intros e. by eapply load_no_crash.
Qed.

(** C17: the load phase ends: every run is bounded, and a run that cannot go on,
    with every request answered, has sent the whole pool, each key once. *)
Theorem load_completes (s0 s : client) (l : list client_action) :
  bench_init = Some s0 -> client_run s0 l s ->
  Z.of_nat (length l) <= 6 * NR_KEY + 2 /\
  ((forall s1, main_step s <> Ret tt s1) -> acked s = length (concat (sent s)) ->
   cpc s = Done /\ concat (sent s) = load_all (key_pool (kg s0)) /\ Z.of_nat (acked s) = NR_KEY).
Proof.
  intros H0 Hrun. destruct (bench_init_inv s0 H0) as (Hinv0 & Hkeys & Hm).
  destruct (load_run_ok _ Hkeys _ _ _ Hinv0 Hrun) as [Hinv Hb].
  pose proof (load_inv_made_length _ _ Hinv) as Hlen. pose proof (li_idx _ _ Hinv) as Hidx.
  pose proof (pool_length _ _ Hinv) as Hpl. split.
  - assert (0 <= load_measure s); [|lia]. pose proof (li_acked _ _ Hinv). unfold load_measure.
    destruct (cpc s) as [|[|?]| | | | | | |]; simpl in *; lia.
  - intros Hno Hack. pose proof (load_blocked _ Hkeys _ ltac:(lia) Hinv Hno Hack) as Hd. split; [done|].
    by apply load_done.
Qed.

(** The query phase that follows ends as well: every run is bounded, and one
    that cannot go on, with every request answered, has sent [NR_QUERY] GET
    requests for keys of the pool; no latency was stored outside of the table. *)
Theorem query_completes (s0 s1 s2 s : client) (l1 l : list client_action) (d : key_dist_t) (q h : Z) :
  bench_init = Some s0 -> client_run s0 l1 s1 -> cpc s1 = Done ->
  0 <= h <= 100 -> 100 <= NR_QUERY -> run_bench d q h s1 = Some s2 -> drawable (kg s2) ->
  client_run s2 l s ->
  Z.of_nat (length l) <= 3 * NR_QUERY + 2 /\
  (forall na, answers_request na s -> exists s', poll_ack na s = Ret tt s') /\
  ((forall s', main_step s <> Ret tt s') -> acked s = length (concat (sent s)) ->
   cpc s = Done /\ exists qs, concat (sent s) = load_all (key_pool (kg s0)) ++ qs /\
     Z.of_nat (length qs) = NR_QUERY /\ Forall (is_query (key_pool (kg s0))) qs).
Proof.
  intros H0 Hrun1 Hd Hh Hn Hr Hdraw Hrun. destruct (bench_init_inv s0 H0) as (Hinv0 & Hkeys & _).
  destruct (load_run_ok _ Hkeys _ _ _ Hinv0 Hrun1) as [Hinv1 _].
  destruct (run_bench_inv _ d q h _ _ Hinv1 Hd Hh ltac:(lia) Hr Hdraw) as [Hq Hm].
  destruct (query_run_ok _ _ Hkeys rand_nonneg _ _ _ Hq Hrun) as [Hq' Hb].
  pose proof (query_inv_length _ _ _ Hq') as Hlen. pose proof (qi_idx _ _ _ Hq').
  pose proof (qi_acked _ _ _ Hq'). split_and!.
  - assert (0 <= query_measure (sent s1) s); [|lia]. unfold query_measure. destruct (cpc s); lia.
  - intros na Ha. destruct (query_ack _ _ _ _ Hq' Ha) as (s' & Hs' & _). by exists s'.
  - intros Hno Hack. pose proof (query_blocked _ _ Hkeys rand_nonneg _ Hn Hq' Hno Hack) as Hdone.
    split; [done|]. destruct (qi_sent _ _ _ Hq') as (qs & Hqs & Hl & Hall). exists qs.
    pose proof (qi_pc _ _ _ Hq') as Hp. unfold query_pc_ok in Hp. rewrite Hdone in Hp. destruct Hp as [Hi _].
    split_and!; [|lia|done]. rewrite Hqs, concat_app, concat_singletons. by destruct (load_done _ _ Hinv1 Hd) as [-> _].
Qed.
End Client.

(** ** Acknowledgements *)

Record netack_ok (na : netack) : Prop := NetackOk {
  na_seq : 0 <= ack_seq_num na < 2 ^ 32;
  na_elapsed : -10 < elapsed_time na < 10 * CDF_TABLE_MAX
}.

Lemma encode_netack_length na : netack_ok na -> length (encode_netack na) = Z.to_nat NETACK_SIZE.
Proof. intros _. unfold encode_netack. by rewrite !length_app, !le_bytes_length. Qed.

Lemma s64_u64 x : - 2 ^ 63 <= x < 2 ^ 63 -> s64 (u64 x) = x.
Proof.
  intros Hx. unfold s64, wrap. rewrite Zplus_mod_idemp_l, Z.mod_small by lia. lia.
Qed.

Lemma decode_encode_netack na : netack_ok na -> decode_netack (encode_netack na) = Some na.
Proof.
  intros [H1 H2]. unfold decode_netack, encode_netack.
  rewrite drop_app_length' by by rewrite le_bytes_length. cbn [app]. rewrite req_type_of_code.
  rewrite take_app_length', take_ge by by rewrite le_bytes_length.
  rewrite !le_value_bytes; [| by apply wrap_bounds | by change (256 ^ Z.of_nat 4) with (2 ^ 32)].
  rewrite s64_u64 by (unfold CDF_TABLE_MAX in *; lia). by destruct na.
Qed.

Lemma decode_netacks_ok nas :
  Forall netack_ok nas -> decode_netacks (length nas) (concat (encode_netack <$> nas)) = Some nas.
Proof.
  induction 1 as [|na nas Hna Hnas IH]; [done|]. rewrite fmap_cons. cbn [concat length decode_netacks].
  rewrite take_app_length', drop_app_length' by by rewrite encode_netack_length.
  rewrite decode_encode_netack by done. simpl. by rewrite IH.
Qed.

(** The latencies of the GET requests among some acknowledgements. *)
Definition get_latencies (nas : list netack) : list Z :=
  elapsed_time <$> filter (fun na => ack_type na = REQ_TYPE_GET) nas.

(** What processing [n] acknowledgements changes. *)
Definition polled (nas : list netack) (t : tmap Z) (s : client) : client :=
  Client (kg s) (sem s + Z.of_nat (length nas)) (seq_num_global s) (nr_arr s) t (idx s) (cpc s) (sent s)
    (acked s + length nas).

Lemma poll_acks_ok nas s :
  Forall netack_ok nas ->
  exists t, collect_all (get_latencies nas) (cdf_table s) = Some t /\ poll_acks nas s = Ret tt (polled nas t s).
Proof.
  intros Hok. revert s. induction Hok as [|na nas [_ Hna] Hnas IH]; intros s.
  - exists (cdf_table s). split; [done|]. unfold polled. simpl. rewrite Z.add_0_r, Nat.add_0_r. by destruct s.
  - destruct (collect_latency_in (cdf_table s) _ Hna) as [t0 Ht0].
    cbn [poll_acks]. unfold get_latencies, poll_ack. rewrite filter_cons. case_decide as Hty.
    + destruct (IH (permit_back (with_table t0 s))) as (t & Ht & Hp). exists t.
      rewrite fmap_cons. cbn [collect_all]. rewrite Ht0. split; [exact Ht|].
      erewrite bind_ret by (erewrite bind_ret by (erewrite bind_ret by exact eq_refl; rewrite Ht0; exact eq_refl); exact eq_refl).
      rewrite Hp. unfold polled. cbn. do 2 f_equal; lia.
    + destruct (IH (permit_back s)) as (t & Ht & Hp). exists t. split; [exact Ht|].
      erewrite bind_ret by (erewrite bind_ret by exact eq_refl; exact eq_refl).
      rewrite Hp. unfold polled. cbn. do 2 f_equal; lia.
Qed.

(** One turn of [ack_poller]: however the acknowledgements arrive, it
    processes the first [k] of them, at least one and at most 128, gives exactly
    [k] permits back, counts the latencies of the GET requests among them, and
    leaves the others unread; the main thread's variables are untouched. *)
Theorem ack_poller_turn (ev : list sock_event) (nas : list netack) (s : client) :
  Forall netack_ok nas -> nas <> [] -> sock_ok ev -> no_eof ev -> head ev <> Some Again ->
  stream ev = concat (encode_netack <$> nas) ->
  exists k rest t, (0 < k <= length nas)%nat /\ (k <= 128)%nat /\
    ack_poller false ev s = Ret (true, rest) (polled (take k nas) t s) /\
    collect_all (get_latencies (take k nas)) (cdf_table s) = Some t /\
    stream rest = concat (encode_netack <$> drop k nas).
Proof.
  intros Hf Hne Hok Hn Hhd Hs.
  destruct (bulk_of_objects encode_netack NETACK_SIZE 128 netack_ok encode_netack_length
              eq_refl eq_refl ev nas Hok Hn Hhd Hf Hne Hs) as (k & rest & Hk & Hmax & Hr & Hrest).
  destruct (poll_acks_ok (take k nas) s (Forall_take _ _ _ Hf)) as (t & Ht & Hp).
  exists k, rest, t. split_and!; try done; try lia. unfold ack_poller.
  rewrite Hr. erewrite bind_ret by exact eq_refl. cbn [rd_ret rd_buf rd_rest].
  assert (0 < Z.of_nat k * NETACK_SIZE) by (unfold NETACK_SIZE; lia).
  rewrite !(proj2 (Z.eqb_neq _ _)) by lia. rewrite Z.div_mul, Nat2Z.id by done.
  replace k with (length (take k nas)) at 1 by (rewrite length_take; lia).
  rewrite decode_netacks_ok by by apply Forall_take. erewrite bind_ret by exact eq_refl.
  by rewrite (bind_ret _ _ _ _ _ Hp).
Qed.

(** ** Concrete runs *)

Section MainSteps.
Variable rand : nat -> Z.
Variable NR_KEY NR_QUERY : Z.

Fixpoint main_steps (n : nat) : M client unit :=
  match n with
  | O => ret tt
  | S n' => main_step rand NR_KEY NR_QUERY ;;; main_steps n'
  end.

Lemma main_steps_run n s s' :
  main_steps n s = Ret tt s' -> client_run rand NR_KEY NR_QUERY s (replicate n MainThread) s'.
Proof.
  revert s. induction n as [|n IH]; intros s H; [injection H as <-; constructor|].
  cbn [main_steps] in H. apply bind_inv in H as ([] & s1 & H1 & H2). cbn [replicate].
  econstructor; [exact H1 | by apply IH].
Qed.

Lemma client_run_app s l s1 l' s' :
  client_run rand NR_KEY NR_QUERY s l s1 -> client_run rand NR_KEY NR_QUERY s1 l' s' ->
  client_run rand NR_KEY NR_QUERY s (l ++ l') s'.
Proof. induction 1; intros Hr; [done | econstructor; eauto | econstructor; eauto]. Qed.
End MainSteps.

Lemma poll_ack_frame na s s1 :
  poll_ack na s = Ret tt s1 -> sent s1 = sent s /\ acked s1 = S (acked s).
Proof.
  intros H. unfold poll_ack in H. case_decide.
  - apply bind_inv in H as ([] & s2 & H1 & H2). apply bind_inv in H1 as (t & s3 & H1 & H3). injection H1 as <- <-.
    apply bind_inv in H3 as (t' & s4 & H3 & H4). destruct (collect_latency _ _); [|done].
    injection H3 as <- <-. injection H4 as <-. by injection H2 as <-.
  - by injection H as <-.
Qed.

(** The same acknowledgement [n] times, with different sequence numbers in a
    real run. *)
Lemma poll_acks_run rand NR_KEY NR_QUERY na n s s' :
  (exists nr, nr ∈ concat (sent s) /\ ack_type na = nr_type nr) -> -10 < elapsed_time na < 10 * CDF_TABLE_MAX ->
  (acked s + n <= length (concat (sent s)))%nat -> poll_acks (replicate n na) s = Ret tt s' ->
  client_run rand NR_KEY NR_QUERY s (replicate n (AckArrives na)) s'.
Proof.
  intros Hnr Hl. revert s Hnr. induction n as [|n IH]; intros s Hnr Hn H; [injection H as <-; constructor|].
  cbn [replicate poll_acks] in H. apply bind_inv in H as ([] & s1 & H1 & H2).
  destruct (poll_ack_frame _ _ _ H1) as [E1 E2]. cbn [replicate].
  apply (client_run_ack _ _ _ s s1); [split_and!; [lia | done | lia..] | done |].
  apply IH; [by rewrite E1 | rewrite E1, E2; lia | done].
Qed.

Definition outcome_state {A} (r : outcome client A) (s : client) : client :=
  match r with Ret _ s' => s' | Stop _ => s end.

(** The state after [n] steps of the main thread with 100 keys and 100 queries,
    and after the same acknowledgement 100 times. *)
Definition after (n : nat) (s : client) : client := outcome_state (main_steps sample_rand 100 100 n s) s.
Definition acks_after (na : netack) (s : client) : client := outcome_state (poll_acks (replicate 100 na) s) s.

Definition no_client : client := Client sample_pool 0 0 [] zero_table 0 Outer [] 0.

Definition sample_ack : netack := Netack 1 REQ_TYPE_SET 1234.
Definition query_ack_sample : netack := Netack 101 REQ_TYPE_GET 77.

Definition started_client : client := default no_client (bench_init sample_rand 100).
Definition waiting_client : client := after 204 started_client.
Definition loaded_client : client := after 1 (acks_after sample_ack waiting_client).
Definition querying_client : client :=
  default no_client (run_bench sample_rand KEY_DIST_UNIFORM 50 50 loaded_client).
Definition asked_client : client := after 201 querying_client.
Definition queried_client : client := after 1 (acks_after query_ack_sample asked_client).

Lemma started_client_ok : bench_init sample_rand 100 = Some started_client.
Proof. vm_compute. reflexivity. Qed.

Lemma waiting_client_run :
  client_run sample_rand 100 100 started_client (replicate 204 MainThread) waiting_client.
Proof. apply main_steps_run. vm_compute. reflexivity. Qed.

Lemma type_among t (l : list netreq) : existsb (fun nr => bool_decide (t = nr_type nr)) l = true -> exists nr, nr ∈ l /\ t = nr_type nr.
Proof.
  intros (nr & Hin & Ht)%existsb_exists. exists nr. apply bool_decide_eq_true in Ht.
  split; [by apply list_elem_of_In | done].
Qed.

Lemma waiting_client_types :
  existsb (fun nr => bool_decide (ack_type sample_ack = nr_type nr)) (concat (sent waiting_client)) = true.
Proof. vm_compute. reflexivity. Qed.

Lemma asked_client_types :
  existsb (fun nr => bool_decide (ack_type query_ack_sample = nr_type nr)) (concat (sent asked_client)) = true.
Proof. vm_compute. reflexivity. Qed.

Definition phase_actions (n : nat) (na : netack) : list client_action :=
  replicate n MainThread ++ replicate 100 (AckArrives na) ++ replicate 1 MainThread.

Lemma loaded_client_run :
  client_run sample_rand 100 100 started_client (phase_actions 204 sample_ack) loaded_client.
Proof.
  unfold phase_actions. eapply client_run_app; [exact waiting_client_run|].
  eapply client_run_app; [apply (poll_acks_run _ _ _ _ _ _ (acks_after sample_ack waiting_client))|].
  - apply type_among. exact waiting_client_types.
  - unfold CDF_TABLE_MAX. simpl. lia.
  - apply Nat.leb_le. by vm_compute.
  - by vm_compute.
  - apply main_steps_run. by vm_compute.
Qed.

Lemma queried_client_run :
  client_run sample_rand 100 100 querying_client (phase_actions 201 query_ack_sample) queried_client.
Proof.
  unfold phase_actions. eapply client_run_app; [apply (main_steps_run _ _ _ _ _ asked_client); by vm_compute|].
  eapply client_run_app; [apply (poll_acks_run _ _ _ _ _ _ (acks_after query_ack_sample asked_client))|].
  - apply type_among. exact asked_client_types.
  - unfold CDF_TABLE_MAX. simpl. lia.
  - apply Nat.leb_le. by vm_compute.
  - by vm_compute.
  - apply main_steps_run. by vm_compute.
Qed.

Lemma load_window_witness :
  client_run sample_rand 100 100 started_client (replicate 204 MainThread) waiting_client /\
  concat (sent waiting_client) `prefix_of` load_all (key_pool (kg started_client)) /\
  0 <= sem waiting_client <= CLIENT_QDEPTH.
Proof.
  destruct (load_window sample_rand 100 100 sample_rand_ok ltac:(lia) started_client waiting_client
              (replicate 204 MainThread) started_client_ok waiting_client_run) as (H1 & _ & _ & H2 & _).
  split; [exact waiting_client_run|]. split; [exact H1 | exact H2].
Defined.

Lemma load_completes_witness :
  cpc loaded_client = Done /\ concat (sent loaded_client) = load_all (key_pool (kg started_client)).
Proof.
  destruct (load_completes sample_rand 100 100 sample_rand_ok ltac:(lia) started_client loaded_client
              _ started_client_ok loaded_client_run) as [_ H].
  destruct H as (H1 & H2 & _).
  - intros s1. vm_compute. discriminate.
  - by vm_compute.
  - split; [exact H1 | exact H2].
Defined.

Lemma query_completes_witness :
  cpc queried_client = Done /\ exists qs, concat (sent queried_client) =
    load_all (key_pool (kg started_client)) ++ qs /\ Z.of_nat (length qs) = 100.
Proof.
  destruct (query_completes sample_rand 100 100 sample_rand_ok ltac:(lia) started_client loaded_client querying_client
              queried_client _ (phase_actions 201 query_ack_sample)
              KEY_DIST_UNIFORM 50 50 started_client_ok loaded_client_run) as (_ & _ & H).
  - by vm_compute.
  - lia.
  - lia.
  - by vm_compute.
  - by vm_compute.
  - exact queried_client_run.
  - destruct H as (H1 & qs & H2 & H3 & _).
    + intros s'. vm_compute. discriminate.
    + by vm_compute.
    + split; [exact H1|]. exists qs. split; [exact H2 | exact H3].
Defined.

(** Three acknowledgements in two pieces. *)
Definition sample_acks : list netack :=
  [Netack 1 REQ_TYPE_SET 10; Netack 2 REQ_TYPE_GET 250; Netack 3 REQ_TYPE_GET (-1)].
Definition sample_ack_events : list sock_event :=
  let l := concat (encode_netack <$> sample_acks) in [Bytes (take 20 l); Again; Bytes (drop 20 l)].

Lemma ack_poller_turn_witness :
  exists k rest t, (0 < k <= 3)%nat /\
    ack_poller false sample_ack_events no_client = Ret (true, rest) (polled (take k sample_acks) t no_client).
Proof.
  destruct (ack_poller_turn sample_ack_events sample_acks no_client) as (k & rest & t & H1 & _ & H2 & _).
  - repeat constructor; simpl; lia.
  - discriminate.
  - repeat constructor; discriminate.
  - repeat constructor; discriminate.
  - discriminate.
  - by vm_compute.
  - exists k, rest, t. split; [exact H1 | exact H2].
Defined.
