(* ===== verification/System.v ===== *)
(** * Master and handlers together

    The master queues messages at the handlers while the handler threads serve
    their queues. A step is one message of the master ([forward_all] on it) or
    one turn of a handler's loop ([request_handler_step]); the two share the
    request queue, the pool and the permits of the handler, each under a lock of
    its own. *)

From Stdlib Require Import ZArith Lia.
From stdpp Require Import prelude gmap.
From S2P Require Import Prelude Config Bytes Util Queue CondLock World Stopwatch KvPair Request.
From S2P Require Import Device DeviceSpec Handler Runtime Master.

#[local] Open Scope Z_scope.

Section System.
Context {I P : Type} `{KvOps I P} `{!KvOpsLaws I P}.
Variable CityHash128 : list Z -> Z -> Z * Z.
Variable num_dev : Z.
Implicit Types w : world I P.

(** The handlers, and the messages that were queued so far with their sockets. *)
Record sys_state : Type := SysState { hlrs : list (world I P); arrived : list (Z * netreq) }.

Definition servable (nr : netreq) : Prop :=
  fits nr /\ (nr_type nr = REQ_TYPE_GET \/ nr_type nr = REQ_TYPE_SET).

Inductive sys_step : sys_state -> sys_state -> Prop :=
| sys_deliver s sock nr ws' :
    servable nr -> forward_all CityHash128 num_dev [nr] sock (hlrs s) = Ret 0 ws' ->
    sys_step s (SysState ws' (arrived s ++ [(sock, nr)]))
| sys_serve s i w w' :
    hlrs s !! i = Some w -> request_handler_step CityHash128 false w = Ret true w' ->
    sys_step s (SysState (<[i := w']> (hlrs s)) (arrived s)).

(** The handlers begin as [master_init] leaves them. *)
Inductive sys_reachable (init : I) : sys_state -> Prop :=
| sys_init ws :
    num_dev = Z.of_nat (length ws) -> Forall (fun w => (exists nr, fresh_handler init nr w) /\ acks w = []) ws ->
    sys_reachable init (SysState ws [])
| sys_next s s' : sys_reachable init s -> sys_step s s' -> sys_reachable init s'.

(** What a client is told of a message, but for the time. *)
Definition answer_to (m : Z * netreq) : Z * Z * req_type_t := (fst m, nr_seq_num (snd m), nr_type (snd m)).

(** The messages that belong to handler [i]. *)
Definition arrived_at (i : nat) (s : sys_state) : list (Z * netreq) :=
  filter (fun m => hlr_idx CityHash128 num_dev (snd m) = Z.of_nat i) (arrived s).

(** The answers that the queued requests will get. *)
Definition waiting w : list (Z * Z * req_type_t) :=
  omap (fun r => answer_for <$> req_arr w !! r) (Fifo.items (req_q w)).

(** ** One handler *)

Definition request_object w (r : Z) (rq : request) : Prop :=
  r <> NULL /\ req_arr w !! r = Some rq /\ length (key (req_key rq)) = Z.to_nat KEY_LEN_MAX.

Record serving w : Prop := Serving {
  sv_mem : mem_ok w;
  sv_retry : Fifo.items (retry_q w) = [];
  sv_flying : flying w = ClLock QDEPTH (Z.of_nat (length (Fifo.items (req_q w)))) false;
  sv_distinct : NoDup (Fifo.items (req_pool w) ++ Fifo.items (req_q w));
  sv_pool : Forall (fun r => exists rq, request_object w r rq) (Fifo.items (req_pool w));
  sv_queue : Forall (fun r => exists rq, request_object w r rq /\ fresh_request w r rq) (Fifo.items (req_q w));
  sv_caps : Fifo.cap (req_q w) = QSIZE /\ Fifo.cap (req_pool w) = QSIZE;
  sv_all : Z.of_nat (length (Fifo.items (req_pool w)) + length (Fifo.items (req_q w))) = QSIZE;
  sv_depth : Z.of_nat (length (Fifo.items (req_q w))) <= QDEPTH
}.

Lemma fresh_serving (init : I) nr w : fresh_handler init nr w -> serving w.
Proof.
  intros Hw. pose proof (fresh_accepts init nr 1 w Hw ltac:(done)) as [_ _ _ _ Hnd Hobj].
  destruct Hw as [_ _ Hmem _ Hfl (Hq & Hre & _) Hp _ _ _ _]. specialize (Hp REQ_POOL ltac:(by left)). cbn [qget] in Hp.
  split; rewrite ?Hq, ?Hre, ?Hfl; try done.
  - by rewrite Hq in Hnd.
  - eapply Forall_impl; [exact Hobj|]. intros r (Hr & rq & Hrq & Hl). by exists rq.
  - by rewrite Hp.
  - rewrite Hp. cbn [Fifo.items length]. rewrite addrs_length. unfold QSIZE. lia.
Qed.

Lemma waiting_other (m m' : gmap Z request) (l : list Z) :
  (forall r, r ∈ l -> m' !! r = m !! r) ->
  omap (fun r => answer_for <$> m' !! r) l = omap (fun r => answer_for <$> m !! r) l.
Proof.
  intros Heq. induction l as [|r l IH]; [done|]. cbn [omap list_omap].
  rewrite Heq by apply list_elem_of_here. rewrite IH; [done|]. intros r' Hr'. apply Heq. by apply list_elem_of_further.
Qed.

Lemma deliver_one w sock nr :
  serving w -> servable nr -> now (flying w) < QDEPTH ->
  exists r w1 w2, make_request_from_netreq nr sock w = Ret r w1 /\ forward_req_to_hlr r w1 = Ret 0 w2 /\
    serving w2 /\ waiting w2 = waiting w ++ [answer_to (sock, nr)] /\ acks w2 = acks w /\ ops w2 = ops w.
Proof.
  intros [Hmem Hretry Hfl Hnd Hpool Hqueue [Hc1 Hc2] Hall Hd] [[Hok Hkl] Hty] Hroom.
  rewrite Hfl in Hroom. cbn [now] in Hroom. unfold QSIZE, QDEPTH in *.
  destruct (Fifo.items (req_pool w)) as [|r l] eqn:Hl; [simpl in Hall; lia|].
  apply Forall_cons in Hpool as [(rq & Hr & Hrq & Hlen) Hpool]. apply NoDup_cons in Hnd as [Hni Hnd].
  pose proof (no_key _ Hok) as Hk. pose proof (no_keylen _ Hok) as Hkb. change KEY_LEN_MAX with 256 in Hlen.
  eexists r, _, _. split; [apply (make_request_ok nr sock w r l rq); try done; unfold KEY_LEN in *; lia|].
  split; [apply forward_req_ok; cbn; rewrite ?Hfl; cbn; try done; lia|].
  assert (forall r', r' ∈ l ++ Fifo.items (req_q w) -> r <> r') as Hne by (intros r' Hin ->; done).
  split_and!; [ | | done | done].
  - assert (forall r' rq', r' ∈ l ++ Fifo.items (req_q w) ->
              req_arr w !! r' = Some rq' -> forall v, <[r := v]> (req_arr w) !! r' = Some rq') as Hold.
    { intros r' rq' Hin Hr' v. rewrite lookup_insert_ne; [done | by apply Hne]. }
    split; cbn; rewrite ?length_app; try done.
    + by destruct Hmem.
    + rewrite Hfl. unfold set_now. cbn. f_equal. lia.
    + rewrite app_assoc, <- Permutation_cons_append. by constructor.
    + apply Forall_forall. intros r' Hr'. destruct (proj1 (Forall_forall _ _) Hpool r' Hr') as (rq' & H1 & H2 & H3).
      exists rq'. split_and!; [done | apply Hold; [apply elem_of_app; by left | done] | done].
    + apply Forall_app. split.
      * apply Forall_forall. intros r' Hr'.
        destruct (proj1 (Forall_forall _ _) Hqueue r' Hr') as (rq' & (H1 & H2 & H3) & (_ & _ & H4 & H5)).
        exists rq'. assert (r' ∈ l ++ Fifo.items (req_q w)) by (apply elem_of_app; by right).
        split; (split_and!; try done; by apply Hold).
      * constructor; [|done]. eexists. split; (split_and!; [done | apply lookup_insert_eq | cbn | ..]).
        -- rewrite length_app, length_take, length_drop. unfold KEY_LEN, KEY_LEN_MAX in *. lia.
        -- done.
        -- done.
    + cbn [length] in *. unfold QSIZE. lia.
    + cbn [length]. unfold QDEPTH. lia.
  - unfold waiting. cbn. rewrite omap_app. f_equal.
    + apply waiting_other. intros r' Hr'. rewrite lookup_insert_ne; [done|]. apply Hne, elem_of_app. by right.
    + cbn [omap list_omap]. by rewrite lookup_insert_eq.
Qed.

Lemma serve_one w r l :
  serving w -> Fifo.items (req_q w) = r :: l ->
  exists a w', request_handler_step CityHash128 false w = Ret true w' /\ serving w' /\
    answer_of <$> acks w' = (answer_of <$> acks w) ++ [a] /\ waiting w = a :: waiting w' /\
    Fifo.items (req_q w') = l /\ ops w' = ops w.
Proof.
  intros [Hmem Hretry Hfl Hnd Hpool Hqueue [Hc1 Hc2] Hall Hd] Hl. rewrite Hl in *.
  apply Forall_cons in Hqueue as [(rq & (Hr & Hrq & Hlen) & Hfresh) Hqueue].
  unfold QSIZE, QDEPTH in *. simpl length in Hall, Hd.
  destruct (request_handler_step_ends CityHash128 false w r l rq Hmem eq_refl Hretry Hl Hfresh)
    as (w' & Hs & Hmem' & Hacks & _ & Hops & _ & _ & Hre & Hq & Hfl' & Hp & Hoth & Hcap & rq' & Hrq' & Hkey).
  { unfold Fifo.full. apply Z.eqb_neq. lia. }
  assert (NoDup (r :: (Fifo.items (req_pool w) ++ l))) as Hnd'.
  { revert Hnd. rewrite <- Permutation_middle. done. }
  apply NoDup_cons in Hnd' as [Hni Hnd'].
  assert (forall r', r' ∈ Fifo.items (req_pool w) ++ l -> req_arr w' !! r' = req_arr w !! r') as Hold
    by (intros r' Hin; apply Hoth; by intros ->).
  exists (answer_for rq), w'. split_and!; try done.
  - split; rewrite ?Hq, ?Hp; cbn [Fifo.items Fifo.cap]; rewrite ?length_app; try done.
    + rewrite Hfl', Hfl. unfold cl_release, release_update. cbn [zero_lock now cnt].
      destruct (_ =? _); cbn; unfold set_now; simpl; f_equal; lia.
    + rewrite <- app_assoc. simpl. by rewrite <- Permutation_middle, NoDup_cons.
    + apply Forall_app. split.
      * apply Forall_forall. intros r' Hr'. destruct (proj1 (Forall_forall _ _) Hpool r' Hr') as (rq2 & H1 & H2 & H3).
        exists rq2. split_and!; [done | by rewrite Hold by (apply elem_of_app; by left) | done].
      * constructor; [|done]. exists rq'. split_and!; [done | done | by rewrite Hkey].
    + apply Forall_forall. intros r' Hr'.
      destruct (proj1 (Forall_forall _ _) Hqueue r' Hr') as (rq2 & (H1 & H2 & H3) & (_ & _ & H4 & H5)).
      assert (req_arr w' !! r' = Some rq2) by (by rewrite Hold by (apply elem_of_app; by right)).
      by exists rq2.
    + by rewrite Hcap.
    + cbn [length]. unfold QSIZE. lia.
    + unfold QDEPTH. lia.
  - unfold waiting. rewrite Hl, Hq. cbn [omap list_omap]. rewrite Hrq. simpl. f_equal. symmetry.
    apply waiting_other. intros r' Hr'. apply Hold, elem_of_app. by right.
Qed.

Lemma serve_idle w :
  serving w -> Fifo.items (req_q w) = [] -> request_handler_step CityHash128 false w = Ret true w.
Proof.
  intros Hs Hq. unfold request_handler_step. erewrite bind_ret by exact eq_refl. cbn [andb].
  unfold get_next_request. rewrite bind_assoc.
  rewrite (bind_ret _ _ _ _ _ (q_dequeue_nil RETRY_Q _ (sv_retry _ Hs))). simpl.
  rewrite bind_assoc. by rewrite (bind_ret _ _ _ _ _ (q_dequeue_nil REQ_Q _ Hq)).
Qed.

(** ** The system *)

Record sys_inv (init : I) (s : sys_state) : Prop := SysInv {
  si_len : num_dev = Z.of_nat (length (hlrs s));
  si_serving : Forall serving (hlrs s);
  si_ops : Forall (fun w => ops w = init) (hlrs s);
  si_answers : forall i w, hlrs s !! i = Some w ->
    (answer_of <$> acks w) ++ waiting w = answer_to <$> arrived_at i s
}.

Lemma si_at (init : I) s i w : sys_inv init s -> hlrs s !! i = Some w -> serving w /\ ops w = init.
Proof.
  intros [_ Hs Ho _] Hw. split; [exact (proj1 (Forall_lookup _ _) Hs _ _ Hw) | exact (proj1 (Forall_lookup _ _) Ho _ _ Hw)].
Qed.

Hypothesis num_dev_range : 0 < num_dev <= 32.

(** One message for handler [i]. *)
Lemma forward_one ws sock nr i w :
  hlr_idx CityHash128 num_dev nr = Z.of_nat i -> ws !! i = Some w -> serving w -> servable nr ->
  (now (flying w) < QDEPTH -> exists w2,
     forward_all CityHash128 num_dev [nr] sock ws = Ret 0 (<[i := w2]> ws) /\ serving w2 /\
     waiting w2 = waiting w ++ [answer_to (sock, nr)] /\ acks w2 = acks w /\ ops w2 = ops w) /\
  (now (flying w) = QDEPTH -> forward_all CityHash128 num_dev [nr] sock ws = Stop SBlock).
Proof.
  intros Hi Hw Hsv Hnr. split; intros Hroom.
  - destruct (deliver_one w sock nr Hsv Hnr Hroom) as (r & w1 & w2 & Hm & Hf & Hsv2 & Hwait & Hacks & Hops).
    exists w2. split; [|done]. cbn [forward_all]. unfold massert. rewrite (proj2 (Z.eqb_neq num_dev 0)) by lia.
    erewrite bind_ret by exact eq_refl. cbv zeta.
    pose proof (hlr_idx_range CityHash128 num_dev nr ltac:(lia)). rewrite s32_small by lia. rewrite Hi.
    rewrite (bind_ret _ _ _ _ _ (on_hlr_ok i _ ws w r w1 Hw Hm)).
    erewrite bind_ret; [|apply (on_hlr_ok i _ _ w1 0 w2);
      [apply list_lookup_insert_eq; by apply lookup_lt_Some in Hw | exact Hf]].
    by rewrite list_insert_insert_eq.
  - destruct Hsv as [_ _ Hfl _ Hpool _ _ Hall Hd]. rewrite Hfl in Hroom. cbn [now] in Hroom.
    apply (full_handler_blocks_master CityHash128 num_dev nr [] sock ws i w); try done; [apply Hnr | by rewrite Hfl | rewrite Hfl; exact Hroom |].
    destruct (Fifo.items (req_pool w)) as [|r l]; [unfold QSIZE, QDEPTH in *; simpl in Hall; lia|].
    apply Forall_cons in Hpool as [(rq & H1 & H2 & H3) _]. by exists r, l, rq.
Qed.

Lemma sys_inv_insert (init : I) s i w w2 arr :
  sys_inv init s -> hlrs s !! i = Some w -> serving w2 -> ops w2 = ops w ->
  (answer_of <$> acks w2) ++ waiting w2 = answer_to <$> arrived_at i (SysState [] arr) ->
  (forall j, j <> i -> arrived_at j (SysState [] arr) = arrived_at j s) ->
  sys_inv init (SysState (<[i := w2]> (hlrs s)) arr).
Proof.
  intros Hinv Hw Hsv Hops Hans Hoth. destruct (si_at _ _ _ _ Hinv Hw) as [_ Ho]. destruct Hinv as [Hl Hs Hop Ha].
  split; cbn [hlrs].
  - by rewrite length_insert.
  - by apply Forall_insert.
  - apply Forall_insert; [done | by rewrite Hops].
  - intros j wj Hj. destruct (decide (i = j)) as [<-|Hne].
    + rewrite list_lookup_insert_eq in Hj by (by apply lookup_lt_Some in Hw). injection Hj as <-. exact Hans.
    + rewrite list_lookup_insert_ne in Hj by done. rewrite (Ha j wj Hj). f_equal. symmetry. by apply Hoth.
Qed.

Lemma sys_inv_serve (init : I) s i w r l :
  sys_inv init s -> hlrs s !! i = Some w -> Fifo.items (req_q w) = r :: l ->
  exists w2, request_handler_step CityHash128 false w = Ret true w2 /\ Fifo.items (req_q w2) = l /\
    sys_inv init (SysState (<[i := w2]> (hlrs s)) (arrived s)).
Proof.
  intros Hinv Hw Hq. destruct (si_at _ _ _ _ Hinv Hw) as [Hsv _].
  destruct (serve_one w r l Hsv Hq) as (a & w2 & Hs & Hsv2 & Hacks & Hwait & Hl & Hops).
  exists w2. split; [done|]. split; [done|]. apply (sys_inv_insert init s i w w2 (arrived s)); try done.
  change (arrived_at i (SysState [] (arrived s))) with (arrived_at i s).
  rewrite <- (si_answers _ _ Hinv i w Hw), Hacks, Hwait, <- app_assoc. done.
Qed.

Lemma sys_inv_step (init : I) s s' : sys_inv init s -> sys_step s s' -> sys_inv init s'.
Proof.
  intros Hinv Hstep. destruct Hstep as [s sock nr ws' Hnr Hf | s i w w' Hw Hs].
  - pose proof (hlr_idx_range CityHash128 num_dev nr ltac:(lia)) as Hr.
    set (i := Z.to_nat (hlr_idx CityHash128 num_dev nr)).
    assert (hlr_idx CityHash128 num_dev nr = Z.of_nat i) as Hi by (unfold i; lia).
    destruct (lookup_lt_is_Some_2 (hlrs s) i) as [w Hw]; [pose proof (si_len _ _ Hinv); lia|].
    destruct (si_at _ _ _ _ Hinv Hw) as [Hsv _].
    destruct (forward_one (hlrs s) sock nr i w Hi Hw Hsv Hnr) as [Hgo Hwait].
    destruct (decide (now (flying w) < QDEPTH)) as [Hlt|Hge].
    + destruct (Hgo Hlt) as (w2 & Hf2 & Hsv2 & Hwt & Hacks & Hops). rewrite Hf2 in Hf.
      apply Ret_inj in Hf as [_ <-].
      apply (sys_inv_insert init s i w w2 (arrived s ++ [(sock, nr)])); try done.
      * unfold arrived_at. cbn [arrived]. rewrite filter_app, filter_cons_True, fmap_app by done.
        fold (arrived_at i s). by rewrite <- (si_answers _ _ Hinv i w Hw), Hacks, Hwt, app_assoc.
      * intros j Hne. unfold arrived_at. cbn [arrived].
        rewrite filter_app, filter_cons_False by (simpl; rewrite Hi; lia). by rewrite app_nil_r.
    + exfalso. rewrite Hwait in Hf; [done|]. destruct Hsv as [_ _ Hfl _ _ _ _ _ Hd].
      rewrite Hfl in Hge |- *. cbn [now] in *. lia.
  - destruct (Fifo.items (req_q w)) as [|r l] eqn:Hq.
    + destruct (si_at _ _ _ _ Hinv Hw) as [Hsv _]. rewrite (serve_idle w Hsv Hq) in Hs.
      apply Ret_inj in Hs as [_ <-].
      rewrite list_insert_id by done. by destruct s.
    + destruct (sys_inv_serve init s i w r l Hinv Hw Hq) as (w2 & Hs2 & _ & Hinv2).
      rewrite Hs2 in Hs. by apply Ret_inj in Hs as [_ <-].
Qed.

Lemma sys_reachable_inv (init : I) s : sys_reachable init s -> sys_inv init s.
Proof.
  induction 1 as [ws Hl Hf | s s' _ IH Hs]; [|by eapply sys_inv_step].
  split; cbn [hlrs]; try done.
  - eapply Forall_impl; [exact Hf|]. intros w [[nr Hw] _]. by eapply fresh_serving.
  - eapply Forall_impl; [exact Hf|]. intros w [[nr Hw] _]. apply Hw.
  - intros i w Hw. destruct (proj1 (Forall_lookup _ _) Hf _ _ Hw) as [[nr Hfw] Ha]. rewrite Ha.
    unfold waiting. destruct (fh_queues _ _ _ Hfw) as [-> _]. done.
Qed.

(** C14: end to end, in every interleaving of the master and the handler threads.
    What a handler has answered, followed by the answers to what waits in its
    queue, is what arrived for it, in order, each message once and with its own
    socket, number and type; at most [QDEPTH] wait; and no request ever changes
    an index. *)
Theorem system_answers_in_order (init : I) (s : sys_state) (i : nat) (w : world I P) :
  sys_reachable init s -> hlrs s !! i = Some w ->
  (answer_of <$> acks w) ++ waiting w = answer_to <$> arrived_at i s /\
  Z.of_nat (length (waiting w)) = now (flying w) /\ now (flying w) <= QDEPTH /\ ops w = init.
Proof.
  intros Hr Hw. pose proof (sys_reachable_inv init s Hr) as Hinv. destruct (si_at _ _ _ _ Hinv Hw) as [Hsv Hops].
  split; [by apply (si_answers init)|]. destruct Hsv as [_ _ Hfl _ _ Hq _ _ Hd]. rewrite Hfl. cbn [now].
  split_and!; [|done|done]. f_equal. unfold waiting. clear Hfl Hd.
  induction Hq as [|r l (rq & (_ & Hrq & _) & _) Hq IH]; [done|]. cbn [omap list_omap]. rewrite Hrq. simpl. by rewrite IH.
Qed.

(** The master waits only when it must: in every reachable state a message is
    queued at its handler if fewer than [QDEPTH] requests are in flight there,
    and otherwise the master waits for that handler. *)
Theorem master_waits_only_when_full (init : I) (s : sys_state) (sock : Z) (nr : netreq) :
  sys_reachable init s -> servable nr ->
  exists i w, hlr_idx CityHash128 num_dev nr = Z.of_nat i /\ hlrs s !! i = Some w /\
    (now (flying w) < QDEPTH ->
       exists ws', forward_all CityHash128 num_dev [nr] sock (hlrs s) = Ret 0 ws') /\
    (now (flying w) = QDEPTH -> forward_all CityHash128 num_dev [nr] sock (hlrs s) = Stop SBlock).
Proof.
  intros Hr Hnr. pose proof (sys_reachable_inv init s Hr) as Hinv.
  pose proof (hlr_idx_range CityHash128 num_dev nr ltac:(lia)) as Hi. pose proof (si_len _ _ Hinv).
  destruct (lookup_lt_is_Some_2 (hlrs s) (Z.to_nat (hlr_idx CityHash128 num_dev nr))) as [w Hw]; [lia|].
  exists (Z.to_nat (hlr_idx CityHash128 num_dev nr)), w. destruct (si_at _ _ _ _ Hinv Hw) as [Hsv _].
  destruct (forward_one (hlrs s) sock nr _ w ltac:(rewrite Z2Nat.id; [reflexivity | lia]) Hw Hsv Hnr) as [H1 H2].
  split_and!; [lia | done | | exact H2]. intros Hlt. destruct (H1 Hlt) as (w2 & Hf & _). eauto.
Qed.

Lemma sum_list_insert (l : list nat) i x y :
  l !! i = Some x -> (sum_list (<[i := y]> l) + x = sum_list l + y)%nat.
Proof.
  revert i. induction l as [|z l IH]; intros [|i] Hi; try done; simpl in *; [injection Hi as ->; lia|].
  specialize (IH i Hi). lia.
Qed.

(** The requests in all queues. *)
Definition backlog (s : sys_state) : nat := sum_list ((fun w => length (Fifo.items (req_q w))) <$> hlrs s).

Lemma sum_list_pos (l : list nat) : (0 < sum_list l)%nat -> exists i x, l !! i = Some (S x).
Proof.
  induction l as [|[|x] l IH]; simpl; intros Hp; [lia | | by exists 0%nat, x].
  destruct (IH Hp) as (i & x & Hi). by exists (S i), x.
Qed.

Lemma sum_list_zero (l : list nat) i x : sum_list l = 0%nat -> l !! i = Some x -> x = 0%nat.
Proof.
  revert i. induction l as [|z l IH]; intros [|i] Hs Hi; try done; simpl in *; [injection Hi as ->; lia|].
  apply (IH i); [lia | done].
Qed.

(** C22: every message is answered: from every reachable state the handler
    threads alone, in as many turns as requests wait, come to a state in which
    each handler has answered everything that arrived for it and all permits are
    back. *)
Theorem system_drains (init : I) (s : sys_state) :
  sys_reachable init s ->
  exists s', nsteps sys_step (backlog s) s s' /\ arrived s' = arrived s /\
    forall i w, hlrs s' !! i = Some w ->
      answer_of <$> acks w = answer_to <$> arrived_at i s /\ now (flying w) = 0.
Proof.
  intros Hr. pose proof (sys_reachable_inv init s Hr) as Hinv. clear Hr. revert s Hinv.
  assert (forall n s, sys_inv init s -> backlog s = n -> exists s', nsteps sys_step n s s' /\ arrived s' = arrived s /\
            forall i w, hlrs s' !! i = Some w -> answer_of <$> acks w = answer_to <$> arrived_at i s /\ now (flying w) = 0)
    as Hall; [|intros s Hinv; by apply Hall].
  induction n as [|n IH]; intros s Hinv Hn.
  - exists s. split; [constructor|]. split; [done|]. intros i w Hw. destruct (si_at _ _ _ _ Hinv Hw) as [Hsv _].
    assert (Fifo.items (req_q w) = []) as Hq.
    { apply nil_length_inv. apply (sum_list_zero _ i _ Hn). by rewrite list_lookup_fmap, Hw. }
    rewrite <- (si_answers _ _ Hinv i w Hw), (sv_flying _ Hsv). unfold waiting. rewrite Hq. split; [by rewrite app_nil_r | done].
  - destruct (sum_list_pos ((fun w => length (Fifo.items (req_q w))) <$> hlrs s)) as (i & x & Hi);
      [unfold backlog in Hn; lia|].
    rewrite list_lookup_fmap in Hi. destruct (hlrs s !! i) as [w|] eqn:Hw; [|done].
    cbn [fmap option_fmap option_map] in Hi. injection Hi as Hx.
    destruct (Fifo.items (req_q w)) as [|r l] eqn:Hq; [done|].
    destruct (sys_inv_serve init s i w r l Hinv Hw Hq) as (w2 & Hs2 & Hl & Hinv2).
    destruct (IH _ Hinv2) as (s' & Hsteps & Harr & Hend).
    + pose proof (sum_list_insert ((fun w => length (Fifo.items (req_q w))) <$> hlrs s) i (S (length l)) (length l)) as Hsum.
      unfold backlog in *. cbn [hlrs]. rewrite list_fmap_insert, Hl.
      rewrite list_lookup_fmap, Hw in Hsum. cbn [fmap option_fmap option_map] in Hsum. rewrite Hq in Hsum.
      specialize (Hsum eq_refl). cbn [hlrs] in *. lia.
    + exists s'. split; [|done]. econstructor; [by eapply sys_serve | done].
Qed.
End System.

(** ** A run *)

#[local] Existing Instance null_ops.
#[local] Existing Instance null_laws.

(** Two new handlers; a message is queued at the second and served. *)
Lemma sample_system :
  exists (s : sys_state (I:=unit) (P:=unit)), sys_reachable first_byte_hash 2 tt s /\
    arrived s = [(5, sample_netreq 1 7)].
Proof.
  destruct (handler_init_fresh (P:=unit) tt [47; 100] 3 8192 512 (blank_world tt)) as (w & _ & Hw & _ & Hack);
    [simpl; lia | lia | by vm_compute | by split|].
  pose proof (fresh_serving tt (init_nr 8192 512) w Hw) as Hsv.
  destruct (forward_one first_byte_hash 2 ltac:(lia) [w; w] 5 (sample_netreq 1 7) 1 w) as [Hgo _];
    [by vm_compute | done | done | |].
  { split; [by pose proof (Forall_inv sample_batch_fits) | by right]. }
  destruct Hgo as (w2 & Hf & _ & _ & _).
  { rewrite (fh_flying _ _ _ Hw). by vm_compute. }
  exists (SysState (<[1%nat := w2]> [w; w]) ([] ++ [(5, sample_netreq 1 7)])). split; [|done].
  eapply sys_next; [apply (sys_init _ _ _ [w; w]); [done|]|].
  - constructor; [|constructor; [|constructor]]; (split; [by exists (init_nr 8192 512) | exact Hack]).
  - apply (sys_deliver _ _ (SysState [w; w] [])); [|exact Hf].
    split; [by pose proof (Forall_inv sample_batch_fits) | by right].
Qed.

Lemma system_answers_in_order_witness :
  exists (s : sys_state (I:=unit) (P:=unit)) w, hlrs s !! 1%nat = Some w /\
    (answer_of <$> acks w) ++ waiting w = [(5, 7, REQ_TYPE_SET)].
Proof.
  destruct sample_system as (s & Hr & Ha).
  pose proof (si_len _ _ _ _ (sys_reachable_inv first_byte_hash 2 ltac:(lia) tt s Hr)) as Hl.
  destruct (lookup_lt_is_Some_2 (hlrs s) 1) as [w Hw]; [lia|].
  destruct (system_answers_in_order first_byte_hash 2 ltac:(lia) tt s 1 w Hr Hw) as (H1 & _).
  exists s, w. split; [exact Hw|]. rewrite H1. unfold arrived_at. rewrite Ha. by vm_compute.
Defined.

Lemma master_waits_only_when_full_witness :
  exists (s : sys_state (I:=unit) (P:=unit)) i w, hlrs s !! i = Some w /\
    (now (flying w) < QDEPTH ->
       exists ws', forward_all first_byte_hash 2 [sample_netreq 0 8] 6 (hlrs s) = Ret 0 ws').
Proof.
  destruct sample_system as (s & Hr & Ha).
  destruct (master_waits_only_when_full first_byte_hash 2 ltac:(lia) tt s 6 (sample_netreq 0 8) Hr) as (i & w & _ & Hw & H1 & _).
  - split; [|by right]. by pose proof (Forall_inv (Forall_inv_tail sample_batch_fits)).
  - exists s, i, w. split; [exact Hw | exact H1].
Defined.

Lemma system_drains_witness :
  exists (s s' : sys_state (I:=unit) (P:=unit)) w, nsteps (sys_step first_byte_hash 2) (backlog s) s s' /\
    hlrs s' !! 1%nat = Some w /\ answer_of <$> acks w = [(5, 7, REQ_TYPE_SET)].
Proof.
  destruct sample_system as (s & Hr & Ha).
  destruct (system_drains first_byte_hash 2 ltac:(lia) tt s Hr) as (s' & Hsteps & Harr & Hend).
  destruct (lookup_lt_is_Some_2 (hlrs s') 1) as [w Hw].
  { assert (sys_reachable first_byte_hash 2 tt s') as Hr'.
    { clear Harr Hend Ha. induction Hsteps as [|n x y z Hxy Hyz IH]; [done|]. apply IH. by eapply sys_next. }
    pose proof (si_len _ _ _ _ (sys_reachable_inv first_byte_hash 2 ltac:(lia) tt s' Hr')). lia. }
  destruct (Hend 1%nat w Hw) as [H1 _]. exists s, s', w. split; [exact Hsteps|]. split; [exact Hw|].
  rewrite H1. unfold arrived_at. rewrite Ha. by vm_compute.
Defined.
