(* ===== verification/Shutdown.v ===== *)
(** * How the threads end ([handler_free] of [src/handler.c], [bench_free] of
    [src/client.cc])

    Both destructors set a flag that the threads test, and wait in a loop of
    [pthread_tryjoin_np] until they have ended. What is freed afterwards is in
    [Lifetime]; here is whether the threads end. *)

From Stdlib Require Import ZArith Lia.
From stdpp Require Import prelude gmap.
From S2P Require Import Prelude Config CondLock Queue Bytes Util World Request Device DeviceSpec Handler Runtime.
From S2P Require Import Keygen Master Client.

#[local] Open Scope Z_scope.

(** ** The server's two threads *)

Section Server.
Context {I P : Type} `{KvOps I P} `{!KvOpsLaws I P}.
Variable CityHash128 : list Z -> Z -> Z * Z.
Implicit Types w : world I P.

(** The thread that [handler_free] waits for has ended: its next turn is its
    last, and no number of turns changes that. *)
Definition handler_ends (n : nat) w w' : Prop :=
  request_handler CityHash128 true n w = Ret tt w' /\ request_handler_step CityHash128 true w' = Ret false w'.

(** C31: The end of a handler thread. With the flag set, and all permits held by
    requests in its queue, it answers these and ends. While a permit is held by a
    request that is not queued, as one that waits for the device would be, it
    turns for ever; the poller, which would complete the request, ends at once. *)
Theorem handler_thread_stops (rs : list Z) (rqs : list request) w :
  mem_ok w -> zero_lock (flying w) = false ->
  Fifo.items (retry_q w) = [] -> Fifo.items (req_q w) = rs -> NoDup rs ->
  Forall2 (fresh_request w) rs rqs ->
  Z.of_nat (length (Fifo.items (req_pool w)) + length rs) <= Fifo.cap (req_pool w) ->
  Z.of_nat (length rs) <= now (flying w) ->
  (now (flying w) = Z.of_nat (length rs) ->
     exists w', (forall n, handler_ends (length rs + n) w w') /\
       answer_of <$> acks w' = (answer_of <$> acks w) ++ (answer_for <$> rqs) /\ now (flying w') = 0) /\
  (now (flying w) <> Z.of_nat (length rs) ->
     exists w', (forall n, request_handler CityHash128 true (length rs + n) w = Ret tt w') /\
       request_handler_step CityHash128 true w' = Ret true w' /\
       forall evs turns, device_poller true (evs :: turns) w' = Ret false w').
Proof.
  intros Hm Hz Hretry Hq Hnd Hfr Hcap Hle.
  destruct (serve_queue CityHash128 true rs rqs w Hm (fun _ => conj Hz Hle) Hretry Hq Hnd Hfr Hcap)
    as (w' & [Hrun Hack _ _ _ _ [Hq' Hre'] _ Hfl]).
  destruct (Hfl Hz) as [_ Hn]. split; intros Hnow; exists w'.
  - assert (request_handler_step CityHash128 true w' = Ret false w') as Hlast.
    { unfold request_handler_step. erewrite bind_ret by exact eq_refl.
      rewrite (proj2 (Z.eqb_eq _ _)) by lia. done. }
    split_and!; [| done | lia]. intros n. split; [|done]. rewrite Hrun.
    destruct n as [|n]; [done|]. cbn [request_handler]. by rewrite (bind_ret _ _ _ _ _ Hlast).
  - assert (request_handler_step CityHash128 true w' = Ret true w') as Hturn.
    { unfold request_handler_step. erewrite bind_ret by exact eq_refl.
      rewrite (proj2 (Z.eqb_neq _ _)) by lia. cbn [andb].
      rewrite (bind_ret _ _ w' NULL w'); [done|]. unfold get_next_request.
      rewrite (bind_ret _ _ _ _ _ (q_dequeue_nil RETRY_Q _ Hre')). cbn.
      by rewrite (bind_ret _ _ _ _ _ (q_dequeue_nil REQ_Q _ Hq')). }
    split_and!; [| done | done]. intros n. rewrite Hrun.
    induction n as [|n IH]; [done|]. cbn [request_handler]. by rewrite (bind_ret _ _ _ _ _ Hturn).
Qed.
End Server.

(** ** The client's two threads *)

(** [ack_poller]: at the test of the flag, in its read, or ended; and the main
    thread in [bench_free]: in [sleep(5)], in the loop of [pthread_tryjoin_np], or
    past it. *)
Inductive poller_pc : Type := PTest | PRead | PEnded.
Inductive main_pc : Type := MSleep | MJoin | MFreed.

Record exiting : Type := Exiting {
  ex_client : client;
  ex_stop : bool;
  ex_sock : list sock_event;   (* what has arrived and is not read *)
  ex_poller : poller_pc;
  ex_main : main_pc
}.

Inductive exit_action : Type :=
| Poller
| MainTurn
| Arrives (ev : sock_event).

(** One step. The socket of the client is blocking: a read of nothing is no
    step. A [tryjoin] that fails is a step that changes nothing. *)
Definition exit_step (a : exit_action) (e : exiting) : option exiting :=
  let '(Exiting c stop sock p m) := e in
  match a with
  | Poller =>
      match p with
      | PTest => Some (Exiting c stop sock (if stop : bool then PEnded else PRead) m)
      | PRead =>
          match ack_poller false sock c with
          | Ret (go, rest) c' => Some (Exiting c' stop rest (if go : bool then PTest else PEnded) m)
          | Stop _ => None
          end
      | PEnded => None
      end
  | MainTurn =>
      match m with
      | MSleep => Some (Exiting c true sock p MJoin)
      | MJoin => Some (Exiting c stop sock p (match p with PEnded => MFreed | _ => MJoin end))
      | MFreed => None
      end
  | Arrives ev => Some (Exiting c stop (sock ++ [ev]) p m)
  end.

Fixpoint exit_run (l : list exit_action) (e : exiting) : option exiting :=
  match l with
  | [] => Some e
  | a :: l' => match exit_step a e with Some e1 => exit_run l' e1 | None => None end
  end.

Definition no_arrival (a : exit_action) : Prop := match a with Arrives _ => False | _ => True end.

(** In the read, with nothing to read. *)
Definition stuck (e : exiting) : Prop := ex_poller e = PRead /\ ex_sock e = [] /\ ex_main e <> MFreed.

Lemma stuck_step a e e1 : stuck e -> no_arrival a -> exit_step a e = Some e1 -> stuck e1.
Proof.
  destruct e as [c stop sock p m]. intros (Hp & Hs & Hm) Ha. cbn in Hp, Hs, Hm. subst p sock.
  destruct a as [| |ev]; [| |done]; cbn [exit_step]; [done|].
  destruct m; intros [= <-]; by split_and!.
Qed.

Lemma stuck_run l e e' : stuck e -> Forall no_arrival l -> exit_run l e = Some e' -> stuck e'.
Proof.
  revert e. induction l as [|a l IH]; intros e He Hl; cbn [exit_run]; [by intros [= <-]|].
  apply Forall_cons in Hl as [Ha Hl]. destruct (exit_step a e) as [e1|] eqn:E; [|done].
  apply IH; [by eapply stuck_step | done].
Qed.

(** C38: The client does not end by itself. When the last answer has come, the thread
    that reads answers tests the flag, which is not set yet, and enters a blocking
    read, where it does not see the flag: unless something else arrives,
    [bench_free] waits in every interleaving and frees nothing. It ends when the
    server closes the connection, or if the flag was set before the test. *)
Theorem client_waits_for_server (c : client) :
  let e := Exiting c false [] PTest MSleep in
  (exists e1, exit_step Poller e = Some e1 /\
     forall l e', Forall no_arrival l -> exit_run l e1 = Some e' -> ex_main e' <> MFreed) /\
  (exists e', exit_run [Poller; MainTurn; MainTurn; Arrives Eof; Poller; MainTurn] e = Some e' /\ ex_main e' = MFreed) /\
  (exists e', exit_run [MainTurn; Poller; MainTurn] e = Some e' /\ ex_main e' = MFreed).
Proof.
  intros e. split_and!.
  - eexists. split; [done|]. intros l e' Hl Hrun. by eapply stuck_run in Hrun as (_ & _ & ?).
  - eexists. split; done.
  - eexists. split; done.
Qed.

(** ** Concrete runs *)

#[local] Existing Instance null_ops.
#[local] Existing Instance null_laws.

Lemma handler_thread_stops_witness :
  exists w', (forall n, handler_ends (fun _ _ => (11, 12)) (2 + n) arrived_world w') /\
    (answer_of <$> acks w') = [(4, 5, REQ_TYPE_SET); (5, 5, REQ_TYPE_SET)].
Proof.
  destruct (handler_thread_stops (fun _ _ => (11, 12)) [1; 2] [set_request 4; set_request 5] arrived_world)
    as [H _].
  - split; simpl; [lia|]. intros p b Hp. by rewrite lookup_empty in Hp.
  - exact eq_refl.
  - exact eq_refl.
  - exact eq_refl.
  - repeat constructor; set_solver.
  - repeat constructor; try done; try exact eq_refl; by right.
  - by vm_compute.
  - by vm_compute.
  - destruct (H eq_refl) as (w' & H1 & H2 & _). exists w'. split; [exact H1|]. rewrite H2. exact eq_refl.
Defined.

(** The main thread wakes up, looks three times and is still waiting. *)
Definition idle_client : client :=
  Client (Keygen.Keygen [] 0 32 KEY_DIST_UNIFORM 50 50 0 0 0 0) CLIENT_QDEPTH 0 [] zero_table 0 Done [] 0.

Lemma client_waits_for_server_witness :
  exists e1, exit_run [Poller; MainTurn; MainTurn; MainTurn; MainTurn] (Exiting idle_client false [] PTest MSleep) = Some e1 /\
    ex_main e1 <> MFreed.
Proof.
  destruct (client_waits_for_server idle_client) as ((e1 & E & H) & _ & _).
  eexists. split; [exact eq_refl|]. apply (H [MainTurn; MainTurn; MainTurn; MainTurn]).
  - repeat constructor.
  - revert E. cbn. intros [= <-]. exact eq_refl.
Defined.
