(* ===== verification/Wire.v ===== *)
(** * Messages on the wire ([src/util.c])

    The functions that write and read one message, and the two compile-time
    variants of [send_ack]: [SEND_ACK_BUFFERING] collects acknowledgements, [YCSB]
    shortens them to the sequence number. *)

From Stdlib Require Import ZArith Lia.
From stdpp Require Import prelude gmap.
From S2P Require Import Prelude Config Bytes Util World Request Master Client.

#[local] Open Scope Z_scope.

(** ** Requests *)

(** The bytes that one [write] gives to the socket. *)
Definition send_request (nr : netreq) : list Z := encode_netreq nr.
Definition send_request_bulk (nr_arr : list netreq) (count : nat) : list Z :=
  concat (encode_netreq <$> take count nr_arr).

Definition recv_request (s : list sock_event) : option sock_read := read_sock s NETREQ_SIZE.
Definition recv_ack (s : list sock_event) : option sock_read := read_sock s NETACK_SIZE.

(** ** Acknowledgements *)

Definition ACK_BUF_MAX : nat := 64.

(** [ack_buf] with its first [buf_cnt] entries, and what was written. *)
Record ack_chan : Type := AckChan { ack_buf : list netack; chan : list Z }.

Section SendAck.
Variable SEND_ACK_BUFFERING YCSB : bool.

(** One entry of [ack_buf], or one acknowledgement as it is written. *)
Definition ack_bytes (na : netack) : list Z :=
  if YCSB then le_bytes 4 (ack_seq_num na) else encode_netack na.

Definition ack_buf_flush (c : ack_chan) : ack_chan :=
  AckChan [] (chan c ++ concat (ack_bytes <$> ack_buf c)).

Definition send_ack (na : netack) (c : ack_chan) : ack_chan :=
  if SEND_ACK_BUFFERING then
    if decide (ack_type na = REQ_TYPE_GET) then AckChan (ack_buf c) (chan c ++ ack_bytes na)
    else
      let c' := AckChan (ack_buf c ++ [na]) (chan c) in
      if decide (length (ack_buf c') = ACK_BUF_MAX) then ack_buf_flush c' else c'
  else AckChan (ack_buf c) (chan c ++ ack_bytes na).

Fixpoint send_acks (nas : list netack) (c : ack_chan) : ack_chan :=
  match nas with
  | [] => c
  | na :: nas' => send_acks nas' (send_ack na c)
  end.
End SendAck.

(** ** Receiving one message at a time *)

(** A read that is still running has met fewer bytes than it wants. *)
Lemma read_loop_short brk count got s :
  no_eof s -> read_loop brk count got s = None -> Z.of_nat (length (got ++ stream s)) < count.
Proof.
  revert got. induction s as [|e s IH]; intros got Hn Hr; cbn [read_loop] in Hr; cbv zeta in Hr;
    destruct (Z.of_nat (length got) <? count) eqn:Hlt; try done.
  - apply Z.ltb_lt in Hlt. simpl. by rewrite app_nil_r.
  - apply Forall_cons in Hn as [He Hn]. destruct e as [b| |]; [| |done].
    + destruct (Z.of_nat (length b) <=? _); [|done].
      destruct (brk _); [done|]. simpl. rewrite app_assoc. by apply IH.
    + destruct (Z.of_nat (length got) =? 0); [done | by apply IH].
Qed.

(** A read that answers -1 has met nothing. *)
Lemma read_sock_again s count r :
  sock_ok s -> 0 < count -> read_sock s count = Some r -> rd_ret r = -1 -> s = Again :: rd_rest r.
Proof.
  unfold read_sock. intros Hok Hc Hr Hret. destruct s as [|e s]; cbn [read_loop] in Hr; cbv zeta in Hr;
    simpl length in Hr; rewrite (proj2 (Z.ltb_lt _ _)) in Hr by lia; [done|].
  destruct e as [b| |]; [|by injection Hr as <-|by injection Hr as <-].
  apply Forall_cons in Hok as [Hb Hok]. exfalso. simpl app in Hr.
  destruct (Z.of_nat (length b) <=? _) eqn:Hle; [|injection Hr as <-; simpl in Hret; lia].
  apply Z.leb_le in Hle.
  destruct (read_loop_spec _ _ _ _ _ Hok Hr ltac:(lia)) as [_ [(H1 & _) | [(_ & -> & _) | (H1 & _)]]]; [lia | done | lia].
Qed.

Section Receive.
Context {A : Type} (encode : A -> list Z) (decode : list Z -> option A) (size : Z) (ok : A -> Prop).
Hypothesis encode_size : forall a, ok a -> length (encode a) = Z.to_nat size.
Hypothesis decode_encode : forall a, ok a -> decode (encode a) = Some a.
Hypothesis size_pos : 0 < size.

(** A caller that reads messages until it would wait, and tries again when there
    is nothing to read. *)
Fixpoint recv_each (fuel : nat) (s : list sock_event) : list (option A) :=
  match fuel with
  | O => []
  | S n =>
      match read_sock s size with
      | Some r =>
          if rd_ret r =? -1 then recv_each n (rd_rest r)
          else if rd_ret r =? 0 then []
          else decode (rd_buf r) :: recv_each n (rd_rest r)
      | None => []
      end
  end.

Lemma recv_each_all fuel s l :
  sock_ok s -> no_eof s -> Forall ok l -> stream s = concat (encode <$> l) -> (length s + length l < fuel)%nat ->
  recv_each fuel s = Some <$> l.
Proof.
  revert s l. induction fuel as [|fuel IH]; intros s l Hok Hn Hl Hs Hf; [lia|]. cbn [recv_each].
  destruct (read_sock s size) as [r|] eqn:Hr.
  - pose proof (read_loop_no_eof _ _ _ _ _ Hn Hr) as Hn'.
    destruct (read_loop_spec _ _ _ _ _ Hok Hr ltac:(simpl; lia)) as [Hok' Hcase].
    pose proof (read_loop_shorter _ _ _ _ _ Hr) as Hsh.
    destruct (read_sock_exact s size r Hok size_pos Hr) as [(H1 & H2 & H3) | [(H1 & H2) | (H1 & _)]]; rewrite H1.
    + rewrite !(proj2 (Z.eqb_neq _ _)) by lia. destruct Hl as [|a l Ha Hl].
      { cbn in Hs. rewrite Hs in H3. apply app_eq_nil in H3 as [H3 _]. rewrite H3 in H2. simpl in H2. lia. }
      rewrite fmap_cons in Hs. cbn [concat] in Hs. rewrite Hs in H3.
      apply app_inj_1 in H3 as [Hb Hrest]; [|rewrite encode_size by done; lia].
      rewrite Hb, decode_encode by done. rewrite fmap_cons. f_equal. cbn [length] in Hf.
      apply IH; [done | done | done | done | lia].
    + cbn. pose proof (read_sock_again _ _ _ Hok size_pos Hr H1) as Hs'. apply (f_equal length) in Hs'. cbn in Hs'.
      apply IH; [done | done | done | congruence | lia].
    + destruct Hcase as [(E & _ & _ & [E' | [? _]] & _) | [(E & _) | (_ & _ & _ & _ & s' & E)]]; [lia | done | lia |].
      rewrite E in Hn'. by apply Forall_cons in Hn' as [? _].
  - apply read_loop_short in Hr; [|done]. cbn in Hr. rewrite Hs in Hr. destruct Hl as [|a l Ha Hl]; [done|].
    rewrite fmap_cons in Hr. cbn [concat] in Hr. rewrite length_app, encode_size in Hr by done. lia.
Qed.
End Receive.

(** C25: What is sent is received. A sequence of [send_request]s, or one
    [send_request_bulk], reaches a reader that calls [recv_request] as the same
    messages in the same order, and the acknowledgements that [send_ack] writes
    reach one that calls [recv_ack], into whatever pieces the network cuts the
    bytes. *)
Theorem sent_is_received (nrs : list netreq) (nas : list netack) (s1 s2 : list sock_event) (fuel : nat) :
  Forall netreq_ok nrs -> Forall netack_ok nas -> sock_ok s1 -> no_eof s1 -> sock_ok s2 -> no_eof s2 ->
  stream s1 = concat (send_request <$> nrs) -> stream s2 = chan (send_acks false false nas (AckChan [] [])) ->
  (length s1 + length nrs < fuel)%nat -> (length s2 + length nas < fuel)%nat ->
  concat (send_request <$> nrs) = send_request_bulk nrs (length nrs) /\
  recv_each decode_netreq NETREQ_SIZE fuel s1 = Some <$> nrs /\
  recv_each decode_netack NETACK_SIZE fuel s2 = Some <$> nas.
Proof.
  intros Hnrs Hnas Hok1 Hn1 Hok2 Hn2 Hs1 Hs2 Hf1 Hf2. split_and!.
  - unfold send_request_bulk. by rewrite firstn_all.
  - by apply (recv_each_all encode_netreq decode_netreq NETREQ_SIZE netreq_ok encode_netreq_length decode_encode_netreq eq_refl).
  - apply (recv_each_all encode_netack decode_netack NETACK_SIZE netack_ok encode_netack_length decode_encode_netack eq_refl);
      try assumption.
    rewrite Hs2. clear. assert (forall c, chan (send_acks false false nas c) = chan c ++ concat (encode_netack <$> nas)) as H.
    { induction nas as [|na nas IH]; intros c; [by rewrite app_nil_r|]. cbn [send_acks]. rewrite IH. cbn.
      by rewrite <- app_assoc. }
    by rewrite H.
Qed.

(** ** Buffered acknowledgements *)

Definition is_get (na : netack) : Prop := ack_type na = REQ_TYPE_GET.

#[export] Instance is_get_dec na : Decision (is_get na).
Proof. unfold is_get. apply _. Defined.

Definition no_get (na : netack) : Prop := ~ is_get na.

#[export] Instance no_get_dec na : Decision (no_get na).
Proof. unfold no_get. apply _. Defined.

(** What was written is [ws]; the rest of the acknowledgements [nas] is in the
    buffer. Those of GETs overtake the others, and these are written 64 at a
    time. *)
Record buffered (YCSB : bool) (nas ws : list netack) (c : ack_chan) : Prop := Buffered {
  bf_chan : chan c = concat (ack_bytes YCSB <$> ws);
  bf_gets : filter is_get ws = filter is_get nas;
  bf_others : filter no_get ws ++ ack_buf c = filter no_get nas;
  bf_len : (length (ack_buf c) < ACK_BUF_MAX)%nat;
  bf_buf : Forall no_get (ack_buf c);
  bf_count : exists k, length (filter no_get ws) = (k * ACK_BUF_MAX)%nat
}.

Lemma filter_all {A} (P : A -> Prop) `{!forall x, Decision (P x)} (l : list A) : Forall P l -> filter P l = l.
Proof. induction 1 as [|x l Hx Hl IH]; [done|]. by rewrite filter_cons, decide_True, IH. Qed.

Lemma filter_get_none (l : list netack) : Forall no_get l -> filter is_get l = [].
Proof. induction 1 as [|x l Hx Hl IH]; [done|]. by rewrite filter_cons, decide_False, IH. Qed.

Lemma send_ack_buffered YCSB nas ws c na :
  buffered YCSB nas ws c -> exists ws', buffered YCSB (nas ++ [na]) ws' (send_ack true YCSB na c).
Proof.
  intros [H1 H2 H3 H4 H5 (k & H6)]. unfold send_ack. cbn zeta. cbn [ack_buf chan].
  destruct (decide (ack_type na = REQ_TYPE_GET)) as [Hg|Hg].
  - assert (filter no_get [na] = []) as E1 by (rewrite filter_cons, decide_False; [done | intros Hn; by apply Hn]).
    assert (filter is_get [na] = [na]) as E2 by by rewrite filter_cons, decide_True.
    exists (ws ++ [na]). split; cbn [ack_buf chan]; try done.
    + by rewrite H1, fmap_app, concat_app; cbn; rewrite app_nil_r.
    + by rewrite !filter_app, H2.
    + by rewrite !filter_app, E1, !app_nil_r.
    + exists k. by rewrite filter_app, E1, app_nil_r.
  - assert (filter no_get [na] = [na]) as E1 by by rewrite filter_cons, decide_True.
    assert (filter is_get [na] = []) as E2 by by rewrite filter_cons, decide_False.
    assert (Forall no_get (ack_buf c ++ [na])) as H5' by (apply Forall_app; split; [done | by constructor]).
    destruct (decide (length (ack_buf c ++ [na]) = ACK_BUF_MAX)) as [Hl|Hl].
    + exists (ws ++ (ack_buf c ++ [na])). split; unfold ack_buf_flush; cbn [ack_buf chan].
      * by rewrite H1, (fmap_app _ ws), concat_app.
      * by rewrite !filter_app, E2, (filter_get_none (ack_buf c)) by done; rewrite H2, !app_nil_r.
      * rewrite app_nil_r, !filter_app, <- H3, <- app_assoc. f_equal. by rewrite E1, filter_all.
      * unfold ACK_BUF_MAX. simpl; lia.
      * constructor.
      * exists (S k). rewrite filter_app, length_app, H6, (filter_all no_get _ H5'), Hl. lia.
    + exists ws. split; cbn [ack_buf chan]; try done.
      * by rewrite filter_app, E2, app_nil_r.
      * by rewrite filter_app, E1, app_assoc, H3.
      * rewrite length_app in *. cbn in *. lia.
      * by exists k.
Qed.

Lemma send_acks_buffered YCSB nas1 nas2 ws c :
  buffered YCSB nas1 ws c -> exists ws', buffered YCSB (nas1 ++ nas2) ws' (send_acks true YCSB nas2 c).
Proof.
  revert nas1 ws c. induction nas2 as [|na nas2 IH]; intros nas1 ws c Hb.
  - exists ws. by rewrite app_nil_r.
  - destruct (send_ack_buffered _ _ _ _ na Hb) as [ws' Hb']. destruct (IH _ _ _ Hb') as [ws2 Hb2].
    exists ws2. by rewrite <- app_assoc in Hb2.
Qed.

(** [SEND_ACK_BUFFERING] keeps the order of each kind and loses nothing, but holds
    acknowledgements back: of those that are no GETs a multiple of 64 has been
    written, and the remainder stays in the buffer until more come. A client that
    waits for its last answers waits for ever. *)
Theorem buffered_acks_held_back (YCSB : bool) (nas : list netack) :
  let c := send_acks true YCSB nas (AckChan [] []) in
  let others := filter no_get nas in
  exists ws, chan c = concat (ack_bytes YCSB <$> ws) /\ filter is_get ws = filter is_get nas /\
    filter no_get ws = take (length others / ACK_BUF_MAX * ACK_BUF_MAX)%nat others /\
    ack_buf c = drop (length others / ACK_BUF_MAX * ACK_BUF_MAX)%nat others.
Proof.
  intros c others. destruct (send_acks_buffered YCSB [] nas [] (AckChan [] [])) as (ws & [H1 H2 H3 H4 _ (k & H6)]).
  { split; cbn; try done; [unfold ACK_BUF_MAX; lia | by exists 0%nat]. }
  fold c in H1, H3, H4. cbn [app] in H2, H3. exists ws. fold others in H3.
  assert ((length others / ACK_BUF_MAX * ACK_BUF_MAX)%nat = length (filter no_get ws)) as ->.
  { rewrite <- H3, length_app, H6. rewrite Nat.div_add_l by done. rewrite (Nat.div_small (length (ack_buf c))) by done. lia. }
  rewrite <- H3. split_and!; [done | done | by rewrite take_app_length | by rewrite drop_app_length].
Qed.

(** ** Concrete runs *)

Lemma sent_is_received_witness :
  recv_each decode_netreq NETREQ_SIZE 20 sample_pieces = Some <$> sample_batch.
Proof.
  refine (proj1 (proj2 (sent_is_received sample_batch [] sample_pieces [] 20 _ _ _ _ _ _ _ _ _ _))).
  - eapply Forall_impl; [exact sample_batch_fits | by intros ? [? _]].
  - constructor.
  - repeat constructor; discriminate.
  - repeat constructor; discriminate.
  - constructor.
  - constructor.
  - by vm_compute.
  - reflexivity.
  - simpl. lia.
  - simpl. lia.
Defined.
