(* ===== verification/Pair.v ===== *)
(** * Key-value pairs on the device: what the two indexes share

    Both indexes write a pair by taking a block, copying the key in front of the
    value and writing the block under a callback that ends the request. The
    lemmas here do that once, for any index whose [FN_net_end_req] is
    [net_end_req]. *)

From Stdlib Require Import ZArith Lia.
From stdpp Require Import prelude gmap.
From S2P Require Import Prelude Config Queue CondLock World Stopwatch KvPair Request Device DeviceSpec Handler.

#[local] Open Scope Z_scope.

Section Pair.
Context {I P : Type}.
Implicit Types w : world I P.

(** The functions behind the callbacks of the index. *)
Variable ex : fn -> Z -> M (world I P) unit.
Hypothesis ex_end : forall r, ex FN_net_end_req r = net_end_req r.

(** The first invalid address of the index, and the bits of its size field. *)
Variable lim : Z.
Variable bits : Z.

(** ** Ready handlers and requests *)

(** What an operation needs of the handler: a well-formed device where the log
    is, callbacks and iocbs for [n] more requests, and addresses below [lim]. *)
Record sys_ok (ring : Ring.ring) (n : nat) w : Prop := SysOk {
  so_dev : dev_wf (dev w);
  so_ring : ring_rel ring (dev w);
  so_pools : pools_ready n w;
  so_mem : mem_ok w;
  so_staged : staged_ok w;
  so_grain : grain_unit (dev w) = SOB;
  so_fits : nr_segment (dev w) * segment_size (dev w) <= lim * SOB
}.

(** A request with its key and a value buffer of [val_len] bytes. *)
Record req_ready w (r : Z) (rq : request) (b : list Z) : Prop := ReqReady {
  qr_req : req_arr w !! r = Some rq;
  qr_end : end_req rq = FN_net_end_req;
  qr_key : key_ok (req_key rq);
  qr_params : params rq = NULL \/ is_Some (params_heap w !! params rq);
  qr_value : value (req_value rq) <> NULL;
  qr_buf : bufs w !! value (req_value rq) = Some b;
  qr_unstaged : value (req_value rq) <> staged_seg_buf (dev w);
  qr_pool : Fifo.full (req_pool w) = false
}.

(** The pair fits its buffer, a segment and the [bits] bits of its size. *)
Record len_ok w (rq : request) (b : list Z) : Prop := LenOk {
  lo_buf : Z.of_nat (length b) = val_len (req_value rq);
  lo_key : 1 + key_len (req_key rq) <= val_len (req_value rq);
  lo_seg : val_len (req_value rq) <= segment_size (dev w);
  lo_bits : val_len (req_value rq) / SOB < 2 ^ bits
}.

(** The pair written: the key in front of the value. *)
Definition pair_of (rq : request) (b : list Z) : list Z :=
  stored (req_key rq) (drop (S (Z.to_nat (key_len (req_key rq)))) b).

(** The [k] grains of block [p] of the staged segment hold [x]. *)
Definition staged_holds w (p k : Z) (x : list Z) : Prop :=
  exists ss sb, in_staged (dev w) ss p k /\ bufs w !! staged_seg_buf (dev w) = Some sb /\
    Z.of_nat (length sb) = segment_size (dev w) /\
    slice sb (staged_off (dev w) ss p) (k * grain_unit (dev w)) = Some x.

(** The request was ended, once, by the callback. *)
Record answered (r : Z) (rq : request) w w' : Prop := Answered {
  an_acks : acks w' = acks w ++ [(cl_sock rq, ack_of rq (gettimeofday w (ticks w)))];
  an_flying : flying w' = cl_release (flying w);
  an_pool : req_pool w' = Fifo.Mk (Fifo.items (req_pool w) ++ [r]) (Fifo.cap (req_pool w));
  an_value : bufs w' !! value (req_value rq) = None;
  an_retry : retry_q w' = retry_q w;
  an_others : forall r', r' <> r -> req_arr w' !! r' = req_arr w !! r';
  an_unstaged : forall q bq, bufs w !! q = Some bq -> q <> staged_seg_buf (dev w) ->
                  q <> staged_seg_buf (dev w');
  an_bufs : forall q bq, bufs w !! q = Some bq -> q <> value (req_value rq) ->
              q <> staged_seg_buf (dev w) -> bufs w' !! q = Some bq
}.

(** Another request is as ready after a request was answered as before. *)
Lemma req_ready_answered r1 rq1 w w1 r2 rq2 b2 :
  answered r1 rq1 w w1 -> req_ready w r2 rq2 b2 -> r2 <> r1 -> value (req_value rq2) <> value (req_value rq1) ->
  Z.of_nat (length (Fifo.items (req_pool w))) + 1 < Fifo.cap (req_pool w) ->
  params rq2 = NULL -> req_ready w1 r2 rq2 b2.
Proof.
  intros [] [] Hr Hv Hpool Hp. split; try done.
  - by rewrite an_others0.
  - by left.
  - by apply an_bufs0.
  - by eapply an_unstaged0.
  - rewrite an_pool0. unfold Fifo.full. simpl. rewrite length_app. simpl. apply Z.eqb_neq. lia.
Qed.

Lemma alloc_for_pair ring n len w :
  sys_ok ring (S n) w -> 0 < len <= segment_size (dev w) ->
  exists p w1 ss,
    get_next_pba len w = Ret p w1 /\ sys_ok (snd (Ring.alloc len ring)) n w1 /\ dev_frame w w1 /\
    0 <= p < lim /\ p * SOB = Ring.phys ring (fst (Ring.alloc len ring)) /\
    in_staged (dev w1) ss p (len / SOB) /\
    (forall q b, bufs w !! q = Some b -> q <> staged_seg_buf (dev w) -> q <> staged_seg_buf (dev w1)).
Proof.
  intros [Hd Hr Hp Hm Hst Hg Hf] Hlen.
  destruct (get_next_pba_log ring n len w Hd Hr Hp Hlen)
    as (p & w1 & ss & Ha & Hphys & Hd1 & Hr1 & Hfr & Hp1 & Hin & Hst1).
  destruct (Hst1 Hm Hst) as [Hst2 Hne].
  assert (segment_size (dev w1) = segment_size (dev w) /\ nr_segment (dev w1) = nr_segment (dev w) /\
          grain_unit (dev w1) = grain_unit (dev w)) as (E1 & E2 & E3).
  { pose proof (Ring.source_room len ring (rr_ok _ _ Hr)) as Hs.
    rewrite (rr_seg _ _ Hr) in Hs. destruct Hs as (_ & _ & _ & Hs & Hn & Hgr); [lia|].
    rewrite <- (rr_seg _ _ Hr1), <- (rr_nr _ _ Hr1), <- (rr_grain _ _ Hr1).
    rewrite <- (rr_nr _ _ Hr), <- (rr_grain _ _ Hr). by split_and!. }
  rewrite E3, Hg in *. pose proof (dw_seg _ Hd). pose proof (dw_nr _ Hd).
  assert (0 <= p * SOB < nr_segment (dev w) * segment_size (dev w)) as Hpb.
  { rewrite Hphys. unfold Ring.phys. rewrite (rr_nr _ _ Hr), (rr_seg _ _ Hr).
    apply Z.mod_pos_bound. nia. }
  unfold SOB, GRAIN_UNIT in *. exists p, w1, ss. split_and!; try done; try lia.
  - split; try done; [by eapply df_mem | by rewrite E1, E2].
  - pose proof (Z.div_pos len 128). pose proof (Z.mul_div_le len 128).
    pose proof (Ring.round_up_bounds 128 len). apply Hin; lia.
Qed.

Lemma return_callback c w :
  exists bb f, q_enqueue c CB_POOL w = Ret bb (set_cb_pool f w) /\
    (Fifo.items f = Fifo.items (cb_pool w) \/ Fifo.items f = Fifo.items (cb_pool w) ++ [c]).
Proof.
  unfold q_enqueue, Fifo.enqueue. simpl. destruct (Fifo.full (cb_pool w)).
  - eexists _, _. split; [done|]. by left.
  - eexists _, _. split; [done|]. by right.
Qed.

Lemma pair_of_length rq b :
  key_ok (req_key rq) -> 1 + key_len (req_key rq) <= Z.of_nat (length b) ->
  length (pair_of rq b) = length b.
Proof.
  intros Hk Hl. unfold pair_of, stored. simpl. rewrite length_app, key_bytes_length, length_drop by done.
  destruct Hk. lia.
Qed.

(** The end of an insertion, from the copy of the key on. *)
Lemma write_pair_ok w r rq b c n ss p k :
  dev_wf (dev w) -> staged_ok w -> grain_unit (dev w) = SOB -> req_ready w r rq b ->
  Z.of_nat (length b) = val_len (req_value rq) ->
  1 + key_len (req_key rq) <= val_len (req_value rq) ->
  in_staged (dev w) ss p k -> k * SOB <= val_len (req_value rq) ->
  cb_arr w !! c = Some (Callback FN_net_end_req r NULL) ->
  (n <= length (Fifo.items (cb_pool w)))%nat -> (n <= length (Fifo.items (iocb_pool w)))%nat ->
  Forall (fun c => is_Some (cb_arr w !! c)) (Fifo.items (cb_pool w)) ->
  Forall (fun i => is_Some (iocb_arr w !! i)) (Fifo.items (iocb_pool w)) -> mem_ok w ->
  exists w',
    (copy_key_to_value (req_key rq) (req_value rq) ;;;
     dev_abs_write ex p k (value (req_value rq)) c ;;; ret 0) w = Ret 0 w' /\
    answered r rq w w' /\ ops w' = ops w /\ dev w' = dev w /\
    staged_holds w' p k (take (Z.to_nat (k * SOB)) (pair_of rq b)) /\
    pools_ready n w' /\ mem_ok w'.
Proof.
  intros Hd (sb & Hsb & Hsl) Hg [Hreq Hend Hkey Hpar Hv Hb Hu Hpool] Hbl Hkl Hin Hk Hc Hn1 Hn2 Hf1 Hf2 [Hm1 Hm2].
  rewrite (bind_ret _ _ _ _ _ (copy_key_to_value_ok _ _ b w Hkey Hb ltac:(lia))).
  fold (pair_of rq b). pose proof (pair_of_length rq b Hkey ltac:(lia)) as Hpl.
  revert Hpl. generalize (pair_of rq b). intros pr Hpl. set (w4 := set_bufs _ w).
  destruct (dev_abs_write_staged ex w4 ss p k (value (req_value rq)) c
              (Callback FN_net_end_req r NULL) sb pr) as (sb' & Hblit & Hw); try done.
  { simpl. by rewrite lookup_insert_ne. }
  { simpl. apply lookup_insert_eq. }
  { change (dev w4) with (dev w). rewrite Hg, Hpl. lia. }
  unfold bind at 1. rewrite Hw. cbn [cb_func cb_arg].
  match goal with |- context [(ex _ _ ;;; _) ?v] => set (w5 := v) end.
  destruct (net_end_req_ok r rq w5) as (w6 & He & Hen); [done | | done |].
  { split; [done | done |]. simpl. rewrite lookup_insert_ne by done. rewrite lookup_insert_eq. by eexists. }
  unfold bind at 1. rewrite ex_end, He.
  destruct (return_callback c w6) as (bb & f & Hq & Hf).
  rewrite (bind_ret _ _ _ _ _ Hq). unfold ret. destruct Hen. subst w5 w4. simpl in *.
  eexists. split; [done|].
  split_and!; simpl; try done.
  - split; simpl; try done; rewrite ?en_bufs, ?en_dev; [by rewrite lookup_delete_eq | done |].
    intros q bq Hq1 Hq2 Hq3. by rewrite lookup_delete_ne, !lookup_insert_ne by done.
  - exists ss, sb'. simpl. rewrite en_dev, en_bufs, lookup_delete_ne, lookup_insert_eq by done.
    split_and!; [done | done | by rewrite (blit_length _ _ _ _ Hblit) |].
    apply slice_blit_same in Hblit. rewrite Hg in *.
    rewrite length_take_le in Hblit by (rewrite Hpl; lia).
    rewrite Z2Nat.id in Hblit; [done|]. pose proof (is_n _ _ _ _ Hin). unfold SOB, GRAIN_UNIT. lia.
  - split; simpl; rewrite ?en_iocb, ?en_iocb_arr, ?en_cb_arr; try done.
    + destruct Hf as [-> | ->]; rewrite en_cb; [done|]. rewrite length_app. lia.
    + destruct Hf as [-> | ->]; rewrite en_cb; [done|]. apply Forall_app_2; [done|].
      constructor; [by eexists | done].
  - split; simpl; rewrite ?en_next, ?en_bufs; simpl; [done|].
    intros q bq. rewrite lookup_delete_Some, !lookup_insert_Some.
    intros (_ & [(<- & _) | (_ & [(<- & _) | (_ & H)])]); eauto.
Qed.

Lemma req_ready_frame w w' r rq b :
  req_ready w r rq b -> mem_ok w -> dev_frame w w' ->
  value (req_value rq) <> staged_seg_buf (dev w') -> req_ready w' r rq b.
Proof.
  intros [] Hm [] Hne. split; try done; [by rewrite df_req_arr | by rewrite df_params | by apply df_bufs |
    by rewrite df_req_pool].
Qed.

Lemma answered_frame r rq w w1 w' :
  dev_frame w w1 -> mem_ok w ->
  (forall q b, bufs w !! q = Some b -> q <> staged_seg_buf (dev w) -> q <> staged_seg_buf (dev w1)) ->
  answered r rq w1 w' -> answered r rq w w'.
Proof.
  intros [] Hm Hst []. split; try congruence.
  - intros. rewrite an_others0 by done. congruence.
  - intros q bq Hq Hne. eapply an_unstaged0; eauto.
  - intros q bq Hq Hne Hs. eapply an_bufs0; eauto.
Qed.

(** Changes of the index alone. *)
Lemma sys_ok_set_ops ring n w i : sys_ok ring n w -> sys_ok ring n (set_ops i w).
Proof. intros [? ? [] [] ? ? ?]. by split. Qed.

Lemma req_ready_set_ops w r rq b i : req_ready w r rq b -> req_ready (set_ops i w) r rq b.
Proof. intros []. by split. Qed.

(** A pair is written: a block is taken, the index updated in any way, and the
    rest of the operation answers the request. *)
Lemma store_pair_ok ring n w r rq b :
  sys_ok ring (S (S n)) w -> req_ready w r rq b -> len_ok w rq b ->
  let len := val_len (req_value rq) in
  exists p w1,
    get_next_pba len w = Ret p w1 /\ ops w1 = ops w /\ 0 <= len / SOB < 2 ^ bits /\
    0 <= p < lim /\ p * SOB = Ring.phys ring (fst (Ring.alloc len ring)) /\
    forall i, exists w',
      (let* cb := make_callback (end_req rq) r in
       copy_key_to_value (req_key rq) (req_value rq) ;;;
       dev_abs_write ex p (len / SOB) (value (req_value rq)) cb ;;; ret 0) (set_ops i w1) = Ret 0 w' /\
      ops w' = i /\ answered r rq w w' /\
      staged_holds w' p (len / SOB) (take (Z.to_nat (len / SOB * SOB)) (pair_of rq b)) /\
      sys_ok (snd (Ring.alloc len ring)) n w'.
Proof.
  intros Hsys Hrq [Hlb Hlk Hls Hlbits] len.
  pose proof (so_mem _ _ _ Hsys) as Hmem. pose proof (key_ok_len _ (qr_key _ _ _ _ Hrq)) as Hkl.
  destruct (alloc_for_pair ring (S n) len w Hsys ltac:(unfold len; lia))
    as (p & w1 & ss & Ha & Hsys1 & Hfr & Hp & Hph & Hin & Hne).
  exists p, w1. split; [done|]. split; [apply Hfr|].
  split; [split; [apply Z.div_pos; unfold len, SOB, GRAIN_UNIT; lia | done]|].
  split; [done|]. split; [done|]. intros i. set (w2 := set_ops i w1).
  pose proof (req_ready_frame _ _ _ _ _ Hrq Hmem Hfr (Hne _ _ (qr_buf _ _ _ _ Hrq) (qr_unstaged _ _ _ _ Hrq)))
    as Hrq1.
  destruct (make_callback_ready (end_req rq) r n w2)
    as (c & w3 & Hc & Hfr3 & Hd3 & Hb3 & Hn3 & Haio & Hcb & Hcn & Hip & Hia & _ & _ & Hca).
  { apply (so_pools _ _ _ (sys_ok_set_ops _ _ _ _ Hsys1)). }
  rewrite (bind_ret _ _ _ _ _ Hc).
  pose proof (sys_ok_set_ops _ _ _ i Hsys1) as [D1 D2 [D3 D4 D5 D6] D7 D8 D9 D10].
  assert (req_ready w3 r rq b) as Hrq3.
  { apply (req_ready_frame w2); [by apply req_ready_set_ops | done | done |].
    rewrite Hd3. apply (qr_unstaged _ _ _ _ Hrq1). }
  rewrite (qr_end _ _ _ _ Hrq) in Hcb.
  destruct (write_pair_ok w3 r rq b c n ss p (len / SOB)) as (w' & Hw & Han & Hops & Hdev & Hh & Hp' & Hm'); try done.
  all: try (rewrite ?Hd3, ?Hip, ?Hia; simpl; done).
  { destruct D8 as (sb & Hsb & Hsl). exists sb. rewrite Hd3, Hb3. by split. }
  { fold len. pose proof (Z.mul_div_le len SOB). unfold SOB, GRAIN_UNIT in *. lia. }
  { rewrite Hip. simpl in *. lia. }
  { by apply (df_mem w2). }
  exists w'. split_and!; try done.
  - by rewrite Hops, (df_ops _ _ Hfr3).
  - apply (answered_frame r rq w w1); [done | done | done |].
    assert (answered r rq w2 w' -> answered r rq w1 w') as Hset by (intros []; by split).
    apply Hset, (answered_frame r rq w2 w3); [done | done | by rewrite Hd3 | done].
  - destruct Hh as (ss' & sb' & _ & Hsb' & Hsl' & _).
    split; rewrite ?Hdev, ?Hd3; try done. exists sb'. by split.
Qed.

Lemma sys_ok_started ring n w r rq p0 : sys_ok ring n w -> sys_ok ring n (started r rq p0 w).
Proof.
  intros [Hd Hr [] [Hm1 Hm2] Hs Hg Hf]. split; try done. split; simpl; [lia|].
  intros p b H. apply Hm2 in H. lia.
Qed.

Lemma req_ready_started ring n w r rq b p0 :
  sys_ok ring n w -> req_ready w r rq b ->
  req_ready (started r rq p0 w) r (with_params (mem_next w) rq) b.
Proof.
  intros Hs []. split; simpl; try done; [by apply lookup_insert_eq|].
  right. rewrite lookup_insert_eq. by eexists.
Qed.

Lemma answered_started r rq p0 q w w' :
  answered r (with_params q rq) (started r rq p0 w) w' -> answered r rq w w'.
Proof.
  intros []. simpl in *. split; try done.
  intros r' Hne. rewrite an_others0 by done. by rewrite lookup_insert_ne.
Qed.

(** What is read back of a stored pair begins with its key. *)
Lemma keycmp_pair rq b n y :
  key_ok (req_key rq) -> 1 + key_len (req_key rq) <= n ->
  keycmp (req_key rq) (take (Z.to_nat n) (pair_of rq b) ++ y) = Some 0.
Proof.
  intros Hk Hn. pose proof (key_ok_len _ Hk). unfold pair_of, stored.
  replace (Z.to_nat n) with (S (Z.to_nat (n - 1))) by lia. cbn [take app].
  rewrite take_app_ge by (rewrite key_bytes_length by done; lia). rewrite <- app_assoc.
  by apply (keycmp_stored (req_key rq) (_ ++ _)).
Qed.

(** The world in which the callback of a staged read runs: the pair is in the
    value buffer and the parameters are [hp]. *)
Record at_callback w w5 (rq : request) (b x : list Z) (hp : P) : Prop := AtCallback {
  ac_bufs : bufs w5 = <[value (req_value rq) := x ++ drop (length x) b]> (bufs w);
  ac_params : params_heap w5 = <[params rq := hp]> (params_heap w);
  ac_ops : ops w5 = ops w;
  ac_dev : dev w5 = dev w;
  ac_req : req_arr w5 = req_arr w;
  ac_retry : retry_q w5 = retry_q w;
  ac_pool : req_pool w5 = req_pool w;
  ac_flying : flying w5 = flying w;
  ac_acks : acks w5 = acks w;
  ac_time : gettimeofday w5 (ticks w5) = gettimeofday w (ticks w)
}.

(** Callback [c] is out of its pool; memory and iocbs are as before. *)
Record taken (c : Z) w w5 : Prop := Taken {
  tk_next : mem_next w5 = mem_next w;
  tk_cb : Fifo.items (cb_pool w) = c :: Fifo.items (cb_pool w5);
  tk_c : is_Some (cb_arr w5 !! c);
  tk_cb_arr : forall c', is_Some (cb_arr w !! c') -> is_Some (cb_arr w5 !! c');
  tk_iocb : iocb_pool w5 = iocb_pool w;
  tk_iocb_arr : iocb_arr w5 = iocb_arr w
}.

(** The callback has run, freed [buf] and gone back to its pool. *)
Lemma sys_ok_callback_done ring n w w5 w' c buf :
  sys_ok ring (S n) w -> taken c w w5 -> dev w' = dev w -> mem_next w' = mem_next w5 ->
  (forall q b', bufs w' !! q = Some b' -> is_Some (bufs w !! q)) ->
  (forall q b', q <> buf -> bufs w !! q = Some b' -> bufs w' !! q = Some b') -> buf <> staged_seg_buf (dev w) ->
  cb_arr w' = cb_arr w5 -> iocb_pool w' = iocb_pool w5 -> iocb_arr w' = iocb_arr w5 ->
  Fifo.items (cb_pool w') = Fifo.items (cb_pool w5) \/ Fifo.items (cb_pool w') = Fifo.items (cb_pool w5) ++ [c] ->
  sys_ok ring n w'.
Proof.
  intros [Hd Hr [H1 H2 H3 H4] [Hm1 Hm2] (sb & Hs & Hl) Hg Hf] [T1 T2 T3 T4 T5 T6] Ed En Eb1 Eb2 Hne Ec Ei Ea Hcb.
  rewrite T2 in H1, H3. simpl in H1. apply Forall_cons in H3 as [_ H3].
  split; rewrite ?Ed; try done.
  - split; rewrite ?Ei, ?Ea, ?Ec, ?T5, ?T6; try done; [|lia|].
    + destruct Hcb as [-> | ->]; rewrite ?length_app; lia.
    + assert (Forall (fun c0 => is_Some (cb_arr w5 !! c0)) (Fifo.items (cb_pool w5))) as H5
        by (eapply Forall_impl; [exact H3 | intros c0; apply T4]).
      destruct Hcb as [-> | ->]; [done|]. apply Forall_app_2; [done | by constructor].
  - split; rewrite ?En, ?T1; [done|]. intros q b (b0 & H)%Eb1. by eapply Hm2.
  - exists sb. rewrite Ed. split; [|done]. apply Eb2; [by apply not_eq_sym | done].
Qed.

(** What is left of the handler when the callback has gone back. *)
Record handed_back (c : Z) w w5 w' : Prop := HandedBack {
  hb_dev : dev w' = dev w;
  hb_sys : forall ring n, sys_ok ring (S n) w -> taken c w w5 -> sys_ok ring n w';
  hb_nodup : taken c w w5 -> NoDup (Fifo.items (cb_pool w)) -> NoDup (Fifo.items (cb_pool w'))
}.

Lemma nodup_handed_back w w5 c l :
  taken c w w5 -> NoDup (Fifo.items (cb_pool w)) ->
  l = Fifo.items (cb_pool w5) \/ l = Fifo.items (cb_pool w5) ++ [c] -> NoDup l.
Proof.
  intros Ht. rewrite (tk_cb _ _ _ Ht). intros [Hc Hnd]%NoDup_cons [-> | ->]; [done|].
  apply NoDup_app. split_and!; [done | | apply NoDup_singleton]. by intros c' H ->%list_elem_of_singleton.
Qed.

(** A staged read into the value buffer, up to the end of its callback. *)
Lemma staged_read_ok n w r rq b f p k x p0 :
  dev_wf (dev w) -> pools_ready (S n) w -> req_ready w r rq b ->
  params_heap w !! params rq = Some p0 ->
  0 < k -> k * grain_unit (dev w) <= Z.of_nat (length b) -> staged_holds w p k x ->
  exists c w5,
    (let* cb := make_callback f r in dev_abs_read ex p k (value (req_value rq)) cb ;;; ret 0) w =
      (ex f r ;;; q_enqueue c CB_POOL ;;; ret 0) w5 /\
    at_callback w w5 rq b x p0 /\ taken c w w5.
Proof.
  intros Hd [Hcb _ Hca _] Hrq Hp0 Hk Hkl (ss & sb & Hin & Hsb & Hsl & Hx).
  pose proof Hrq as [Hr _ _ _ _ Hb _ _].
  destruct (Fifo.items (cb_pool w)) as [|c cs] eqn:E; simpl in Hcb; [lia|].
  apply Forall_cons in Hca as [[cb0 Hcb0] _].
  rewrite (bind_ret _ _ _ _ _ (make_callback_ok f r w c cs cb0 E Hcb0)).
  match goal with |- context [set_cb_arr ?a ?v] => set (w2 := set_cb_arr a v) end.
  destruct (dev_abs_read_staged ex w2 ss p k (value (req_value rq)) c
              (Callback f r NULL) sb b) as (x' & Hx' & Hread); try done.
  { simpl. apply lookup_insert_eq. }
  change (dev w2) with (dev w) in Hx'. rewrite Hx in Hx'. injection Hx' as <-.
  unfold bind at 1. rewrite Hread. cbn [cb_func cb_arg].
  match type of Hread with _ = _ ?v => set (w5 := v) in * end. exists c, w5. split.
  - unfold bind, ret. destruct (ex f r w5) as [u w6|]; [|done].
    by destruct (q_enqueue c CB_POOL w6).
  - subst w5. split; split; simpl; try congruence.
    + by rewrite insert_id.
    + rewrite lookup_insert_eq. by eexists.
    + intros c' Hc'. apply lookup_insert_is_Some'. by right.
Qed.

(** The callback ends the request. *)
Lemma end_at_callback w w5 r rq b x p0 c :
  req_ready w r rq b -> params rq <> NULL -> at_callback w w5 rq b x p0 ->
  exists w', (net_end_req r ;;; q_enqueue c CB_POOL ;;; ret 0) w5 = Ret 0 w' /\
    answered r rq w w' /\ ops w' = ops w /\ handed_back c w w5 w'.
Proof.
  intros Hrq Hpar Hac. pose proof Hrq as [Hr Hend _ _ Hv Hb _ Hpool]. destruct Hac.
  assert (req_arr w5 !! r = Some rq) as Hr5 by by rewrite ac_req0.
  assert (bufs w5 !! value (req_value rq) = Some (x ++ drop (length x) b)) as Hb5
    by (rewrite ac_bufs0; apply lookup_insert_eq).
  assert (params_heap w5 !! params rq = Some p0) as Hp5 by (rewrite ac_params0; apply lookup_insert_eq).
  destruct (net_end_req_ok r rq w5) as (w7 & He & Hen); [done | | by rewrite ac_pool0 |].
  { split; [right; by eexists | done | by eexists]. }
  rewrite (bind_ret _ _ _ _ _ He). destruct (return_callback c w7) as (bb & f & Hq & Hf).
  rewrite (bind_ret _ _ _ _ _ Hq). eexists. split; [done|]. destruct Hen. simpl in *.
  split; [|split; [simpl; congruence|]]; [split; simpl; try congruence|].
  - rewrite en_bufs. apply lookup_delete_eq.
  - intros r' Hne. rewrite en_others by done. by rewrite ac_req0.
  - intros q bq Hq1 Hq2 Hq3. rewrite en_bufs, lookup_delete_ne by done.
    by rewrite ac_bufs0, lookup_insert_ne.
  - split; [simpl; congruence | | intros Ht Hnd; eapply nodup_handed_back; [done | done | by rewrite en_cb in Hf]].
    intros ring n Hs Ht. pose proof (qr_unstaged _ _ _ _ Hrq) as Hu.
    apply (sys_ok_callback_done ring n w w5 _ c (value (req_value rq)) Hs Ht); simpl; try congruence.
    + intros q b'. rewrite en_bufs, ac_bufs0, lookup_delete_Some, lookup_insert_Some.
      intros (_ & [(<- & _) | (_ & H)]); by eexists.
    + intros q b' Hq1 Hq2. by rewrite en_bufs, ac_bufs0, lookup_delete_ne, lookup_insert_ne by done.
Qed.

End Pair.

(** ** Concrete handlers *)

(** A key with home cell 5 and tag 9 in the hopscotch table, and two requests
    for it on the device of [DeviceSpec]. *)
Definition demo_key : key_struct := KeyStruct (107 :: 101 :: 121 :: replicate 253 0) 3 (9 * 2 ^ 27 + 5) 0.

Definition demo_req (t : req_type_t) (buf p : Z) : request :=
  Request t 42 demo_key (ValStruct buf 256) sw_zero FN_net_end_req p NULL 4.

Definition demo_bufs (staged : list Z) : gmap Z (list Z) :=
  <[10 := replicate 256 5]> (<[11 := replicate 256 0]> {[ 1 := staged ]}).

Section Demo.
Context {I P : Type}.

Lemma demo_mem (i : I) d rqs (h : gmap Z P) staged : mem_ok (lab i d rqs h (demo_bufs staged) 30).
Proof.
  split; simpl; [lia|]. intros p b. unfold demo_bufs.
  rewrite !lookup_insert_Some, lookup_singleton_Some.
  intros [[<- _] | [_ [[<- _] | [_ [<- _]]]]]; lia.
Qed.

Lemma demo_sys lim (i : I) rqs (h : gmap Z P) :
  3 * 512 <= lim * SOB -> sys_ok lim mini_ring 4 (lab i mini_dev rqs h (demo_bufs (replicate 512 0)) 30).
Proof.
  intros Hlim. split; [exact mini_dev_wf | exact mini_ring_rel | apply lab_pools | apply demo_mem | |
    exact eq_refl | exact Hlim].
  exists (replicate 512 0). split; [exact eq_refl | by vm_compute].
Qed.

Lemma demo_key_ok : key_ok demo_key.
Proof. split; unfold KEY_LEN_MAX; simpl; lia. Qed.

Lemma demo_ready1 (i : I) d ty p rq2 (h : gmap Z P) staged :
  staged_seg_buf d = 1 -> p = NULL \/ is_Some (h !! p) ->
  req_ready (lab i d {[ 1 := demo_req ty 10 p; 2 := rq2 ]} h (demo_bufs staged) 30) 1 (demo_req ty 10 p)
    (replicate 256 5).
Proof.
  intros Hd Hp.
  split; [exact eq_refl | exact eq_refl | exact demo_key_ok | exact Hp | | exact eq_refl | | exact eq_refl].
  - by vm_compute.
  - simpl. by rewrite Hd.
Qed.

Lemma demo_ready2 (i : I) d ty p rq1 (h : gmap Z P) staged :
  staged_seg_buf d = 1 -> p = NULL \/ is_Some (h !! p) ->
  req_ready (lab i d {[ 1 := rq1; 2 := demo_req ty 11 p ]} h (demo_bufs staged) 30) 2 (demo_req ty 11 p)
    (replicate 256 0).
Proof.
  intros Hd Hp.
  split; [exact eq_refl | exact eq_refl | exact demo_key_ok | exact Hp | | exact eq_refl | | exact eq_refl].
  - by vm_compute.
  - simpl. by rewrite Hd.
Qed.

Lemma demo_len bits (i : I) rqs (h : gmap Z P) ty p :
  2 < 2 ^ bits ->
  len_ok bits (lab i mini_dev rqs h (demo_bufs (replicate 512 0)) 30) (demo_req ty 10 p) (replicate 256 5).
Proof. intros Hb. split; [by vm_compute | by vm_compute | by vm_compute | exact Hb]. Qed.

End Demo.
