(* ===== verification/HopTable.v ===== *)
(** * The hopscotch table ([src/hopscotch.c], [include/hopscotch.h])

    An entry sits at most 31 cells after its home cell and records the distance;
    when the neighbourhood of a key is full, a resident is moved further within
    its own neighbourhood to make room. This file has the table and the
    operations that only touch it. *)

From Stdlib Require Import ZArith Lia.
From stdpp Require Import prelude gmap.
From S2P Require Import Prelude Config.

#[local] Open Scope Z_scope.

Definition IDX_BIT : Z := 27.
Definition DIR_BIT : Z := 0.
Definition NR_TABLE : Z := Z.shiftl 1 DIR_BIT.
Definition NR_ENTRY : Z := Z.shiftl 1 IDX_BIT.
Definition MAX_HOP : Z := 32.
Definition PBA_INVALID : Z := 0xffffffffff.

(** [struct hash_entry]: bit-fields of 5, 8, 11 and 40 bits. *)
Record hash_entry : Type := HashEntry {
  neigh_off : Z;
  key_fp_tag : Z;
  kv_size : Z;
  pba : Z
}.

(** [struct hash_table]: an array of [NR_ENTRY] entries. *)
Definition hash_table : Type := tmap hash_entry.

(** The table as [hopscotch_init] leaves it: calloc, then [pba] set in every
    entry. *)
Definition init_table : hash_table := TMap (HashEntry 0 0 0 PBA_INVALID) ∅.

(** [(idx + offset) % NR_ENTRY] on an unsigned [idx]. *)
Definition slot (idx offset : Z) : Z := u32 (idx + offset) mod NR_ENTRY.

Definition find_matching_tag (ht : hash_table) (idx offset tag : Z) : Z :=
  default (-1)
    (for_first offset (Z.to_nat (MAX_HOP - offset))
       (fun o => key_fp_tag (tget ht (slot idx o)) =? tag)).

(** The entry [fill_entry] stores. *)
Definition fill_entry (offset tag size pba : Z) : hash_entry :=
  HashEntry (wrap 5 (u8 offset)) (wrap 8 (u8 tag)) (wrap 11 (u16 size))
    (wrap 40 (Z.land (u64 pba) PBA_INVALID)).

(** The second loop of [find_free_entry], from [offset = n - 1] down to 0. *)
Fixpoint make_free_entry (ht : hash_table) (idx : Z) (n : nat) : Z * hash_table :=
  match n with
  | O => (-1, ht)
  | S n' =>
      let offset := Z.of_nat n' in
      let current_idx := slot idx offset in
      let entry := tget ht current_idx in
      let ori_idx := (NR_ENTRY + current_idx - neigh_off entry) mod NR_ENTRY in
      match for_first (neigh_off entry + 1) (Z.to_nat (MAX_HOP - (neigh_off entry + 1)))
              (fun dis_off => pba (tget ht ((ori_idx + dis_off) mod NR_ENTRY)) =? PBA_INVALID) with
      | Some dis_off =>
          (offset, tset ht ((ori_idx + dis_off) mod NR_ENTRY)
                     (fill_entry dis_off (key_fp_tag entry) (kv_size entry) (pba entry)))
      | None => make_free_entry ht idx n'
      end
  end.

Definition find_free_entry (ht : hash_table) (idx : Z) : Z * hash_table :=
  match for_first 0 (Z.to_nat MAX_HOP) (fun o => pba (tget ht (slot idx o)) =? PBA_INVALID) with
  | Some offset => (offset, ht)
  | None => make_free_entry ht idx (Z.to_nat MAX_HOP)
  end.

(** The number [hopscotch_free] prints, over the first [n] entries. *)
Definition population (ht : hash_table) (n : nat) : Z :=
  for_range 0 n (fun j s => if negb (pba (tget ht j) =? PBA_INVALID) then s + 1 else s) 0.

(** ** Well-formed tables *)

Record entry_ok (e : hash_entry) : Prop := EntryOk {
  eo_off : 0 <= neigh_off e < 32;
  eo_tag : 0 <= key_fp_tag e < 2 ^ 8;
  eo_size : 0 <= kv_size e < 2 ^ 11;
  eo_pba : 0 <= pba e <= PBA_INVALID
}.

Definition table_ok (ht : hash_table) : Prop := forall i, entry_ok (tget ht i).

(** The cell an entry at cell [c] belongs to. *)
Definition home (c : Z) (e : hash_entry) : Z := (c - neigh_off e) mod NR_ENTRY.

(** The table holds, for home cell [h] and tag [t], the block [p] of [k] grains. *)
Definition live (ht : hash_table) (h t k p : Z) : Prop :=
  p <> PBA_INVALID /\
  exists c, 0 <= c < NR_ENTRY /\ let e := tget ht c in
    home c e = h /\ key_fp_tag e = t /\ kv_size e = k /\ pba e = p.

Lemma NR_ENTRY_val : NR_ENTRY = 134217728.
Proof. reflexivity. Qed.

Lemma PBA_INVALID_ones : PBA_INVALID = Z.ones 40.
Proof. reflexivity. Qed.

Lemma fill_entry_ok o t k p : entry_ok (fill_entry o t k p).
Proof.
  unfold fill_entry. split; simpl; try (by apply wrap_bounds).
  pose proof (wrap_bounds 40 (Z.land (u64 p) PBA_INVALID)). unfold PBA_INVALID in *. lia.
Qed.

Lemma land_pba p : 0 <= p <= PBA_INVALID -> wrap 40 (Z.land (u64 p) PBA_INVALID) = p.
Proof.
  intros Hp. unfold PBA_INVALID in Hp at 1. rewrite (wrap_small 64) by lia.
  rewrite PBA_INVALID_ones, Z.land_ones by lia. rewrite Z.mod_small by lia.
  apply wrap_small. lia.
Qed.

(** On fields in range nothing is cut off. *)
Lemma fill_entry_id o t k p :
  0 <= o < 32 -> 0 <= t < 2 ^ 8 -> 0 <= k < 2 ^ 11 -> 0 <= p <= PBA_INVALID ->
  fill_entry o t k p = HashEntry o t k p.
Proof.
  intros Ho Ht Hk Hp. unfold fill_entry. rewrite land_pba by done.
  by rewrite !wrap_small by (rewrite ?wrap_small; lia).
Qed.

Lemma init_table_ok : table_ok init_table.
Proof. intros i. unfold tget, init_table; simpl. rewrite lookup_empty. simpl. by split. Qed.

Lemma table_ok_set ht i e : table_ok ht -> entry_ok e -> table_ok (tset ht i e).
Proof. intros Ht He j. rewrite tget_tset. by case_decide. Qed.

(** ** Cells *)

Lemma slot_small idx o : 0 <= idx < NR_ENTRY -> 0 <= o < 32 -> slot idx o = (idx + o) mod NR_ENTRY.
Proof. intros Hi Ho. unfold slot. rewrite NR_ENTRY_val in *. by rewrite wrap_small by lia. Qed.

Lemma slot_bounds idx o : 0 <= slot idx o < NR_ENTRY.
Proof. apply Z.mod_pos_bound. rewrite NR_ENTRY_val. lia. Qed.

(** Going [o] cells forward and [o] back. *)
Lemma back_forth i o : 0 <= i < NR_ENTRY -> ((i + o) mod NR_ENTRY - o) mod NR_ENTRY = i.
Proof.
  intros Hi. rewrite Zminus_mod_idemp_l. replace (i + o - o) with i by ring. by apply Z.mod_small.
Qed.

Lemma forth_back c o : 0 <= c < NR_ENTRY -> ((c - o) mod NR_ENTRY + o) mod NR_ENTRY = c.
Proof.
  intros Hc. rewrite Zplus_mod_idemp_l. replace (c - o + o) with c by ring. by apply Z.mod_small.
Qed.

Lemma ori_idx_home c e : (NR_ENTRY + c - neigh_off e) mod NR_ENTRY = home c e.
Proof.
  unfold home. replace (NR_ENTRY + c - neigh_off e) with (c - neigh_off e + 1 * NR_ENTRY) by ring.
  apply Z_mod_plus_full.
Qed.

Lemma home_bounds c e : 0 <= home c e < NR_ENTRY.
Proof. apply Z.mod_pos_bound. rewrite NR_ENTRY_val. lia. Qed.

(** A live block is in the neighbourhood of its home. *)
Lemma live_slot ht h t k p :
  table_ok ht -> live ht h t k p ->
  exists o, 0 <= o < 32 /\ let e := tget ht (slot h o) in
    key_fp_tag e = t /\ kv_size e = k /\ pba e = p /\ neigh_off e = o.
Proof.
  intros Ht (Hp & c & Hc & Hh & Htag & Hk & Hpba). exists (neigh_off (tget ht c)).
  pose proof (eo_off _ (Ht c)) as Ho. split; [done|]. simpl.
  rewrite slot_small by (try done; rewrite <- Hh; apply home_bounds).
  rewrite <- Hh at 1 2 3 4. unfold home. by rewrite !forth_back by done.
Qed.

(** ** The operations *)

Lemma find_matching_tag_spec ht idx o tag :
  let r := find_matching_tag ht idx o tag in
  (r = -1 /\ forall k, o <= k < MAX_HOP -> key_fp_tag (tget ht (slot idx k)) <> tag) \/
  (o <= r < MAX_HOP /\ key_fp_tag (tget ht (slot idx r)) = tag /\
   forall k, o <= k < r -> key_fp_tag (tget ht (slot idx k)) <> tag).
Proof.
  unfold find_matching_tag. destruct (for_first _ _ _) as [r|] eqn:E; simpl.
  - right. apply for_first_Some in E as (Hr & Ht & Hk). reflect_bools.
    split_and!; [lia | lia | done |]. intros k Hk'. apply Z.eqb_neq. by apply Hk.
  - left. split; [done|]. intros k Hk. apply Z.eqb_neq.
    apply for_first_None with (k := k) in E; [done | lia].
Qed.

(** What a call of [find_free_entry] did. *)
Inductive free_result (ht : hash_table) (idx : Z) : Z -> hash_table -> Prop :=
| FreeFound o :
    0 <= o < MAX_HOP -> pba (tget ht (slot idx o)) = PBA_INVALID -> free_result ht idx o ht
| FreeMade o d :
    0 <= o < MAX_HOP ->
    let c := slot idx o in
    let e := tget ht c in
    let c' := (home c e + d) mod NR_ENTRY in
    pba e <> PBA_INVALID -> neigh_off e < d < MAX_HOP -> pba (tget ht c') = PBA_INVALID ->
    free_result ht idx o (tset ht c' (fill_entry d (key_fp_tag e) (kv_size e) (pba e)))
| FreeNone :
    (forall o, 0 <= o < MAX_HOP ->
       let c := slot idx o in
       let e := tget ht c in
       pba e <> PBA_INVALID /\
       forall d, neigh_off e < d < MAX_HOP ->
         pba (tget ht ((home c e + d) mod NR_ENTRY)) <> PBA_INVALID) ->
    free_result ht idx (-1) ht.

Lemma make_free_entry_spec ht idx n :
  (forall o, 0 <= o < MAX_HOP -> pba (tget ht (slot idx o)) <> PBA_INVALID) ->
  (n <= Z.to_nat MAX_HOP)%nat ->
  (forall o, Z.of_nat n <= o < MAX_HOP -> forall d, neigh_off (tget ht (slot idx o)) < d < MAX_HOP ->
     pba (tget ht ((home (slot idx o) (tget ht (slot idx o)) + d) mod NR_ENTRY)) <> PBA_INVALID) ->
  free_result ht idx (fst (make_free_entry ht idx n)) (snd (make_free_entry ht idx n)).
Proof.
  intros Hfull. induction n as [|n IH]; intros Hn Hdone; cbn [make_free_entry].
  - apply FreeNone. intros o Ho. split; [by apply Hfull|]. intros d Hd. apply Hdone; [lia | done].
  - rewrite ori_idx_home. destruct (for_first _ _ _) as [d|] eqn:E; cbn [fst snd].
    + apply for_first_Some in E as (Hd & Hp & _). reflect_bools.
      apply (FreeMade _ _ (Z.of_nat n) d); [lia | apply Hfull; lia | lia | done].
    + apply IH; [lia|]. intros o Ho d Hd. destruct (decide (o = Z.of_nat n)) as [->|].
      * apply Z.eqb_neq. apply for_first_None with (k := d) in E; [done | lia].
      * apply Hdone; [lia | done].
Qed.

Lemma find_free_entry_result ht idx :
  free_result ht idx (fst (find_free_entry ht idx)) (snd (find_free_entry ht idx)).
Proof.
  unfold find_free_entry. destruct (for_first _ _ _) as [o|] eqn:E; cbn [fst snd].
  - apply for_first_Some in E as (Ho & Hp & _). reflect_bools. apply FreeFound; [lia | done].
  - apply make_free_entry_spec; [|lia | lia].
    intros o Ho. apply Z.eqb_neq. apply for_first_None with (k := o) in E; [done | lia].
Qed.

Lemma insert_offset ht idx : fst (find_free_entry ht idx) <> -1 -> 0 <= fst (find_free_entry ht idx) < MAX_HOP.
Proof. by destruct (find_free_entry_result ht idx). Qed.

Lemma find_free_entry_ok ht idx : table_ok ht -> table_ok (snd (find_free_entry ht idx)).
Proof.
  intros Ht. destruct (find_free_entry_result ht idx); try done.
  apply table_ok_set; [done | apply fill_entry_ok].
Qed.

(** Filling a cell nothing lives in adds exactly the new block. *)
Lemma live_fill_free ht c o t k p :
  0 <= c < NR_ENTRY -> 0 <= o < 32 -> 0 <= t < 2 ^ 8 -> 0 <= k < 2 ^ 11 -> 0 <= p < PBA_INVALID ->
  pba (tget ht c) = PBA_INVALID ->
  forall h' t' k' p',
    live (tset ht c (fill_entry o t k p)) h' t' k' p' <->
    live ht h' t' k' p' \/ (h' = (c - o) mod NR_ENTRY /\ t' = t /\ k' = k /\ p' = p).
Proof.
  intros Hc Ho Ht Hk Hp Hfree h' t' k' p'.
  rewrite fill_entry_id by (try done; lia). unfold live. split.
  - intros (Hne & c2 & Hc2 & H). rewrite tget_tset in H. case_decide as Hd.
    + subst c2. right. unfold home in H. simpl in H. destruct H as (<- & <- & <- & <-). done.
    + left. eauto.
  - intros [(Hne & c2 & Hc2 & H)|(-> & -> & -> & ->)].
    + split; [done|]. exists c2. rewrite tget_tset_ne; [done|].
      intros ->. destruct H as (_ & _ & _ & H). congruence.
    + split; [lia|]. exists c. rewrite tget_tset_eq. split; [done|]. by split_and!.
Qed.

(** Moving a resident and filling its cell has the effect of the fill alone. *)
Lemma live_displace ht c c' d e o t k p :
  table_ok ht -> 0 <= c < NR_ENTRY -> 0 <= o < 32 ->
  0 <= t < 2 ^ 8 -> 0 <= k < 2 ^ 11 -> 0 <= p < PBA_INVALID ->
  e = tget ht c -> c' = (home c e + d) mod NR_ENTRY -> 0 <= d < 32 ->
  pba e <> PBA_INVALID -> pba (tget ht c') = PBA_INVALID ->
  forall h' t' k' p',
    live (tset (tset ht c' (fill_entry d (key_fp_tag e) (kv_size e) (pba e))) c (fill_entry o t k p))
      h' t' k' p' <->
    live ht h' t' k' p' \/ (h' = (c - o) mod NR_ENTRY /\ t' = t /\ k' = k /\ p' = p).
Proof.
  intros Htab Hc Ho Ht Hk Hp -> -> Hd Hpe Hfree h' t' k' p'.
  set (e := tget ht c) in *. set (c' := (home c e + d) mod NR_ENTRY) in *.
  assert (c' <> c) as Hne by (intros Heq; rewrite Heq in Hfree; done).
  assert (0 <= c' < NR_ENTRY) as Hc' by (apply Z.mod_pos_bound; rewrite NR_ENTRY_val; lia).
  destruct (Htab c) as [E1 E2 E3 E4]. fold e in E1, E2, E3, E4.
  rewrite !fill_entry_id by (try done; lia).
  assert (home c' (HashEntry d (key_fp_tag e) (kv_size e) (pba e)) = home c e) as Hh.
  { unfold home at 1. simpl. unfold c'. by rewrite back_forth by apply home_bounds. }
  unfold live. split.
  - intros (Hn & c2 & Hc2 & H). rewrite !tget_tset in H. repeat case_decide; subst.
    + right. unfold home in H. simpl in H. destruct H as (<- & <- & <- & <-). done.
    + left. split; [done|]. exists c. fold e. rewrite <- Hh. done.
    + left. eauto.
  - intros [(Hn & c2 & Hc2 & H)|(-> & -> & -> & ->)].
    + split; [done|]. destruct (decide (c2 = c)) as [->|Hcc].
      * exists c'. rewrite tget_tset_ne, tget_tset_eq by done. split; [done|].
        fold e in H. simpl. rewrite Hh. done.
      * exists c2. rewrite !tget_tset_ne; [done | | done]. intros ->. destruct H as (_ & _ & _ & H). congruence.
    + split; [lia|]. exists c. rewrite tget_tset_eq. split; [done|]. by split_and!.
Qed.

(** C7: making room never loses or changes an entry. When [find_free_entry]
    gives an offset, filling that cell yields a table that holds exactly what it
    held before and the new block, at its own home: a resident that was moved is
    still found from its home cell, and the free cell is within 31 of [idx]. *)
Theorem insert_preserves_residents (ht : hash_table) (idx tag size p : Z) :
  table_ok ht -> 0 <= idx < NR_ENTRY -> 0 <= tag < 2 ^ 8 -> 0 <= size < 2 ^ 11 ->
  0 <= p < PBA_INVALID ->
  let '(o, ht1) := find_free_entry ht idx in
  o <> -1 ->
  0 <= o < MAX_HOP /\ table_ok ht1 /\
  forall h t k q,
    live (tset ht1 (slot idx o) (fill_entry o tag size p)) h t k q <->
    live ht h t k q \/ (h = idx /\ t = tag /\ k = size /\ q = p).
Proof.
  intros Htab Hidx Htag Hsize Hp.
  pose proof (find_free_entry_ok ht idx Htab) as Hok1.
  pose proof (find_free_entry_result ht idx) as Hres.
  destruct (find_free_entry ht idx) as [o ht1]; cbn [fst snd] in *. intros Hne.
  assert (forall o, 0 <= o < 32 -> (slot idx o - o) mod NR_ENTRY = idx) as Hhome.
  { intros x Hx. rewrite slot_small by done. by apply back_forth. }
  destruct Hres as [o Ho Hfree | o d Ho c e c' He Hd Hfree |]; [| |done]; unfold MAX_HOP in *;
    (split; [done|]); (split; [done|]); intros h t k q.
  - rewrite live_fill_free by (try done; apply slot_bounds). by rewrite Hhome.
  - assert (0 <= neigh_off e < 32) by apply (eo_off _ (Htab c)).
    pose proof (live_displace ht c c' d e o tag size p Htab (slot_bounds idx o) ltac:(lia)
                  Htag Hsize Hp eq_refl eq_refl ltac:(lia) He Hfree h t k q) as Hl.
    replace ((c - o) mod NR_ENTRY) with idx in Hl by (symmetry; by apply Hhome). exact Hl.
Qed.

Lemma slot_inj idx o1 o2 :
  0 <= idx < NR_ENTRY -> 0 <= o1 < 32 -> 0 <= o2 < 32 -> slot idx o1 = slot idx o2 -> o1 = o2.
Proof.
  intros Hi H1 H2. rewrite !slot_small by done. rewrite NR_ENTRY_val.
  apply mod_add_inj; lia.
Qed.

(** Making room does not bring the tag into the neighbourhood. *)
Lemma find_free_tags ht idx tag :
  table_ok ht -> (forall k, 0 <= k < MAX_HOP -> key_fp_tag (tget ht (slot idx k)) <> tag) ->
  forall k, 0 <= k < MAX_HOP -> key_fp_tag (tget (snd (find_free_entry ht idx)) (slot idx k)) <> tag.
Proof.
  intros Htab Hno k Hk. destruct (find_free_entry_result ht idx) as [o Ho Hf | o d Ho c e c' He Hd Hf | Hs];
    [by apply Hno | | by apply Hno].
  rewrite tget_tset. case_decide; [|by apply Hno].
  destruct (Htab c) as [_ Ht _ _]. simpl. rewrite !wrap_small by (rewrite ?wrap_small; done).
  by apply Hno.
Qed.

(** The new entry is the one a search for its tag finds. *)
Lemma find_after_insert ht idx tag k p :
  table_ok ht -> 0 <= idx < NR_ENTRY -> 0 <= tag < 2 ^ 8 ->
  find_matching_tag ht idx 0 tag = -1 ->
  let '(o, ht1) := find_free_entry ht idx in
  0 <= o < MAX_HOP ->
  find_matching_tag (tset ht1 (slot idx o) (fill_entry o tag k p)) idx 0 tag = o.
Proof.
  intros Htab Hidx Htag Hnone.
  destruct (find_matching_tag_spec ht idx 0 tag) as [[_ Hno] | [Hr _]]; [|lia].
  pose proof (find_free_tags ht idx tag Htab Hno) as Hno1.
  destruct (find_free_entry ht idx) as [o ht1]. cbn [snd] in Hno1. intros Ho. unfold MAX_HOP in *.
  assert (key_fp_tag (tget (tset ht1 (slot idx o) (fill_entry o tag k p)) (slot idx o)) = tag) as Hto.
  { rewrite tget_tset_eq. simpl. by rewrite !wrap_small by (rewrite ?wrap_small; done). }
  destruct (find_matching_tag_spec (tset ht1 (slot idx o) (fill_entry o tag k p)) idx 0 tag)
    as [[_ Hn] | (Hr & Ht & _)]; [by destruct (Hn o)|].
  destruct (decide (slot idx o = slot idx (find_matching_tag (tset ht1 (slot idx o) (fill_entry o tag k p)) idx 0 tag)))
    as [E | E].
  - symmetry. by apply (slot_inj idx).
  - rewrite tget_tset_ne in Ht by done. by destruct (Hno1 _ Hr).
Qed.

(** Every cell of the neighbourhood is taken and no resident of it can move
    further within its own neighbourhood. *)
Definition saturated (ht : hash_table) (idx : Z) : Prop :=
  forall o, 0 <= o < MAX_HOP ->
    let e := tget ht (slot idx o) in
    pba e <> PBA_INVALID /\
    forall d, neigh_off e < d < MAX_HOP ->
      pba (tget ht ((home (slot idx o) e + d) mod NR_ENTRY)) <> PBA_INVALID.

(** [find_free_entry] gives up, and the program aborts, exactly when nothing
    can be done in the neighbourhood; it then leaves the table as it was. *)
Theorem find_free_entry_gives_up (ht : hash_table) (idx : Z) :
  (fst (find_free_entry ht idx) = -1 <-> saturated ht idx) /\
  (find_free_entry ht idx = (-1, ht) <-> saturated ht idx).
Proof.
  rewrite (surjective_pairing (find_free_entry ht idx)) at 2.
  destruct (find_free_entry_result ht idx) as [o Ho Hf | o d Ho c e c' He Hd Hf | Hs].
  - assert (~ saturated ht idx) as Hn by (intros Hs; by destruct (Hs o Ho)).
    split; (split; [|done]); [lia | intros [=]; lia].
  - assert (~ saturated ht idx) as Hn by (intros Hs; destruct (Hs o Ho) as [_ H]; by destruct (H d Hd)).
    split; (split; [|done]); [lia | intros [=]; lia].
  - assert (saturated ht idx) by (intros o Ho; by apply Hs). done.
Qed.

(** A full neighbourhood of cell 5 whose last resident can move one cell on. *)
Definition crowded : hash_table :=
  for_range 0 32 (fun k t => tset t (5 + k) (HashEntry (if k =? 31 then 0 else k) 9 1 (100 + k))) init_table.

Lemma crowded_ok : table_ok crowded.
Proof.
  unfold crowded. apply (for_range_inv (fun _ t => table_ok t) 0 32); [apply init_table_ok|].
  intros k t Hk Ht. apply table_ok_set; [done|]. simpl in Hk.
  split; simpl; try lia; [case_match; lia | unfold PBA_INVALID; lia].
Qed.

Lemma insert_preserves_residents_witness :
  fst (find_free_entry crowded 5) = 31 /\
  live (tset (snd (find_free_entry crowded 5)) (slot 5 31) (fill_entry 31 77 2 500)) 36 9 1 131.
Proof.
  pose proof (insert_preserves_residents crowded 5 77 2 500 crowded_ok) as H.
  assert (find_free_entry crowded 5 =
          (31, tset crowded 37 (fill_entry 1 9 1 131))) as E by (vm_compute; reflexivity).
  rewrite E in *. split; [reflexivity|].
  destruct (H ltac:(rewrite NR_ENTRY_val; lia) ltac:(lia) ltac:(lia) ltac:(unfold PBA_INVALID; lia)
              ltac:(lia)) as (_ & _ & Hl).
  apply Hl. left. split; [by vm_compute|]. exists 36. split; [rewrite NR_ENTRY_val; lia|].
  vm_compute. by split_and!.
Defined.
