(* ===== verification/Lifetime.v ===== *)
(** * What the constructors allocate and the destructors free

    [handler_init] and [handler_free] of [src/handler.c] with what they call in
    [src/queue.c], [src/cond_lock.c], [src/device.c], [src/hopscotch.c] and
    [src/bigkv_index.c], [keygen_init] and [keygen_free] of [src/keygen.c], and
    [bench_init] and [bench_free] of [src/client.cc], as far as they change what
    the process holds: blocks of memory, descriptors, AIO contexts. The contents
    of the blocks are those of the other files. *)

From Stdlib Require Import ZArith Lia.
From stdpp Require Import prelude gmap.
From S2P Require Import Prelude Config.
From S2P Require HopTable.

#[local] Open Scope Z_scope.

(** ** What a process holds *)

(** The state besides memory: open descriptors, AIO contexts, the flag that ends
    the threads ([stopflag_hlr] of the server, [stopflag] of the client), the
    answers of the next calls of [pthread_tryjoin_np], and the global [sw_set] of
    [src/bigkv_index.c]. *)
Record globals : Type := Globals {
  fds : gset Z;
  io_ctxs : gset Z;
  stopflag : bool;
  tryjoins : list Z;
  sw_set : Z
}.

(** The blocks that [malloc], [calloc], [aligned_alloc] and [mmap] have handed out
    and nobody has freed; the next one is [brk]. *)
Record os : Type := Os { live : gset Z; brk : Z; globs : globals }.

Definition with_live (l : gset Z) (h : os) : os := Os l (brk h) (globs h).
Definition with_globs (f : globals -> globals) (h : os) : os := Os (live h) (brk h) (f (globs h)).

Definition with_fds (f : gset Z -> gset Z) (g : globals) : globals :=
  Globals (f (fds g)) (io_ctxs g) (stopflag g) (tryjoins g) (sw_set g).
Definition with_ctxs (f : gset Z -> gset Z) (g : globals) : globals :=
  Globals (fds g) (f (io_ctxs g)) (stopflag g) (tryjoins g) (sw_set g).
Definition with_stop (g : globals) : globals :=
  Globals (fds g) (io_ctxs g) true (tryjoins g) (sw_set g).
Definition with_tryjoins (l : list Z) (g : globals) : globals :=
  Globals (fds g) (io_ctxs g) (stopflag g) l (sw_set g).
Definition with_sw_set (p : Z) (g : globals) : globals :=
  Globals (fds g) (io_ctxs g) (stopflag g) (tryjoins g) p.

Definition malloc : M os Z := fun h => Ret (brk h) (Os ({[ brk h ]} ∪ live h) (brk h + 1) (globs h)).

Definition free (p : Z) : M os unit := fun h =>
  if p =? NULL then Ret tt h
  else if decide (p ∈ live h) then Ret tt (with_live (live h ∖ {[ p ]}) h)
  else Stop SDangling.

Fixpoint mallocs (n : nat) : M os (list Z) :=
  match n with
  | O => ret []
  | S n' => let* p := malloc in let* ps := mallocs n' in ret (p :: ps)
  end.

Fixpoint frees (ps : list Z) : M os unit :=
  match ps with
  | [] => ret tt
  | p :: ps' => free p ;;; frees ps'
  end.

Definition close (fd : Z) : M os unit := mmod (with_globs (with_fds (fun s => s ∖ {[ fd ]}))).
Definition io_destroy (c : Z) : M os unit := mmod (with_globs (with_ctxs (fun s => s ∖ {[ c ]}))).

(** [while (pthread_tryjoin_np(tid, &temp)) {}]: a thread that never ends keeps
    the loop running. *)
Fixpoint join_loop (answers : list Z) : M os unit :=
  match answers with
  | [] => mstop SBlock
  | rc :: rest =>
      mmod (with_globs (with_tryjoins rest)) ;;;
      if rc =? 0 then ret tt else join_loop rest
  end.

Definition join : M os unit := let* g := mreads globs in join_loop (tryjoins g).

(** ** Queues and locks *)

(** A queue is its structure and the nodes in it, with what they point to. *)
Record queue : Type := Queue { q_self : Z; q_nodes : list (Z * Z) }.

Definition q_init : M os queue := let* p := malloc in ret (Queue p []).

Definition q_enqueue (x : Z) (q : queue) : M os queue :=
  let* n := malloc in ret (Queue (q_self q) (q_nodes q ++ [(n, x)])).

(** [while (q_dequeue(q)) {}]: a null element ends the loop. *)
Fixpoint q_drain (ns : list (Z * Z)) : M os unit :=
  match ns with
  | [] => ret tt
  | (n, x) :: ns' => free n ;;; if x =? NULL then ret tt else q_drain ns'
  end.

Definition q_free (q : queue) : M os unit := q_drain (q_nodes q) ;;; free (q_self q).

Definition cl_init : M os Z := malloc.
Definition cl_free (p : Z) : M os unit := free p.

(** [calloc] of an array of [QSIZE] objects and the loop that puts the address of
    each into the pool; objects have the addresses of [World]. *)
Fixpoint fill_pool (i : Z) (n : nat) (q : queue) : M os queue :=
  match n with
  | O => ret q
  | S n' => let* q' := q_enqueue (i + 1) q in fill_pool (i + 1) n' q'
  end.

(** ** Devices *)

(** The descriptor, and the blocks of [struct dev_abs], [seg_array] and the staged
    segment. *)
Record device : Type := Device { dv_self : Z; dv_fd : Z; dv_seg_array : Z; dv_buf : Z }.

(** What [open], the two ioctls and [io_setup] answer for a device. *)
Record answers : Type := Answers { an_fd : Z; an_size : option Z; an_block : option Z; an_ctx : Z }.

Definition dev_abs_init (a : answers) : M os device :=
  let* d := malloc in
  massert (negb (an_fd a <? 0)) SAbort ;;;
  mmod (with_globs (with_fds (fun s => {[ an_fd a ]} ∪ s))) ;;;
  mopt SAbort (an_size a) ;;;
  mopt SAbort (an_block a) ;;;
  let* sa := malloc in
  let* b := malloc in
  ret (Device d (an_fd a) sa b).

Definition dev_abs_free (d : device) : M os unit :=
  close (dv_fd d) ;;; free (dv_seg_array d) ;;; free (dv_buf d).

(** ** Indexes *)

(** [init] and [free] of [struct kv_ops]; [ix_ready] is what [free] relies on in
    the globals. *)
Class Index (X : Type) : Type := {
  ix_init : M os X;
  ix_free : X -> M os unit;
  ix_blocks : X -> list Z;
  ix_ready : X -> globals -> Prop
}.

(** [hopscotch_init] and [hopscotch_free]: the structure, the array of tables and
    the entries of each. *)
Record hopscotch : Type := Hopscotch { hs_self : Z; hs_table : Z; hs_entry : list Z }.

Definition hopscotch_init : M os hopscotch :=
  let* hs := malloc in
  let* table := malloc in
  let* entry := mallocs (Z.to_nat HopTable.NR_TABLE) in
  ret (Hopscotch hs table entry).

Definition hopscotch_free (hs : hopscotch) : M os unit :=
  frees (hs_entry hs) ;;; free (hs_table hs) ;;; free (hs_self hs).

#[export] Instance hopscotch_index : Index hopscotch := {
  ix_init := hopscotch_init;
  ix_free := hopscotch_free;
  ix_blocks := fun hs => hs_entry hs ++ [hs_table hs; hs_self hs];
  ix_ready := fun _ _ => True
}.

(** [bigkv_index_init] and [bigkv_index_free]; the stopwatch is a global, which
    every call of the former assigns. *)
Record bigkv_index : Type := BigkvIndex { bi_self : Z; bi_table : Z; bi_bucket : Z; bi_part : Z; bi_sw : Z }.

Definition bigkv_index_init : M os bigkv_index :=
  let* bi := malloc in
  let* table := malloc in
  let* bucket := malloc in
  let* part := malloc in
  let* sw := malloc in
  mmod (with_globs (with_sw_set sw)) ;;;
  ret (BigkvIndex bi table bucket part sw).

Definition bigkv_index_free (bi : bigkv_index) : M os unit :=
  free (bi_bucket bi) ;;; free (bi_part bi) ;;; free (bi_table bi) ;;; free (bi_self bi) ;;;
  let* g := mreads globs in free (sw_set g).

#[export] Instance bigkv_index_index : Index bigkv_index := {
  ix_init := bigkv_index_init;
  ix_free := bigkv_index_free;
  ix_blocks := fun bi => [bi_bucket bi; bi_part bi; bi_table bi; bi_self bi; bi_sw bi];
  ix_ready := fun bi g => sw_set g = bi_sw bi
}.

(** ** Handlers *)

Section Handler.
Context {X : Type} `{Index X}.

Record handler : Type := Handler {
  h_self : Z; h_ops : Z; h_index : X; h_flying : Z;
  h_req_q : queue; h_retry_q : queue; h_done_q : queue;
  h_req_pool : queue; h_req_arr : Z;
  h_iocb_pool : queue; h_iocb_arr : Z;
  h_cb_pool : queue; h_cb_arr : Z;
  h_dev : device; h_aio_ctx : Z
}.

Definition handler_init (a : answers) : M os handler :=
  let* hlr := malloc in
  let* ops := malloc in
  let* index := ix_init in
  let* flying := cl_init in
  let* req_q := q_init in
  let* retry_q := q_init in
  let* done_q := q_init in
  let* req_pool := q_init in
  let* iocb_pool := q_init in
  let* cb_pool := q_init in
  let* dev := dev_abs_init a in
  let* req_arr := malloc in
  let* req_pool := fill_pool 0 (Z.to_nat QSIZE) req_pool in
  let* iocb_arr := malloc in
  let* iocb_pool := fill_pool 0 (Z.to_nat QSIZE) iocb_pool in
  let* cb_arr := malloc in
  let* cb_pool := fill_pool 0 (Z.to_nat QSIZE) cb_pool in
  massert (negb (an_ctx a <? 0)) SAbort ;;;
  mmod (with_globs (with_ctxs (fun s => {[ an_ctx a ]} ∪ s))) ;;;
  ret (Handler hlr ops index flying req_q retry_q done_q req_pool req_arr iocb_pool iocb_arr cb_pool cb_arr
         dev (an_ctx a)).

Definition handler_free (hlr : handler) : M os unit :=
  mmod (with_globs with_stop) ;;;
  join ;;;
  join ;;;
  ix_free (h_index hlr) ;;;
  free (h_ops hlr) ;;;
  cl_free (h_flying hlr) ;;;
  q_free (h_req_q hlr) ;;;
  q_free (h_retry_q hlr) ;;;
  q_free (h_done_q hlr) ;;;
  q_free (h_req_pool hlr) ;;;
  free (h_req_arr hlr) ;;;
  q_free (h_iocb_pool hlr) ;;;
  free (h_iocb_arr hlr) ;;;
  q_free (h_cb_pool hlr) ;;;
  free (h_cb_arr hlr) ;;;
  dev_abs_free (h_dev hlr) ;;;
  free (dv_self (h_dev hlr)) ;;;
  io_destroy (h_aio_ctx hlr) ;;;
  free (h_self hlr).

(** The loops over the devices of a server. *)
Fixpoint init_all (l : list answers) : M os (list handler) :=
  match l with
  | [] => ret []
  | a :: l' => let* h := handler_init a in let* hs := init_all l' in ret (h :: hs)
  end.

Fixpoint free_all (hs : list handler) : M os unit :=
  match hs with
  | [] => ret tt
  | h :: hs' => handler_free h ;;; free_all hs'
  end.
End Handler.

Arguments handler : clear implicits.

(** ** The client *)

Record keygen : Type := Keygen { kg_self : Z; kg_pool : Z; kg_keys : list Z }.

Definition keygen_init (nr_key : Z) : M os keygen :=
  let* kg := malloc in
  let* pool := malloc in
  let* keys := mallocs (Z.to_nat nr_key) in
  ret (Keygen kg pool keys).

Definition keygen_free (kg : keygen) : M os unit :=
  frees (kg_keys kg) ;;; free (kg_pool kg) ;;; free (kg_self kg).

(** The generator, and the stopwatch of [sw_create]. *)
Definition bench_init (nr_key : Z) : M os (keygen * Z) :=
  let* kg := keygen_init nr_key in let* sw := malloc in ret (kg, sw).

Definition bench_free (kg : keygen) (sock : Z) : M os unit :=
  mmod (with_globs with_stop) ;;; join ;;; keygen_free kg ;;; close sock.

(** ** Allocation *)

(** Only addresses handed out are live. *)
Definition heap_ok (h : os) : Prop := 0 < brk h /\ forall p, p ∈ live h -> 0 < p < brk h.

(** [h'] is [h] with the new blocks [ps]. *)
Record allocated (ps : list Z) (h h' : os) : Prop := Allocated {
  al_nodup : NoDup ps;
  al_new : Forall (fun p => brk h <= p < brk h') ps;
  al_brk : brk h <= brk h';
  al_live : live h' = live h ∪ list_to_set ps
}.

Lemma allocated_nil h : allocated [] h h.
Proof. split; simpl; try done; [by apply NoDup_nil | by rewrite union_empty_r_L]. Qed.

Lemma allocated_app ps qs h1 h2 h3 :
  allocated ps h1 h2 -> allocated qs h2 h3 -> allocated (ps ++ qs) h1 h3.
Proof.
  intros [A1 A2 A3 A4] [B1 B2 B3 B4]. rewrite Forall_forall in A2, B2. split.
  - apply NoDup_app. split_and!; [done | | done]. intros p Hp Hq. specialize (A2 p Hp). specialize (B2 p Hq). lia.
  - apply Forall_forall. intros p [Hp|Hp]%elem_of_app; [specialize (A2 p Hp) | specialize (B2 p Hp)]; lia.
  - lia.
  - by rewrite B4, A4, list_to_set_app_L, union_assoc_L.
Qed.

Lemma allocated_perm ps qs h h' : allocated ps h h' -> ps ≡ₚ qs -> allocated qs h h'.
Proof. intros [A1 A2 A3 A4] E. split; try done; by rewrite <- E. Qed.

Lemma allocated_heap_ok ps h h' : allocated ps h h' -> heap_ok h -> heap_ok h'.
Proof.
  intros [_ A2 A3 A4] [H1 H2]. rewrite Forall_forall in A2. split; [lia|].
  intros p. rewrite A4. intros [Hp|Hp%elem_of_list_to_set]%elem_of_union; [specialize (H2 p Hp) | specialize (A2 p Hp)]; lia.
Qed.

(** The globals do not matter to it. *)
Lemma allocated_globs ps h h' f : allocated ps h h' -> allocated ps h (with_globs f h').
Proof. by intros [A1 A2 A3 A4]. Qed.

Lemma malloc_ok h : heap_ok h -> exists p h', malloc h = Ret p h' /\ allocated [p] h h' /\ globs h' = globs h.
Proof.
  intros _. eexists _, _. split; [done|]. split; [|done]. split; simpl; try done.
  - apply NoDup_singleton.
  - constructor; [lia | constructor].
  - lia.
  - by rewrite union_empty_r_L, union_comm_L.
Qed.

Lemma mallocs_ok n h : heap_ok h -> exists ps h', mallocs n h = Ret ps h' /\ allocated ps h h' /\ globs h' = globs h.
Proof.
  revert h. induction n as [|n IH]; intros h Hh.
  - exists [], h. split_and!; [done | apply allocated_nil | done].
  - destruct (malloc_ok h Hh) as (p & h1 & E1 & A1 & G1).
    destruct (IH h1 (allocated_heap_ok _ _ _ A1 Hh)) as (ps & h2 & E2 & A2 & G2).
    exists (p :: ps), h2. cbn [mallocs]. rewrite (bind_ret _ _ _ _ _ E1), (bind_ret _ _ _ _ _ E2).
    split_and!; [done | by apply (allocated_app [p] ps h h1 h2) | congruence].
Qed.

(** ** Release *)

(** The blocks [ps] are live, distinct and not null: each can be freed once. *)
Definition owned (ps : list Z) (h : os) : Prop := NoDup ps /\ forall p, p ∈ ps -> p ∈ live h /\ p <> NULL.

Definition without (ps : list Z) (h : os) : os := with_live (live h ∖ list_to_set ps) h.

Lemma without_app ps qs h : without qs (without ps h) = without (ps ++ qs) h.
Proof. unfold without, with_live. simpl. f_equal. by rewrite list_to_set_app_L, difference_difference_l_L. Qed.

Lemma owned_app ps qs h : owned (ps ++ qs) h -> owned ps h /\ owned qs (without ps h).
Proof.
  intros [Hnd Hin]. apply NoDup_app in Hnd as (H1 & H2 & H3). split; split; try done.
  - intros p Hp. apply Hin, elem_of_app. by left.
  - intros p Hp. destruct (Hin p) as [Hl Hn]; [apply elem_of_app; by right|]. split; [|done].
    simpl. apply elem_of_difference. split; [done|]. intros Hq%elem_of_list_to_set. by apply (H2 p).
Qed.

Lemma allocated_owned ps h h' : allocated ps h h' -> heap_ok h -> owned ps h'.
Proof.
  intros [A1 A2 _ A4] [H1 _]. rewrite Forall_forall in A2. split; [done|]. intros p Hp.
  split; [rewrite A4; apply elem_of_union; right; by apply elem_of_list_to_set|].
  specialize (A2 p Hp). unfold NULL. lia.
Qed.

Lemma free_ok p h : owned [p] h -> free p h = Ret tt (without [p] h).
Proof.
  intros [_ Hin]. destruct (Hin p) as [Hp Hn]; [by apply list_elem_of_singleton|].
  unfold free. rewrite (proj2 (Z.eqb_neq _ _)) by done. rewrite decide_True by done.
  unfold without. simpl. by rewrite union_empty_r_L.
Qed.

Lemma frees_ok ps h : owned ps h -> frees ps h = Ret tt (without ps h).
Proof.
  revert h. induction ps as [|p ps IH]; intros h Ho.
  - unfold without, with_live. simpl. rewrite difference_empty_L. by destruct h.
  - destruct (owned_app [p] ps h Ho) as [H1 H2]. cbn [frees]. rewrite (bind_ret _ _ _ _ _ (free_ok _ _ H1)).
    rewrite (IH _ H2). by rewrite without_app.
Qed.

(** Frees the blocks [ps] and goes on with the rest. *)
Lemma release_step (m : M os unit) (k : M os unit) ps qs h :
  (forall h, owned ps h -> m h = Ret tt (without ps h)) -> owned (ps ++ qs) h ->
  owned qs (without ps h) /\ (m ;;; k) h = k (without ps h).
Proof. intros Hm Ho. destruct (owned_app _ _ _ Ho) as [H1 H2]. split; [done|]. by rewrite (bind_ret _ _ _ _ _ (Hm h H1)). Qed.

(** ** Queues *)

Definition q_blocks (q : queue) : list Z := (q_nodes q).*1 ++ [q_self q].

(** Null elements end the loop of [q_free] early. *)
Definition q_ok (q : queue) : Prop := Forall (fun nx => snd nx <> NULL) (q_nodes q).

Lemma q_drain_ok ns h :
  Forall (fun nx => snd nx <> NULL) ns -> owned ns.*1 h -> q_drain ns h = Ret tt (without ns.*1 h).
Proof.
  intros Hns. revert h. induction Hns as [|[n x] ns Hx Hns IH]; intros h Ho.
  - unfold without, with_live. simpl. rewrite difference_empty_L. by destruct h.
  - cbn [q_drain]. destruct (owned_app [n] ns.*1 h Ho) as [H1 H2]. rewrite (bind_ret _ _ _ _ _ (free_ok _ _ H1)).
    simpl in Hx. rewrite (proj2 (Z.eqb_neq x _)) by done. rewrite (IH _ H2). by rewrite without_app.
Qed.

Lemma q_free_ok q h : q_ok q -> owned (q_blocks q) h -> q_free q h = Ret tt (without (q_blocks q) h).
Proof.
  intros Hq Ho. destruct (owned_app _ _ _ Ho) as [H1 H2]. unfold q_free.
  rewrite (bind_ret _ _ _ _ _ (q_drain_ok _ _ Hq H1)), (free_ok _ _ H2). apply f_equal, without_app.
Qed.

(** A null element keeps [q_free] from the nodes behind it. *)
Lemma q_free_null ns1 ns2 n p h :
  Forall (fun nx => snd nx <> NULL) ns1 -> owned (ns1.*1 ++ [n; p]) h ->
  q_free (Queue p (ns1 ++ (n, NULL) :: ns2)) h = Ret tt (without (ns1.*1 ++ [n; p]) h).
Proof.
  intros Hns. revert h. unfold q_free. cbn [q_nodes q_self].
  induction Hns as [|[m x] ns Hx Hns IH]; intros h Ho.
  - destruct (owned_app [n] [p] h Ho) as [H1 H2]. cbn [app q_drain].
    erewrite bind_ret by (rewrite (bind_ret _ _ _ _ _ (free_ok _ _ H1)); exact eq_refl).
    rewrite (free_ok _ _ H2). by rewrite without_app.
  - destruct (owned_app [m] (ns.*1 ++ [n; p]) h Ho) as [H1 H2]. cbn [app q_drain]. rewrite bind_assoc.
    rewrite (bind_ret _ _ _ _ _ (free_ok _ _ H1)). simpl in Hx.
    rewrite (proj2 (Z.eqb_neq x _)) by done. rewrite (IH _ H2). by rewrite without_app.
Qed.

Lemma q_init_ok h :
  heap_ok h -> exists p h', q_init h = Ret (Queue p []) h' /\ allocated [p] h h' /\ globs h' = globs h.
Proof.
  intros Hh. destruct (malloc_ok h Hh) as (p & h' & E & A). exists p, h'. unfold q_init.
  by rewrite (bind_ret _ _ _ _ _ E).
Qed.

Lemma fill_pool_allocates n i q h :
  heap_ok h -> 0 <= i -> q_ok q ->
  exists q' h' ps, fill_pool i n q h = Ret q' h' /\ allocated ps h h' /\ globs h' = globs h /\
    q_blocks q' ≡ₚ q_blocks q ++ ps /\ q_ok q'.
Proof.
  revert i q h. induction n as [|n IH]; intros i q h Hh Hi Hq.
  - exists q, h, []. split_and!; [done | apply allocated_nil | done | by rewrite app_nil_r | done].
  - destruct (malloc_ok h Hh) as (p & h1 & E1 & A1 & G1). cbn [fill_pool]. unfold q_enqueue at 1.
    rewrite bind_assoc, (bind_ret _ _ _ _ _ E1). erewrite bind_ret by exact eq_refl.
    destruct (IH (i + 1) (Queue (q_self q) (q_nodes q ++ [(p, i + 1)])) h1) as (q' & h' & ps & E & A & G & Hb & Hok);
      [by eapply allocated_heap_ok | lia | |].
    { apply Forall_app. split; [done|]. constructor; [simpl; unfold NULL; lia | constructor]. }
    exists q', h', (p :: ps). split_and!; [done | by apply (allocated_app [p] ps h h1 h') | congruence | | done].
    rewrite Hb. unfold q_blocks. cbn [q_nodes q_self]. rewrite fmap_app, <- !app_assoc.
    apply Permutation_app_head, perm_swap.
Qed.

(** ** Indexes *)

(** What a handler relies on. *)
Class IndexLaws (X : Type) `{Index X} : Prop := {
  ix_init_ok : forall h, heap_ok h ->
    exists x h', ix_init h = Ret x h' /\ allocated (ix_blocks x) h h' /\
      (exists p, globs h' = with_sw_set p (globs h)) /\ ix_ready x (globs h');
  ix_free_ok : forall x h, ix_ready x (globs h) -> owned (ix_blocks x) h ->
    ix_free x h = Ret tt (without (ix_blocks x) h);
  ix_ready_stable : forall x g g', sw_set g' = sw_set g -> ix_ready x g -> ix_ready x g'
}.

(** Allocates the next block of a constructor. *)
Ltac grab lemma :=
  match goal with
  | Hh : heap_ok ?h |- context [bind _ _ ?h] =>
      let E := fresh "E" in let A := fresh "A" in let G := fresh "G" in
      destruct (lemma h Hh) as (? & ? & E & A & G);
      rewrite (bind_ret _ _ _ _ _ E); clear E;
      pose proof (allocated_heap_ok _ _ _ A Hh); clear Hh
  end.

(** Joins the allocations of a constructor. *)
Ltac join_blocks :=
  repeat match goal with
  | A : allocated ?ps ?h1 ?h2, B : allocated ?qs ?h2 ?h3 |- _ =>
      pose proof (allocated_app _ _ _ _ _ A B); clear A B
  end.

(** Frees the next block of a destructor. *)
Tactic Notation "release" uconstr(lemma) :=
  match goal with
  | Ho : owned (?ps ++ ?qs) ?h |- context [bind ?m ?k ?h] =>
      let Ho1 := fresh "Ho" in let Ho2 := fresh "Ho" in
      destruct (owned_app ps qs h Ho) as [Ho1 Ho2];
      rewrite (bind_ret m k h tt (without ps h) (lemma Ho1)); cbv beta;
      rewrite ?without_app in *; clear Ho Ho1
  end.

#[export] Instance hopscotch_index_laws : IndexLaws hopscotch.
Proof.
  split; [| | done].
  - intros h Hh. cbn [ix_init hopscotch_index]. unfold hopscotch_init. do 2 grab malloc_ok.
    destruct (mallocs_ok (Z.to_nat HopTable.NR_TABLE) _ ltac:(eassumption)) as (ps & h3 & E & A3 & G3).
    rewrite (bind_ret _ _ _ _ _ E). eexists _, _. split; [exact eq_refl|]. split_and!; [| | done].
    + join_blocks. eapply allocated_perm; [eassumption|]. cbn [ix_blocks hopscotch_index hs_entry hs_table hs_self].
      solve_Permutation.
    + exists (sw_set (globs h)). assert (globs h3 = globs h) as -> by congruence. by destruct (globs h).
  - intros hs h _ Ho. cbn [ix_free ix_blocks hopscotch_index] in *. unfold hopscotch_free.
    change [hs_table hs; hs_self hs] with ([hs_table hs] ++ [hs_self hs]) in *.
    release (frees_ok _ _). release (free_ok _ _). by rewrite (free_ok _ _ ltac:(eassumption)), without_app, <- app_assoc.
Qed.

#[export] Instance bigkv_index_laws : IndexLaws bigkv_index.
Proof.
  split; [| | intros x g g' E Hr; cbn [ix_ready bigkv_index_index] in *; congruence].
  - intros h Hh. cbn [ix_init bigkv_index_index]. unfold bigkv_index_init. do 5 grab malloc_ok.
    erewrite bind_ret by exact eq_refl. eexists _, _. split; [exact eq_refl|].
    cbn [ix_blocks ix_ready bigkv_index_index bi_bucket bi_part bi_table bi_self bi_sw]. split_and!; [| | done].
    + apply allocated_globs. join_blocks. eapply allocated_perm; [eassumption|]. solve_Permutation.
    + eexists. simpl. f_equal. congruence.
  - intros bi h Hr Ho. cbn [ix_free ix_blocks ix_ready bigkv_index_index] in *. unfold bigkv_index_free.
    change [bi_bucket bi; bi_part bi; bi_table bi; bi_self bi; bi_sw bi]
      with ([bi_bucket bi] ++ [bi_part bi] ++ [bi_table bi] ++ [bi_self bi] ++ [bi_sw bi]) in *.
    do 4 release (free_ok _ _). erewrite bind_ret by exact eq_refl. cbn [globs without with_live].
    rewrite Hr, (free_ok _ _ ltac:(eassumption)), without_app. by rewrite <- !app_assoc.
Qed.

(** ** Handlers *)

Section HandlerLife.
Context {X : Type} `{IndexLaws X}.

(** The blocks of a handler, in the order in which they are freed. *)
Definition blocks (hlr : handler X) : list Z :=
  ix_blocks (h_index hlr) ++ [h_ops hlr] ++ [h_flying hlr] ++
  q_blocks (h_req_q hlr) ++ q_blocks (h_retry_q hlr) ++ q_blocks (h_done_q hlr) ++
  q_blocks (h_req_pool hlr) ++ [h_req_arr hlr] ++ q_blocks (h_iocb_pool hlr) ++ [h_iocb_arr hlr] ++
  q_blocks (h_cb_pool hlr) ++ [h_cb_arr hlr] ++
  [dv_seg_array (h_dev hlr)] ++ [dv_buf (h_dev hlr)] ++ [dv_self (h_dev hlr)] ++ [h_self hlr].

Definition queues_ok (hlr : handler X) : Prop :=
  q_ok (h_req_q hlr) /\ q_ok (h_retry_q hlr) /\ q_ok (h_done_q hlr) /\
  q_ok (h_req_pool hlr) /\ q_ok (h_iocb_pool hlr) /\ q_ok (h_cb_pool hlr).

(** The answers with which the constructor does not abort. *)
Definition answers_ok (a : answers) : Prop :=
  0 <= an_fd a /\ is_Some (an_size a) /\ is_Some (an_block a) /\ 0 <= an_ctx a.

(** What [handler_init] and [handler_free] do to the globals. *)
Definition opened (a : answers) (p : Z) (g : globals) : globals :=
  Globals ({[ an_fd a ]} ∪ fds g) ({[ an_ctx a ]} ∪ io_ctxs g) (stopflag g) (tryjoins g) p.
Definition stopped (hlr : handler X) (rest : list Z) (g : globals) : globals :=
  Globals (fds g ∖ {[ dv_fd (h_dev hlr) ]}) (io_ctxs g ∖ {[ h_aio_ctx hlr ]}) true rest (sw_set g).

Lemma dev_abs_init_allocates a h :
  heap_ok h -> answers_ok a ->
  exists d h', dev_abs_init a h = Ret d h' /\ allocated ([dv_seg_array d] ++ [dv_buf d] ++ [dv_self d]) h h' /\
    globs h' = with_fds (fun s => {[ an_fd a ]} ∪ s) (globs h) /\ dv_fd d = an_fd a.
Proof.
  intros Hh (Hf & [n Hn] & [b Hb] & _). unfold dev_abs_init. grab malloc_ok.
  unfold massert. rewrite (proj2 (Z.ltb_ge (an_fd a) 0)) by done. rewrite Hn, Hb. cbn [negb mopt].
  do 4 (erewrite bind_ret by exact eq_refl).
  match goal with Hok : heap_ok ?h1 |- context [with_globs ?f ?h1] =>
    assert (heap_ok (with_globs f h1)) by done; assert (allocated [] h1 (with_globs f h1)) by (apply allocated_globs, allocated_nil);
    set (h2 := with_globs f h1) in *; clear Hok end.
  do 2 grab malloc_ok. eexists _, _. split; [exact eq_refl|]. cbn [dv_seg_array dv_buf dv_self dv_fd]. split_and!; [| | done].
  - join_blocks. eapply allocated_perm; [eassumption|]. solve_Permutation.
  - assert (globs h2 = with_fds (fun s => {[ an_fd a ]} ∪ s) (globs h)) as <- by (unfold h2; simpl; by f_equal).
    congruence.
Qed.

(** Fills one of the three pools. *)
Ltac grab_pool :=
  match goal with
  | Hh : heap_ok ?h |- context [bind (fill_pool 0 ?n ?q) _ ?h] =>
      let E := fresh "E" in let A := fresh "A" in let G := fresh "G" in let B := fresh "B" in
      destruct (fill_pool_allocates n 0 q h Hh (Z.le_refl 0)) as (? & ? & ? & E & A & G & B & ?);
      [by apply Forall_nil|];
      rewrite (bind_ret _ _ _ _ _ E); clear E;
      pose proof (allocated_heap_ok _ _ _ A Hh); clear Hh
  end.

Lemma handler_init_ok a h :
  heap_ok h -> answers_ok a ->
  exists hlr h' p, handler_init a h = Ret hlr h' /\ allocated (blocks hlr) h h' /\ heap_ok h' /\
    globs h' = opened a p (globs h) /\ ix_ready (h_index hlr) (globs h') /\ queues_ok hlr /\
    dv_fd (h_dev hlr) = an_fd a /\ h_aio_ctx hlr = an_ctx a.
Proof.
  intros Hh Ha. unfold handler_init, cl_init. pose proof Hh as Hh0. do 2 grab malloc_ok.
  match goal with Hok : heap_ok ?h1 |- context [bind _ _ ?h1] => rename Hok into Hokx end.
  destruct (ix_init_ok _ Hokx) as (x' & h2 & E & Ax & [p Gx] & Hr).
  rewrite (bind_ret _ _ _ _ _ E). pose proof (allocated_heap_ok _ _ _ Ax Hokx). clear E Hokx.
  grab malloc_ok. do 6 grab q_init_ok.
  match goal with Hok : heap_ok ?h1 |- context [bind (dev_abs_init a) _ ?h1] =>
    destruct (dev_abs_init_allocates a h1 Hok Ha) as (d & h3 & E & Ad & Gd & Hfd);
    rewrite (bind_ret _ _ _ _ _ E); pose proof (allocated_heap_ok _ _ _ Ad Hok); clear E Hok end.
  do 3 (grab malloc_ok; grab_pool).
  unfold massert. rewrite (proj2 (Z.ltb_ge (an_ctx a) 0)) by apply Ha. cbn [negb].
  do 2 (erewrite bind_ret by exact eq_refl).
  eexists _, _, p. split; [exact eq_refl|].
  cbn [h_self h_ops h_index h_flying h_req_q h_retry_q h_done_q h_req_pool h_req_arr h_iocb_pool h_iocb_arr
       h_cb_pool h_cb_arr h_dev h_aio_ctx].
  split.
  { apply allocated_globs. join_blocks. eapply allocated_perm; [eassumption|]. unfold blocks.
    cbn [h_self h_ops h_index h_flying h_req_q h_retry_q h_done_q h_req_pool h_req_arr h_iocb_pool h_iocb_arr
         h_cb_pool h_cb_arr h_dev h_aio_ctx].
    repeat match goal with B : q_blocks ?q ≡ₚ _ |- context [q_blocks ?q] => rewrite B; clear B end.
    unfold q_blocks. cbn [q_nodes q_self fmap list_fmap]. solve_Permutation. }
  split; [done|]. split; [|split; [|split; [|split; [done|done]]]].
  - unfold opened. simpl. repeat match goal with G : globs ?h1 = _ |- context [globs ?h1] => rewrite G; clear G end. done.
  - eapply ix_ready_stable; [|exact Hr]. simpl.
    repeat match goal with G : globs ?h1 = _ |- context [globs ?h1] => rewrite G; clear G end. done.
  - unfold queues_ok, q_ok. cbn [h_req_q h_retry_q h_done_q h_req_pool h_iocb_pool h_cb_pool]. by split_and!.
Qed.

(** ** Teardown *)

Lemma join_loop_ok busy rest h :
  Forall (fun rc => rc <> 0) busy ->
  join_loop (busy ++ 0 :: rest) h = Ret tt (with_globs (with_tryjoins rest) h).
Proof.
  intros Hb. revert h. induction Hb as [|rc busy Hrc Hb IH]; intros h; cbn [app join_loop];
    erewrite bind_ret by exact eq_refl.
  - done.
  - rewrite (proj2 (Z.eqb_neq rc 0)) by done. by rewrite IH.
Qed.

(** Two threads that end after a while. *)
Definition both_end (answers rest : list Z) : Prop :=
  exists busy1 busy2, answers = busy1 ++ 0 :: busy2 ++ 0 :: rest /\
    Forall (fun rc => rc <> 0) busy1 /\ Forall (fun rc => rc <> 0) busy2.

Lemma dev_abs_free_ok d h :
  owned ([dv_seg_array d] ++ [dv_buf d]) h ->
  dev_abs_free d h = Ret tt (with_globs (with_fds (fun s => s ∖ {[ dv_fd d ]})) (without ([dv_seg_array d] ++ [dv_buf d]) h)).
Proof.
  intros Ho. unfold dev_abs_free, close. erewrite bind_ret by exact eq_refl.
  match goal with |- context [bind _ _ ?h1] => change (owned ([dv_seg_array d] ++ [dv_buf d]) h1) in Ho end.
  release (free_ok _ _). by rewrite (free_ok _ _ ltac:(eassumption)), without_app.
Qed.

(** [handler_free] frees what the handler holds, each block once, closes the
    device, destroys the AIO context, and touches nothing else. *)
Lemma handler_free_ok hlr rest h :
  owned (blocks hlr) h -> ix_ready (h_index hlr) (globs h) -> queues_ok hlr -> both_end (tryjoins (globs h)) rest ->
  handler_free hlr h = Ret tt (with_globs (stopped hlr rest) (without (blocks hlr) h)).
Proof.
  intros Ho Hr (Q1 & Q2 & Q3 & Q4 & Q5 & Q6) (busy1 & busy2 & Ht & Hb1 & Hb2).
  unfold handler_free, cl_free. erewrite bind_ret by exact eq_refl. unfold join.
  erewrite bind_ret; [|erewrite bind_ret by exact eq_refl; cbn; rewrite Ht; by apply join_loop_ok].
  erewrite bind_ret; [|erewrite bind_ret by exact eq_refl; cbn; by apply join_loop_ok].
  set (h1 := with_globs _ _).
  assert (owned (blocks hlr) h1) as Ho1 by done.
  assert (ix_ready (h_index hlr) (globs h1)) as Hr1 by by eapply ix_ready_stable; [|exact Hr].
  assert (Hfin : with_globs (stopped hlr rest) (without (blocks hlr) h) =
                 with_globs (with_ctxs (fun s => s ∖ {[ h_aio_ctx hlr ]}))
                   (with_globs (with_fds (fun s => s ∖ {[ dv_fd (h_dev hlr) ]})) (without (blocks hlr) h1))) by done.
  rewrite Hfin. clearbody h1. clear Ho Hr Ht Hfin h. unfold blocks in *.
  release (ix_free_ok _ _ Hr1). do 2 release (free_ok _ _).
  release (q_free_ok _ _ Q1). release (q_free_ok _ _ Q2). release (q_free_ok _ _ Q3).
  release (q_free_ok _ _ Q4). release (free_ok _ _). release (q_free_ok _ _ Q5). release (free_ok _ _).
  release (q_free_ok _ _ Q6). release (free_ok _ _).
  match goal with Ho : owned ?l ?h2 |- _ =>
    rewrite (app_assoc [dv_seg_array (h_dev hlr)] [dv_buf (h_dev hlr)]) in Ho;
    destruct (owned_app _ _ _ Ho) as [Hd Ho2]; rewrite (bind_ret _ _ _ _ _ (dev_abs_free_ok _ _ Hd)); clear Ho Hd end.
  rewrite without_app in *.
  destruct (owned_app [dv_self (h_dev hlr)] _ _ Ho2) as [H1 H2].
  match goal with |- context [bind _ _ ?h3] => change (owned [dv_self (h_dev hlr)] h3) in H1 end.
  rewrite (bind_ret _ _ _ _ _ (free_ok _ _ H1)). erewrite bind_ret by exact eq_refl.
  match goal with |- free _ ?h3 = _ => change (owned [h_self hlr] h3) in H2 end.
  rewrite (free_ok _ _ H2). f_equal.
  match goal with |- without ?l1 (with_globs ?f (without ?l2 (with_globs ?g (without ?l3 ?h3)))) = _ =>
    change (with_globs f (with_globs g (without l1 (without l2 (without l3 h3)))) =
            with_globs f (with_globs g (without (blocks hlr) h3))) end.
  rewrite !without_app. unfold blocks. by rewrite <- !app_assoc.
Qed.

(** ** A handler's life *)

Lemma allocated_back ps h h' : heap_ok h -> allocated ps h h' -> live h' ∖ list_to_set ps = live h.
Proof.
  intros [_ Hh] [_ A2 _ A4]. rewrite Forall_forall in A2. rewrite A4.
  rewrite difference_union_distr_l_L, difference_diag_L, union_empty_r_L.
  apply difference_disjoint_L. intros p Hp Hq%elem_of_list_to_set. specialize (Hh p Hp). specialize (A2 p Hq). lia.
Qed.

Lemma add_remove (x : Z) (s : gset Z) : (x ∉ s) -> ({[ x ]} ∪ s) ∖ {[ x ]} = s.
Proof. intros Hx. by rewrite difference_union_distr_l_L, difference_diag_L, union_empty_l_L, difference_disjoint_L by set_solver. Qed.

Lemma handler_life a h rest :
  heap_ok h -> answers_ok a -> (an_fd a ∉ fds (globs h)) -> (an_ctx a ∉ io_ctxs (globs h)) ->
  both_end (tryjoins (globs h)) rest ->
  exists hlr h1 h2, handler_init a h = Ret hlr h1 /\ handler_free hlr h1 = Ret tt h2 /\
    live h2 = live h /\ fds (globs h2) = fds (globs h) /\ io_ctxs (globs h2) = io_ctxs (globs h) /\
    stopflag (globs h2) = true.
Proof.
  intros Hh Ha Hf Hc Hj. destruct (handler_init_ok a h Hh Ha) as (hlr & h1 & p & E1 & A & _ & G & Hr & Hq & Hfd & Hctx).
  assert (both_end (tryjoins (globs h1)) rest) as Hj1 by by rewrite G.
  pose proof (handler_free_ok hlr rest h1 (allocated_owned _ _ _ A Hh) Hr Hq Hj1) as E2.
  eexists hlr, h1, _. split; [done|]. split; [exact E2|]. cbn [live globs with_globs without with_live stopped fds io_ctxs stopflag].
  rewrite Hfd, Hctx, G. cbn [opened fds io_ctxs]. split_and!; [by eapply allocated_back | by apply add_remove | by apply add_remove | done].
Qed.

(** ** Several handlers *)

Fixpoint all_end (n : nat) (answers rest : list Z) : Prop :=
  match n with
  | O => answers = rest
  | S n' => exists mid, both_end answers mid /\ all_end n' mid rest
  end.

Definition same_device (a : answers) (hlr : handler X) : Prop :=
  dv_fd (h_dev hlr) = an_fd a /\ h_aio_ctx hlr = an_ctx a.

Lemma init_all_ok l h :
  heap_ok h -> Forall answers_ok l ->
  exists hs h1, init_all l h = Ret hs h1 /\ allocated (concat (blocks <$> hs)) h h1 /\
    fds (globs h1) = list_to_set (an_fd <$> l) ∪ fds (globs h) /\
    io_ctxs (globs h1) = list_to_set (an_ctx <$> l) ∪ io_ctxs (globs h) /\
    tryjoins (globs h1) = tryjoins (globs h) /\ Forall queues_ok hs /\ Forall2 same_device l hs.
Proof.
  intros Hh Hl. revert h Hh. induction Hl as [|a l Ha Hl IH]; intros h Hh.
  - exists [], h. cbn. rewrite !union_empty_l_L. split_and!; try done. apply allocated_nil.
  - destruct (handler_init_ok a h Hh Ha) as (hlr & h1 & p & E1 & A1 & Hh1 & G1 & _ & Hq & Hd).
    destruct (IH h1 Hh1) as (hs & h2 & E2 & A2 & G2 & G3 & G4 & Hqs & Hds).
    exists (hlr :: hs), h2. cbn [init_all]. rewrite (bind_ret _ _ _ _ _ E1), (bind_ret _ _ _ _ _ E2).
    rewrite G2, G3, G4, G1. cbn. rewrite !(union_comm_L {[ _ ]} (list_to_set _)), !union_assoc_L.
    split_and!; try done; [by eapply allocated_app | by constructor | by constructor].
Qed.

Lemma free_all_ok hs rest h :
  (forall x g, ix_ready (X:=X) x g) -> owned (concat (blocks <$> hs)) h -> Forall queues_ok hs ->
  all_end (length hs) (tryjoins (globs h)) rest ->
  exists h', free_all hs h = Ret tt h' /\ live h' = live h ∖ list_to_set (concat (blocks <$> hs)) /\
    fds (globs h') = fds (globs h) ∖ list_to_set ((fun hlr => dv_fd (h_dev hlr)) <$> hs) /\
    io_ctxs (globs h') = io_ctxs (globs h) ∖ list_to_set (h_aio_ctx <$> hs) /\ tryjoins (globs h') = rest.
Proof.
  intros Hready Ho Hq. revert h Ho. induction Hq as [|hlr hs Hq Hqs IH]; intros h Ho He.
  - exists h. cbn. by rewrite !difference_empty_L.
  - destruct He as (mid & He1 & He2). rewrite fmap_cons in Ho. cbn [concat] in Ho.
    destruct (owned_app _ _ _ Ho) as [H1 H2].
    pose proof (handler_free_ok hlr mid h H1 (Hready _ _) Hq He1) as E.
    destruct (IH (with_globs (stopped hlr mid) (without (blocks hlr) h)) H2 He2) as (h' & E' & L & F & C & T).
    exists h'. cbn [free_all]. rewrite (bind_ret _ _ _ _ _ E), E', L, F, C, T. split; [done|].
    cbn [live globs with_globs without with_live stopped fds io_ctxs]. rewrite !fmap_cons. cbn [concat].
    rewrite list_to_set_app_L, !list_to_set_cons, !difference_difference_l_L. by split_and!.
Qed.

Lemma same_device_fds l hs :
  Forall2 same_device l hs ->
  (fun hlr => dv_fd (h_dev hlr)) <$> hs = an_fd <$> l /\ h_aio_ctx <$> hs = an_ctx <$> l.
Proof. induction 1 as [|a hlr l hs [H1 H2] _ [IH1 IH2]]; [done|]. rewrite !fmap_cons. split; congruence. Qed.

Lemma handlers_life (l : list answers) (rest : list Z) (h : os) :
  (forall x g, ix_ready (X:=X) x g) -> heap_ok h -> Forall answers_ok l ->
  Forall (fun a => (an_fd a ∉ fds (globs h)) /\ (an_ctx a ∉ io_ctxs (globs h))) l ->
  all_end (length l) (tryjoins (globs h)) rest ->
  exists hs h1 h2, init_all (X:=X) l h = Ret hs h1 /\ length hs = length l /\ free_all hs h1 = Ret tt h2 /\
    live h2 = live h /\ fds (globs h2) = fds (globs h) /\ io_ctxs (globs h2) = io_ctxs (globs h) /\
    tryjoins (globs h2) = rest.
Proof.
  intros Hready Hh Hl Hnew He. destruct (init_all_ok l h Hh Hl) as (hs & h1 & E1 & A & G1 & G2 & G3 & Hq & Hd).
  pose proof (Forall2_length _ _ _ Hd) as Hlen. rewrite Hlen, <- G3 in He.
  destruct (free_all_ok hs rest h1 Hready (allocated_owned _ _ _ A Hh) Hq He) as (h2 & E2 & L & F & C & T).
  destruct (same_device_fds _ _ Hd) as [D1 D2]. rewrite Forall_forall in Hnew.
  exists hs, h1, h2. split_and!; [done | done | done | | | |].
  - rewrite L. by eapply allocated_back.
  - rewrite F, D1, G1. rewrite difference_union_distr_l_L, difference_diag_L, union_empty_l_L.
    apply difference_disjoint_L. intros f Hf (a & -> & Ha)%elem_of_list_to_set%list_elem_of_fmap.
    by destruct (Hnew a Ha).
  - rewrite C, D2, G2. rewrite difference_union_distr_l_L, difference_diag_L, union_empty_l_L.
    apply difference_disjoint_L. intros f Hf (a & -> & Ha)%elem_of_list_to_set%list_elem_of_fmap.
    by destruct (Hnew a Ha).
  - done.
Qed.

(** C9: What is constructed is torn down, each piece once. With an index that keeps
    nothing in globals, [handler_init] for any number of devices and then
    [handler_free] for each never frees a block twice or one that is not its own,
    and leaves the memory, the descriptors and the AIO contexts of the process as
    they were. *)
Theorem handlers_return_everything (l : list answers) (rest : list Z) (h : os) :
  (forall x g, ix_ready (X:=X) x g) -> heap_ok h -> Forall answers_ok l ->
  Forall (fun a => (an_fd a ∉ fds (globs h)) /\ (an_ctx a ∉ io_ctxs (globs h))) l ->
  all_end (length l) (tryjoins (globs h)) rest ->
  exists hs h1 h2, init_all (X:=X) l h = Ret hs h1 /\ length hs = length l /\ free_all hs h1 = Ret tt h2 /\
    live h2 = live h /\ fds (globs h2) = fds (globs h) /\ io_ctxs (globs h2) = io_ctxs (globs h).
Proof.
  intros Hready Hh Hl Hnew He.
  destruct (handlers_life l rest h Hready Hh Hl Hnew He) as (hs & h1 & h2 & E1 & Hlen & E2 & H1 & H2 & H3 & _).
  by exists hs, h1, h2.
Qed.
End HandlerLife.

(** ** Two bigkv handlers *)

(** The second [bigkv_index_init] assigns [sw_set] anew. The first
    [bigkv_index_free] then frees the stopwatch of the second handler, and the
    second frees it again; the stopwatch of the first is lost. *)
Definition with_sw (sw : Z) (hlr : handler bigkv_index) : handler bigkv_index :=
  let x := h_index hlr in
  Handler (h_self hlr) (h_ops hlr) (BigkvIndex (bi_self x) (bi_table x) (bi_bucket x) (bi_part x) sw) (h_flying hlr)
    (h_req_q hlr) (h_retry_q hlr) (h_done_q hlr) (h_req_pool hlr) (h_req_arr hlr) (h_iocb_pool hlr) (h_iocb_arr hlr)
    (h_cb_pool hlr) (h_cb_arr hlr) (h_dev hlr) (h_aio_ctx hlr).

Lemma blocks_with_sw sw hlr : bi_sw (h_index hlr) :: blocks (with_sw sw hlr) ≡ₚ sw :: blocks hlr.
Proof. unfold blocks. cbn. solve_Permutation. Qed.

Lemma bi_sw_in (hlr : handler bigkv_index) : bi_sw (h_index hlr) ∈ blocks hlr.
Proof. unfold blocks. rewrite elem_of_app. left. cbn. rewrite !elem_of_cons. tauto. Qed.

Lemma with_sw_free sw hlr h : handler_free (with_sw sw hlr) h = handler_free hlr h.
Proof. reflexivity. Qed.

Lemma bigkv_free_stops (y : bigkv_index) h :
  owned ([bi_bucket y] ++ [bi_part y] ++ [bi_table y] ++ [bi_self y]) h ->
  (sw_set (globs h) ∉ live h) -> sw_set (globs h) <> NULL ->
  bigkv_index_free y h = Stop SDangling.
Proof.
  intros Ho Hn H0. unfold bigkv_index_free.
  change [bi_self y] with ([bi_self y] ++ []) in Ho. do 4 release (free_ok _ _).
  erewrite bind_ret by exact eq_refl. unfold free. cbn [globs without with_live live].
  rewrite (proj2 (Z.eqb_neq _ _)) by done. rewrite decide_False; [done|]. by intros [? _]%elem_of_difference.
Qed.

Lemma handler_free_stops (y : handler bigkv_index) rest h :
  both_end (tryjoins (globs h)) rest ->
  (forall h', live h' = live h -> sw_set (globs h') = sw_set (globs h) -> bigkv_index_free (h_index y) h' = Stop SDangling) ->
  handler_free y h = Stop SDangling.
Proof.
  intros (busy1 & busy2 & Ht & Hb1 & Hb2) Hs. unfold handler_free. erewrite bind_ret by exact eq_refl. unfold join.
  erewrite bind_ret; [|erewrite bind_ret by exact eq_refl; cbn; rewrite Ht; by apply join_loop_ok].
  erewrite bind_ret; [|erewrite bind_ret by exact eq_refl; cbn; by apply join_loop_ok].
  apply bind_stop. by apply Hs.
Qed.

(** C37: With two or more devices the teardown of the bigkv index frees the same
    stopwatch twice: the first [handler_free] ends, the second uses a block that
    is no longer allocated, and the stopwatch of the first handler is lost. *)
Theorem bigkv_second_free_dangles (a b : answers) (h : os) (rest : list Z) :
  heap_ok h -> answers_ok a -> answers_ok b -> all_end 2 (tryjoins (globs h)) rest ->
  exists (x y : handler bigkv_index) h1 h2, init_all [a; b] h = Ret [x; y] h1 /\
    handler_free x h1 = Ret tt h2 /\ bi_sw (h_index x) ∈ live h2 /\ handler_free y h2 = Stop SDangling.
Proof.
  intros Hh Ha Hb (mid & He1 & rest' & He2 & _).
  destruct (handler_init_ok (X:=bigkv_index) a h Hh Ha) as (x & h0 & p & E1 & A1 & Hh0 & G1 & _ & Hqx & _).
  destruct (handler_init_ok (X:=bigkv_index) b h0 Hh0 Hb) as (y & h1 & q & E2 & A2 & _ & G2 & Hry & Hqy & _).
  set (sx := bi_sw (h_index x)). set (sy := bi_sw (h_index y)).
  assert (owned (blocks x ++ blocks y) h1) as [Hnd Hin] by (eapply allocated_owned; [by eapply allocated_app | done]).
  apply NoDup_app in Hnd as (Hx & Hxy & Hy).
  pose proof (blocks_with_sw sy x) as Hp. fold sx in Hp.
  pose proof (bi_sw_in y) as Hsy. fold sy in Hsy.
  assert (NoDup (sx :: blocks (with_sw sy x))) as Hnd'.
  { rewrite Hp. constructor; [|done]. intros Hs. by apply (Hxy sy). }
  assert (forall z, z ∈ blocks (with_sw sy x) -> z = sy \/ z ∈ blocks x) as Hsub.
  { intros z Hz. assert (z ∈ sy :: blocks x) as Hz'%elem_of_cons by (rewrite <- Hp; by right). done. }
  apply NoDup_cons in Hnd' as [Hsx Hndx].
  pose proof (bi_sw_in (with_sw sy x)) as Hsyx. cbn in Hsyx.
  assert (owned (blocks (with_sw sy x)) h1) as Ho.
  { split; [done|]. intros z [-> | Hz]%Hsub; apply Hin, elem_of_app; [by right | by left]. }
  assert (handler_free x h1 = Ret tt (with_globs (stopped (with_sw sy x) mid) (without (blocks (with_sw sy x)) h1))) as E3.
  { rewrite <- (with_sw_free sy). apply handler_free_ok; [exact Ho | exact Hry | exact Hqx |].
    rewrite G2, G1. exact He1. }
  assert (sx ∈ live h1) as Hsx1 by (apply Hin, elem_of_app; left; apply bi_sw_in).
  eexists x, y, h1, _. split; [|split; [exact E3|split]].
  - cbn [init_all]. rewrite (bind_ret _ _ _ _ _ E1). erewrite bind_ret; [done|]. by rewrite (bind_ret _ _ _ _ _ E2).
  - cbn [live with_globs without with_live]. apply elem_of_difference. split; [done|].
    intros Hc%elem_of_list_to_set. exact (Hsx Hc).
  - eapply handler_free_stops; [exact He2|]. cbn [live globs with_globs without with_live stopped sw_set].
    intros h' L S. assert (sw_set (globs h') = sy) as Hsw by (rewrite S; exact Hry).
    destruct (Hin sy) as [_ Hsy0]; [apply elem_of_app; by right|].
    apply bigkv_free_stops; rewrite ?Hsw, ?L; [| | exact Hsy0].
    + set (four := [bi_bucket (h_index y)] ++ _). assert (blocks y = four ++ sy :: drop 5 (blocks y)) as Hb4 by reflexivity.
      rewrite Hb4 in Hy. apply NoDup_app in Hy as (H4 & H4' & _). split; [done|]. intros z Hz.
      assert (z ∈ blocks y) as Hzy by (rewrite Hb4; apply elem_of_app; by left).
      destruct (Hin z) as [Hzl Hz0]; [apply elem_of_app; by right|]. split; [|done]. rewrite L.
      apply elem_of_difference. split; [done|]. intros [-> | Hzx]%elem_of_list_to_set%Hsub.
      * apply (H4' sy Hz). by left.
      * exact (Hxy z Hzx Hzy).
    + intros [_ Hn]%elem_of_difference. apply Hn, elem_of_list_to_set. exact Hsyx.
Qed.

(** ** The client *)

Definition kg_blocks (kg : keygen) : list Z := kg_keys kg ++ [kg_pool kg] ++ [kg_self kg].

Lemma keygen_init_allocates n h :
  heap_ok h ->
  exists kg h', keygen_init n h = Ret kg h' /\ allocated (kg_blocks kg) h h' /\ globs h' = globs h.
Proof.
  intros Hh. unfold keygen_init. do 2 grab malloc_ok. grab (mallocs_ok (Z.to_nat n)).
  eexists _, _. split; [exact eq_refl|]. split; [|congruence]. unfold kg_blocks. cbn [kg_keys kg_pool kg_self].
  join_blocks. eapply allocated_perm; [eassumption|]. solve_Permutation.
Qed.

Lemma keygen_free_ok kg h : owned (kg_blocks kg) h -> keygen_free kg h = Ret tt (without (kg_blocks kg) h).
Proof.
  intros Ho. unfold keygen_free, kg_blocks in *. release (frees_ok _ _). release (free_ok _ _).
  by rewrite (free_ok _ _ ltac:(eassumption)), without_app, <- app_assoc.
Qed.

(** The client gives back what the key generator holds, and the socket; the
    stopwatch of [bench_init] stays. *)
Lemma bench_life nr_key sock busy rest h :
  heap_ok h -> tryjoins (globs h) = busy ++ 0 :: rest -> Forall (fun rc => rc <> 0) busy ->
  exists kg sw h1 h2, bench_init nr_key h = Ret (kg, sw) h1 /\ bench_free kg sock h1 = Ret tt h2 /\
    (sw ∉ live h) /\ live h2 = {[ sw ]} ∪ live h /\ fds (globs h2) = fds (globs h) ∖ {[ sock ]}.
Proof.
  intros Hh Ht Hb. unfold bench_init. destruct (keygen_init_allocates nr_key h Hh) as (kg & h1 & E & A & G).
  rewrite (bind_ret _ _ _ _ _ E). pose proof (allocated_heap_ok _ _ _ A Hh) as Hh1.
  destruct (malloc_ok h1 Hh1) as (sw & h2 & E2 & A2 & G2). rewrite (bind_ret _ _ _ _ _ E2).
  eexists kg, sw, h2, _. split; [done|]. pose proof (allocated_owned _ _ _ (allocated_app _ _ _ _ _ A A2) Hh) as Ho.
  apply owned_app in Ho as [Ho _]. split.
  - unfold bench_free. erewrite bind_ret by exact eq_refl. unfold join.
    erewrite bind_ret; [|erewrite bind_ret by exact eq_refl; cbn; rewrite G2, G, Ht; by apply join_loop_ok].
    match goal with |- context [bind (keygen_free kg) _ ?h3] =>
      rewrite (bind_ret _ _ _ _ _ (keygen_free_ok kg h3 Ho)) end. done.
  - cbn [live globs with_globs without with_live with_fds with_tryjoins with_stop fds]. rewrite G2, G.
    pose proof (al_new _ _ _ A2) as Hnew. apply Forall_cons in Hnew as [Hnew _]. pose proof (al_brk _ _ _ A).
    assert (sw ∉ live h1) as Hsw1 by (intros Hs; apply (proj2 Hh1) in Hs; lia).
    rewrite (al_live _ _ _ A) in Hsw1. split; [clear - Hsw1; set_solver|]. split; [|done].
    rewrite (al_live _ _ _ A2). cbn. rewrite union_empty_r_L, difference_union_distr_l_L.
    rewrite (allocated_back _ _ _ Hh A).
    rewrite (difference_disjoint_L {[ sw ]} (list_to_set (kg_blocks kg) : gset Z)) by (clear - Hsw1; set_solver).
    by rewrite union_comm_L.
Qed.

(** ** Concrete runs *)

Definition start_os (joins : list Z) : os := Os ∅ 1 (Globals {[ 0; 1; 2 ]} ∅ false joins 0).
Definition sample_answers (fd ctx : Z) : answers := Answers fd (Some 8192) (Some 512) ctx.

Lemma sample_answers_ok fd ctx : 0 <= fd -> 0 <= ctx -> answers_ok (sample_answers fd ctx).
Proof. intros. split_and!; try done; by eexists. Qed.

Lemma start_heap_ok joins : heap_ok (start_os joins).
Proof. split; [done|]. cbn. set_solver. Qed.

(** Two devices, whose threads are found busy a few times. *)
Lemma sample_all_end : all_end 2 [16; 0; 0; 16; 16; 0; 0] [].
Proof.
  exists [16; 16; 0; 0]. split.
  - exists [16], []. split_and!; [done | by repeat constructor | constructor].
  - exists []. split; [|done]. exists [16; 16], []. split_and!; [done | by repeat constructor | constructor].
Qed.

Lemma handlers_return_everything_witness :
  exists (hs : list (handler hopscotch)) h1 h2,
    init_all [sample_answers 3 8; sample_answers 4 9] (start_os [16; 0; 0; 16; 16; 0; 0]) = Ret hs h1 /\
    free_all hs h1 = Ret tt h2 /\ live h2 = ∅ /\ fds (globs h2) = {[ 0; 1; 2 ]}.
Proof.
  destruct (handlers_return_everything (X:=hopscotch) [sample_answers 3 8; sample_answers 4 9] []
              (start_os [16; 0; 0; 16; 16; 0; 0])) as (hs & h1 & h2 & H1 & _ & H2 & H3 & H4 & _).
  - done.
  - apply start_heap_ok.
  - repeat constructor; by apply sample_answers_ok.
  - repeat constructor; cbn; set_solver by lia.
  - exact sample_all_end.
  - exists hs, h1, h2. split; [exact H1|]. split; [exact H2|]. split; [exact H3 | exact H4].
Defined.

Lemma bigkv_second_free_dangles_witness :
  exists (x y : handler bigkv_index) h1 h2,
    init_all [sample_answers 3 8; sample_answers 4 9] (start_os [16; 0; 0; 16; 16; 0; 0]) = Ret [x; y] h1 /\
    handler_free x h1 = Ret tt h2 /\ handler_free y h2 = Stop SDangling.
Proof.
  destruct (bigkv_second_free_dangles (sample_answers 3 8) (sample_answers 4 9) (start_os [16; 0; 0; 16; 16; 0; 0]) [])
    as (x & y & h1 & h2 & H1 & H2 & _ & H3);
    [apply start_heap_ok | by apply sample_answers_ok | by apply sample_answers_ok | exact sample_all_end |].
  exists x, y, h1, h2. split; [exact H1|]. split; [exact H2 | exact H3].
Defined.
