(* ===== verification/OldServer.v ===== *)
(** * The old server program ([src/server.cc])

    A server without a master thread: [main] polls the sockets itself. The file is
    not built any more: its [struct net_req] and [struct net_ack] are only left in
    a comment of [include/util.h], with the members of [struct netreq] and [struct
    netack], which stand for them here. What differs from [src/master.c] and
    [src/temp.cc] is modelled; the handlers and the system calls are those of
    [Master], [Net] and [Lifetime]. *)

From Stdlib Require Import ZArith Lia.
From stdpp Require Import prelude gmap.
From S2P Require Import Prelude Config Bytes Util Queue CondLock World Request Device DeviceSpec Handler Net Server Master.
From S2P Require Lifetime.

#[local] Open Scope Z_scope.

(** ** Set-up *)

(** [connection_init]: every failure ends the program; the answer is [srv->fd] and
    [srv->epfd]. *)
Definition connection_init : M net (Z * Z) :=
  let* fd := sys_open in
  if fd =? -1 then mstop SAbort
  else
    let* flags := sys_getfl fd in
    let* rc := sys_setfl fd (Z.lor flags O_NONBLOCK) in
    massert (negb (rc <? 0)) SAbort ;;;
    let* rc := sys in (* setsockopt *)
    massert (negb (rc <? 0)) SAbort ;;;
    let* rc := sys in (* bind *)
    massert (negb (rc =? -1)) SAbort ;;;
    let* rc := sys in (* listen *)
    massert (negb (rc =? -1)) SAbort ;;;
    let* epfd := sys_open in
    massert (negb (epfd <? 0)) SAbort ;;;
    let* rc := sys_watch fd in
    massert (negb (rc <? 0)) SAbort ;;;
    ret (fd, epfd).

(** [char device[32][16]], one array of 512 bytes, with what follows it in
    [struct server] out of bounds. *)
Record options : Type := Options { o_num_dev : Z; o_device : list Z }.

(** [strncpy] of all characters of the argument, without a zero byte behind
    them. *)
Fixpoint copy_devices (argv : list str) (optind i n : nat) : M options unit :=
  match n with
  | O => ret tt
  | S n' =>
      let* name := mopt SNull (argv !! (optind + i)%nat) in
      let* d := mreads o_device in
      let* d' := mopt SBounds (blit d (16 * Z.of_nat i) name) in
      mmod (fun o => Options (o_num_dev o) d') ;;;
      copy_devices argv optind (S i) n'
  end.

(** The answer is [dev_flag]: the program exits without it. *)
Fixpoint server_getopt (argv : list str) (opts : list opt) (dev_flag : bool) : M options bool :=
  match opts with
  | [] => ret dev_flag
  | OptDevices optarg optind :: rest =>
      mmod (fun o => Options (atoi optarg) (o_device o)) ;;;
      copy_devices argv optind 0 (Z.to_nat (atoi optarg)) ;;;
      server_getopt argv rest true
  | OptUnknown :: rest => server_getopt argv rest dev_flag
  | OptOther :: _ => mstop SAbort
  end.

(** [srv->device[i]] as the string that [handler_init] reads. *)
Definition device_name (o : options) (i : nat) : option str := c_string (drop (16 * i) (o_device o)).

(** ** Requests *)

Section Requests.
Context {I P : Type}.
Variable CityHash128 : list Z -> Z -> Z * Z.

(** [struct server] with the handlers, the counters [hlr_fwd_cnt] and the
    descriptors; the socket answers go to is [client_fd], the last client
    accepted. *)
Record server : Type := Server {
  num_dev : Z;
  hlr : list (world I P);
  hlr_fwd_cnt : list Z;
  client_fd : Z;
  srv_net : net
}.

Definition with_hlr (ws : list (world I P)) (s : server) : server :=
  Server (num_dev s) ws (hlr_fwd_cnt s) (client_fd s) (srv_net s).
Definition with_cnt (c : list Z) (s : server) : server :=
  Server (num_dev s) (hlr s) c (client_fd s) (srv_net s).
Definition with_client (fd : Z) (s : server) : server :=
  Server (num_dev s) (hlr s) (hlr_fwd_cnt s) fd (srv_net s).
Definition with_net (n : net) (s : server) : server :=
  Server (num_dev s) (hlr s) (hlr_fwd_cnt s) (client_fd s) n.

Definition on_net {A} (m : M net A) : M server A := fun s =>
  match m (srv_net s) with Ret a n => Ret a (with_net n s) | Stop e => Stop e end.
Definition on_handlers {A} (m : M (list (world I P)) A) : M server A := fun s =>
  match m (hlr s) with Ret a ws => Ret a (with_hlr ws s) | Stop e => Stop e end.

(** [epoll_ctl(epfd, EPOLL_CTL_DEL, fd, NULL)]; its answer is not looked at. *)
Definition unwatch (fd : Z) : M net unit :=
  sys ;;; mmod (fun n => Net (Net.answers n) (open_fds n) (status_flags n) (watched n ∖ {[ fd ]})).

Definition accept_new_client : M server Z :=
  let* fd := on_net Net.accept_new_client in
  (if fd <? 0 then ret tt else mmod (with_client fd)) ;;;
  ret fd.

(** [hlr_fwd_cnt[i]++]; the array has 32 counters. *)
Definition count_forward (i : Z) : M server unit :=
  let* cnt := mreads hlr_fwd_cnt in
  let* x := mopt SBounds (if i <? 0 then None else cnt !! Z.to_nat i) in
  mmod (with_cnt (<[Z.to_nat i := u64 (x + 1)]> cnt)).

(** The loop of [process_request]. *)
Fixpoint forward_all (nrs : list netreq) (fd : Z) : M server Z :=
  match nrs with
  | [] => ret 0
  | nr :: nrs' =>
      let* n := mreads num_dev in
      massert (negb (n =? 0)) SDivZero ;;;
      let i := s32 (hlr_idx CityHash128 n nr) in
      count_forward i ;;;
      let* req := on_handlers (on_hlr i (make_request_from_netreq nr fd)) in
      let* rc := on_handlers (on_hlr i (forward_req_to_hlr req)) in
      if negb (rc =? 0) then ret rc else forward_all nrs' fd
  end.

(** The answer and what is left unread. A client that has closed its end is closed
    before it is taken out of the epoll set. *)
Definition process_request (s : list sock_event) (fd : Z) : M server (Z * list sock_event) :=
  let* r := mopt SBlock (read_sock_bulk s QDEPTH NETREQ_SIZE) in
  let n_obj := rd_ret r / NETREQ_SIZE in
  if rd_ret r =? -1 then ret (0, rd_rest r)
  else if rd_ret r =? 0 then
    on_net (sys_close fd) ;;;
    on_net (unwatch fd) ;;;
    ret (1, rd_rest r)
  else
    let* nrs := mopt SBounds (decode_netreqs (Z.to_nat n_obj) (rd_buf r)) in
    let* rc := forward_all nrs fd in
    ret (rc, rd_rest r).

(** What [epoll_wait] reports: the listening socket, or a client. *)
Inductive event : Type :=
| Connect
| Data (fd : Z) (s : list sock_event).

(** The inner loop of [handle_request]: only a negative answer of
    [process_request] ends the program. *)
Fixpoint handle_events (evs : list event) : M server unit :=
  match evs with
  | [] => ret tt
  | Connect :: rest => accept_new_client ;;; handle_events rest
  | Data fd s :: rest =>
      let* p := process_request s fd in
      massert (negb (fst p <? 0)) SAbort ;;;
      handle_events rest
  end.

(** The outer loop, on the answers of [epoll_wait]: [None] is an error. *)
Fixpoint handle_request (turns : list (option (list event))) : M server unit :=
  match turns with
  | [] => ret tt
  | None :: _ => mstop SAbort
  | Some evs :: rest => handle_events evs ;;; handle_request rest
  end.
End Requests.

Arguments server : clear implicits.

(** ** Start and end *)

Section Start.
Context {I P : Type}.
(** What the two ioctls on a device answer. *)
Variable open_device : str -> option Z * option Z.

(** The names that [handler_init] reads, from [i] on. *)
Fixpoint devices_from (o : options) (i n : nat) : M net (list device) :=
  match n with
  | O => ret []
  | S n' =>
      let* name := mopt SBounds (device_name o i) in
      let* ds := devices_from o (S i) n' in
      ret (device_at open_device name :: ds)
  end.

(** The affinity of the thread and the start of [ack_sender] are left out. The
    listening and the epoll descriptor, and [srv->hlr]. *)
Definition server_init (init : I) (o : options) : M net (Z * Z * list (world I P)) :=
  let* fds := connection_init in
  let* ds := devices_from o 0 (Z.to_nat (o_num_dev o)) in
  let* ws := init_handlers init 0 (Z.to_nat (o_num_dev o)) ds in
  ret (fds, ws).

(** [struct server server] is zero. *)
Definition zero_options : options := Options 0 (replicate 512 0).

(** [main] up to its loop; [None] when the program exits for want of devices. *)
Definition server_start (init : I) (argv : list str) (opts : list opt) : M net (option (Z * Z * list (world I P))) :=
  match server_getopt argv opts false zero_options with
  | Ret true o => let* r := server_init init o in ret (Some r)
  | Ret false _ => ret None
  | Stop e => mstop e
  end.
End Start.

(** [server_exit] after its counters are printed: [cl_sock] is a global that
    nothing assigns, so 0. *)
Definition server_exit {X : Type} `{Lifetime.Index X} (hs : list (Lifetime.handler X)) (fd : Z) : M Lifetime.os unit :=
  Lifetime.free_all hs ;;; Lifetime.join ;;; Lifetime.close 0 ;;; Lifetime.close fd.

(** ** The acknowledgement thread *)

(** What [ack_sender] has: the queue that nothing fills any more, and what it has
    sent, each acknowledgement with the socket it went to. *)
Record acking : Type := Acking { ack_q : list netack; sent : list (Z * netack) }.

(** The loop: each turn has the values of [ack_sender_stop] and of
    [srv->client_fd] at that moment. The answer tells whether it has ended. *)
Fixpoint ack_sender (turns : list (bool * Z)) (a : acking) : bool * acking :=
  match turns with
  | [] => (false, a)
  | (true, _) :: _ => (true, a)
  | (false, fd) :: rest =>
      match ack_q a with
      | [] => ack_sender rest a
      | na :: q => ack_sender rest (Acking q (sent a ++ [(fd, na)]))
      end
  end.

(** ** Batches *)

Section Batches.
Context {I P : Type}.
Variable CityHash128 : list Z -> Z -> Z * Z.
Implicit Types (srv : server I P) (ws : list (world I P)).

(** The counters after a batch. *)
Definition counted (num_dev : Z) (nrs : list netreq) (cnt : list Z) : list Z :=
  foldl (fun c nr => alter (fun x => u64 (x + 1)) (Z.to_nat (hlr_idx CityHash128 num_dev nr)) c) cnt nrs.

Lemma counted_length num_dev nrs cnt : length (counted num_dev nrs cnt) = length cnt.
Proof. unfold counted. revert cnt. induction nrs as [|nr nrs IH]; intros cnt; [done|]. cbn. by rewrite IH, length_alter. Qed.

Lemma counted_lookup num_dev nrs cnt i :
  0 < num_dev -> Forall (fun x => 0 <= x < 2 ^ 64) cnt ->
  counted num_dev nrs cnt !! i =
    (fun x => u64 (x + Z.of_nat (length (routed CityHash128 num_dev i nrs)))) <$> cnt !! i.
Proof.
  intros Hd. revert cnt. unfold counted. induction nrs as [|nr nrs IH]; intros cnt Hc; cbn [foldl].
  - destruct (cnt !! i) as [x|] eqn:E; [|done]. pose proof (proj1 (Forall_lookup _ _) Hc _ _ E).
    cbn. f_equal. rewrite Z.add_0_r. symmetry. by apply wrap_small.
  - pose proof (hlr_idx_range CityHash128 num_dev nr Hd) as Hr.
    rewrite IH by (apply Forall_alter; [done | intros; by apply (wrap_bounds 64)]).
    unfold routed. rewrite filter_cons. destruct (decide (hlr_idx CityHash128 num_dev nr = Z.of_nat i)) as [E|E].
    + rewrite E, Nat2Z.id, list_lookup_alter_eq. destruct (cnt !! i) as [x|]; [|done]. cbn. f_equal.
      unfold u64, wrap. rewrite Zplus_mod_idemp_l. f_equal. lia.
    + rewrite list_lookup_alter_ne by lia. done.
Qed.

Lemma alter_insert_Some {A} (f : A -> A) (l : list A) i x : l !! i = Some x -> alter f i l = <[i := f x]> l.
Proof.
  intros Hx. apply list_eq. intros j. pose proof (lookup_lt_Some _ _ _ Hx). destruct (decide (i = j)) as [<-|Hne].
  - by rewrite list_lookup_alter_eq, Hx, list_lookup_insert_eq.
  - by rewrite list_lookup_alter_ne, list_lookup_insert_ne.
Qed.

Lemma count_forward_ok i num_dev ws cnt cf n :
  0 <= i < Z.of_nat (length cnt) ->
  count_forward i (Server num_dev ws cnt cf n) =
    Ret tt (Server num_dev ws (alter (fun x => u64 (x + 1)) (Z.to_nat i) cnt) cf n).
Proof.
  intros Hi. destruct (lookup_lt_is_Some_2 cnt (Z.to_nat i)) as [x Hx]; [lia|]. unfold count_forward.
  erewrite bind_ret by exact eq_refl. cbn [hlr_fwd_cnt]. rewrite (proj2 (Z.ltb_ge i 0)), Hx by lia.
  erewrite bind_ret by exact eq_refl. by rewrite (alter_insert_Some (fun x => u64 (x + 1)) _ _ _ Hx).
Qed.

(** Forwarding is the master's, and counts. *)
Lemma forward_all_counts num_dev nrs fd ws ws' cnt cf n :
  0 < num_dev <= 32 -> length cnt = 32%nat -> Master.forward_all CityHash128 num_dev nrs fd ws = Ret 0 ws' ->
  forward_all CityHash128 nrs fd (Server num_dev ws cnt cf n) =
    Ret 0 (Server num_dev ws' (counted num_dev nrs cnt) cf n).
Proof.
  intros Hd. revert ws cnt. induction nrs as [|nr nrs IH]; intros ws cnt Hlen Hf.
  - by injection Hf as <-.
  - cbn [Master.forward_all] in Hf. cbn [forward_all]. pose proof (hlr_idx_range CityHash128 num_dev nr ltac:(lia)) as Hr.
    erewrite bind_ret by exact eq_refl. cbn [OldServer.num_dev]. unfold massert in *.
    rewrite (proj2 (Z.eqb_neq num_dev 0)) in * by lia.
    erewrite bind_ret in Hf by exact eq_refl. erewrite bind_ret by exact eq_refl. cbv zeta in *.
    rewrite s32_small in * by lia.
    erewrite bind_ret by (apply count_forward_ok; lia).
    revert Hf. unfold bind, on_handlers. cbn [hlr]. intros Hf.
    destruct (on_hlr _ (make_request_from_netreq nr fd) ws) as [req w1|]; [|done]. unfold with_hlr at 1. cbn [hlr].
    destruct (on_hlr _ (forward_req_to_hlr req) w1) as [rc w2|]; [|done]. unfold with_hlr.
    cbn [OldServer.num_dev hlr hlr_fwd_cnt client_fd srv_net].
    destruct (negb (rc =? 0)) eqn:Hrc; [injection Hf as -> _; done|].
    by rewrite (IH w2) by by rewrite ?length_alter.
Qed.

(** A server between two wake-ups. *)
Record serving srv : Prop := Serving {
  sv_devices : 0 < num_dev srv <= 32 /\ num_dev srv = Z.of_nat (length (hlr srv));
  sv_counters : length (hlr_fwd_cnt srv) = 32%nat /\ Forall (fun x => 0 <= x < 2 ^ 64) (hlr_fwd_cnt srv)
}.

(** What a batch does: it is delivered to the handlers and counted. *)
Record batch_done (fd : Z) (nrs : list netreq) srv srv' : Prop := BatchDone {
  bd_hlr : delivered CityHash128 (num_dev srv) fd nrs (hlr srv) (hlr srv');
  bd_cnt : forall i, hlr_fwd_cnt srv' !! i =
    (fun x => u64 (x + Z.of_nat (length (routed CityHash128 (num_dev srv) i nrs)))) <$> hlr_fwd_cnt srv !! i;
  bd_net : srv_net srv' = srv_net srv /\ num_dev srv' = num_dev srv /\ client_fd srv' = client_fd srv
}.

Lemma process_request_batch (s : list sock_event) (fd : Z) (nrs : list netreq) srv :
  serving srv -> Forall fits nrs -> nrs <> [] -> all_accept CityHash128 (num_dev srv) nrs (hlr srv) ->
  sock_ok s -> no_eof s -> head s <> Some Again -> stream s = concat (encode_netreq <$> nrs) ->
  exists k rest srv', (0 < k <= length nrs)%nat /\ Z.of_nat k <= QDEPTH /\
    process_request CityHash128 s fd srv = Ret (0, rest) srv' /\
    batch_done fd (take k nrs) srv srv' /\ stream rest = concat (encode_netreq <$> drop k nrs).
Proof.
  intros [[Hd Hl] [Hc Hrange]] Hf Hne Hacc Hok Hn Hhd Hs.
  destruct (bulk_of_objects encode_netreq NETREQ_SIZE QDEPTH fits (fun nr H => encode_netreq_length nr (proj1 H))
              eq_refl eq_refl s nrs Hok Hn Hhd Hf Hne Hs) as (k & rest & Hk & Hmax & Hr & Hrest).
  destruct (forward_all_ok CityHash128 (num_dev srv) (take k nrs) fd (hlr srv) Hd Hl) as (ws' & Hw & Hdel);
    [by apply Forall_take | by apply all_accept_take|].
  destruct srv as [nd ws cnt cf n]. cbn [num_dev hlr hlr_fwd_cnt] in *.
  exists k, rest, (Server nd ws' (counted nd (take k nrs) cnt) cf n). split_and!; try done; try lia.
  - unfold process_request. rewrite Hr. erewrite bind_ret by exact eq_refl. cbn [rd_ret rd_buf rd_rest]. cbv zeta.
    assert (0 < Z.of_nat k * NETREQ_SIZE) by (unfold NETREQ_SIZE, KEY_LEN; lia).
    rewrite !(proj2 (Z.eqb_neq _ _)) by lia. rewrite Z.div_mul, Nat2Z.id by done.
    replace k with (length (take k nrs)) at 1 by (rewrite length_take; lia).
    rewrite decode_netreqs_ok by (apply Forall_take; eapply Forall_impl; [exact Hf | by intros ? [? _]]).
    erewrite bind_ret by exact eq_refl.
    by rewrite (bind_ret _ _ _ _ _ (forward_all_counts _ _ _ _ _ _ cf n Hd Hc Hw)).
  - split; cbn [num_dev hlr hlr_fwd_cnt srv_net client_fd]; [done | | done].
    intros i. apply counted_lookup; [lia | done].
Qed.

Lemma process_request_eof (s : list sock_event) (fd a : Z) (l : list Z) (r : sock_read) srv :
  read_sock_bulk s QDEPTH NETREQ_SIZE = Some r -> rd_ret r = 0 -> answers (srv_net srv) = a :: l ->
  process_request CityHash128 s fd srv =
    Ret (1, rd_rest r)
      (with_net (Net l (open_fds (srv_net srv) ∖ {[ fd ]}) (status_flags (srv_net srv)) (watched (srv_net srv) ∖ {[ fd ]})) srv).
Proof.
  intros Hr H0 Ha. destruct srv as [nd ws cnt cf [ans op fl wa]]. cbn in Ha. subst ans.
  unfold process_request. rewrite Hr. erewrite bind_ret by exact eq_refl. rewrite H0. cbn.
  unfold with_net, on_net, sys_close, unwatch, sys, mmod, bind, closed. cbn. do 3 f_equal. set_solver.
Qed.

(** C39: The old server outlives its clients. A client that disconnects is closed and no
    longer watched, and in the same wake-up a batch of another client is queued at
    the handlers that the hash selects, in order, whole and counted per handler;
    what is beyond [QDEPTH] messages stays unread. The master thread ends there. *)
Theorem old_server_serves_on (s1 s2 : list sock_event) (fd1 fd2 a : Z) (l : list Z) (r : sock_read)
    (nrs : list netreq) srv :
  serving srv -> read_sock_bulk s1 QDEPTH NETREQ_SIZE = Some r -> rd_ret r = 0 -> answers (srv_net srv) = a :: l ->
  Forall fits nrs -> nrs <> [] -> all_accept CityHash128 (num_dev srv) nrs (hlr srv) ->
  sock_ok s2 -> no_eof s2 -> head s2 <> Some Again -> stream s2 = concat (encode_netreq <$> nrs) ->
  exists k srv', (0 < k <= length nrs)%nat /\ Z.of_nat k <= QDEPTH /\
    handle_request CityHash128 [Some [Data fd1 s1; Data fd2 s2]] srv = Ret tt srv' /\
    delivered CityHash128 (num_dev srv) fd2 (take k nrs) (hlr srv) (hlr srv') /\
    (forall i, hlr_fwd_cnt srv' !! i =
       (fun x => u64 (x + Z.of_nat (length (routed CityHash128 (num_dev srv) i (take k nrs))))) <$> hlr_fwd_cnt srv !! i) /\
    (fd1 ∉ open_fds (srv_net srv')) /\ (fd1 ∉ watched (srv_net srv')).
Proof.
  intros Hsv Hr H0 Ha Hf Hne Hacc Hok Hn Hhd Hs.
  pose proof (process_request_eof s1 fd1 a l r srv Hr H0 Ha) as E1.
  match type of E1 with _ = Ret _ ?w => set (srv1 := w) in E1 end.
  destruct (process_request_batch s2 fd2 nrs srv1) as (k & rest & srv' & Hk & Hq & E2 & [B1 B2 (B3 & _)] & _); try done.
  { destruct Hsv as [H1 H2]. by split. }
  exists k, srv'. split_and!; try done; try lia.
  - cbn [handle_request handle_events]. unfold bind in *. rewrite E1. cbn. by rewrite E2.
  - rewrite B3. cbn. set_solver.
  - rewrite B3. cbn. set_solver.
Qed.
End Batches.

(** ** The command line *)

Definition DEVICE_ROW : nat := 16.
Definition DEVICE_ROWS : nat := 32.

Lemma blit_zeros pre m name :
  (length name <= m)%nat ->
  blit (pre ++ replicate m 0) (Z.of_nat (length pre)) name = Some (pre ++ name ++ replicate (m - length name) 0).
Proof.
  intros Hl. rewrite blit_eq by (rewrite ?length_app, ?length_replicate; lia).
  rewrite Nat2Z.id, take_app_length, drop_app_ge by lia. rewrite drop_replicate. do 4 f_equal. lia.
Qed.

Lemma c_string_app name l : Forall (fun c => c <> 0) name -> c_string (name ++ 0 :: l) = Some name.
Proof. induction 1 as [|c name Hc Hn IH]; [done|]. cbn [app c_string]. by rewrite (proj2 (Z.eqb_neq c 0)), IH. Qed.

(** A name that fits its row with a zero byte behind it. *)
Definition row_ok (name : str) : Prop := (length name < DEVICE_ROW)%nat /\ Forall (fun c => c <> 0) name.
Definition row_of (name : str) : list Z := name ++ replicate (DEVICE_ROW - length name) 0.

Lemma row_of_length name : row_ok name -> length (row_of name) = DEVICE_ROW.
Proof. intros [Hl _]. unfold row_of. rewrite length_app, length_replicate. lia. Qed.

Lemma copy_devices_rows argv optind names pre i nd :
  Forall row_ok names -> take (length names) (drop (optind + i) argv) = names ->
  length pre = (DEVICE_ROW * i)%nat -> (i + length names <= DEVICE_ROWS)%nat ->
  copy_devices argv optind i (length names) (Options nd (pre ++ replicate (DEVICE_ROW * (DEVICE_ROWS - i)) 0)) =
    Ret tt (Options nd (pre ++ concat (row_of <$> names) ++ replicate (DEVICE_ROW * (DEVICE_ROWS - (i + length names))) 0)).
Proof.
  intros Hok. revert i pre. induction Hok as [|name names Hname Hok IH]; intros i pre Harg Hpre Hi.
  - cbn [length copy_devices fmap list_fmap concat app]. by rewrite Nat.add_0_r.
  - cbn [length] in *. destruct (drop (optind + i) argv) as [|b l] eqn:E; [done|]. injection Harg as -> Harg.
    assert (argv !! (optind + i)%nat = Some name) as Ha by (rewrite <- (Nat.add_0_r (optind + i)), <- lookup_drop, E; done).
    pose proof (proj1 Hname) as Hnl. cbn [copy_devices]. rewrite Ha. do 2 (erewrite bind_ret by exact eq_refl). cbn [o_device].
    replace (16 * Z.of_nat i) with (Z.of_nat (length pre)) by (rewrite Hpre; unfold DEVICE_ROW; lia).
    rewrite blit_zeros by (unfold DEVICE_ROW, DEVICE_ROWS in *; lia). do 2 (erewrite bind_ret by exact eq_refl). cbn [o_num_dev].
    replace (pre ++ name ++ _) with ((pre ++ row_of name) ++ replicate (DEVICE_ROW * (DEVICE_ROWS - S i)) 0).
    + rewrite (IH (S i)).
      * rewrite fmap_cons. cbn [concat]. rewrite <- !app_assoc. do 3 f_equal. do 3 f_equal. lia.
      * rewrite <- plus_n_Sm. change (S (optind + i)) with (1 + (optind + i))%nat. by rewrite Nat.add_comm, <- drop_drop, E.
      * rewrite length_app, row_of_length by done. lia.
      * lia.
    + unfold row_of. rewrite <- !app_assoc. do 2 f_equal. rewrite <- replicate_add. f_equal.
      unfold DEVICE_ROW, DEVICE_ROWS in *. lia.
Qed.

Lemma device_name_row names i name rest nd :
  Forall row_ok names -> names !! i = Some name ->
  device_name (Options nd (concat (row_of <$> names) ++ rest)) i = Some name.
Proof.
  intros Hok. revert i. unfold device_name. cbn [o_device]. induction Hok as [|b names [Hb Hz] Hok IH]; intros i Hi; [done|].
  rewrite fmap_cons. cbn [concat]. rewrite <- app_assoc. destruct i as [|i].
  - injection Hi as <-. rewrite Nat.mul_0_r, drop_0. unfold row_of. rewrite <- app_assoc.
    destruct (DEVICE_ROW - length b)%nat as [|k] eqn:E; [lia|]. by apply c_string_app.
  - rewrite drop_app_ge by (rewrite row_of_length by done; unfold DEVICE_ROW; lia).
    rewrite row_of_length by done. replace (16 * S i - DEVICE_ROW)%nat with (16 * i)%nat by (unfold DEVICE_ROW; lia).
    by apply IH.
Qed.

(** [server_getopt] keeps names of at most 15 characters apart. With [-d n] and
    [n <= 32] such names every [srv->device[i]] reads as the [i]-th of them. A name
    of 16 characters fills its row, no zero byte ends it, and it reads as itself
    followed by the next name. *)
Theorem device_rows (argv : list str) (optind : nat) (optarg : str) (names : list str) :
  Forall row_ok names -> atoi optarg = Z.of_nat (length names) -> (length names <= DEVICE_ROWS)%nat ->
  take (length names) (drop optind argv) = names ->
  (exists o, server_getopt argv [OptDevices optarg optind] false zero_options = Ret true o /\
    o_num_dev o = Z.of_nat (length names) /\ forall i name, names !! i = Some name -> device_name o i = Some name) /\
  (forall n1 n2, length n1 = DEVICE_ROW -> Forall (fun c => c <> 0) n1 -> row_ok n2 ->
    exists o, copy_devices [n1; n2] 0 0 2 zero_options = Ret tt o /\ device_name o 0 = Some (n1 ++ n2)).
Proof.
  intros Hok Hat Hl Harg. split.
  - eexists. split; [|split].
    + cbn [server_getopt]. erewrite bind_ret by exact eq_refl. rewrite Hat, Nat2Z.id. cbn [zero_options o_device].
      change (replicate 512 0) with ([] ++ replicate (DEVICE_ROW * (DEVICE_ROWS - 0)) 0).
      erewrite bind_ret by (apply copy_devices_rows; [done | by rewrite Nat.add_0_r | done | lia]). reflexivity.
    + reflexivity.
    + intros i name Hi. cbn [app]. by apply device_name_row.
  - intros n1 n2 H1 Hz1 [H2 Hz2]. unfold DEVICE_ROW in *. eexists. split.
    + cbn [copy_devices]. do 2 (erewrite bind_ret by exact eq_refl). cbn [zero_options o_device].
      change (16 * Z.of_nat 0) with (Z.of_nat (length (@nil Z))). change (replicate 512 0) with ([] ++ replicate 512 0). rewrite (blit_zeros []) by lia.
      do 2 (erewrite bind_ret by exact eq_refl). do 2 (erewrite bind_ret by exact eq_refl). cbn [o_device app].
      change (16 * Z.of_nat 1) with (Z.of_nat 16). rewrite <- H1, blit_zeros by lia. rewrite H1.
      do 2 (erewrite bind_ret by exact eq_refl). reflexivity.
    + unfold device_name. cbn [o_device Nat.mul drop]. rewrite app_assoc.
      destruct (512 - 16 - length n2)%nat as [|k] eqn:E; [lia|]. apply c_string_app. by apply Forall_app.
Qed.

(** ** The end of the program *)

Section Exit.
Context {X : Type} `{HI : Lifetime.Index X} `{!Lifetime.IndexLaws X}.

Lemma server_exit_ok (l : list Lifetime.answers) (busy rest : list Z) (fd : Z) (h : Lifetime.os) :
  (forall x g, Lifetime.ix_ready (X:=X) x g) -> Lifetime.heap_ok h -> Forall Lifetime.answers_ok l ->
  Forall (fun a => (Lifetime.an_fd a ∉ Lifetime.fds (Lifetime.globs h)) /\
                   (Lifetime.an_ctx a ∉ Lifetime.io_ctxs (Lifetime.globs h))) l ->
  Lifetime.all_end (length l) (Lifetime.tryjoins (Lifetime.globs h)) (busy ++ 0 :: rest) ->
  Forall (fun rc => rc <> 0) busy ->
  exists hs h1 h2, Lifetime.init_all (X:=X) l h = Ret hs h1 /\ server_exit hs fd h1 = Ret tt h2 /\
    Lifetime.live h2 = Lifetime.live h /\
    Lifetime.fds (Lifetime.globs h2) = Lifetime.fds (Lifetime.globs h) ∖ {[ 0 ]} ∖ {[ fd ]}.
Proof.
  intros Hready Hh Hl Hnew He Hb.
  destruct (Lifetime.handlers_life l _ h Hready Hh Hl Hnew He) as (hs & h1 & h2 & E1 & _ & E2 & H1 & H2 & H3 & H4).
  eexists hs, h1, _. split; [done|]. split.
  - unfold server_exit. rewrite (bind_ret _ _ _ _ _ E2). unfold Lifetime.join.
    erewrite bind_ret; [|erewrite bind_ret by exact eq_refl; rewrite H4; by apply Lifetime.join_loop_ok].
    erewrite bind_ret by exact eq_refl. reflexivity.
  - cbn. by rewrite H1, H2.
Qed.
End Exit.

(** [ack_sender] sends an acknowledgement to whoever is the last client at that
    moment, not to the one that asked. *)
Lemma ack_sender_last_client fds na q out :
  ack_sender ((fun fd => (false, fd)) <$> fds) (Acking (na :: q) out) =
    match fds with
    | [] => (false, Acking (na :: q) out)
    | fd :: fds' => ack_sender ((fun fd => (false, fd)) <$> fds') (Acking q (out ++ [(fd, na)]))
    end.
Proof. by destruct fds. Qed.

(** ** Concrete runs *)

Definition sample_server : server unit unit :=
  Server 2 [small_handler; small_handler] (replicate 32 0) 5 (Net [0] {[ 3; 4; 5 ]} ∅ {[ 3; 5 ]}).

Lemma old_server_serves_on_witness :
  exists k srv', (0 < k <= length sample_batch)%nat /\ Z.of_nat k <= QDEPTH /\
    handle_request first_byte_hash [Some [Data 4 [Eof]; Data 5 [Bytes (concat (encode_netreq <$> sample_batch))]]]
      sample_server = Ret tt srv' /\
    delivered first_byte_hash 2 5 (take k sample_batch) [small_handler; small_handler] (hlr srv') /\
    (forall i, hlr_fwd_cnt srv' !! i =
       (fun x => u64 (x + Z.of_nat (length (routed first_byte_hash 2 i (take k sample_batch))))) <$> replicate 32 0 !! i) /\
    (4 ∉ open_fds (srv_net srv')) /\ (4 ∉ watched (srv_net srv')).
Proof.
  apply (old_server_serves_on first_byte_hash [Eof] [Bytes (concat (encode_netreq <$> sample_batch))] 4 5 0 []
           (SockRead 0 [] [Eof]) sample_batch sample_server).
  - split; [split; [split; reflexivity || discriminate | reflexivity]|]. split; [reflexivity|].
    apply Forall_replicate. split; [discriminate | reflexivity].
  - by vm_compute.
  - reflexivity.
  - reflexivity.
  - exact sample_batch_fits.
  - discriminate.
  - exact sample_all_accept.
  - repeat constructor; discriminate.
  - repeat constructor; discriminate.
  - discriminate.
  - by vm_compute.
Defined.

Lemma device_rows_witness :
  exists o, server_getopt sample_argv [OptDevices [49] 3] false zero_options = Ret true o /\
    o_num_dev o = 1 /\ forall i name, [[47; 100]] !! i = Some name -> device_name o i = Some name.
Proof.
  refine (proj1 (device_rows sample_argv 3 [49] [[47; 100]] _ _ _ _)).
  - repeat constructor; discriminate.
  - by vm_compute.
  - unfold DEVICE_ROWS. simpl. lia.
  - reflexivity.
Defined.
