(* ===== verification/Hopscotch.v ===== *)
(** * The hopscotch index ([src/hopscotch.c])

    The operations on the whole handler: a lookup reads the first pair whose tag
    matches and compares the key in a callback, which ends the request or sends
    it back for the next candidate; an insertion does the same and then writes
    the pair to a fresh block. *)

From Stdlib Require Import ZArith Lia.
From stdpp Require Import prelude gmap.
From S2P Require Import Prelude Config Queue CondLock World Stopwatch KvPair Request Device DeviceSpec Handler.
From S2P Require Import Pair HopTable.

#[local] Open Scope Z_scope.

(** [struct hopscotch], less [lookup_cost], which no code writes. *)
Record hopscotch : Type := Hopscotch { table : list hash_table }.

Definition hopscotch_init : hopscotch := Hopscotch (replicate (Z.to_nat NR_TABLE) init_table).

(** The steps of [struct hop_params]. *)
Inductive hop_step : Type := HOP_STEP_INIT | HOP_STEP_KEY_MATCH | HOP_STEP_KEY_MISMATCH.

Record hop_params : Type := HopParams { hp_offset : Z; lookup_step : hop_step; insert_step : hop_step }.

Definition make_hop_params : hop_params := HopParams 0 HOP_STEP_INIT HOP_STEP_INIT.

Abbreviation hworld := (world hopscotch hop_params).

(** The index, the tag and the table of a hash value. *)
Definition key_idx (h : Z) : Z := u32 (Z.land h (Z.shiftl 1 IDX_BIT - 1)).
Definition key_tag (h : Z) : Z := u8 (Z.shiftr h IDX_BIT).
Definition key_dir (tag : Z) : Z := Z.land tag (Z.shiftl 1 DIR_BIT - 1).

(** [&hs->table[dir]], read and written. *)
Definition get_table (dir : Z) : M hworld hash_table :=
  fun w => mopt SBounds (table (ops w) !! Z.to_nat dir) w.
Definition put_table (dir : Z) (t : hash_table) : M hworld unit :=
  mmod (fun w => set_ops (Hopscotch (<[Z.to_nat dir := t]> (table (ops w)))) w).

(** [req->end_req(req)]: the member only ever holds [net_end_req]. *)
Definition call_end (f : fn) (r : Z) : M hworld unit :=
  match f with
  | FN_net_end_req => net_end_req r
  | FN_NULL => mstop SNull
  | _ => mstop SDangling
  end.

(** [cb_keycmp], less its counter of mismatches, which is only printed. *)
Definition cb_keycmp (r : Z) : M hworld unit :=
  let* rq := load_req r in
  match req_type rq with
  | REQ_TYPE_GET =>
      let* c := keycmp_k_v (req_key rq) (req_value rq) in
      let* hp := load_params (params rq) in
      if c =? 0 then
        store_params (params rq) (HopParams (hp_offset hp) HOP_STEP_KEY_MATCH (insert_step hp)) ;;;
        call_end (end_req rq) r
      else
        store_params (params rq) (HopParams (hp_offset hp) HOP_STEP_KEY_MISMATCH (insert_step hp)) ;;;
        retry_req_to_hlr r ;;; ret tt
  | REQ_TYPE_SET =>
      let* c := keycmp_k_v (req_key rq) (req_value rq) in
      let* hp := load_params (params rq) in
      store_params (params rq)
        (HopParams (hp_offset hp) (lookup_step hp)
           (if c =? 0 then HOP_STEP_KEY_MATCH else HOP_STEP_KEY_MISMATCH)) ;;;
      retry_req_to_hlr r ;;; ret tt
  | _ => load_params (params rq) ;;; retry_req_to_hlr r ;;; ret tt
  end.

(** The functions a callback of this handler points to. *)
Definition hop_exec (f : fn) (arg : Z) : M hworld unit :=
  match f with
  | FN_NULL => mstop SNull
  | FN_net_end_req => net_end_req arg
  | FN_cb_keycmp => cb_keycmp arg
  | FN_reap_seg_buf => reap_seg_buf arg
  | _ => mstop SDangling
  end.

(** The unused [get_pba] and its static counter. *)
Definition get_pba (size cur : Z) : Z * Z := (cur, u64 (cur + u16 size)).

(** Reading the pair at a matching offset, the same code in both operations. *)
Definition read_candidate (r p dir idx offset : Z) : M hworld unit :=
  let* rq := load_req r in
  let* ht := get_table dir in
  let entry := tget ht (slot idx offset) in
  let* cb := make_callback FN_cb_keycmp r in
  let* hp := load_params p in
  store_params p (HopParams offset (lookup_step hp) (insert_step hp)) ;;;
  dev_abs_read hop_exec (pba entry) (kv_size entry) (value (req_value rq)) cb ;;;
  ret tt.

(** The label [hop_insert_key_match]. *)
Definition hop_insert_key_match (r dir idx tag offset : Z) : M hworld Z :=
  let* rq := load_req r in
  let* pba0 := get_next_pba (val_len (req_value rq)) in
  let* ht := get_table dir in
  let entry := fill_entry offset tag (val_len (req_value rq) / SOB) pba0 in
  put_table dir (tset ht (slot idx offset) entry) ;;;
  let* cb := make_callback (end_req rq) r in
  copy_key_to_value (req_key rq) (req_value rq) ;;;
  dev_abs_write hop_exec (pba entry) (kv_size entry) (value (req_value rq)) cb ;;;
  ret 0.

(** The label [hop_insert_key_mismatch]. *)
Definition hop_insert_key_mismatch (r p dir idx tag offset : Z) : M hworld Z :=
  let* ht := get_table dir in
  let offset := find_matching_tag ht idx offset tag in
  if negb (offset =? -1) then
    read_candidate r p dir idx offset ;;; ret 0
  else
    let '(offset, ht') := find_free_entry ht idx in
    put_table dir ht' ;;;
    massert (negb (offset =? -1)) SAbort ;;;
    hop_insert_key_match r dir idx tag offset.

Definition hopscotch_set (r : Z) : M hworld Z :=
  let* rq := load_req r in
  let h_key := hash_low (req_key rq) in
  let idx := key_idx h_key in
  let tag := key_tag h_key in
  let dir := key_dir tag in
  let* p := ensure_params r make_hop_params in
  let* hp := load_params p in
  match insert_step hp with
  | HOP_STEP_KEY_MATCH => hop_insert_key_match r dir idx tag (hp_offset hp)
  | HOP_STEP_KEY_MISMATCH => hop_insert_key_mismatch r p dir idx tag (hp_offset hp + 1)
  | HOP_STEP_INIT => hop_insert_key_mismatch r p dir idx tag 0
  end.

Definition hopscotch_get (r : Z) : M hworld Z :=
  let* rq := load_req r in
  let h_key := hash_low (req_key rq) in
  let idx := key_idx h_key in
  let tag := key_tag h_key in
  let dir := key_dir tag in
  let* p := ensure_params r make_hop_params in
  let* hp := load_params p in
  let offset := match lookup_step hp with HOP_STEP_KEY_MISMATCH => hp_offset hp + 1 | _ => 0 end in
  let* ht := get_table dir in
  let offset := find_matching_tag ht idx offset tag in
  if negb (offset =? -1) then read_candidate r p dir idx offset ;;; ret 0
  else ret 1.

Definition hopscotch_delete (r : Z) : M hworld Z := ret 0.

#[export] Instance hopscotch_ops : KvOps hopscotch hop_params := {
  ops_init := hopscotch_init;
  get_kv := hopscotch_get;
  set_kv := hopscotch_set;
  delete_kv := hopscotch_delete;
  exec := hop_exec
}.

#[export] Instance hopscotch_laws : KvOpsLaws hopscotch hop_params.
Proof. by split. Qed.

(** ** Insertion of a pair *)

Abbreviation sys_ok := (Pair.sys_ok PBA_INVALID).
Abbreviation len_ok := (Pair.len_ok 11).

Lemma get_table_ok dir ht (w : hworld) :
  table (ops w) !! Z.to_nat dir = Some ht -> get_table dir w = Ret ht w.
Proof. unfold get_table. by intros ->. Qed.

(** The index with entry [e] at cell [c] of table [dir]. *)
Definition with_entry (dir : Z) (ht : hash_table) (c : Z) (e : hash_entry) (hs : hopscotch) : hopscotch :=
  Hopscotch (<[Z.to_nat dir := tset ht c e]> (table hs)).

Lemma hop_insert_key_match_ok ring n (w : hworld) r rq b dir idx tag o ht :
  sys_ok ring (S (S n)) w -> req_ready w r rq b -> len_ok w rq b ->
  table (ops w) !! Z.to_nat dir = Some ht ->
  let len := val_len (req_value rq) in
  exists p w',
    hop_insert_key_match r dir idx tag o w = Ret 0 w' /\
    0 <= p < PBA_INVALID /\ p * SOB = Ring.phys ring (fst (Ring.alloc len ring)) /\
    ops w' = with_entry dir ht (slot idx o) (fill_entry o tag (len / SOB) p) (ops w) /\
    answered r rq w w' /\
    staged_holds w' p (len / SOB) (take (Z.to_nat (len / SOB * SOB)) (pair_of rq b)) /\
    sys_ok (snd (Ring.alloc len ring)) n w'.
Proof.
  intros Hsys Hrq Hlen Hht len. unfold hop_insert_key_match.
  rewrite (bind_ret _ _ _ _ _ (load_req_ok _ _ _ (qr_req _ _ _ _ Hrq))).
  destruct (store_pair_ok hop_exec (fun _ => eq_refl) PBA_INVALID 11 ring n w r rq b Hsys Hrq Hlen)
    as (p & w1 & Ha & Hops1 & Hk & Hp & Hph & Hrest). fold len in Ha, Hk, Hph, Hrest.
  rewrite (bind_ret _ _ _ _ _ Ha).
  rewrite (bind_ret _ _ w1 ht w1) by (apply get_table_ok; by rewrite Hops1).
  cbn zeta. fold len. erewrite bind_ret by exact eq_refl.
  assert (kv_size (fill_entry o tag (len / SOB) p) = len / SOB /\
          pba (fill_entry o tag (len / SOB) p) = p) as [-> ->].
  { simpl. rewrite land_pba by lia. by rewrite !wrap_small by (rewrite ?wrap_small; lia). }
  destruct (Hrest (Hopscotch (<[Z.to_nat dir := tset ht (slot idx o) (fill_entry o tag (len / SOB) p)]>
              (table (ops w1))))) as (w' & Hw & Hops & Han & Hh & Hs).
  exists p, w'. split; [exact Hw|]. split; [done|]. split; [done|].
  split; [by rewrite Hops, Hops1 | by split_and!].
Qed.

(** ** Insertion *)

Lemma key_idx_bounds h : 0 <= key_idx h < NR_ENTRY.
Proof.
  unfold key_idx. change (Z.shiftl 1 IDX_BIT - 1) with (Z.ones 27).
  rewrite Z.land_ones by lia. rewrite NR_ENTRY_val.
  pose proof (Z.mod_pos_bound h (2 ^ 27)). rewrite wrap_small; lia.
Qed.

Lemma key_tag_bounds h : 0 <= key_tag h < 2 ^ 8.
Proof. by apply wrap_bounds. Qed.

(** One table: the direction bits are none. *)
Lemma key_dir_0 tag : key_dir tag = 0.
Proof. unfold key_dir, DIR_BIT. simpl. apply Z.land_0_r. Qed.

Lemma hopscotch_set_new ring n (w : hworld) r rq b ht :
  sys_ok ring (S (S n)) w -> req_ready w r rq b -> len_ok w rq b -> params rq = NULL ->
  table (ops w) = [ht] ->
  let h := hash_low (req_key rq) in
  let len := val_len (req_value rq) in
  let '(o, ht1) := find_free_entry ht (key_idx h) in
  find_matching_tag ht (key_idx h) 0 (key_tag h) = -1 -> o <> -1 ->
  exists p w',
    hopscotch_set r w = Ret 0 w' /\
    0 <= p < PBA_INVALID /\ p * SOB = Ring.phys ring (fst (Ring.alloc len ring)) /\
    table (ops w') = [tset ht1 (slot (key_idx h) o) (fill_entry o (key_tag h) (len / SOB) p)] /\
    answered r rq w w' /\
    staged_holds w' p (len / SOB) (take (Z.to_nat (len / SOB * SOB)) (pair_of rq b)) /\
    sys_ok (snd (Ring.alloc len ring)) n w'.
Proof.
  intros Hsys Hrq Hlen Hpar Htab h len.
  destruct (find_free_entry ht (key_idx h)) as [o ht1] eqn:Hff. intros Hnone Ho.
  pose proof (qr_req _ _ _ _ Hrq) as Hr.
  unfold hopscotch_set. rewrite (bind_ret _ _ _ _ _ (load_req_ok _ _ _ Hr)). cbn zeta. fold h.
  rewrite key_dir_0, (bind_ret _ _ _ _ _ (ensure_params_new _ _ _ _ Hr Hpar)).
  set (w1 := started r rq make_hop_params w).
  rewrite (bind_ret _ _ w1 make_hop_params w1)
    by (apply load_params_ok; simpl; apply lookup_insert_eq).
  cbn [insert_step make_hop_params]. unfold hop_insert_key_mismatch.
  assert (table (ops w1) !! Z.to_nat 0 = Some ht) as Htab1 by (simpl; by rewrite Htab).
  rewrite (bind_ret _ _ _ _ _ (get_table_ok 0 ht w1 Htab1)). cbn zeta. rewrite Hnone.
  change (negb (-1 =? -1)) with false. cbn iota. rewrite Hff. erewrite bind_ret by exact eq_refl. set (w2 := set_ops _ w1).
  rewrite (proj2 (Z.eqb_neq o (-1))) by done. cbn [negb]. erewrite bind_ret by exact eq_refl.
  destruct (hop_insert_key_match_ok ring n w2 r (with_params (mem_next w) rq) b 0 (key_idx h) (key_tag h)
              o ht1) as (p & w' & He & Hpb & Hph & Hops & Han & Hst & Hs').
  - by apply sys_ok_set_ops, sys_ok_started.
  - apply req_ready_set_ops. by eapply req_ready_started.
  - destruct Hlen. by split.
  - simpl. by rewrite Htab.
  - exists p, w'. split_and!; try done; [lia | lia | |].
    + rewrite Hops. simpl. by rewrite Htab.
    + apply (answered_started r rq make_hop_params (mem_next w)). destruct Han. by split.
Qed.

(** C20: a new pair. When no entry of the neighbourhood has the key's tag and
    there is room, [hopscotch_set] stores the key and the value in a fresh block
    of the log, enters the block in the table at the free offset, answers the
    client and leaves the handler ready. *)
Theorem hopscotch_set_inserts ring n (w : hworld) r rq b ht :
  sys_ok ring (S (S n)) w -> req_ready w r rq b -> len_ok w rq b -> params rq = NULL ->
  table (ops w) = [ht] ->
  let h := hash_low (req_key rq) in
  let len := val_len (req_value rq) in
  let '(o, ht1) := find_free_entry ht (key_idx h) in
  find_matching_tag ht (key_idx h) 0 (key_tag h) = -1 -> o <> -1 ->
  exists p w',
    hopscotch_set r w = Ret 0 w' /\
    0 <= p < PBA_INVALID /\ p * SOB = Ring.phys ring (fst (Ring.alloc len ring)) /\
    table (ops w') = [tset ht1 (slot (key_idx h) o) (fill_entry o (key_tag h) (len / SOB) p)] /\
    answered r rq w w' /\
    staged_holds w' p (len / SOB) (take (Z.to_nat (len / SOB * SOB)) (pair_of rq b)) /\
    sys_ok (snd (Ring.alloc len ring)) n w'.
Proof. exact (hopscotch_set_new ring n w r rq b ht). Qed.

(** ** Lookup *)

Lemma read_candidate_staged n (w : hworld) r rq b idx o ht x hp :
  dev_wf (dev w) -> pools_ready (S n) w -> req_ready w r rq b -> params rq <> NULL ->
  params_heap w !! params rq = Some hp ->
  table (ops w) = [ht] ->
  let e := tget ht (slot idx o) in
  0 < kv_size e -> kv_size e * grain_unit (dev w) <= Z.of_nat (length b) ->
  staged_holds w (pba e) (kv_size e) x ->
  exists c w5,
    read_candidate r (params rq) 0 idx o w =
      (hop_exec FN_cb_keycmp r ;;; q_enqueue c CB_POOL ;;; ret tt) w5 /\
    at_callback w w5 rq b x (HopParams o (lookup_step hp) (insert_step hp)) /\ taken c w w5.
Proof.
  intros Hd [Hcb _ Hca _] Hrq Hpar Hhp Htab e Hk Hkl (ss & sb & Hin & Hsb & Hsl & Hx).
  pose proof Hrq as [Hr _ _ _ _ Hb _ _].
  unfold read_candidate. rewrite (bind_ret _ _ _ _ _ (load_req_ok _ _ _ Hr)).
  rewrite (bind_ret _ _ w ht w) by (apply get_table_ok; by rewrite Htab). cbn zeta. fold e.
  destruct (Fifo.items (cb_pool w)) as [|c cs] eqn:E; simpl in Hcb; [lia|].
  apply Forall_cons in Hca as [[cb0 Hcb0] _].
  rewrite (bind_ret _ _ _ _ _ (make_callback_ok FN_cb_keycmp r w c cs cb0 E Hcb0)).
  match goal with |- context [set_cb_arr ?a ?v] => set (w2 := set_cb_arr a v) end.
  rewrite (bind_ret _ _ w2 hp w2) by by apply load_params_ok. erewrite bind_ret by exact eq_refl.
  set (w3 := set_params_heap _ w2).
  destruct (dev_abs_read_staged hop_exec w3 ss (pba e) (kv_size e) (value (req_value rq)) c
              (Callback FN_cb_keycmp r NULL) sb b) as (x' & Hx' & Hread); try done.
  { simpl. apply lookup_insert_eq. }
  change (dev w3) with (dev w) in Hx'. rewrite Hx in Hx'. injection Hx' as <-.
  unfold bind at 1. rewrite Hread. cbn [cb_func cb_arg].
  match type of Hread with _ = _ ?v => set (w5 := v) in * end. exists c, w5. split; [|split].
  - unfold bind, ret. destruct (hop_exec FN_cb_keycmp r w5) as [[] w6|]; [|done].
    by destruct (q_enqueue c CB_POOL w6).
  - subst w5 w3 w2. by split.
  - subst w5 w3 w2. split; simpl; try done.
    + rewrite lookup_insert_eq. by eexists.
    + intros c' Hc'. apply lookup_insert_is_Some'. by right.
Qed.

(** The request was sent back for another round. *)
Record retried (r : Z) (rq : request) (hp : hop_params) (w w' : hworld) : Prop := Retried {
  re_retry : Fifo.items (retry_q w') = Fifo.items (retry_q w) ++ [r];
  re_params : params_heap w' !! params rq = Some hp;
  re_acks : acks w' = acks w;
  re_flying : flying w' = flying w;
  re_ops : ops w' = ops w;
  re_dev : dev w' = dev w;
  re_req : req_arr w' = req_arr w
}.

(** What the callback leaves alone on its way back to its pool. *)
Record put_back (c : Z) (w5 w' : hworld) : Prop := PutBack {
  pb_next : mem_next w' = mem_next w5;
  pb_bufs : bufs w' = bufs w5;
  pb_cb_arr : cb_arr w' = cb_arr w5;
  pb_iocb : iocb_pool w' = iocb_pool w5;
  pb_iocb_arr : iocb_arr w' = iocb_arr w5;
  pb_cb : Fifo.items (cb_pool w') = Fifo.items (cb_pool w5) \/ Fifo.items (cb_pool w') = Fifo.items (cb_pool w5) ++ [c];
  pb_cap : Fifo.cap (retry_q w') = Fifo.cap (retry_q w5);
  pb_pool : req_pool w' = req_pool w5;
  pb_time : gettimeofday w' (ticks w') = gettimeofday w5 (ticks w5)
}.

Lemma cb_keycmp_get_match (w w5 : hworld) r rq b x hp c :
  req_ready w r rq b -> params rq <> NULL -> req_type rq = REQ_TYPE_GET ->
  at_callback w w5 rq b x hp -> keycmp (req_key rq) (x ++ drop (length x) b) = Some 0 ->
  exists w', (hop_exec FN_cb_keycmp r ;;; q_enqueue c CB_POOL ;;; ret tt) w5 = Ret tt w' /\
    answered r rq w w' /\ ops w' = ops w.
Proof.
  intros Hrq Hpar Ht Hac Hk. pose proof Hrq as [Hr Hend _ _ Hv Hb _ Hpool]. destruct Hac.
  assert (req_arr w5 !! r = Some rq) as Hr5 by by rewrite ac_req.
  assert (bufs w5 !! value (req_value rq) = Some (x ++ drop (length x) b)) as Hb5
    by (rewrite ac_bufs; apply lookup_insert_eq).
  assert (params_heap w5 !! params rq = Some hp) as Hp5 by (rewrite ac_params; apply lookup_insert_eq).
  cbn [hop_exec]. unfold cb_keycmp. unfold bind at 1.
  rewrite (bind_ret _ _ _ _ _ (load_req_ok _ _ _ Hr5)). rewrite Ht.
  rewrite (bind_ret _ _ w5 0 w5)
    by (unfold keycmp_k_v; rewrite (bind_ret _ _ _ _ _ (load_buf_ok _ _ _ Hb5)); by rewrite Hk).
  rewrite (bind_ret _ _ _ _ _ (load_params_ok _ _ _ Hp5)). cbn [Z.eqb]. erewrite bind_ret by exact eq_refl.
  rewrite Hend. cbn [call_end]. set (w6 := set_params_heap _ w5).
  destruct (net_end_req_ok r rq w6) as (w7 & He & Hen); [done | | by simpl; rewrite ac_pool |].
  { split; [right; simpl; by rewrite lookup_insert_eq | done | by eexists]. }
  rewrite He. destruct (return_callback c w7) as (bb & f & Hq & _).
  rewrite (bind_ret _ _ _ _ _ Hq). eexists. split; [done|]. destruct Hen. subst w6. simpl in *.
  split; [|simpl; congruence]. split; simpl; try congruence.
  - rewrite en_bufs. apply lookup_delete_eq.
  - intros r' Hne. rewrite en_others by done. by rewrite ac_req.
  - intros q bq Hq1 Hq2 Hq3. rewrite en_bufs, lookup_delete_ne by done.
    by rewrite ac_bufs, lookup_insert_ne.
Qed.

(** The two outcomes that send the request back: any comparison of a SET, and a
    mismatch of a GET. *)
Lemma cb_keycmp_retry (w w5 : hworld) r rq b x o hp cmp c :
  req_ready w r rq b -> params rq <> NULL ->
  at_callback w w5 rq b x (HopParams o (lookup_step hp) (insert_step hp)) ->
  keycmp (req_key rq) (x ++ drop (length x) b) = Some cmp ->
  Fifo.full (retry_q w) = false ->
  req_type rq = REQ_TYPE_SET \/ (req_type rq = REQ_TYPE_GET /\ cmp <> 0) ->
  exists w', (hop_exec FN_cb_keycmp r ;;; q_enqueue c CB_POOL ;;; ret tt) w5 = Ret tt w' /\
    put_back c w5 w' /\
    retried r rq
      (if decide (req_type rq = REQ_TYPE_SET) then
         HopParams o (lookup_step hp) (if cmp =? 0 then HOP_STEP_KEY_MATCH else HOP_STEP_KEY_MISMATCH)
       else HopParams o HOP_STEP_KEY_MISMATCH (insert_step hp)) w w'.
Proof.
  intros Hrq Hpar Hac Hk Hroom Hcase. pose proof Hrq as [Hr Hend _ _ Hv Hb _ Hpool]. destruct Hac.
  assert (req_arr w5 !! r = Some rq) as Hr5 by by rewrite ac_req.
  assert (bufs w5 !! value (req_value rq) = Some (x ++ drop (length x) b)) as Hb5
    by (rewrite ac_bufs; apply lookup_insert_eq).
  assert (keycmp_k_v (req_key rq) (req_value rq) w5 = Ret cmp w5) as Hcmp.
  { unfold keycmp_k_v. rewrite (bind_ret _ _ _ _ _ (load_buf_ok _ _ _ Hb5)). by rewrite Hk. }
  assert (load_params (params rq) w5 = Ret (HopParams o (lookup_step hp) (insert_step hp)) w5) as Hp5
    by (apply load_params_ok; rewrite ac_params; apply lookup_insert_eq).
  cbn [hop_exec]. unfold cb_keycmp. unfold bind at 1.
  rewrite (bind_ret _ _ _ _ _ (load_req_ok _ _ _ Hr5)).
  destruct Hcase as [Ht | [Ht Hne]]; rewrite Ht; cbn [decide];
    rewrite (bind_ret _ _ _ _ _ Hcmp), (bind_ret _ _ _ _ _ Hp5).
  2: rewrite (proj2 (Z.eqb_neq _ _) Hne).
  all: erewrite bind_ret by exact eq_refl;
    erewrite bind_ret by (apply retry_req_ok; simpl; by rewrite ac_retry);
    unfold ret at 1;
    match goal with |- context [set_retry_q ?f ?v] => set (w6 := set_retry_q f v) end;
    destruct (return_callback c w6) as (bb & f & Hq & Hf);
    rewrite (bind_ret _ _ _ _ _ Hq); eexists; (split; [done|]); (split; [by split|]);
    subst w6; split; simpl; try congruence; apply lookup_insert_eq.
Qed.

(** A read of a candidate in the staged segment, up to the end of its callback. *)
Lemma candidate_result n (w : hworld) r rq b idx o ht x hp cmp :
  dev_wf (dev w) -> pools_ready (S n) w -> req_ready w r rq b -> params rq <> NULL ->
  params_heap w !! params rq = Some hp -> table (ops w) = [ht] ->
  let e := tget ht (slot idx o) in
  0 < kv_size e -> kv_size e * grain_unit (dev w) <= Z.of_nat (length b) ->
  staged_holds w (pba e) (kv_size e) x ->
  keycmp (req_key rq) (x ++ drop (length x) b) = Some cmp ->
  Fifo.full (retry_q w) = false ->
  req_type rq = REQ_TYPE_SET \/ req_type rq = REQ_TYPE_GET ->
  exists w', read_candidate r (params rq) 0 idx o w = Ret tt w' /\ ops w' = ops w /\
    match req_type rq, cmp =? 0 with
    | REQ_TYPE_GET, true => answered r rq w w'
    | REQ_TYPE_GET, false => retried r rq (HopParams o HOP_STEP_KEY_MISMATCH (insert_step hp)) w w'
    | _, true => retried r rq (HopParams o (lookup_step hp) HOP_STEP_KEY_MATCH) w w' /\
                 bufs w' !! value (req_value rq) = Some (x ++ drop (length x) b)
    | _, false => retried r rq (HopParams o (lookup_step hp) HOP_STEP_KEY_MISMATCH) w w'
    end.
Proof.
  intros Hd Hp Hrq Hpar Hhp Htab e Hk Hkl Hst Hcmp Hroom Ht.
  destruct (read_candidate_staged n w r rq b idx o ht x hp) as (c & w5 & Hread & Hac & _); try done.
  rewrite Hread. destruct Ht as [Ht | Ht].
  - destruct (cb_keycmp_retry w w5 r rq b x o hp cmp c) as (w' & He & Hb & Hre); try done; [by left|].
    exists w'. split; [exact He|]. rewrite Ht, decide_True in * by done.
    split; [apply Hre|]. destruct (cmp =? 0); [split|]; [done | | done].
    rewrite (pb_bufs _ _ _ Hb), (ac_bufs _ _ _ _ _ _ Hac). apply lookup_insert_eq.
  - destruct (cmp =? 0) eqn:E; reflect_bools.
    + subst. destruct (cb_keycmp_get_match w w5 r rq b x _ c Hrq Hpar Ht Hac Hcmp) as (w' & He & Han & Ho).
      exists w'. split; [exact He|]. split; [done|]. by rewrite Ht.
    + destruct (cb_keycmp_retry w w5 r rq b x o hp cmp c) as (w' & He & _ & Hre); try done; [by right|].
      exists w'. split; [exact He|]. rewrite Ht in *. split; [apply Hre | done].
Qed.

(** Where the next search of a lookup begins. *)
Definition lookup_start (hp : hop_params) : Z :=
  match lookup_step hp with HOP_STEP_KEY_MISMATCH => hp_offset hp + 1 | _ => 0 end.

Lemma hopscotch_get_unfold (w : hworld) r rq ht hp :
  req_arr w !! r = Some rq -> params rq <> NULL -> params_heap w !! params rq = Some hp ->
  table (ops w) = [ht] ->
  let h := hash_low (req_key rq) in
  let o := find_matching_tag ht (key_idx h) (lookup_start hp) (key_tag h) in
  hopscotch_get r w =
  (if o =? -1 then ret 1 else read_candidate r (params rq) 0 (key_idx h) o ;;; ret 0) w.
Proof.
  intros Hr Hpar Hhp Htab h o. unfold hopscotch_get.
  rewrite (bind_ret _ _ _ _ _ (load_req_ok _ _ _ Hr)). cbn zeta. fold h. rewrite key_dir_0.
  rewrite (bind_ret _ _ _ _ _ (ensure_params_old _ _ _ _ Hr Hpar)).
  rewrite (bind_ret _ _ _ _ _ (load_params_ok _ _ _ Hhp)).
  rewrite (bind_ret _ _ w ht w) by (apply get_table_ok; by rewrite Htab).
  fold (lookup_start hp). fold o. by destruct (o =? -1).
Qed.

(** One round of a lookup. With no candidate left the key is reported
    missing and nothing changes; otherwise the candidate is read and compared,
    and the request is answered if the key is the same, and sent back, to go on
    after this offset, if it is not. The table does not change. *)
Theorem hopscotch_get_round n (w : hworld) r rq b ht hp :
  dev_wf (dev w) -> pools_ready (S n) w -> req_ready w r rq b -> params rq <> NULL ->
  params_heap w !! params rq = Some hp -> table (ops w) = [ht] -> req_type rq = REQ_TYPE_GET ->
  Fifo.full (retry_q w) = false ->
  let h := hash_low (req_key rq) in
  let o := find_matching_tag ht (key_idx h) (lookup_start hp) (key_tag h) in
  let e := tget ht (slot (key_idx h) o) in
  (o = -1 -> hopscotch_get r w = Ret 1 w) /\
  (forall x cmp, o <> -1 -> 0 < kv_size e -> kv_size e * grain_unit (dev w) <= Z.of_nat (length b) ->
     staged_holds w (pba e) (kv_size e) x ->
     keycmp (req_key rq) (x ++ drop (length x) b) = Some cmp ->
     exists w', hopscotch_get r w = Ret 0 w' /\ ops w' = ops w /\
       (cmp = 0 -> answered r rq w w') /\
       (cmp <> 0 -> retried r rq (HopParams o HOP_STEP_KEY_MISMATCH (insert_step hp)) w w')).
Proof.
  intros Hd Hp Hrq Hpar Hhp Htab Ht Hroom h o e.
  rewrite (hopscotch_get_unfold w r rq ht hp (qr_req _ _ _ _ Hrq) Hpar Hhp Htab). fold h. fold o.
  split; [by intros ->|]. intros x cmp Ho Hk Hkl Hst Hcmp.
  rewrite (proj2 (Z.eqb_neq o (-1)) Ho).
  destruct (candidate_result n w r rq b (key_idx h) o ht x hp cmp) as (w' & Hr & Hops & Hres); try done.
  { by right. }
  exists w'. rewrite (bind_ret _ _ _ _ _ Hr). rewrite Ht in Hres. split_and!; [done | done | |].
  - by intros ->.
  - intros Hne. by rewrite (proj2 (Z.eqb_neq _ _) Hne) in Hres.
Qed.

(** The first round of a request makes its parameters. *)
Lemma hopscotch_get_fresh (w : hworld) r rq :
  req_arr w !! r = Some rq -> params rq = NULL -> mem_ok w ->
  hopscotch_get r w = hopscotch_get r (started r rq make_hop_params w).
Proof.
  intros Hr Hp [Hm _]. unfold hopscotch_get.
  rewrite (bind_ret _ _ _ _ _ (load_req_ok _ _ _ Hr)).
  rewrite (bind_ret _ _ (started r rq make_hop_params w) (with_params (mem_next w) rq) _)
    by (apply load_req_ok; simpl; apply lookup_insert_eq).
  cbn zeta. rewrite (bind_ret _ _ _ _ _ (ensure_params_new _ _ _ _ Hr Hp)).
  change (req_key (with_params (mem_next w) rq)) with (req_key rq).
  erewrite (bind_ret (ensure_params r make_hop_params)); [done|].
  apply (ensure_params_old r (with_params (mem_next w) rq)); simpl;
    [apply lookup_insert_eq | unfold NULL; lia].
Qed.

(** *** Round after round *)

(** The handler takes the request out of [retry_q] and looks it up again, until
    it is not sent back any more. *)
Fixpoint get_rounds (fuel : nat) (r : Z) : M hworld Z :=
  match fuel with
  | O => mstop SBlock
  | S f =>
      let* rc := hopscotch_get r in
      let* again := q_dequeue RETRY_Q in
      if again =? NULL then ret rc else get_rounds f again
  end.

(** What rounds that miss leave as it was: all but the parameters, the value buffer
    and the order of the callbacks in their pool. *)
Record passed (rq : request) (w w' : hworld) : Prop := Passed {
  ps_ops : ops w' = ops w;
  ps_dev : dev w' = dev w;
  ps_acks : acks w' = acks w;
  ps_flying : flying w' = flying w;
  ps_pool : req_pool w' = req_pool w;
  ps_retry : retry_q w' = retry_q w;
  ps_req : req_arr w' = req_arr w;
  ps_time : gettimeofday w' (ticks w') = gettimeofday w (ticks w);
  ps_bufs : forall q, q <> value (req_value rq) -> bufs w' !! q = bufs w !! q;
  ps_value : is_Some (bufs w !! value (req_value rq)) -> is_Some (bufs w' !! value (req_value rq))
}.

Lemma passed_trans rq w1 w2 w3 : passed rq w1 w2 -> passed rq w2 w3 -> passed rq w1 w3.
Proof. intros [] []. split; try congruence; [|auto]. intros q Hq. rewrite ps_bufs1, ps_bufs0; done. Qed.

Lemma answered_passed r rq w w1 w' : passed rq w w1 -> answered r rq w1 w' -> answered r rq w w'.
Proof.
  intros [] []. split; try congruence.
  - intros r' Hr. by rewrite an_others, ps_req0.
  - intros q bq Hq Hne. rewrite <- ps_dev0 in Hne. destruct (decide (q = value (req_value rq))) as [->|Hv].
    + destruct ps_value0 as [b1 H1]; [by eexists|]. by eapply an_unstaged.
    + eapply an_unstaged; [by rewrite ps_bufs0 | done].
  - intros q bq Hq Hv Hne. eapply an_bufs; [by rewrite ps_bufs0 | done | by rewrite ps_dev0].
Qed.

(** The pair of entry [e] is staged and fits the value buffer; its comparison with
    the key gives [c], whatever the buffer held before. *)
Record candidate (w : hworld) (rq : request) (len : nat) (e : hash_entry) (x : list Z) (c : Z) : Prop := Candidate {
  ca_size : 0 < kv_size e;
  ca_fits : kv_size e * SOB <= Z.of_nat len;
  ca_staged : staged_holds w (pba e) (kv_size e) x;
  ca_cmp : forall b, length b = len -> keycmp (req_key rq) (x ++ drop (length x) b) = Some c
}.

Lemma candidate_passed w w' rq len e x c :
  value (req_value rq) <> staged_seg_buf (dev w) -> passed rq w w' -> candidate w rq len e x c -> candidate w' rq len e x c.
Proof.
  intros Hv [] [? ? (ss & sb & H) ?]. split; try done. exists ss, sb.
  rewrite ps_dev0, ps_bufs0 by by apply not_eq_sym. exact H.
Qed.

(** A round that reads another key's pair, with the request back in the handler's
    hands. *)
Lemma get_round_missed ring n (w : hworld) r rq b o x hp cmp ht :
  sys_ok ring (S n) w -> req_ready w r rq b -> params rq <> NULL ->
  params_heap w !! params rq = Some hp -> table (ops w) = [ht] -> req_type rq = REQ_TYPE_GET ->
  Fifo.items (retry_q w) = [] -> 0 < Fifo.cap (retry_q w) -> r <> NULL ->
  let h := hash_low (req_key rq) in
  find_matching_tag ht (key_idx h) (lookup_start hp) (key_tag h) = o -> o <> -1 ->
  candidate w rq (length b) (tget ht (slot (key_idx h) o)) x cmp -> cmp <> 0 ->
  exists w1 b', length b' = length b /\
    (forall fuel, get_rounds (S fuel) r w = get_rounds fuel r w1) /\
    sys_ok ring n w1 /\ req_ready w1 r rq b' /\ passed rq w w1 /\
    params_heap w1 !! params rq = Some (HopParams o HOP_STEP_KEY_MISMATCH (insert_step hp)).
Proof.
  intros Hsys Hrq Hpar Hhp Htab Ht Hre Hcap Hr h Hfind Ho [Hk Hkl Hst Hcmp] Hne.
  assert (Fifo.full (retry_q w) = false) as Hroom by (unfold Fifo.full; rewrite Hre; apply Z.eqb_neq; simpl; lia).
  destruct (read_candidate_staged n w r rq b (key_idx h) o ht x hp) as (c & w5 & Hread & Hac & Htk); try done;
    [apply Hsys | apply Hsys | by rewrite (so_grain _ _ _ _ Hsys) |].
  destruct (cb_keycmp_retry w w5 r rq b x o hp cmp c Hrq Hpar Hac (Hcmp b eq_refl) Hroom (or_intror (conj Ht Hne)))
    as (w' & He & Hb & Hret). rewrite Ht in Hret. cbn [decide] in Hret.
  assert (length (x ++ drop (length x) b) = length b) as Hlen.
  { rewrite length_app, length_drop. destruct Hst as (ss & sb & _ & _ & _ & Hx%slice_length).
    rewrite (so_grain _ _ _ _ Hsys) in Hx. lia. }
  destruct (retry_q w) as [l cp] eqn:Eq. cbn [Fifo.items Fifo.cap] in Hre, Hcap. subst l.
  assert (retry_q w' = Fifo.Mk [r] cp) as Hrq'.
  { pose proof (re_retry _ _ _ _ _ Hret) as H1. pose proof (pb_cap _ _ _ Hb) as H2.
    rewrite (ac_retry _ _ _ _ _ _ Hac), Eq in H2. rewrite Eq in H1. cbn in H1, H2.
    destruct (retry_q w') as [l' cp']. cbn in H1, H2. by subst. }
  exists (set_retry_q (Fifo.Mk [] cp) w'), (x ++ drop (length x) b). split; [done|].
  assert (bufs w' = <[value (req_value rq) := x ++ drop (length x) b]> (bufs w)) as Hbufs
    by by rewrite (pb_bufs _ _ _ Hb), (ac_bufs _ _ _ _ _ _ Hac).
  pose proof (qr_buf _ _ _ _ Hrq) as Hvb. split_and!.
  - intros fuel. cbn [get_rounds].
    assert (hopscotch_get r w = Ret 0 w') as Hget.
    { rewrite (hopscotch_get_unfold w r rq ht hp (qr_req _ _ _ _ Hrq) Hpar Hhp Htab). fold h. rewrite Hfind.
      rewrite (proj2 (Z.eqb_neq o (-1)) Ho), (bind_ret _ _ w tt w'); [done|]. by rewrite Hread. }
    rewrite (bind_ret _ _ _ _ _ Hget).
    rewrite (bind_ret _ _ _ _ _ (q_dequeue_cons RETRY_Q w' r [] ltac:(cbn [qget]; by rewrite Hrq'))).
    rewrite (proj2 (Z.eqb_neq r NULL) Hr). cbn [qget]. by rewrite Hrq'.
  - apply (sys_ok_callback_done PBA_INVALID ring n w w5 _ c (value (req_value rq))); try done.
    + exact (re_dev _ _ _ _ _ Hret).
    + exact (pb_next _ _ _ Hb).
    + intros q b'. cbn. rewrite Hbufs. destruct (decide (value (req_value rq) = q)) as [<-|Hd].
      * intros _. rewrite Hvb. by eexists.
      * rewrite lookup_insert_ne by done. intros ->. by eexists.
    + intros q b' Hq Hqb. cbn. by rewrite Hbufs, lookup_insert_ne.
    + exact (qr_unstaged _ _ _ _ Hrq).
    + exact (pb_cb_arr _ _ _ Hb).
    + exact (pb_iocb _ _ _ Hb).
    + exact (pb_iocb_arr _ _ _ Hb).
    + exact (pb_cb _ _ _ Hb).
  - destruct Hrq. split; try done; cbn.
    + by rewrite (re_req _ _ _ _ _ Hret).
    + right. rewrite (re_params _ _ _ _ _ Hret). by eexists.
    + rewrite Hbufs. apply lookup_insert_eq.
    + by rewrite (re_dev _ _ _ _ _ Hret).
    + by rewrite (pb_pool _ _ _ Hb), (ac_pool _ _ _ _ _ _ Hac).
  - destruct Hret. split; cbn; try done.
    + by rewrite (pb_pool _ _ _ Hb), (ac_pool _ _ _ _ _ _ Hac).
    + by rewrite (pb_time _ _ _ Hb), (ac_time _ _ _ _ _ _ Hac).
    + intros q Hq. by rewrite Hbufs, lookup_insert_ne.
    + intros _. rewrite Hbufs, lookup_insert_eq. by eexists.
  - exact (re_params _ _ _ _ _ Hret).
Qed.

(** No cell is left: the answer is that the key is missing. *)
Lemma get_rounds_none (w : hworld) r rq rc fuel (cell : Z -> hash_entry) tag start cmp :
  hopscotch_get r w = ret rc w -> Fifo.items (retry_q w) = [] ->
  (forall o, start <= o < MAX_HOP -> key_fp_tag (cell o) <> tag) ->
  exists w', get_rounds (S fuel) r w = Ret rc w' /\ passed rq w w' /\
    forall o, start <= o < MAX_HOP -> key_fp_tag (cell o) = tag -> cmp o <> 0.
Proof.
  intros Hget Hre Hnone. exists w. split; [|split; [by split|]].
  - cbn [get_rounds]. rewrite (bind_ret _ _ _ _ _ Hget). by rewrite (bind_ret _ _ _ _ _ (q_dequeue_nil RETRY_Q w Hre)).
  - intros o Ho Ht'. by destruct (Hnone o Ho).
Qed.

(** The rounds from the first to the last. [k] cells are left to look at. *)
Lemma get_rounds_ok ring n k (w : hworld) r rq b hp ht (x : Z -> list Z) (cmp : Z -> Z) :
  sys_ok ring (S k + n) w -> req_ready w r rq b -> params rq <> NULL ->
  params_heap w !! params rq = Some hp -> table (ops w) = [ht] -> req_type rq = REQ_TYPE_GET ->
  Fifo.items (retry_q w) = [] -> 0 < Fifo.cap (retry_q w) -> r <> NULL -> MAX_HOP - lookup_start hp <= Z.of_nat k ->
  let h := hash_low (req_key rq) in
  let cell o := tget ht (slot (key_idx h) o) in
  0 <= lookup_start hp ->
  (forall o, lookup_start hp <= o < MAX_HOP -> key_fp_tag (cell o) = key_tag h ->
     candidate w rq (length b) (cell o) (x o) (cmp o)) ->
  (exists w', get_rounds (S k) r w = Ret 0 w' /\ ops w' = ops w /\ answered r rq w w' /\
     exists o, lookup_start hp <= o < MAX_HOP /\ key_fp_tag (cell o) = key_tag h /\ cmp o = 0) \/
  (exists w', get_rounds (S k) r w = Ret 1 w' /\ passed rq w w' /\
     forall o, lookup_start hp <= o < MAX_HOP -> key_fp_tag (cell o) = key_tag h -> cmp o <> 0).
Proof.
  revert w b hp. induction k as [|k IH]; intros w b hp Hsys Hrq Hpar Hhp Htab Ht Hre Hcap Hr Hst h cell H0 Hca.
  all: pose proof (hopscotch_get_unfold w r rq ht hp (qr_req _ _ _ _ Hrq) Hpar Hhp Htab) as Hget; cbv zeta in Hget; fold h in Hget.
  all: destruct (find_matching_tag_spec ht (key_idx h) (lookup_start hp) (key_tag h)) as [[E Hnone] | (Hrange & Htag & Hmin)];
    [right; rewrite E in Hget; by apply (get_rounds_none w r rq 1 _ cell) | ].
  { lia. }
  set (o := find_matching_tag ht (key_idx h) (lookup_start hp) (key_tag h)) in *.
  assert (o <> -1) as Ho by lia. pose proof (Hca o Hrange Htag) as Hc. destruct (decide (cmp o = 0)) as [Hz|Hnz].
  - left. destruct Hc as [Hk Hkl Hs Hcmp].
    destruct (candidate_result (S k + n) w r rq b (key_idx h) o ht (x o) hp (cmp o)) as (w' & Hres & Hops & Han);
      try done; [apply Hsys | apply Hsys | by rewrite (so_grain _ _ _ _ Hsys) | by apply Hcmp | | by right |].
    { unfold Fifo.full. rewrite Hre. apply Z.eqb_neq. simpl. lia. }
    rewrite Ht, Hz in Han. cbn [Z.eqb] in Han. exists w'. split; [|split_and!; [done | done | by exists o]].
    cbn [get_rounds]. rewrite (bind_ret _ _ w 0 w')
      by (rewrite Hget, (proj2 (Z.eqb_neq o (-1)) Ho), (bind_ret _ _ _ _ _ Hres); done).
    by rewrite (bind_ret _ _ _ _ _ (q_dequeue_nil RETRY_Q w' ltac:(cbn [qget]; by rewrite (an_retry _ _ _ _ Han)))).
  - destruct (get_round_missed ring (S k + n) w r rq b o (x o) hp (cmp o) ht) as (w1 & b1 & Hb1 & Hrun & Hs1 & Hq1 & Hps & Hp1);
      try done. rewrite Hrun.
    specialize (IH w1 b1 _ Hs1 Hq1 Hpar Hp1 ltac:(by rewrite (ps_ops _ _ _ Hps)) Ht
      ltac:(by rewrite (ps_retry _ _ _ Hps)) ltac:(by rewrite (ps_retry _ _ _ Hps)) Hr).
    cbn [lookup_start lookup_step hp_offset] in IH. cbv zeta in IH. fold h in IH. fold cell in IH.
    destruct IH as [(w' & E1 & E2 & E3 & o' & E4 & E5) | (w' & E1 & E2 & E3)]; [lia | lia | | |].
    + intros o' Ho' Ht'. rewrite Hb1. apply (candidate_passed w); [apply Hrq | done | apply Hca; [lia | done]].
    + left. exists w'. split_and!; [done | by rewrite E2, (ps_ops _ _ _ Hps) | by eapply answered_passed |].
      exists o'. split; [lia | done].
    + right. exists w'. split_and!; [done | by eapply passed_trans |]. intros o' Ho' Ht'.
      destruct (decide (o' < o)) as [Hlt|Hge]; [by destruct (Hmin o' ltac:(lia))|].
      destruct (decide (o' = o)) as [->|Hne]; [done|]. apply E3; [lia | done].
Qed.

(** C30: a lookup is complete. A GET of the index, over all its rounds: while the
    pairs of the cells of its neighbourhood that carry its tag are staged, it is
    answered if one of these pairs has its key, and answers 1, the key is
    missing, with everything but its parameters and its value buffer as it was,
    if none has; either after at most [MAX_HOP + 1] rounds. Every live block of the
    key's home and tag is in one of these cells. *)
Theorem hopscotch_get_complete ring n (w : hworld) r rq b ht (x : Z -> list Z) (cmp : Z -> Z) :
  sys_ok ring (S (Z.to_nat MAX_HOP) + n) w -> req_ready w r rq b -> params rq = NULL ->
  table (ops w) = [ht] -> req_type rq = REQ_TYPE_GET ->
  Fifo.items (retry_q w) = [] -> 0 < Fifo.cap (retry_q w) -> r <> NULL ->
  let h := hash_low (req_key rq) in
  let cell o := tget ht (slot (key_idx h) o) in
  (forall o, 0 <= o < MAX_HOP -> key_fp_tag (cell o) = key_tag h -> candidate w rq (length b) (cell o) (x o) (cmp o)) ->
  ((exists o, 0 <= o < MAX_HOP /\ key_fp_tag (cell o) = key_tag h /\ cmp o = 0) ->
   exists w', get_rounds (S (Z.to_nat MAX_HOP)) r w = Ret 0 w' /\ ops w' = ops w /\ answered r rq w w') /\
  ((forall o, 0 <= o < MAX_HOP -> key_fp_tag (cell o) = key_tag h -> cmp o <> 0) ->
   exists w', get_rounds (S (Z.to_nat MAX_HOP)) r w = Ret 1 w' /\ passed rq (started r rq make_hop_params w) w') /\
  (forall size p, table_ok ht -> live ht (key_idx h) (key_tag h) size p ->
     exists o, 0 <= o < MAX_HOP /\ key_fp_tag (cell o) = key_tag h /\ pba (cell o) = p /\ kv_size (cell o) = size).
Proof.
  intros Hsys Hrq Hpar Htab Ht Hre Hcap Hr h cell Hca. apply and_assoc. split.
  2:{ intros size p Hok Hl. destruct (live_slot _ _ _ _ _ Hok Hl) as (o & Ho & Hto & Hs & Hp & _). by exists o. }
  set (w1 := started r rq make_hop_params w). set (rq1 := with_params (mem_next w) rq).
  assert (get_rounds (S (Z.to_nat MAX_HOP)) r w = get_rounds (S (Z.to_nat MAX_HOP)) r w1) as ->.
  { cbn [get_rounds]. unfold bind at 1 4.
    by rewrite (hopscotch_get_fresh _ _ _ (qr_req _ _ _ _ Hrq) Hpar (so_mem _ _ _ _ Hsys)). }
  destruct (get_rounds_ok ring n (Z.to_nat MAX_HOP) w1 r rq1 b make_hop_params ht x cmp)
    as [(w' & E1 & E2 & E3 & o & E4 & E5 & E6) | (w' & E1 & E2 & E3)].
  - by apply sys_ok_started.
  - by eapply req_ready_started.
  - pose proof (mo_next _ (so_mem _ _ _ _ Hsys)). unfold NULL. simpl. lia.
  - apply lookup_insert_eq.
  - exact Htab.
  - exact Ht.
  - exact Hre.
  - exact Hcap.
  - exact Hr.
  - cbn. lia.
  - cbn. lia.
  - intros o Ho Hto. by destruct (Hca o Ho Hto).
  - split.
    + intros _. exists w'. split_and!; [done | done|]. by apply (answered_started r rq make_hop_params (mem_next w)).
    + intros Hno. by destruct (Hno o E4 E5).
  - split.
    + intros (o & Ho & Hto & Hz). by destruct (E3 o Ho Hto).
    + intros _. exists w'. split; [done|]. destruct E2. by split.
Qed.

(** The first round of a GET for an entry whose pair, stored with the same key,
    is still staged. *)
Lemma hopscotch_get_stored ring n (w : hworld) r rq b o grains p x ht :
  sys_ok ring (S n) w -> table (ops w) = [ht] -> req_ready w r rq b -> req_type rq = REQ_TYPE_GET ->
  params rq = NULL -> o <> -1 ->
  find_matching_tag ht (key_idx (hash_low (req_key rq))) 0 (key_tag (hash_low (req_key rq))) = o ->
  tget ht (slot (key_idx (hash_low (req_key rq))) o) =
    HashEntry o (key_tag (hash_low (req_key rq))) grains p ->
  0 < grains -> grains * SOB <= Z.of_nat (length b) -> staged_holds w p grains x ->
  keycmp (req_key rq) (x ++ drop (length x) b) = Some 0 -> Fifo.full (retry_q w) = false ->
  exists w', hopscotch_get r w = Ret 0 w' /\ answered r rq w w'.
Proof.
  intros Hsys Htab Hq Hget Hp Ho Hfind Hcell Hg Hgb Hst Hcmp Hroom.
  rewrite (hopscotch_get_fresh _ _ _ (qr_req _ _ _ _ Hq) Hp (so_mem _ _ _ _ Hsys)).
  set (w1 := started r rq make_hop_params w). set (rq' := with_params (mem_next w) rq).
  pose proof (req_ready_started _ _ _ _ _ _ _ make_hop_params Hsys Hq) as Hqs.
  pose proof (sys_ok_started _ _ _ _ r rq make_hop_params Hsys) as Hsys1.
  assert (params rq' <> NULL) as Hnn.
  { simpl. pose proof (mo_next _ (so_mem _ _ _ _ Hsys)). unfold NULL. lia. }
  rewrite (hopscotch_get_unfold w1 r rq' ht make_hop_params (qr_req _ _ _ _ Hqs));
    [| exact Hnn | by apply lookup_insert_eq | exact Htab].
  cbn zeta. change (hash_low (req_key rq')) with (hash_low (req_key rq)).
  change (lookup_start make_hop_params) with 0. rewrite Hfind, (proj2 (Z.eqb_neq o (-1)) Ho).
  pose proof (candidate_result n w1 r rq' b (key_idx (hash_low (req_key rq))) o ht x make_hop_params 0
                (so_dev _ _ _ _ Hsys1) (so_pools _ _ _ _ Hsys1) Hqs) as Hres.
  cbv zeta in Hres. rewrite Hcell in Hres. cbn [kv_size pba] in Hres. destruct Hres as (w2 & Hr2 & _ & Han); try done.
  - simpl. apply lookup_insert_eq.
  - change (grain_unit (dev w1)) with (grain_unit (dev w)). by rewrite (so_grain _ _ _ _ Hsys).
  - by right.
  - exists w2. rewrite (bind_ret _ _ _ _ _ Hr2). change (req_type rq') with (req_type rq) in Han.
    rewrite Hget in Han. split; [done|]. by apply (answered_started r rq make_hop_params (mem_next w)).
Qed.

(** C1: set, then get. After a new pair was stored, a lookup of the same key
    finds it in its first round, reads the block just written and answers the
    client: nothing is lost between the table, the log and the staged segment.
    The pair must keep its key within whole grains, which the code does not
    check. *)
Theorem hopscotch_set_then_get ring n (w : hworld) r1 rq1 b1 r2 rq2 b2 ht :
  sys_ok ring (S (S (S n))) w -> table_ok ht -> table (ops w) = [ht] ->
  req_ready w r1 rq1 b1 -> len_ok w rq1 b1 -> params rq1 = NULL ->
  req_ready w r2 rq2 b2 -> req_type rq2 = REQ_TYPE_GET -> params rq2 = NULL ->
  r2 <> r1 -> value (req_value rq2) <> value (req_value rq1) -> req_key rq2 = req_key rq1 ->
  let h := hash_low (req_key rq1) in
  let grains := val_len (req_value rq1) / SOB in
  find_matching_tag ht (key_idx h) 0 (key_tag h) = -1 -> fst (find_free_entry ht (key_idx h)) <> -1 ->
  1 + key_len (req_key rq1) <= grains * SOB -> grains * SOB <= Z.of_nat (length b2) ->
  Z.of_nat (length (Fifo.items (req_pool w))) + 1 < Fifo.cap (req_pool w) ->
  Fifo.full (retry_q w) = false ->
  exists w1 w2, hopscotch_set r1 w = Ret 0 w1 /\ hopscotch_get r2 w1 = Ret 0 w2 /\
    answered r1 rq1 w w1 /\ answered r2 rq2 w1 w2.
Proof.
  intros Hsys Htok Htab Hq1 Hlen Hp1 Hq2 Ht2 Hp2 Hr Hv Hkey h grains Hnone Hfree Hgk Hgb Hpool Hroom.
  pose proof (hopscotch_set_new ring (S n) w r1 rq1 b1 ht Hsys Hq1 Hlen Hp1 Htab) as Hset.
  pose proof (fun k p => find_after_insert ht (key_idx h) (key_tag h) k p Htok (key_idx_bounds h)
                (key_tag_bounds h) Hnone) as Hfind.
  pose proof (insert_offset ht (key_idx h)) as Hoff.
  cbv zeta in Hset. fold h in Hset. fold grains in Hset.
  destruct (find_free_entry ht (key_idx h)) as [o ht1] eqn:Hff. cbn [fst] in *.
  specialize (Hoff Hfree). pose proof (key_tag_bounds h) as Htag.
  destruct (Hset Hnone Hfree) as (p & w1 & Hs1 & Hp & Hph & Htab1 & Han1 & Hst1 & Hsys1).
  pose proof (key_ok_len _ (qr_key _ _ _ _ Hq1)) as Hkl.
  assert (0 <= grains < 2 ^ 11) as Hgr by (split; [unfold SOB, GRAIN_UNIT in *; lia | apply Hlen]).
  assert (fill_entry o (key_tag h) grains p = HashEntry o (key_tag h) grains p) as Hfill
    by (apply fill_entry_id; try done; unfold MAX_HOP in *; lia).
  pose proof (req_ready_answered _ _ _ _ _ _ _ Han1 Hq2 Hr Hv Hpool Hp2) as Hq2'.
  destruct (hopscotch_get_stored _ n w1 r2 rq2 b2 o grains p (take (Z.to_nat (grains * SOB)) (pair_of rq1 b1)) _
              Hsys1 Htab1 Hq2' Ht2 Hp2 Hfree)
    as (w2 & Hg & Han2); rewrite ?Hkey; fold h.
  - exact (Hfind grains p Hoff).
  - rewrite tget_tset_eq. exact Hfill.
  - unfold SOB, GRAIN_UNIT in *. lia.
  - exact Hgb.
  - exact Hst1.
  - apply keycmp_pair; [apply Hq1 | done].
  - by rewrite (an_retry _ _ _ _ Han1).
  - by exists w1, w2.
Qed.

(** ** Updates *)

Lemma hopscotch_set_unfold (w : hworld) r rq ht hp :
  req_arr w !! r = Some rq -> params rq <> NULL -> params_heap w !! params rq = Some hp ->
  table (ops w) = [ht] ->
  let h := hash_low (req_key rq) in
  hopscotch_set r w =
  match insert_step hp with
  | HOP_STEP_KEY_MATCH => hop_insert_key_match r 0 (key_idx h) (key_tag h) (hp_offset hp) w
  | HOP_STEP_KEY_MISMATCH =>
      hop_insert_key_mismatch r (params rq) 0 (key_idx h) (key_tag h) (hp_offset hp + 1) w
  | HOP_STEP_INIT => hop_insert_key_mismatch r (params rq) 0 (key_idx h) (key_tag h) 0 w
  end.
Proof.
  intros Hr Hpar Hhp Htab h. unfold hopscotch_set.
  rewrite (bind_ret _ _ _ _ _ (load_req_ok _ _ _ Hr)). cbn zeta. fold h. rewrite key_dir_0.
  rewrite (bind_ret _ _ _ _ _ (ensure_params_old _ _ _ _ Hr Hpar)).
  rewrite (bind_ret _ _ _ _ _ (load_params_ok _ _ _ Hhp)). by destruct (insert_step hp).
Qed.

(** The first round of an update. A SET reads the stored pair of its
    candidate into its own value buffer: when the key is the same it comes back
    for the second round with the old pair, and not the value to be stored, in
    that buffer. *)
Theorem hopscotch_set_reads_over_value n (w : hworld) r rq b ht hp x :
  dev_wf (dev w) -> pools_ready (S n) w -> req_ready w r rq b -> params rq <> NULL ->
  params_heap w !! params rq = Some hp -> table (ops w) = [ht] -> req_type rq = REQ_TYPE_SET ->
  Fifo.full (retry_q w) = false -> insert_step hp = HOP_STEP_INIT ->
  let h := hash_low (req_key rq) in
  let o := find_matching_tag ht (key_idx h) 0 (key_tag h) in
  let e := tget ht (slot (key_idx h) o) in
  o <> -1 -> 0 < kv_size e -> kv_size e * grain_unit (dev w) <= Z.of_nat (length b) ->
  staged_holds w (pba e) (kv_size e) x -> keycmp (req_key rq) (x ++ drop (length x) b) = Some 0 ->
  exists w', hopscotch_set r w = Ret 0 w' /\ ops w' = ops w /\
    retried r rq (HopParams o (lookup_step hp) HOP_STEP_KEY_MATCH) w w' /\
    bufs w' !! value (req_value rq) = Some (x ++ drop (length x) b).
Proof.
  intros Hd Hp Hrq Hpar Hhp Htab Ht Hroom Hins h o e Ho Hk Hkl Hst Hcmp.
  rewrite (hopscotch_set_unfold w r rq ht hp (qr_req _ _ _ _ Hrq) Hpar Hhp Htab), Hins. fold h.
  unfold hop_insert_key_mismatch.
  rewrite (bind_ret _ _ w ht w) by (apply get_table_ok; by rewrite Htab). cbn zeta. fold o.
  rewrite (proj2 (Z.eqb_neq o (-1)) Ho). cbn [negb].
  destruct (candidate_result n w r rq b (key_idx h) o ht x hp 0) as (w' & Hr & Hops & Hres); try done.
  { by left. }
  rewrite Ht in Hres. destruct Hres as [Hre Hb].
  exists w'. by rewrite (bind_ret _ _ _ _ _ Hr).
Qed.

(** The second round of an update writes whatever the value buffer holds to
    a fresh block, points the entry it matched to that block and answers the
    client; no other cell changes. *)
Theorem hopscotch_set_replaces ring n (w : hworld) r rq b ht hp :
  sys_ok ring (S (S n)) w -> req_ready w r rq b -> len_ok w rq b -> params rq <> NULL ->
  params_heap w !! params rq = Some hp -> table (ops w) = [ht] -> insert_step hp = HOP_STEP_KEY_MATCH ->
  let h := hash_low (req_key rq) in
  let len := val_len (req_value rq) in
  exists p w',
    hopscotch_set r w = Ret 0 w' /\
    p * SOB = Ring.phys ring (fst (Ring.alloc len ring)) /\
    table (ops w') = [tset ht (slot (key_idx h) (hp_offset hp))
                        (fill_entry (hp_offset hp) (key_tag h) (len / SOB) p)] /\
    answered r rq w w' /\
    staged_holds w' p (len / SOB) (take (Z.to_nat (len / SOB * SOB)) (pair_of rq b)) /\
    sys_ok (snd (Ring.alloc len ring)) n w'.
Proof.
  intros Hsys Hrq Hlen Hpar Hhp Htab Hins h len.
  rewrite (hopscotch_set_unfold w r rq ht hp (qr_req _ _ _ _ Hrq) Hpar Hhp Htab), Hins. fold h.
  destruct (hop_insert_key_match_ok ring n w r rq b 0 (key_idx h) (key_tag h) (hp_offset hp) ht)
    as (p & w' & He & _ & Hph & Hops & Hrest); [done | done | done | by rewrite Htab |].
  exists p, w'. split; [done|]. split; [done|]. split; [|done]. rewrite Hops. simpl. by rewrite Htab.
Qed.

(** ** Empty cells and tag 0 *)

(** Reading a cell nothing was entered in. *)
Lemma read_candidate_empty n (w : hworld) r rq b idx o ht hp :
  dev_wf (dev w) -> pools_ready (S (S n)) w -> grain_unit (dev w) = SOB ->
  nr_segment (dev w) * segment_size (dev w) <= PBA_INVALID * SOB ->
  req_ready w r rq b -> params_heap w !! params rq = Some hp -> table (ops w) = [ht] ->
  tget ht (slot idx o) = HashEntry 0 0 0 PBA_INVALID -> 0 <= io_submit_rc w (submits w) ->
  exists w' i c, read_candidate r (params rq) 0 idx o w = Ret tt w' /\ aio_ctx w' = aio_ctx w ++ [i] /\
    iocb_arr w' !! i = Some (Iocb false (dev_fd (dev w)) (value (req_value rq)) 0
                              (PBA_INVALID * SOB) c) /\
    cb_arr w' !! c = Some (Callback FN_cb_keycmp r i) /\ acks w' = acks w.
Proof.
  intros Hd Hp Hg Hf Hrq Hhp Htab Hcell Hrc.
  unfold read_candidate. rewrite (bind_ret _ _ _ _ _ (load_req_ok _ _ _ (qr_req _ _ _ _ Hrq))).
  rewrite (bind_ret _ _ w ht w) by (apply get_table_ok; by rewrite Htab). cbn zeta. rewrite Hcell.
  destruct (make_callback_ready FN_cb_keycmp r (S n) w Hp)
    as (c & w2 & Hc & Hfr & Hd2 & Hb2 & Hn2 & Haio & Hcb & Hcn & Hip & Hia & Hrc2 & Hsu2 & Hca).
  rewrite (bind_ret _ _ _ _ _ Hc).
  rewrite (bind_ret _ _ w2 hp w2) by (apply load_params_ok; by rewrite (df_params _ _ Hfr)).
  erewrite bind_ret by exact eq_refl. set (w3 := set_params_heap _ w2). cbn [pba kv_size].
  destruct (dev_wf_staged _ Hd) as [ss Hss]. pose proof (dev_wf_bounds _ _ _ Hd Hss) as (H1 & H2 & H3).
  pose proof (sw_offset _ _ _ (dw_segs _ Hd _ _ Hss)). destruct Hp as [P1 P2 P3 P4].
  destruct (dev_abs_read_unstaged hop_exec n w3 ss PBA_INVALID 0 (value (req_value rq)) c
              (Callback FN_cb_keycmp r NULL)) as (rc & w' & i & Hr & Hctx & Hi & Hcb' & _ & _ & Hfr').
  all: try change (dev w3) with (dev w2); rewrite ?Hd2, ?Hg; try done.
  { right. lia. }
  { split; simpl; rewrite ?Hip, ?Hia; try done; lia. }
  { simpl. by rewrite Hrc2, Hsu2. }
  exists w', i, c. rewrite (bind_ret _ _ _ _ _ Hr). split; [done|].
  rewrite Hctx, Hi. simpl. rewrite Haio, Hd2, Hg. split_and!; try done.
  rewrite (df_acks _ _ Hfr'). simpl. apply Hfr.
Qed.

Lemma init_table_tag0 idx : find_matching_tag init_table idx 0 0 = 0.
Proof. done. Qed.

(** A search does not tell an empty cell from an entry with tag 0. On an
    empty table the lookup of a key whose tag is 0 does not report it missing:
    it submits a read of no bytes at the invalid address, with the compare of
    the uninitialised value still to come. *)
Theorem hopscotch_get_tag0_reads_invalid ring n (w : hworld) r rq b hp :
  sys_ok ring (S (S n)) w -> req_ready w r rq b -> params rq <> NULL ->
  params_heap w !! params rq = Some hp -> lookup_step hp = HOP_STEP_INIT ->
  table (ops w) = [init_table] -> key_tag (hash_low (req_key rq)) = 0 ->
  0 <= io_submit_rc w (submits w) ->
  exists w' i c, hopscotch_get r w = Ret 0 w' /\ aio_ctx w' = aio_ctx w ++ [i] /\
    iocb_arr w' !! i = Some (Iocb false (dev_fd (dev w)) (value (req_value rq)) 0
                              (PBA_INVALID * SOB) c) /\
    cb_arr w' !! c = Some (Callback FN_cb_keycmp r i) /\ acks w' = acks w.
Proof.
  intros [Hd Hring Hp Hm Hst Hg Hf] Hrq Hpar Hhp Hls Htab Htag Hrc.
  pose proof (qr_req _ _ _ _ Hrq) as Hr.
  rewrite (hopscotch_get_unfold w r rq init_table hp Hr Hpar Hhp Htab).
  unfold lookup_start. rewrite Hls, Htag, init_table_tag0. change (0 =? -1) with false. cbn iota.
  destruct (read_candidate_empty n w r rq b (key_idx (hash_low (req_key rq))) 0 init_table hp)
    as (w' & i & c & Hread & Hrest); try done.
  exists w', i, c. rewrite (bind_ret _ _ _ _ _ Hread). by split.
Qed.

(** ** Concrete runs *)

Definition demo_world (t : hash_table) (rq1 rq2 : request) (h : gmap Z hop_params) : hworld :=
  lab (Hopscotch [t]) mini_dev {[ 1 := rq1; 2 := rq2 ]} h (demo_bufs (replicate 512 0)) 30.

Definition fresh_pair : hworld :=
  demo_world init_table (demo_req REQ_TYPE_SET 10 NULL) (demo_req REQ_TYPE_GET 11 NULL) ∅.

Lemma hopscotch_set_inserts_witness :
  exists w', hopscotch_set 1 fresh_pair = Ret 0 w' /\
    table (ops w') = [tset init_table 5 (HashEntry 0 9 2 0)] /\ Fifo.items (req_pool w') = [1].
Proof.
  destruct (hopscotch_set_inserts mini_ring 2 fresh_pair 1 (demo_req REQ_TYPE_SET 10 NULL)
              (replicate 256 5) init_table (demo_sys PBA_INVALID _ _ _ ltac:(by vm_compute)) (demo_ready1 _ mini_dev _ _ _ _ _ eq_refl (or_introl eq_refl))
              (demo_len 11 _ _ _ _ _ ltac:(by vm_compute)) eq_refl eq_refl) as (p & w' & H1 & Hp & H2 & H3 & H4 & _);
    [by vm_compute | by vm_compute |].
  exists w'. split; [exact H1|]. split; [|by rewrite (an_pool _ _ _ _ H4)].
  assert (p = 0) as ->. { vm_compute in H2. destruct p; [done | done | lia]. }
  rewrite H3. by vm_compute.
Defined.

Lemma hopscotch_set_then_get_witness :
  exists w1 w2, hopscotch_set 1 fresh_pair = Ret 0 w1 /\ hopscotch_get 2 w1 = Ret 0 w2 /\
    Fifo.items (req_pool w1) = [1].
Proof.
  destruct (hopscotch_set_then_get mini_ring 1 fresh_pair 1 (demo_req REQ_TYPE_SET 10 NULL)
              (replicate 256 5) 2 (demo_req REQ_TYPE_GET 11 NULL) (replicate 256 0) init_table
              (demo_sys PBA_INVALID _ _ _ ltac:(by vm_compute)) init_table_ok eq_refl (demo_ready1 _ mini_dev _ _ _ _ _ eq_refl (or_introl eq_refl))
              (demo_len 11 _ _ _ _ _ ltac:(by vm_compute)) eq_refl (demo_ready2 _ mini_dev _ _ _ _ _ eq_refl (or_introl eq_refl))
              eq_refl eq_refl ltac:(lia) ltac:(by vm_compute) eq_refl
              ltac:(by vm_compute) ltac:(by vm_compute) ltac:(by vm_compute) ltac:(by vm_compute)
              ltac:(by vm_compute) ltac:(by vm_compute))
    as (w1 & w2 & H1 & H2 & H3 & _).
  exists w1, w2. split; [exact H1|]. split; [exact H2|]. by rewrite (an_pool _ _ _ _ H3).
Defined.

(** The table with the key's block at grain 0, staged, and both requests past
    their first call. *)
Definition demo_table : hash_table := tset init_table 5 (HashEntry 0 9 2 0).

Definition demo_old : list Z := 3 :: 107 :: 101 :: 121 :: replicate 252 77.

Definition stored_dev : dev_abs :=
  with_segs [Segment 0 SEG_STATE_STAGED 0 512 256; Segment 1 SEG_STATE_FREE 512 1024 512;
             Segment 2 SEG_STATE_FREE 1024 1536 1024] mini_dev.

Definition stored_pair (hp : hop_params) : hworld :=
  lab (Hopscotch [demo_table]) stored_dev
    {[ 1 := demo_req REQ_TYPE_SET 10 20; 2 := demo_req REQ_TYPE_GET 11 21 ]} {[ 20 := hp; 21 := hp ]}
    (demo_bufs (demo_old ++ replicate 256 0)) 30.

Lemma stored_pair_wf hp : dev_wf (dev (stored_pair hp)).
Proof.
  apply (dev_wf_upd mini_dev 0 (Segment 0 SEG_STATE_STAGED 0 512 256)); [apply mini_dev_wf | | done].
  split; simpl; try lia. by exists 2.
Qed.

Lemma stored_pair_holds hp : staged_holds (stored_pair hp) 0 2 demo_old.
Proof.
  exists (Segment 0 SEG_STATE_STAGED 0 512 256), (demo_old ++ replicate 256 0).
  split_and!; [split; simpl; try done; lia | done | done | by vm_compute].
Qed.

Lemma stored_pair_pools hp : pools_ready 4 (stored_pair hp).
Proof. apply lab_pools. Qed.

Lemma stored_ready1 hp : req_ready (stored_pair hp) 1 (demo_req REQ_TYPE_SET 10 20) (replicate 256 5).
Proof. apply demo_ready1; [done|]. right. by exists hp. Qed.

Lemma stored_ready2 hp : req_ready (stored_pair hp) 2 (demo_req REQ_TYPE_GET 11 21) (replicate 256 0).
Proof. apply demo_ready2; [done|]. right. by exists hp. Qed.

Lemma hopscotch_get_round_witness :
  exists w', hopscotch_get 2 (stored_pair make_hop_params) = Ret 0 w' /\ Fifo.items (req_pool w') = [2].
Proof.
  destruct (hopscotch_get_round 3 (stored_pair make_hop_params) 2 (demo_req REQ_TYPE_GET 11 21)
              (replicate 256 0) demo_table make_hop_params (stored_pair_wf _) (stored_pair_pools _)
              (stored_ready2 _) ltac:(by vm_compute) eq_refl eq_refl eq_refl eq_refl) as [_ H].
  destruct (H demo_old 0 ltac:(by vm_compute) ltac:(by vm_compute) ltac:(by vm_compute)
              (stored_pair_holds _) ltac:(by vm_compute)) as (w' & H1 & _ & H2 & _).
  exists w'. split; [exact H1|]. by rewrite (an_pool _ _ _ _ (H2 eq_refl)).
Defined.

(** Two pairs with one tag: the first is another key's. *)
Definition two_table : hash_table := tset (tset init_table 5 (HashEntry 0 9 1 0)) 6 (HashEntry 1 9 1 1).
Definition other_pair : list Z := 3 :: 107 :: 101 :: 122 :: replicate 124 76.
Definition wanted_pair : list Z := 3 :: 107 :: 101 :: 121 :: replicate 124 77.
Definition two_staged : list Z := other_pair ++ wanted_pair ++ replicate 256 0.

Definition two_world : hworld :=
  set_cb_pool (Fifo.Mk (addrs 0 (Z.to_nat 64)) QSIZE) (set_iocb_pool (Fifo.Mk (addrs 0 (Z.to_nat 64)) QSIZE)
    (set_cb_arr (calloc_array 64 zero_callback) (set_iocb_arr (calloc_array 64 zero_iocb)
      (lab (Hopscotch [two_table]) stored_dev
         {[ 1 := demo_req REQ_TYPE_SET 10 NULL; 2 := demo_req REQ_TYPE_GET 11 NULL ]} ∅ (demo_bufs two_staged) 30)))).

Lemma two_world_ok : sys_ok (Ring.Mk 512 3 128 0 256) 34 two_world.
Proof.
  split; [exact (stored_pair_wf make_hop_params) | | | | | exact eq_refl | by vm_compute].
  - split; simpl; try done; [|by intros s [= <-]]. split; simpl; try lia; [by exists 4 | by exists 2].
  - split; cbn [cb_pool iocb_pool cb_arr iocb_arr two_world set_cb_pool set_iocb_pool set_cb_arr set_iocb_arr Fifo.items].
    + rewrite addrs_length. lia.
    + rewrite addrs_length. lia.
    + exact (addrs_calloc 64 zero_callback).
    + exact (addrs_calloc 64 zero_iocb).
  - destruct (demo_mem (I:=hopscotch) (P:=hop_params) (Hopscotch [two_table]) stored_dev ∅ ∅ two_staged) as [H1 H2].
    split; [exact H1 | exact H2].
  - exists two_staged. split; [exact eq_refl | by vm_compute].
Qed.

Lemma two_world_ready : req_ready two_world 2 (demo_req REQ_TYPE_GET 11 NULL) (replicate 256 0).
Proof.
  split; [exact eq_refl | exact eq_refl | exact demo_key_ok | by left | | exact eq_refl | | exact eq_refl]; by vm_compute.
Qed.

Definition two_pair (o : Z) : list Z := if o =? 0 then other_pair else wanted_pair.
Definition two_cmp (o : Z) : Z := if o =? 0 then -1 else 0.

Lemma two_candidates o :
  0 <= o < MAX_HOP -> key_fp_tag (tget two_table (slot 5 o)) = 9 ->
  candidate two_world (demo_req REQ_TYPE_GET 11 NULL) 256 (tget two_table (slot 5 o)) (two_pair o) (two_cmp o).
Proof.
  intros Ho Ht. destruct (decide (o = 0)) as [->|H0]; [|destruct (decide (o = 1)) as [->|H1]].
  - split; [by vm_compute | by vm_compute | | done]. exists (Segment 0 SEG_STATE_STAGED 0 512 256), two_staged.
    split_and!; [split; simpl; try done; vm_compute; congruence | done | done | by vm_compute].
  - split; [by vm_compute | by vm_compute | | done]. exists (Segment 0 SEG_STATE_STAGED 0 512 256), two_staged.
    split_and!; [split; simpl; try done; vm_compute; congruence | done | done | by vm_compute].
  - exfalso. revert Ht. unfold MAX_HOP in Ho.
    assert (Forall (fun o => key_fp_tag (tget two_table (slot 5 o)) <> 9) (seqZ 2 30)) as Hall
      by (apply (bool_decide_unpack _); by vm_compute).
    apply (proj1 (Forall_forall _ _) Hall), elem_of_seqZ. lia.
Qed.

(** The second round answers. *)
Lemma hopscotch_get_complete_witness :
  exists w', get_rounds 33 2 two_world = Ret 0 w' /\ Fifo.items (req_pool w') = [2].
Proof.
  destruct (hopscotch_get_complete (Ring.Mk 512 3 128 0 256) 1 two_world 2 (demo_req REQ_TYPE_GET 11 NULL)
              (replicate 256 0) two_table two_pair two_cmp two_world_ok two_world_ready eq_refl eq_refl eq_refl eq_refl
              ltac:(by vm_compute) ltac:(by vm_compute) two_candidates) as (H & _).
  destruct H as (w' & H1 & _ & H2); [exists 1; split_and!; [lia | by vm_compute | by vm_compute | done]|].
  exists w'. split; [exact H1|]. by rewrite (an_pool _ _ _ _ H2).
Defined.

Lemma hopscotch_set_reads_over_value_witness :
  exists w', hopscotch_set 1 (stored_pair make_hop_params) = Ret 0 w' /\
    bufs w' !! 10 = Some demo_old /\ Fifo.items (retry_q w') = [1].
Proof.
  destruct (hopscotch_set_reads_over_value 3 (stored_pair make_hop_params) 1 (demo_req REQ_TYPE_SET 10 20)
              (replicate 256 5) demo_table make_hop_params demo_old (stored_pair_wf _) (stored_pair_pools _)
              (stored_ready1 _) ltac:(by vm_compute) eq_refl eq_refl eq_refl eq_refl eq_refl
              ltac:(by vm_compute) ltac:(by vm_compute) ltac:(by vm_compute) (stored_pair_holds _)
              ltac:(by vm_compute)) as (w' & H1 & _ & H2 & H3).
  exists w'. split; [exact H1|]. split; [etransitivity; [exact H3 | by vm_compute] | by rewrite (re_retry _ _ _ _ _ H2)].
Defined.

Lemma hopscotch_set_replaces_witness :
  let hp := HopParams 0 HOP_STEP_INIT HOP_STEP_KEY_MATCH in
  exists p w', hopscotch_set 1 (demo_world demo_table (demo_req REQ_TYPE_SET 10 20)
                                (demo_req REQ_TYPE_GET 11 21) {[ 20 := hp ]}) = Ret 0 w' /\
    table (ops w') = [tset demo_table 5 (fill_entry 0 9 2 p)].
Proof.
  intros hp.
  assert (is_Some (({[ 20 := hp ]} : gmap Z hop_params) !! 20)) as Hhp by by exists hp.
  destruct (hopscotch_set_replaces mini_ring 2 _ 1 (demo_req REQ_TYPE_SET 10 20) (replicate 256 5)
              demo_table hp (demo_sys PBA_INVALID (Hopscotch [demo_table])
                 {[ 1 := demo_req REQ_TYPE_SET 10 20; 2 := demo_req REQ_TYPE_GET 11 21 ]}
                 {[ 20 := hp ]} ltac:(by vm_compute)) (demo_ready1 _ mini_dev _ _ _ _ _ eq_refl (or_intror Hhp))
              (demo_len 11 _ _ _ _ _ ltac:(by vm_compute)) ltac:(by vm_compute) eq_refl eq_refl eq_refl)
    as (p & w' & H1 & _ & H2 & _).
  exists p, w'. split; [exact H1 | exact H2].
Defined.

(** A key with tag 0 on an empty table. *)
Definition tag0_req : request :=
  Request REQ_TYPE_GET 42 (KeyStruct (replicate 256 1) 3 77 0) (ValStruct 11 4096) sw_zero FN_net_end_req
    21 NULL 4.

Lemma hopscotch_get_tag0_reads_invalid_witness :
  let w := demo_world init_table tag0_req tag0_req {[ 21 := make_hop_params ]} in
  exists w' i c, hopscotch_get 2 w = Ret 0 w' /\ aio_ctx w' = [i] /\
    iocb_arr w' !! i = Some (Iocb false 3 11 0 (0xffffffffff * 128) c).
Proof.
  intros w.
  destruct (hopscotch_get_tag0_reads_invalid mini_ring 2 w 2 tag0_req (replicate 256 0) make_hop_params)
    as (w' & i & c & H1 & H2 & H3 & _).
  - apply demo_sys. by vm_compute.
  - split; [exact eq_refl | exact eq_refl | split; unfold KEY_LEN_MAX; simpl; lia |
      right; by exists make_hop_params | by vm_compute | exact eq_refl | by vm_compute | exact eq_refl].
  - by vm_compute.
  - exact eq_refl.
  - exact eq_refl.
  - exact eq_refl.
  - exact eq_refl.
  - by vm_compute.
  - exists w', i, c. split; [exact H1|]. split; [exact H2 | exact H3].
Defined.
