(* ===== verification/BigkvTable.v ===== *)
(** * The bigkv index in memory and its partition tables ([src/bigkv_index.c],
    [include/bigkv_index.h])

    A bucket caches four entries with two-bit ages; entries evicted from it live
    in the table of its partition, 1024 packed entries of 16 bytes that are read
    and written whole. This file has the buckets, the partition tables, their
    bytes, and the operations on them. *)

From Stdlib Require Import ZArith Lia.
From stdpp Require Import prelude gmap.
From S2P Require Import Prelude Config Bytes.

#[local] Open Scope Z_scope.

Definition PBA_INVALID : Z := 0x3fffffffff.
Definition ENTRY_SIZE : Z := 16.
Definition NR_SET : Z := 4.
Definition BUCKETS_IN_PART : Z := 4.
Definition PART_TABLE_SIZE : Z := 16 * Ki.
Definition PART_TABLE_GRAINS : Z := PART_TABLE_SIZE / GRAIN_UNIT.
Definition PART_TABLE_ENTRYS : Z := PART_TABLE_SIZE / ENTRY_SIZE.
Definition NR_BUCKET : Z := Z.shiftl 1 22.
Definition NR_PART : Z := NR_BUCKET / BUCKETS_IN_PART.
Definition MAX_HOP : Z := 256.

(** ** Data *)

Record hash_entry : Type := HashEntry {
  fingerprint : Z;
  reserve : Z;
  dirty_bit : Z;
  lru_bit : Z;
  kv_size : Z;
  pba : Z
}.

(** [struct hash_bucket]: four entries. *)
Abbreviation hash_bucket := (list hash_entry).

(** [struct hash_entry_f], an entry of a partition table. *)
Record hash_entry_f : Type := HashEntryF {
  f_fingerprint : Z;
  f_offset : Z;
  f_kv_size : Z;
  f_pba : Z
}.

(** [struct hash_part_table]: 1024 of them. *)
Abbreviation hash_part_table := (list hash_entry_f).

Record hash_partition : Type := HashPartition { flying : Z; part_pba : Z }.

Definition zero_entry : hash_entry := HashEntry 0 0 0 0 0 0.
Definition zero_entry_f : hash_entry_f := HashEntryF 0 0 0 0.

(** [bucket->entry[i]] and [ptable->entry[i]]. *)
Definition entry (b : hash_bucket) (i : Z) : hash_entry := nth (Z.to_nat i) b zero_entry.
Definition entry_f (t : hash_part_table) (i : Z) : hash_entry_f := nth (Z.to_nat i) t zero_entry_f.

(** The bucket and the table as the code initialises them. *)
Definition init_bucket : hash_bucket := replicate (Z.to_nat NR_SET) (HashEntry 0 0 0 3 0 PBA_INVALID).

Definition init_ptable : hash_part_table :=
  replicate (Z.to_nat PART_TABLE_ENTRYS) (HashEntryF 0 0 0 PBA_INVALID).

(** ** Buckets *)

Definition get_match_entry (b : hash_bucket) (fp : Z) : option Z :=
  for_first 0 (Z.to_nat NR_SET)
    (fun i => negb (pba (entry b i) =? PBA_INVALID) && (fingerprint (entry b i) =? fp)).

Definition get_target_entry (b : hash_bucket) (fp : Z) : option Z :=
  match for_first 0 (Z.to_nat NR_SET) (fun i => fingerprint (entry b i) =? fp) with
  | Some i => Some i
  | None =>
      match for_first 0 (Z.to_nat NR_SET) (fun i => pba (entry b i) =? PBA_INVALID) with
      | Some i => Some i
      | None =>
          match for_first 0 (Z.to_nat NR_SET) (fun i => lru_bit (entry b i) =? 3) with
          | Some i => if dirty_bit (entry b i) =? 0 then Some i else None
          | None => None
          end
      end
  end.

Definition with_lru (l : Z) (e : hash_entry) : hash_entry :=
  HashEntry (fingerprint e) (reserve e) (dirty_bit e) (wrap 2 l) (kv_size e) (pba e).

Definition with_dirty (d : Z) (e : hash_entry) : hash_entry :=
  HashEntry (fingerprint e) (reserve e) (wrap 1 d) (lru_bit e) (kv_size e) (pba e).

(** The loop that ages the entries younger than [origin], other than entry [i]. *)
Definition age (i origin : Z) (b : hash_bucket) : hash_bucket :=
  imap (fun k tmp =>
          if negb (Z.of_nat k =? i) && (lru_bit tmp <? origin) then with_lru (lru_bit tmp + 1) tmp
          else tmp) b.

(** Lines 264-270: the entry of a hit becomes the youngest. *)
Definition touch (i : Z) (b : hash_bucket) : hash_bucket :=
  let b1 := age i (lru_bit (entry b i)) b in
  <[Z.to_nat i := with_lru 0 (entry b1 i)]> b1.

(** Lines 294-307: the entry takes over an entry of the partition table. *)
Definition fill_from_ptable (i : Z) (e : hash_entry_f) (b : hash_bucket) : hash_bucket :=
  let lru_origin := lru_bit (entry b i) in
  age i lru_origin
    (<[Z.to_nat i := HashEntry (f_fingerprint e) 0 0 0 (f_kv_size e) (f_pba e)]> b).

(** Lines 368-384: the entry takes a new block. *)
Definition fill_from_set (i fp size p : Z) (b : hash_bucket) : hash_bucket :=
  let lru_origin := lru_bit (entry b i) in
  age i lru_origin
    (<[Z.to_nat i := HashEntry fp (reserve (entry b i)) 1 0 (wrap 14 size) (wrap 42 p)]> b).

(** ** Partition tables *)

(** The [i]-th cell of the probe sequence of [fp]. *)
Definition probe (fp i : Z) : Z := (fp mod PART_TABLE_ENTRYS + i) mod PART_TABLE_ENTRYS.

Definition get_match_entry_f (t : hash_part_table) (fp : Z) : option hash_entry_f :=
  match for_first 0 (Z.to_nat MAX_HOP) (fun i => f_fingerprint (entry_f t (probe fp i)) =? fp) with
  | Some i => Some (entry_f t (probe fp i))
  | None => None
  end.

(** [insert_to_ptable]: the table, or [None] for the answer -1. *)
Definition insert_to_ptable (t : hash_part_table) (e : hash_entry) : option hash_part_table :=
  match for_first 0 (Z.to_nat MAX_HOP)
          (fun i => let c := entry_f t (probe (fingerprint e) i) in
                    (f_pba c =? PBA_INVALID) || (f_fingerprint c =? fingerprint e)) with
  | Some i =>
      Some (<[Z.to_nat (probe (fingerprint e) i) :=
               HashEntryF (fingerprint e) (wrap 8 i) (wrap 14 (kv_size e)) (wrap 42 (pba e))]> t)
  | None => None
  end.

(** The inner loop of [update_part_table], over the entries of one bucket;
    [None] is the abort. *)
Fixpoint flush_bucket (t : hash_part_table) (b : hash_bucket) : option (hash_part_table * hash_bucket) :=
  match b with
  | [] => Some (t, [])
  | e :: rest =>
      if negb (dirty_bit e =? 0) then
        match insert_to_ptable t e with
        | Some t1 =>
            match flush_bucket t1 rest with
            | Some (t2, rest') => Some (t2, with_dirty 0 e :: rest')
            | None => None
            end
        | None => None
        end
      else
        match flush_bucket t rest with
        | Some (t2, rest') => Some (t2, e :: rest')
        | None => None
        end
  end.

(** [update_part_table] over the buckets of the partition. *)
Fixpoint update_part_table (t : hash_part_table) (bs : list hash_bucket)
  : option (hash_part_table * list hash_bucket) :=
  match bs with
  | [] => Some (t, [])
  | b :: rest =>
      match flush_bucket t b with
      | Some (t1, b') =>
          match update_part_table t1 rest with
          | Some (t2, rest') => Some (t2, b' :: rest')
          | None => None
          end
      | None => None
      end
  end.

(** ** The bytes of a partition table

    The code has no function for this: it uses the structure in place in the buffer
    that is read from and written to the device. In the model a buffer is a list of
    bytes, so an access to the structure in a buffer goes through the layout that
    the compiler gives it: a little-endian 64-bit fingerprint, then the
    bit-fields from the least significant bit on. *)

Definition encode_entry (e : hash_entry_f) : list Z :=
  le_bytes 8 (f_fingerprint e) ++
  le_bytes 8 (f_offset e + 2 ^ 8 * f_kv_size e + 2 ^ 22 * f_pba e).

Definition decode_entry (l : list Z) : hash_entry_f :=
  let v := le_value (take 8 (drop 8 l)) in
  HashEntryF (le_value (take 8 l)) (v mod 2 ^ 8) (v / 2 ^ 8 mod 2 ^ 14) (v / 2 ^ 22 mod 2 ^ 42).

Definition encode_ptable (t : hash_part_table) : list Z := concat (encode_entry <$> t).

Fixpoint decode_entries (n : nat) (l : list Z) : hash_part_table :=
  match n with
  | O => []
  | S n' => decode_entry (take 16 l) :: decode_entries n' (drop 16 l)
  end.

Definition decode_ptable (l : list Z) : hash_part_table :=
  decode_entries (Z.to_nat PART_TABLE_ENTRYS) l.
