(* ===== verification/Bucket.v ===== *)
(** * A bucket is a cache in true least-recently-used order

    The two-bit ages of [BigkvTable] encode the order in which the entries of a
    bucket were last used. A bucket is related to that order as a list; hits,
    insertions and evictions are then moves to the front of it, and the lookups
    of the bucket are those of a finite map. *)

From Stdlib Require Import ZArith Lia.
From stdpp Require Import prelude gmap.
From S2P Require Import Prelude Config BigkvTable.

#[local] Open Scope Z_scope.

(** [l] lists the entries in use, youngest first; the others are as
    [bigkv_index_init] left them. *)
Record bucket_ok (b : hash_bucket) (l : list Z) : Prop := BucketOk {
  bo_len : length b = 4%nat;
  bo_nodup : NoDup l;
  bo_mem : forall i, i ∈ l <-> 0 <= i < Z.of_nat (length l);
  bo_max : (length l <= 4)%nat;
  bo_lru : forall k i, l !! k = Some i -> lru_bit (entry b i) = Z.of_nat k;
  bo_valid : forall i, i ∈ l -> pba (entry b i) <> PBA_INVALID;
  bo_rest : forall i, Z.of_nat (length l) <= i < 4 ->
              lru_bit (entry b i) = 3 /\ pba (entry b i) = PBA_INVALID /\
              fingerprint (entry b i) = 0 /\ dirty_bit (entry b i) = 0;
  bo_fp : forall i j, i ∈ l -> j ∈ l -> fingerprint (entry b i) = fingerprint (entry b j) -> i = j
}.

Lemma init_bucket_ok : bucket_ok init_bucket [].
Proof.
  split.
  - by vm_compute.
  - by apply NoDup_nil.
  - intros i. split; [by intros H%not_elem_of_nil | simpl; lia].
  - simpl. lia.
  - done.
  - by intros i H%not_elem_of_nil.
  - intros i Hi. assert (i = 0 \/ i = 1 \/ i = 2 \/ i = 3) as [-> | [-> | [-> | ->]]] by (simpl in Hi; lia);
      by vm_compute.
  - by intros i j H%not_elem_of_nil.
Qed.

(** ** Using an entry *)

(** [b'] is [b] with [e] at [i] as the youngest entry. *)
Definition renewed (b b' : hash_bucket) (i : Z) (e : hash_entry) : Prop :=
  length b' = 4%nat /\ lru_bit e = 0 /\
  forall j, 0 <= j < 4 -> entry b' j =
    if decide (j = i) then e
    else if lru_bit (entry b j) <? lru_bit (entry b i)
         then with_lru (lru_bit (entry b j) + 1) (entry b j) else entry b j.

Lemma entry_lookup (b : list hash_entry) j e : 0 <= j -> b !! Z.to_nat j = Some e -> entry b j = e.
Proof. intros Hj H. unfold entry. by rewrite (nth_lookup_Some _ _ _ _ H). Qed.

Lemma lookup_entry (b : list hash_entry) j : 0 <= j < Z.of_nat (length b) -> b !! Z.to_nat j = Some (entry b j).
Proof.
  intros Hj. destruct (lookup_lt_is_Some_2 b (Z.to_nat j)) as [e He]; [lia|].
  rewrite He. f_equal. symmetry. apply entry_lookup; [lia | done].
Qed.

Lemma age_entry i o (b : list hash_entry) j :
  0 <= j < Z.of_nat (length b) ->
  entry (age i o b) j =
  if negb (j =? i) && (lru_bit (entry b j) <? o) then with_lru (lru_bit (entry b j) + 1) (entry b j)
  else entry b j.
Proof.
  intros Hj. apply entry_lookup; [lia|]. unfold age. rewrite list_lookup_imap, lookup_entry by done.
  simpl. by rewrite Z2Nat.id by lia.
Qed.

Lemma age_length i o (b : list hash_entry) : length (age i o b) = length b.
Proof. apply length_imap. Qed.

Lemma insert_entry (b : list hash_entry) i j e :
  0 <= i -> 0 <= j < Z.of_nat (length b) ->
  entry (<[Z.to_nat i := e]> b) j = if decide (j = i) then e else entry b j.
Proof.
  intros Hi Hj. apply entry_lookup; [lia|]. rewrite list_lookup_insert.
  repeat case_decide; try lia; [done|]. by apply lookup_entry.
Qed.

(** The two shapes the code has: store then age, and age then store. *)
Lemma renewed_store_age (b : list hash_entry) i e :
  length b = 4%nat -> 0 <= i < 4 -> lru_bit e = 0 ->
  renewed b (age i (lru_bit (entry b i)) (<[Z.to_nat i := e]> b)) i e.
Proof.
  intros Hl Hi He. split; [by rewrite age_length, length_insert|]. split; [done|].
  intros j Hj. rewrite age_entry by (rewrite length_insert; lia).
  rewrite insert_entry by lia. case_decide as Hd.
  - by rewrite (proj2 (Z.eqb_eq j i)).
  - by rewrite (proj2 (Z.eqb_neq j i)).
Qed.

Lemma renewed_touch (b : list hash_entry) i :
  length b = 4%nat -> 0 <= i < 4 -> renewed b (touch i b) i (with_lru 0 (entry b i)).
Proof.
  intros Hl Hi. unfold touch.
  assert (entry (age i (lru_bit (entry b i)) b) i = entry b i) as ->.
  { rewrite age_entry by lia. by rewrite Z.eqb_refl. }
  split; [by rewrite length_insert, age_length|]. split; [done|].
  intros j Hj. rewrite insert_entry by (rewrite ?age_length; lia). case_decide as Hd; [done|].
  rewrite age_entry by lia. by rewrite (proj2 (Z.eqb_neq j i)).
Qed.

(** Ageing touches nothing but the age. *)
Lemma renewed_other b b' i e j :
  renewed b b' i e -> 0 <= j < 4 -> j <> i ->
  fingerprint (entry b' j) = fingerprint (entry b j) /\ pba (entry b' j) = pba (entry b j) /\
  kv_size (entry b' j) = kv_size (entry b j) /\ dirty_bit (entry b' j) = dirty_bit (entry b j).
Proof.
  intros (_ & _ & H) Hj Hne. rewrite H by done. rewrite decide_False by done. by case_match.
Qed.

Lemma renewed_self b b' i e : renewed b b' i e -> 0 <= i < 4 -> entry b' i = e.
Proof. intros (_ & _ & H) Hi. rewrite H by done. by rewrite decide_True. Qed.

Lemma renewed_lru b b' i e j :
  renewed b b' i e -> 0 <= j < 4 -> j <> i -> 0 <= lru_bit (entry b j) -> lru_bit (entry b i) <= 3 ->
  lru_bit (entry b' j) =
  if lru_bit (entry b j) <? lru_bit (entry b i) then lru_bit (entry b j) + 1 else lru_bit (entry b j).
Proof.
  intros (_ & _ & H) Hj Hne H0 H3. rewrite H by done. rewrite decide_False by done.
  case_match; [|done]. reflect_bools. simpl. apply wrap_small. lia.
Qed.

(** ** Moves to the front *)

(** The new entry is in use and is the only one with its fingerprint. *)
Definition fresh_entry (b : hash_bucket) (l : list Z) (i : Z) (e : hash_entry) : Prop :=
  pba e <> PBA_INVALID /\
  forall j, j ∈ l -> j <> i -> fingerprint (entry b j) <> fingerprint e.

Lemma bucket_ok_range b l j : bucket_ok b l -> j ∈ l -> 0 <= j < 4.
Proof. intros H Hj. apply (bo_mem _ _ H) in Hj. pose proof (bo_max _ _ H). lia. Qed.

(** The order decides the ages; the rest of the invariant follows alike for a
    hit and for an insertion. *)
Lemma renewed_ok b b' l l' i e :
  bucket_ok b l -> renewed b b' i e -> 0 <= i < 4 -> fresh_entry b l i e ->
  NoDup l' -> (forall j, j ∈ l' <-> j = i \/ j ∈ l) ->
  (forall j, j ∈ l' <-> 0 <= j < Z.of_nat (length l')) -> (length l' <= 4)%nat ->
  (forall k j, l' !! k = Some j -> lru_bit (entry b' j) = Z.of_nat k) ->
  bucket_ok b' l'.
Proof.
  intros Hok Hre Hi [Hpe Hfe] Hnd Hin Hmem Hmax Hlru.
  assert (forall j, j ∈ l' -> j = i \/ (j <> i /\ j ∈ l /\ 0 <= j < 4)) as Hcase.
  { intros j Hj. apply Hin in Hj as [-> | Hj]; [by left|].
    destruct (decide (j = i)); [by left | right]. split_and!; [done | done | | ]; by eapply bucket_ok_range. }
  split; try done; [apply Hre | | |].
  - intros j Hj. destruct (Hcase j Hj) as [-> | (Hne & Hjl & Hj4)].
    + by rewrite (renewed_self _ _ _ _ Hre).
    + destruct (renewed_other _ _ _ _ j Hre Hj4 Hne) as (_ & -> & _). by apply (bo_valid _ _ Hok).
  - intros j Hj.
    assert (j ∉ l') as Hjn by (rewrite Hmem; lia).
    assert (j <> i /\ j ∉ l) as [Hne Hjl] by (rewrite Hin in Hjn; tauto).
    assert (Z.of_nat (length l) <= j < 4) as Hjr.
    { destruct (decide (j < Z.of_nat (length l))); [|lia].
      destruct Hjl. apply (bo_mem _ _ Hok). lia. }
    destruct (bo_rest _ _ Hok j Hjr) as (R1 & R2 & R3 & R4).
    destruct (renewed_other _ _ _ _ j Hre) as (-> & -> & _ & ->); [lia | done|].
    split_and!; try done. destruct Hre as (_ & _ & H). rewrite H by lia. rewrite decide_False by done.
    case_match; [|done]. reflect_bools.
    assert (lru_bit (entry b i) <= 3); [|lia].
    destruct (decide (i ∈ l)) as [Hil|Hil].
    + apply list_elem_of_lookup_1 in Hil as [k Hk]. rewrite (bo_lru _ _ Hok _ _ Hk).
      apply lookup_lt_Some in Hk. pose proof (bo_max _ _ Hok). lia.
    + destruct (bo_rest _ _ Hok i) as (-> & _); [|lia].
      destruct (decide (i < Z.of_nat (length l))); [|lia]. destruct Hil. apply (bo_mem _ _ Hok). lia.
  - intros j1 j2 H1 H2. destruct (Hcase j1 H1) as [-> | (N1 & L1 & R1)], (Hcase j2 H2) as [-> | (N2 & L2 & R2)].
    + done.
    + rewrite (renewed_self _ _ _ _ Hre) by done.
      destruct (renewed_other _ _ _ _ j2 Hre R2 N2) as (-> & _). intros E. by destruct (Hfe j2 L2 N2).
    + rewrite (renewed_self _ _ _ _ Hre) by done.
      destruct (renewed_other _ _ _ _ j1 Hre R1 N1) as (-> & _). intros E. by destruct (Hfe j1 L1 N1).
    + destruct (renewed_other _ _ _ _ j1 Hre R1 N1) as (-> & _).
      destruct (renewed_other _ _ _ _ j2 Hre R2 N2) as (-> & _). by apply (bo_fp _ _ Hok).
Qed.

(** A hit, an update or an eviction: [i] was in use. *)
Lemma renewed_hit b b' l1 l2 i e :
  bucket_ok b (l1 ++ i :: l2) -> renewed b b' i e -> fresh_entry b (l1 ++ i :: l2) i e ->
  bucket_ok b' (i :: l1 ++ l2).
Proof.
  intros Hok Hre Hfe.
  assert (i ∈ l1 ++ i :: l2) as Hil by (apply elem_of_app; right; by left).
  pose proof (bucket_ok_range _ _ _ Hok Hil) as Hi.
  pose proof (bo_nodup _ _ Hok) as Hnd.
  assert (forall j, j ∈ i :: l1 ++ l2 <-> j = i \/ j ∈ l1 ++ i :: l2) as Hin
    by (intros j; rewrite elem_of_cons, !elem_of_app, elem_of_cons; tauto).
  assert (length (i :: l1 ++ l2) = length (l1 ++ i :: l2)) as Hlen
    by (simpl; rewrite !length_app; simpl; lia).
  assert (lru_bit (entry b i) = Z.of_nat (length l1)) as Hli
    by (apply (bo_lru _ _ Hok); by apply list_lookup_middle).
  assert (length l1 < 4)%nat as Hl1 by (pose proof (bo_max _ _ Hok) as Hm; rewrite length_app in Hm; simpl in Hm; lia).
  apply (renewed_ok b b' _ _ i e Hok Hre Hi Hfe).
  - rewrite <- Permutation_middle in Hnd. done.
  - done.
  - intros j. rewrite Hlen, <- (bo_mem _ _ Hok), Hin. split; [by intros [-> | ?] | by right].
  - rewrite Hlen. apply Hok.
  - intros [|k] j; simpl.
    + intros [= <-]. rewrite (renewed_self _ _ _ _ Hre Hi). by apply Hre.
    + intros Hk. assert (j <> i) as Hne.
      { intros ->. rewrite <- Permutation_middle in Hnd. apply NoDup_cons in Hnd as [Hn _].
        by apply Hn, (list_elem_of_lookup_2 _ k). }
      assert (j ∈ l1 ++ i :: l2) as Hjl.
      { apply list_elem_of_lookup_2 in Hk. rewrite elem_of_app in Hk.
        rewrite elem_of_app, elem_of_cons. tauto. }
      assert (lru_bit (entry b j) = Z.of_nat (if decide (k < length l1)%nat then k else S k)) as Hj.
      { apply (bo_lru _ _ Hok). case_decide.
        - rewrite lookup_app_l in Hk by done. by rewrite lookup_app_l.
        - rewrite lookup_app_r in Hk by lia. rewrite lookup_app_r by lia.
          by replace (S k - length l1)%nat with (S (k - length l1)) by lia. }
      rewrite (renewed_lru _ _ _ _ j Hre (bucket_ok_range _ _ _ Hok Hjl) Hne) by lia.
      rewrite Hj, Hli. repeat case_decide; case_match; reflect_bools; lia.
Qed.

(** A free entry is taken into use: the first one. *)
Lemma renewed_new b b' l e :
  bucket_ok b l -> (length l < 4)%nat -> renewed b b' (Z.of_nat (length l)) e ->
  fresh_entry b l (Z.of_nat (length l)) e ->
  bucket_ok b' (Z.of_nat (length l) :: l).
Proof.
  intros Hok Hl Hre Hfe. set (i := Z.of_nat (length l)) in *.
  assert (0 <= i < 4) as Hi by lia.
  assert (i ∉ l) as Hil by (rewrite (bo_mem _ _ Hok); lia).
  destruct (bo_rest _ _ Hok i) as (Hli & _); [lia|].
  apply (renewed_ok b b' l _ i e Hok Hre Hi Hfe).
  - constructor; [done | apply Hok].
  - intros j. by rewrite elem_of_cons.
  - intros j. rewrite elem_of_cons, (bo_mem _ _ Hok). simpl. lia.
  - simpl. lia.
  - intros [|k] j; simpl.
    + intros [= <-]. rewrite (renewed_self _ _ _ _ Hre Hi). by apply Hre.
    + intros Hk. pose proof (list_elem_of_lookup_2 _ _ _ Hk) as Hjl.
      assert (j <> i) as Hne by (intros ->; done).
      pose proof (bo_lru _ _ Hok _ _ Hk) as Hj. apply lookup_lt_Some in Hk.
      rewrite (renewed_lru _ _ _ _ j Hre (bucket_ok_range _ _ _ Hok Hjl) Hne) by lia.
      rewrite Hj, Hli. case_match; reflect_bools; lia.
Qed.

(** ** Searches *)

Definition absent (b : hash_bucket) (l : list Z) (fp : Z) : Prop :=
  forall j, j ∈ l -> fingerprint (entry b j) <> fp.

Lemma get_match_entry_spec b l fp :
  bucket_ok b l ->
  match get_match_entry b fp with
  | Some i => i ∈ l /\ fingerprint (entry b i) = fp
  | None => absent b l fp
  end.
Proof.
  intros Hok. unfold get_match_entry. destruct (for_first _ _ _) as [i|] eqn:E.
  - apply for_first_Some in E as (Hi & Hp & _). change (Z.of_nat (Z.to_nat NR_SET)) with 4 in Hi.
    reflect_bools. split; [|done]. apply (bo_mem _ _ Hok).
    destruct (decide (i < Z.of_nat (length l))); [lia|].
    destruct (bo_rest _ _ Hok i) as (_ & Hinv & _); [lia | done].
  - intros j Hj Hf. pose proof (bucket_ok_range _ _ _ Hok Hj).
    apply for_first_None with (k := j) in E; [|change (Z.of_nat (Z.to_nat NR_SET)) with 4; lia].
    rewrite (proj2 (Z.eqb_neq _ _) (bo_valid _ _ Hok j Hj)), (proj2 (Z.eqb_eq _ _) Hf) in E. done.
Qed.

(** At most one entry matches, so the answer is unique. *)
Lemma get_match_entry_Some b l fp i :
  bucket_ok b l -> i ∈ l -> fingerprint (entry b i) = fp -> get_match_entry b fp = Some i.
Proof.
  intros Hok Hi Hf. pose proof (get_match_entry_spec b l fp Hok) as H.
  destruct (get_match_entry b fp) as [j|]; [|by destruct (H i)].
  destruct H as [Hj Hfj]. f_equal. apply (bo_fp _ _ Hok); congruence.
Qed.

Lemma get_match_entry_None b l fp : bucket_ok b l -> absent b l fp -> get_match_entry b fp = None.
Proof.
  intros Hok Hab. pose proof (get_match_entry_spec b l fp Hok) as H.
  destruct (get_match_entry b fp) as [j|]; [|done]. destruct H as [Hj Hfj]. by destruct (Hab j).
Qed.

(** The entry an insertion gets: the one of the same fingerprint, else the first
    free one, else the least recently used one if it is clean. *)
Inductive target (b : hash_bucket) (l : list Z) (fp : Z) : option Z -> Prop :=
| TargetSame i : i ∈ l -> fingerprint (entry b i) = fp -> target b l fp (Some i)
| TargetFree : absent b l fp -> (length l < 4)%nat -> target b l fp (Some (Z.of_nat (length l)))
| TargetOldest l1 i : absent b l fp -> l = l1 ++ [i] -> length l = 4%nat ->
    dirty_bit (entry b i) = 0 -> target b l fp (Some i)
| TargetDirty l1 i : absent b l fp -> l = l1 ++ [i] -> length l = 4%nat ->
    dirty_bit (entry b i) <> 0 -> target b l fp None.

(** The first cell with the fingerprint is the key's, or the first free one. *)
Lemma target_by_fingerprint b l fp i :
  bucket_ok b l -> for_first 0 4 (fun i => fingerprint (entry b i) =? fp) = Some i -> target b l fp (Some i).
Proof.
  intros Hok (Hi & Hp & Hk)%for_first_Some. pose proof (bo_max _ _ Hok) as Hmax. reflect_bools.
  destruct (decide (i < Z.of_nat (length l))) as [Hlt|Hge].
  { apply TargetSame; [apply (bo_mem _ _ Hok); lia | done]. }
  destruct (bo_rest _ _ Hok i) as (_ & _ & Hf0 & _); [lia|].
  assert (i = Z.of_nat (length l)) as ->.
  { destruct (decide (i = Z.of_nat (length l))) as [|Hne]; [done|].
    destruct (bo_rest _ _ Hok (Z.of_nat (length l))) as (_ & _ & Hf1 & _); [lia|].
    assert ((fingerprint (entry b (Z.of_nat (length l))) =? fp) = false) as Hno by (apply Hk; lia).
    reflect_bools. congruence. }
  apply TargetFree; [|lia]. intros j Hj. apply (bo_mem _ _ Hok) in Hj.
  apply Z.eqb_neq. apply Hk. lia.
Qed.

Lemma get_target_entry_spec b l fp :
  bucket_ok b l -> target b l fp (get_target_entry b fp).
Proof.
  intros Hok. pose proof (bo_max _ _ Hok) as Hmax. unfold get_target_entry.
  change (Z.to_nat NR_SET) with 4%nat.
  destruct (for_first _ _ (fun i => fingerprint _ =? _)) as [i|] eqn:E1.
  { by apply target_by_fingerprint. }
  assert (absent b l fp) as Hab.
  { intros j Hj. apply Z.eqb_neq. apply for_first_None with (k := j) in E1; [done|].
    pose proof (bucket_ok_range _ _ _ Hok Hj). lia. }
  destruct (for_first _ _ (fun i => pba _ =? _)) as [i|] eqn:E2.
  { apply for_first_Some in E2 as (Hi & Hp & Hk). reflect_bools.
    assert (Z.of_nat (length l) <= i) as Hge.
    { destruct (decide (i < Z.of_nat (length l))); [|lia].
      by destruct (bo_valid _ _ Hok i); [apply (bo_mem _ _ Hok); lia|]. }
    assert (i = Z.of_nat (length l)) as ->; [|apply TargetFree; [done | lia]].
    destruct (decide (i = Z.of_nat (length l))) as [|Hne]; [done|].
    destruct (bo_rest _ _ Hok (Z.of_nat (length l))) as (_ & Hinv & _); [lia|].
    assert ((pba (entry b (Z.of_nat (length l))) =? PBA_INVALID) = false) as Hno by (apply Hk; lia).
    by reflect_bools. }
  assert (length l = 4%nat) as Hfull.
  { destruct (decide (length l = 4%nat)) as [|Hne]; [done|].
    destruct (bo_rest _ _ Hok (Z.of_nat (length l))) as (_ & Hinv & _); [lia|].
    apply for_first_None with (k := Z.of_nat (length l)) in E2; [|lia]. by reflect_bools. }
  destruct (lookup_lt_is_Some_2 l 3) as [j Hj]; [lia|].
  assert (l = take 3 l ++ [j]) as Hlast.
  { rewrite <- (take_drop 3 l) at 1. f_equal. rewrite (drop_S _ _ _ Hj). by rewrite drop_ge by lia. }
  pose proof (bo_lru _ _ Hok _ _ Hj) as Hlj. pose proof (list_elem_of_lookup_2 _ _ _ Hj) as Hjl.
  pose proof (bucket_ok_range _ _ _ Hok Hjl) as Hj4.
  destruct (for_first _ _ (fun i => lru_bit _ =? _)) as [i|] eqn:E3.
  - apply for_first_Some in E3 as (Hi & Hp & _). reflect_bools.
    assert (i = j) as ->.
    { assert (i ∈ l) as [k Hk]%list_elem_of_lookup_1 by (apply (bo_mem _ _ Hok); lia).
      rewrite (bo_lru _ _ Hok _ _ Hk) in Hp. assert (k = 3%nat) as -> by lia. congruence. }
    destruct (dirty_bit (entry b j) =? 0) eqn:Ed; reflect_bools.
    + by eapply TargetOldest.
    + by eapply TargetDirty.
  - apply for_first_None with (k := j) in E3; [|lia]. reflect_bools. lia.
Qed.

Lemma target_range b l fp i : bucket_ok b l -> get_target_entry b fp = Some i -> 0 <= i < 4.
Proof.
  intros Hok Ht. pose proof (get_target_entry_spec b l fp Hok) as Hs. rewrite Ht in Hs.
  inversion Hs; subst; [by eapply bucket_ok_range | lia |].
  eapply bucket_ok_range; [exact Hok|]. apply elem_of_app. right. by left.
Qed.

(** ** Properties *)

(** What the bucket answers for a fingerprint: the size and the block. *)
Definition cached (b : hash_bucket) (fp : Z) : option (Z * Z) :=
  match get_match_entry b fp with
  | Some i => Some (kv_size (entry b i), pba (entry b i))
  | None => None
  end.

(** The fingerprint an insertion of [fp] at [i] evicts, if any. *)
Definition evicts (b : hash_bucket) (fp i fp' : Z) : Prop :=
  pba (entry b i) <> PBA_INVALID /\ fingerprint (entry b i) = fp' /\ fp' <> fp.

Lemma cached_renewed b b' l l' i e fp' :
  bucket_ok b l -> bucket_ok b' l' -> renewed b b' i e -> 0 <= i < 4 ->
  (forall j, j ∈ l' <-> j = i \/ j ∈ l) ->
  cached b' fp' =
  if decide (fp' = fingerprint e) then Some (kv_size e, pba e)
  else if decide (pba (entry b i) <> PBA_INVALID /\ fingerprint (entry b i) = fp') then None
  else cached b fp'.
Proof.
  intros Hok Hok' Hre Hi Hin. pose proof (renewed_self _ _ _ _ Hre Hi) as Hself. unfold cached.
  destruct (decide (fp' = fingerprint e)) as [-> | Hfe].
  { rewrite (get_match_entry_Some b' l' _ i Hok'); [by rewrite Hself | apply Hin; by left | by rewrite Hself]. }
  pose proof (get_match_entry_spec b l fp' Hok) as Hb.
  assert (forall j, j ∈ l -> j <> i -> fingerprint (entry b' j) = fingerprint (entry b j) /\
            kv_size (entry b' j) = kv_size (entry b j) /\ pba (entry b' j) = pba (entry b j)) as Hsame.
  { intros j Hj Hne. destruct (renewed_other _ _ _ _ j Hre (bucket_ok_range _ _ _ Hok Hj) Hne) as (? & ? & ? & _).
    by split_and!. }
  destruct (decide _) as [[Hv Hf] | Hnot].
  - rewrite (get_match_entry_None b' l'); [done | done |]. intros j [-> | Hj]%Hin; [by rewrite Hself|].
    destruct (decide (j = i)) as [-> | Hne]; [by rewrite Hself|].
    destruct (Hsame j Hj Hne) as (-> & _). intros Hfj. apply Hne, (bo_fp _ _ Hok); [done | | congruence].
    destruct (decide (i < Z.of_nat (length l))); [apply (bo_mem _ _ Hok); lia|].
    destruct (bo_rest _ _ Hok i) as (_ & Hinv & _); [lia | done].
  - destruct (get_match_entry b fp') as [j|].
    + destruct Hb as [Hj Hfj].
      assert (j <> i) as Hne by (intros ->; apply Hnot; split; [by apply (bo_valid _ _ Hok) | done]).
      destruct (Hsame j Hj Hne) as (H1 & H2 & H3).
      rewrite (get_match_entry_Some b' l' fp' j Hok'); [by rewrite H2, H3 | apply Hin; by right | congruence].
    + rewrite (get_match_entry_None b' l'); [done | done |]. intros j [-> | Hj]%Hin; [by rewrite Hself|].
      destruct (decide (j = i)) as [-> | Hne]; [by rewrite Hself|].
      destruct (Hsame j Hj Hne) as (-> & _). by apply Hb.
Qed.

(** The order of use after [i] was used: [i] in front, the others as they were. *)
Definition promote (i : Z) (l : list Z) : list Z := i :: filter (fun j => j <> i) l.

Lemma filter_ne_notin (i : Z) (l : list Z) : i ∉ l -> filter (fun j => j <> i) l = l.
Proof.
  induction l as [|x l IH]; intros Hi; [done|]. apply not_elem_of_cons in Hi as [Hx Hi].
  rewrite filter_cons, decide_True by congruence. by rewrite IH.
Qed.

Lemma promote_middle l1 l2 i : NoDup (l1 ++ i :: l2) -> promote i (l1 ++ i :: l2) = i :: l1 ++ l2.
Proof.
  intros Hnd. rewrite <- Permutation_middle in Hnd. apply NoDup_cons in Hnd as [Hi _]. apply not_elem_of_app in Hi as [H1 H2].
  unfold promote. rewrite filter_app, filter_cons, decide_False by (intros Hx; by apply Hx).
  by rewrite !filter_ne_notin.
Qed.

(** Storing an entry for [fp] in the place [get_target_entry] gives. *)
Lemma insert_renewed b b' l fp i e :
  bucket_ok b l -> get_target_entry b fp = Some i ->
  (0 <= i < 4 -> renewed b b' i e) -> fingerprint e = fp -> pba e <> PBA_INVALID ->
  bucket_ok b' (promote i l) /\ 0 <= i < 4 /\
    (forall fp', cached b' fp' =
       if decide (fp' = fp) then Some (kv_size e, pba e)
       else if decide (pba (entry b i) <> PBA_INVALID /\ fingerprint (entry b i) = fp') then None
       else cached b fp') /\
    (forall fp', evicts b fp i fp' -> dirty_bit (entry b i) = 0 /\ length l = 4%nat /\ last l = Some i).
Proof.
  intros Hok Ht Hre0 Hfe Hpe. pose proof (target_range b l fp i Hok Ht) as Hi.
  pose proof (get_target_entry_spec b l fp Hok) as Hs. rewrite Ht in Hs.
  pose proof (Hre0 Hi) as Hre. clear Hre0. pose proof (bo_nodup _ _ Hok) as Hnd.
  inversion Hs as [i0 Hil Hf | Hab Hlt | l1 i0 Hab Hl1 Hfull Hd |]; subst.
  - assert (Hil2 := Hil). apply list_elem_of_split in Hil2 as (l1 & l2 & ->).
    assert (fresh_entry b (l1 ++ i :: l2) i e) as Hfr.
    { split; [done|]. intros j Hj Hne Hfj. apply Hne, (bo_fp _ _ Hok); congruence. }
    pose proof (renewed_hit _ _ _ _ _ _ Hok Hre Hfr) as Hok'. rewrite promote_middle by done.
    split_and!; [done | lia | lia | |].
    + intros fp'. eapply cached_renewed; try done.
      intros j. rewrite elem_of_cons, !elem_of_app, elem_of_cons. tauto.
    + intros fp' (_ & Hx & Hne). congruence.
  - assert (fresh_entry b l (Z.of_nat (length l)) e) as Hfr by (split; [done | by intros j Hj _; apply Hab]).
    pose proof (renewed_new _ _ _ _ Hok Hlt Hre Hfr) as Hok'. unfold promote.
    rewrite filter_ne_notin by (rewrite (bo_mem _ _ Hok); lia).
    split_and!; [done | lia | lia | |].
    + intros fp'. eapply cached_renewed; try done. intros j. by rewrite elem_of_cons.
    + intros fp' (Hv & _). destruct (bo_rest _ _ Hok (Z.of_nat (length l))) as (_ & Hinv & _); [lia | done].
  - assert (fresh_entry b (l1 ++ [i]) i e) as Hfr by (split; [done | by intros j Hj _; apply Hab]).
    pose proof (renewed_hit _ _ _ _ _ _ Hok Hre Hfr) as Hok'. rewrite promote_middle by done.
    split_and!; [done | lia | lia | |].
    + intros fp'. eapply cached_renewed; try done.
      intros j. rewrite elem_of_cons, !elem_of_app, elem_of_cons, elem_of_nil. tauto.
    + intros fp' _. by rewrite last_snoc.
Qed.

(** A hit keeps the invariant and its entry. *)
Lemma touch_ok b l i :
  bucket_ok b l -> i ∈ l ->
  exists l1 l2, l = l1 ++ i :: l2 /\ bucket_ok (touch i b) (i :: l1 ++ l2) /\
    renewed b (touch i b) i (with_lru 0 (entry b i)).
Proof.
  intros Hok Hi. pose proof (bucket_ok_range _ _ _ Hok Hi) as Hi4.
  apply list_elem_of_split in Hi as (l1 & l2 & ->). exists l1, l2. split; [done|].
  pose proof (renewed_touch b i (bo_len _ _ Hok) Hi4) as Hre. split; [|done].
  eapply renewed_hit; [done | done |]. split.
  - apply (bo_valid _ _ Hok). apply elem_of_app. right. by left.
  - intros j Hj Hne Hfj. apply Hne, (bo_fp _ _ Hok); [done | | done]. apply elem_of_app. right. by left.
Qed.

(** Replacement is least-recently-used, and only loses what is on the
    device. An insertion takes over the entry of the same fingerprint if there
    is one, else a free entry, else the one used longest ago; it is refused
    exactly when that one has not been written to the partition table yet. *)
Theorem get_target_entry_is_lru (b : hash_bucket) (l : list Z) (fp : Z) :
  bucket_ok b l ->
  match get_target_entry b fp with
  | Some i =>
      (i ∈ l /\ fingerprint (entry b i) = fp) \/
      (absent b l fp /\ i = Z.of_nat (length l) /\ (length l < 4)%nat) \/
      (absent b l fp /\ length l = 4%nat /\ last l = Some i /\ dirty_bit (entry b i) = 0)
  | None =>
      absent b l fp /\ length l = 4%nat /\ exists i, last l = Some i /\ dirty_bit (entry b i) <> 0
  end.
Proof.
  intros Hok. destruct (get_target_entry_spec b l fp Hok) as [i Hi Hf | Hab Hl | l1 i Hab -> Hl Hd | l1 i Hab -> Hl Hd].
  - by left.
  - right. left. by split_and!.
  - right. right. by rewrite last_snoc.
  - split_and!; [done | done |]. exists i. by rewrite last_snoc.
Qed.

(** C8: to its lookups a bucket is a finite map, kept in the order of last use.
    When a SET of [fp] gets an entry, the bucket answers the new block for [fp],
    nothing for the fingerprint evicted, if one was, and what it answered before
    for all others; the order of use is the one before with the entry moved to
    the front; and what was evicted is the entry used longest ago of a full
    bucket, and is clean. When it gets none, the bucket is full, does not have [fp],
    and the entry used longest ago is dirty. *)
Theorem bucket_set_refines_map (b : hash_bucket) (l : list Z) (fp size p : Z) :
  bucket_ok b l -> 0 <= size < 2 ^ 14 -> 0 <= p < PBA_INVALID ->
  match get_target_entry b fp with
  | Some i =>
      bucket_ok (fill_from_set i fp size p b) (promote i l) /\
      (forall fp', cached (fill_from_set i fp size p b) fp' =
         if decide (fp' = fp) then Some (size, p)
         else if decide (pba (entry b i) <> PBA_INVALID /\ fingerprint (entry b i) = fp') then None
         else cached b fp') /\
      (forall fp', evicts b fp i fp' -> dirty_bit (entry b i) = 0 /\ length l = 4%nat /\ last l = Some i)
  | None => cached b fp = None /\ length l = 4%nat /\ exists i, last l = Some i /\ dirty_bit (entry b i) <> 0
  end.
Proof.
  intros Hok Hsz Hp. unfold PBA_INVALID in Hp. destruct (get_target_entry b fp) as [i|] eqn:Ht.
  - destruct (insert_renewed b (fill_from_set i fp size p b) l fp i
                (HashEntry fp (reserve (entry b i)) 1 0 (wrap 14 size) (wrap 42 p)) Hok Ht)
      as (H1 & _ & H2 & H3); simpl.
    + intros Hi. by apply renewed_store_age; [apply Hok | |].
    + done.
    + rewrite wrap_small by lia. unfold PBA_INVALID. lia.
    + split_and!; [done | | done]. intros fp'. rewrite H2. simpl. by rewrite !wrap_small by lia.
  - pose proof (get_target_entry_spec b l fp Hok) as Hs. rewrite Ht in Hs.
    inversion Hs as [| | | l1 i Hab -> Hl Hd]. split_and!; [|done | exists i; by rewrite last_snoc].
    unfold cached. by rewrite (get_match_entry_None b (l1 ++ [i])).
Qed.

(** A hit changes no answer; it only makes its entry the youngest. *)
Theorem bucket_hit_only_reorders (b : hash_bucket) (l : list Z) (fp i : Z) :
  bucket_ok b l -> get_match_entry b fp = Some i ->
  exists l1 l2, l = l1 ++ i :: l2 /\ bucket_ok (touch i b) (i :: l1 ++ l2) /\
    forall fp', cached (touch i b) fp' = cached b fp'.
Proof.
  intros Hok Hm. pose proof (get_match_entry_spec b l fp Hok) as H. rewrite Hm in H. destruct H as [Hil Hf].
  pose proof (bucket_ok_range _ _ _ Hok Hil) as Hi4.
  destruct (touch_ok b l i Hok Hil) as (l1 & l2 & -> & Hok' & Hre).
  exists l1, l2. split; [done|]. split; [done|]. intros fp'.
  erewrite (cached_renewed b _ _ _ i _ fp' Hok Hok' Hre Hi4)
    by (intros j; rewrite elem_of_cons, !elem_of_app, elem_of_cons; tauto).
  simpl. destruct (decide (fp' = fingerprint (entry b i))) as [-> | Hne].
  - unfold cached. by rewrite (get_match_entry_Some b _ _ i Hok Hil).
  - rewrite decide_False; [done|]. intros [_ E]. congruence.
Qed.

(** A bucket filled by four SETs of the fingerprints 11 to 14, the first of them
    flushed since. *)
Definition set_fp (fp : Z) (b : hash_bucket) : hash_bucket :=
  match get_target_entry b fp with Some i => fill_from_set i fp 2 (fp * 10) b | None => b end.

Definition busy_bucket : hash_bucket :=
  let b := set_fp 14 (set_fp 13 (set_fp 12 (set_fp 11 init_bucket))) in
  <[0%nat := with_dirty 0 (entry b 0)]> b.

Lemma busy_bucket_ok : bucket_ok busy_bucket [3; 2; 1; 0].
Proof.
  split.
  - by vm_compute.
  - by apply (bool_decide_unpack _).
  - intros i. rewrite !elem_of_cons, elem_of_nil. simpl. lia.
  - simpl. lia.
  - intros [|[|[|[|k]]]] i; simpl; try done; intros [= <-]; by vm_compute.
  - intros i. rewrite !elem_of_cons, elem_of_nil. intros [-> | [-> | [-> | [-> | []]]]]; by vm_compute.
  - intros i Hi. simpl in Hi. lia.
  - intros i j. rewrite !elem_of_cons, !elem_of_nil.
    intros [-> | [-> | [-> | [-> | []]]]] [-> | [-> | [-> | [-> | []]]]]; done.
Qed.

Lemma get_target_entry_is_lru_witness :
  get_target_entry busy_bucket 15 = Some 0 /\ dirty_bit (entry busy_bucket 0) = 0.
Proof.
  pose proof (get_target_entry_is_lru busy_bucket [3; 2; 1; 0] 15 busy_bucket_ok) as H.
  assert (get_target_entry busy_bucket 15 = Some 0) as E by by vm_compute.
  rewrite E in H. split; [done|]. destruct H as [[_ H] | [(_ & _ & H) | (_ & _ & _ & H)]].
  - by vm_compute in H.
  - simpl in H. lia.
  - exact H.
Defined.

Lemma bucket_set_refines_map_witness :
  get_target_entry busy_bucket 15 = Some 0 /\
  bucket_ok (fill_from_set 0 15 3 150 busy_bucket) [0; 3; 2; 1] /\
  cached (fill_from_set 0 15 3 150 busy_bucket) 15 = Some (3, 150) /\
  cached (fill_from_set 0 15 3 150 busy_bucket) 11 = None /\
  cached (fill_from_set 0 15 3 150 busy_bucket) 13 = Some (2, 130).
Proof.
  assert (get_target_entry busy_bucket 15 = Some 0) as E by by vm_compute.
  pose proof (bucket_set_refines_map busy_bucket [3; 2; 1; 0] 15 3 150 busy_bucket_ok) as H.
  rewrite E in H. destruct H as (Hok & H & _); [lia | unfold PBA_INVALID; lia |].
  split; [done|]. split; [exact Hok|]. split_and!; rewrite H; by vm_compute.
Defined.

Lemma bucket_hit_only_reorders_witness :
  bucket_ok (touch 1 busy_bucket) [1; 3; 2; 0] /\ cached (touch 1 busy_bucket) 11 = Some (2, 110).
Proof.
  destruct (bucket_hit_only_reorders busy_bucket [3; 2; 1; 0] 12 1 busy_bucket_ok)
    as (l1 & l2 & Hl & Hok & H); [by vm_compute|].
  split; [|rewrite H; by vm_compute].
  destruct l1 as [|a1 [|a2 [|a3 [|a4 l1]]]]; simpl in Hl; try discriminate Hl.
  - injection Hl as -> -> <-. exact Hok.
  - exfalso. injection Hl as _ _ _ _ Hl. by destruct l1.
Defined.
