(* ===== verification/PartTable.v ===== *)
(** * Partition tables: bytes, probing and flushing

    The theorems on the table of a partition in [BigkvTable]: a buffer holds the
    table that was written to it, an entry inserted is the one a probe finds,
    and a flush of the four buckets loses none of the dirty entries. *)

From Stdlib Require Import ZArith Lia List.
From stdpp Require Import prelude gmap.
From S2P Require Import Prelude Config Bytes BigkvTable Bucket.

#[local] Open Scope Z_scope.

(** ** Bytes *)

Record entry_f_ok (e : hash_entry_f) : Prop := EntryFOk {
  ef_fp : 0 <= f_fingerprint e < 2 ^ 64;
  ef_off : 0 <= f_offset e < 2 ^ 8;
  ef_size : 0 <= f_kv_size e < 2 ^ 14;
  ef_pba : 0 <= f_pba e < 2 ^ 42
}.

Definition ptable_ok (t : hash_part_table) : Prop :=
  length t = Z.to_nat PART_TABLE_ENTRYS /\ Forall entry_f_ok t.

Lemma encode_entry_length e : length (encode_entry e) = 16%nat.
Proof. unfold encode_entry. by rewrite length_app, !le_bytes_length. Qed.

Lemma decode_encode_entry e : entry_f_ok e -> decode_entry (encode_entry e) = e.
Proof.
  intros [H1 H2 H3 H4]. unfold decode_entry, encode_entry.
  rewrite take_app_length', drop_app_length' by by rewrite le_bytes_length.
  rewrite take_ge by by rewrite le_bytes_length.
  rewrite !le_value_bytes by (change (256 ^ Z.of_nat 8) with (2 ^ 64); lia).
  destruct e as [fp o k p]; simpl in *. f_equal; Z.div_mod_to_equations; lia.
Qed.

Lemma decode_entries_encode t :
  Forall entry_f_ok t -> decode_entries (length t) (encode_ptable t) = t.
Proof.
  induction 1 as [|e t He Ht IH]; cbn [length decode_entries]; [done|].
  unfold encode_ptable. rewrite fmap_cons. cbn [concat].
  rewrite take_app_length', drop_app_length' by by rewrite encode_entry_length.
  fold (encode_ptable t). by rewrite decode_encode_entry, IH by done.
Qed.

Lemma encode_ptable_length t : length (encode_ptable t) = (16 * length t)%nat.
Proof.
  unfold encode_ptable. induction t as [|e t IH]; [done|]. rewrite fmap_cons. cbn [concat length].
  rewrite length_app, encode_entry_length. lia.
Qed.

Lemma decode_encode_ptable t : ptable_ok t -> decode_ptable (encode_ptable t) = t.
Proof. intros [Hl Ht]. unfold decode_ptable. rewrite <- Hl. by apply decode_entries_encode. Qed.

Lemma encode_ptable_size t :
  length t = Z.to_nat PART_TABLE_ENTRYS -> Z.of_nat (length (encode_ptable t)) = PART_TABLE_SIZE.
Proof. intros Hl. rewrite encode_ptable_length, Hl. by vm_compute. Qed.

(** ** Probing *)

(** A table of 1024 entries in which the cells never written have fingerprint
    0, as [memset] leaves them. *)
Definition probe_ok (t : hash_part_table) : Prop :=
  length t = Z.to_nat PART_TABLE_ENTRYS /\
  forall i, 0 <= i < PART_TABLE_ENTRYS -> f_pba (entry_f t i) = PBA_INVALID ->
    f_fingerprint (entry_f t i) = 0.

Lemma init_ptable_ok : probe_ok init_ptable.
Proof.
  split; [by vm_compute|]. intros i Hi _. unfold entry_f, init_ptable.
  rewrite (nth_lookup_Some _ _ _ (HashEntryF 0 0 0 PBA_INVALID)); [done|].
  apply lookup_replicate. split; [done | lia].
Qed.

Lemma init_ptable_entries_ok : ptable_ok init_ptable.
Proof.
  split; [by vm_compute|]. apply Forall_replicate. split; simpl; unfold PBA_INVALID; lia.
Qed.

Lemma probe_bounds fp i : 0 <= probe fp i < PART_TABLE_ENTRYS.
Proof. by apply Z.mod_pos_bound. Qed.

Lemma probe_inj fp i j : 0 <= i < MAX_HOP -> 0 <= j < MAX_HOP -> probe fp i = probe fp j -> i = j.
Proof.
  intros Hi Hj H. unfold probe in H. change PART_TABLE_ENTRYS with 1024 in H.
  change MAX_HOP with 256 in *. apply mod_add_inj in H; lia.
Qed.

Lemma entry_f_insert (t : list hash_entry_f) c e j :
  0 <= c -> 0 <= j < Z.of_nat (length t) ->
  entry_f (<[Z.to_nat c := e]> t) j = if decide (j = c) then e else entry_f t j.
Proof.
  intros Hc Hj. unfold entry_f. apply nth_lookup_Some.
  rewrite list_lookup_insert. repeat case_decide; try lia; [done|].
  destruct (lookup_lt_is_Some_2 t (Z.to_nat j)) as [x Hx]; [lia|].
  rewrite Hx. f_equal. symmetry. by apply nth_lookup_Some.
Qed.

(** What is stored for an entry of a bucket. *)
Definition packed (off : Z) (e : hash_entry) : hash_entry_f :=
  HashEntryF (fingerprint e) (wrap 8 off) (wrap 14 (kv_size e)) (wrap 42 (pba e)).

(** Whether a probe for [fp] finds the size and the block of [e]. *)
Definition holds (t : hash_part_table) (e : hash_entry) : Prop :=
  exists off, get_match_entry_f t (fingerprint e) = Some (packed off e).

Lemma get_match_entry_f_Some t fp i :
  0 <= i < MAX_HOP -> f_fingerprint (entry_f t (probe fp i)) = fp ->
  (forall k, 0 <= k < i -> f_fingerprint (entry_f t (probe fp k)) <> fp) ->
  get_match_entry_f t fp = Some (entry_f t (probe fp i)).
Proof.
  intros Hi Hf Hk. unfold get_match_entry_f.
  rewrite (proj2 (for_first_Some 0 (Z.to_nat MAX_HOP) _ i)); [done|].
  split_and!; [lia | change (Z.of_nat (Z.to_nat MAX_HOP)) with MAX_HOP; lia | by apply Z.eqb_eq |].
  intros k Hk2. apply Z.eqb_neq. by apply Hk.
Qed.

Lemma get_match_entry_f_fp t fp ef : get_match_entry_f t fp = Some ef -> f_fingerprint ef = fp.
Proof.
  unfold get_match_entry_f. destruct (for_first _ _ _) as [i|] eqn:E; [|done]. intros [= <-].
  apply for_first_Some in E as (_ & Hp & _). by reflect_bools.
Qed.

Lemma insert_to_ptable_inv t e t' :
  insert_to_ptable t e = Some t' ->
  exists i, 0 <= i < MAX_HOP /\ t' = <[Z.to_nat (probe (fingerprint e) i) := packed i e]> t /\
    (f_pba (entry_f t (probe (fingerprint e) i)) = PBA_INVALID \/
     f_fingerprint (entry_f t (probe (fingerprint e) i)) = fingerprint e) /\
    forall k, 0 <= k < i -> f_fingerprint (entry_f t (probe (fingerprint e) k)) <> fingerprint e.
Proof.
  unfold insert_to_ptable. destruct (for_first _ _ _) as [i|] eqn:E; [|done]. intros [= <-].
  apply for_first_Some in E as (Hi & Hp & Hk). exists i.
  change (Z.of_nat (Z.to_nat MAX_HOP)) with MAX_HOP in Hi.
  split_and!; [lia | lia | done | |].
  - apply orb_true_iff in Hp as [Hp | Hp]; reflect_bools; auto.
  - intros k Hk2. specialize (Hk k Hk2). simpl in Hk. reflect_bools. done.
Qed.

Lemma insert_to_ptable_ok t e t' :
  probe_ok t -> 0 <= pba e < PBA_INVALID -> insert_to_ptable t e = Some t' -> probe_ok t'.
Proof.
  intros [Hl Hinv] Hp (i & Hi & -> & _ & _)%insert_to_ptable_inv.
  split; [by rewrite length_insert|]. intros j Hr Hj.
  pose proof (probe_bounds (fingerprint e) i). rewrite entry_f_insert in * by lia.
  case_decide; [|by apply Hinv]. simpl in Hj. unfold PBA_INVALID in *. rewrite wrap_small in Hj by lia. lia.
Qed.

(** The entry inserted is the one a probe finds. *)
Lemma insert_then_get t e t' :
  probe_ok t -> insert_to_ptable t e = Some t' -> holds t' e.
Proof.
  intros [Hl Hinv] (i & Hi & -> & _ & Hk)%insert_to_ptable_inv. exists i.
  pose proof (probe_bounds (fingerprint e) i) as Hb.
  assert (forall k, 0 <= k < MAX_HOP ->
            entry_f (<[Z.to_nat (probe (fingerprint e) i) := packed i e]> t) (probe (fingerprint e) k) =
            if decide (k = i) then packed i e else entry_f t (probe (fingerprint e) k)) as He.
  { intros k Hk2. pose proof (probe_bounds (fingerprint e) k). rewrite entry_f_insert by lia.
    destruct (decide (k = i)) as [-> | Hne]; [by rewrite decide_True|].
    rewrite decide_False; [done|]. intros E. by apply Hne, (probe_inj (fingerprint e)). }
  rewrite (get_match_entry_f_Some _ _ i Hi).
  - rewrite He by done. by rewrite decide_True.
  - rewrite He by done. by rewrite decide_True.
  - intros k Hk2. rewrite He by lia. rewrite decide_False by lia. by apply Hk.
Qed.

(** Other fingerprints are found as before; 0 is the one the free cells have. *)
Lemma insert_get_other t e t' fp' :
  probe_ok t -> insert_to_ptable t e = Some t' -> fp' <> fingerprint e -> fp' <> 0 ->
  get_match_entry_f t' fp' = get_match_entry_f t fp'.
Proof.
  intros [Hl Hinv] (i & Hi & -> & Hcell & _)%insert_to_ptable_inv Hne H0.
  set (c := probe (fingerprint e) i) in *.
  assert (0 <= c < PART_TABLE_ENTRYS) as Hc by apply probe_bounds.
  assert (f_fingerprint (entry_f t c) <> fp') as Hold.
  { destruct Hcell as [Hp | ->]; [|done]. rewrite Hinv by done. done. }
  assert (forall k, entry_f (<[Z.to_nat c := packed i e]> t) (probe fp' k) =
            if decide (probe fp' k = c) then packed i e else entry_f t (probe fp' k)) as He.
  { intros k. pose proof (probe_bounds fp' k). by rewrite entry_f_insert by lia. }
  unfold get_match_entry_f.
  rewrite (for_first_ext 0 _ _ (fun k => f_fingerprint (entry_f t (probe fp' k)) =? fp')).
  - destruct (for_first _ _ _) as [k|] eqn:E; [|done]. apply for_first_Some in E as (_ & Hk & _).
    reflect_bools. rewrite He. rewrite decide_False; [done|]. intros E. by rewrite E in Hk.
  - intros k _. rewrite He. case_decide as E; [|done]. rewrite E. simpl.
    rewrite (proj2 (Z.eqb_neq _ _)) by done. by rewrite (proj2 (Z.eqb_neq _ _)).
Qed.

(** C13: probing finds what was inserted. After [insert_to_ptable] the table
    answers the entry's size and block for its fingerprint, and what it answered
    before for every other fingerprint but 0. The empty cells have fingerprint
    0 and the lookup does not look at their block, so that 0 may match any cell
    that is free, before and after. *)
Theorem ptable_insert_lookup (t : hash_part_table) (e : hash_entry) (t' : hash_part_table) :
  probe_ok t -> 0 <= pba e < PBA_INVALID -> insert_to_ptable t e = Some t' ->
  probe_ok t' /\ holds t' e /\
  forall fp', fp' <> fingerprint e -> fp' <> 0 -> get_match_entry_f t' fp' = get_match_entry_f t fp'.
Proof.
  intros Hok Hp Hi. split_and!.
  - by eapply insert_to_ptable_ok.
  - by eapply insert_then_get.
  - intros fp' Hne H0. by eapply insert_get_other.
Qed.

(** An empty table has an answer for fingerprint 0: the lookup does not look at
    the block and takes a free cell, with the invalid block, for an entry. *)
Lemma ptable_empty_matches_zero :
  get_match_entry_f init_ptable 0 = Some (HashEntryF 0 0 0 PBA_INVALID).
Proof. by vm_compute. Qed.

(** ** Room *)

(** The number of cells in use. *)
Definition in_use (e : hash_entry_f) : Prop := f_pba e <> PBA_INVALID.

#[export] Instance in_use_dec e : Decision (in_use e).
Proof. unfold in_use. apply _. Defined.

Definition used (t : hash_part_table) : nat := length (filter in_use t).

Lemma filter_insert_length {A} (P : A -> Prop) `{!forall x, Decision (P x)} (l : list A) i x :
  (length (filter P (<[i := x]> l)) <= S (length (filter P l)))%nat.
Proof.
  destruct (decide (i < length l)%nat) as [Hi|]; [|rewrite list_insert_ge by lia; lia].
  destruct (lookup_lt_is_Some_2 l i Hi) as [y Hy].
  rewrite insert_take_drop by done. rewrite <- (take_drop_middle l i y Hy) at 3.
  rewrite !filter_app, !filter_cons, !length_app. repeat case_decide; simpl; lia.
Qed.

(** Distinct positions that satisfy [P] are no more than [filter] keeps. *)
Lemma filter_positions {A} (P : A -> Prop) `{!forall x, Decision (P x)} (l : list A) (js : list nat) :
  NoDup js -> (forall j, j ∈ js -> exists x, l !! j = Some x /\ P x) ->
  (length js <= length (filter P l))%nat.
Proof.
  intros Hnd Hjs.
  set (ps := filter (fun jx => P (snd jx)) (imap pair l)).
  assert (length (filter P l) = length ps) as ->.
  { unfold ps. replace l with (snd <$> imap pair l) at 1.
    - generalize (imap pair l). intros xs. induction xs as [|[j x] xs IH]; [done|].
      rewrite fmap_cons, !filter_cons. simpl. repeat case_decide; simpl; auto.
    - apply list_eq. intros k. rewrite list_lookup_fmap, list_lookup_imap. by destruct (l !! k). }
  rewrite <- (length_fmap fst ps). apply submseteq_length, NoDup_submseteq; [done|].
  intros j Hj. destruct (Hjs j Hj) as (x & Hx & HP). apply list_elem_of_fmap. exists (j, x). split; [done|].
  unfold ps. apply list_elem_of_filter. split; [done|]. apply list_elem_of_lookup. exists j.
  by rewrite list_lookup_imap, Hx.
Qed.

(** An insertion fails only when the 256 cells of its probe sequence are taken. *)
Lemma insert_to_ptable_room t e :
  length t = Z.to_nat PART_TABLE_ENTRYS -> (used t < Z.to_nat MAX_HOP)%nat ->
  exists t', insert_to_ptable t e = Some t' /\ length t' = length t /\ (used t' <= S (used t))%nat.
Proof.
  intros Hl Hu. unfold insert_to_ptable. destruct (for_first _ _ _) as [i|] eqn:E.
  - eexists. split; [done|]. split; [apply length_insert | apply filter_insert_length].
  - exfalso. enough (Z.to_nat MAX_HOP <= used t)%nat by lia.
    set (cell k := Z.to_nat (probe (fingerprint e) (Z.of_nat k))).
    assert (length (cell <$> seq 0 (Z.to_nat MAX_HOP)) = Z.to_nat MAX_HOP) as <- by by rewrite length_fmap, length_seq.
    apply filter_positions.
    + apply NoDup_fmap_2_strong; [|apply NoDup_seq]. intros k1 k2 H1%elem_of_seq H2%elem_of_seq Heq.
      change (Z.to_nat MAX_HOP) with 256%nat in *. unfold cell in Heq.
      pose proof (probe_bounds (fingerprint e) (Z.of_nat k1)). pose proof (probe_bounds (fingerprint e) (Z.of_nat k2)).
      apply Nat2Z.inj, (probe_inj (fingerprint e)); change MAX_HOP with 256; lia.
    + intros j (k & -> & Hk%elem_of_seq)%list_elem_of_fmap.
      apply for_first_None with (k := Z.of_nat k) in E; [|lia]. cbn zeta in E. reflect_bools.
      pose proof (probe_bounds (fingerprint e) (Z.of_nat k)) as Hb.
      destruct (lookup_lt_is_Some_2 t (cell k)) as [x Hx]; [unfold cell; lia|]. exists x. split; [done|].
      unfold in_use. unfold entry_f, cell in *. by rewrite (nth_lookup_Some _ _ _ _ Hx) in *.
Qed.

(** ** Flushing *)

(** The insertions of [update_part_table], in order. *)
Fixpoint inserts (t : hash_part_table) (es : list hash_entry) : option hash_part_table :=
  match es with
  | [] => Some t
  | e :: rest => match insert_to_ptable t e with Some t1 => inserts t1 rest | None => None end
  end.

Definition is_dirty (e : hash_entry) : Prop := dirty_bit e <> 0.

#[export] Instance is_dirty_dec e : Decision (is_dirty e).
Proof. unfold is_dirty. apply _. Defined.

Definition cleaned (e : hash_entry) : hash_entry := if decide (is_dirty e) then with_dirty 0 e else e.

Definition clean_bucket (b : list hash_entry) : list hash_entry := cleaned <$> b.

Lemma inserts_app t es1 es2 :
  inserts t (es1 ++ es2) = match inserts t es1 with Some t1 => inserts t1 es2 | None => None end.
Proof. revert t. induction es1 as [|e es1 IH]; intros t; simpl; [done|]. case_match; [apply IH | done]. Qed.

Lemma flush_bucket_eq t b :
  flush_bucket t b =
  match inserts t (filter is_dirty b) with Some t' => Some (t', clean_bucket b) | None => None end.
Proof.
  revert t. induction b as [|e b IH]; intros t; [done|].
  cbn [flush_bucket]. unfold clean_bucket. rewrite filter_cons, fmap_cons. fold (clean_bucket b).
  destruct (dirty_bit e =? 0) eqn:E; reflect_bools; cbn [negb].
  - assert (~ is_dirty e) as Hn by (unfold is_dirty; tauto).
    assert (cleaned e = e) as -> by (unfold cleaned; by rewrite decide_False).
    rewrite decide_False by done. rewrite IH. by destruct (inserts _ _).
  - assert (is_dirty e) as Hd by done.
    assert (cleaned e = with_dirty 0 e) as -> by (unfold cleaned; by rewrite decide_True).
    rewrite decide_True by done. cbn [inserts]. destruct (insert_to_ptable t e); [|done].
    rewrite IH. by destruct (inserts _ _).
Qed.

Lemma update_part_table_eq t bs :
  update_part_table t bs =
  match inserts t (filter is_dirty (concat bs)) with
  | Some t' => Some (t', clean_bucket <$> bs)
  | None => None
  end.
Proof.
  revert t. induction bs as [|b bs IH]; intros t; [done|].
  cbn [update_part_table concat]. rewrite filter_app, inserts_app, fmap_cons, flush_bucket_eq.
  destruct (inserts t (filter is_dirty b)) as [t1|]; [|done]. rewrite IH. by destruct (inserts _ _).
Qed.

Lemma inserts_spec es t t' :
  probe_ok t -> Forall (fun e => 0 <= pba e < PBA_INVALID /\ fingerprint e <> 0) es ->
  NoDup (fingerprint <$> es) -> inserts t es = Some t' ->
  probe_ok t' /\ Forall (holds t') es /\
  forall fp', fp' ∉ fingerprint <$> es -> fp' <> 0 -> get_match_entry_f t' fp' = get_match_entry_f t fp'.
Proof.
  revert t. induction es as [|e es IH]; intros t Hok Hes Hnd; cbn [inserts].
  - intros [= <-]. split_and!; [done | constructor | done].
  - destruct (insert_to_ptable t e) as [t1|] eqn:E; [|done]. intros Hi.
    apply Forall_cons in Hes as [[Hp Hf] Hes]. rewrite fmap_cons in *. apply NoDup_cons in Hnd as [Hn Hnd].
    pose proof (insert_to_ptable_ok _ _ _ Hok Hp E) as Hok1.
    destruct (IH t1 Hok1 Hes Hnd Hi) as (Hok' & Hall & Hoth). split_and!; [done | constructor; [|done] |].
    + destruct (insert_then_get _ _ _ Hok E) as [off Hoff]. exists off. by rewrite Hoth.
    + intros fp' Hfp H0. apply not_elem_of_cons in Hfp as [Hne Hfp].
      rewrite Hoth by done. by eapply insert_get_other.
Qed.

Lemma inserts_room es t :
  length t = Z.to_nat PART_TABLE_ENTRYS -> (used t + length es <= Z.to_nat MAX_HOP)%nat ->
  exists t', inserts t es = Some t' /\ length t' = length t /\ (used t' <= used t + length es)%nat.
Proof.
  revert t. induction es as [|e es IH]; intros t Hl Hu; cbn [inserts length] in *.
  - exists t. split_and!; [done | done | lia].
  - destruct (insert_to_ptable_room t e Hl ltac:(lia)) as (t1 & -> & Hl1 & Hu1).
    destruct (IH t1) as (t' & -> & Hl' & Hu'); [congruence | lia |]. exists t'. split_and!; [done | congruence | lia].
Qed.

Lemma update_part_table_fits t bs :
  length t = Z.to_nat PART_TABLE_ENTRYS ->
  (used t + length (filter is_dirty (concat bs)) <= Z.to_nat MAX_HOP)%nat ->
  exists t', update_part_table t bs = Some (t', clean_bucket <$> bs) /\
    length t' = Z.to_nat PART_TABLE_ENTRYS /\
    (used t' <= used t + length (filter is_dirty (concat bs)))%nat.
Proof.
  intros Hl Hu. destruct (inserts_room _ t Hl Hu) as (t' & Hi & Hl' & Hu'). exists t'.
  rewrite update_part_table_eq, Hi. split_and!; [done | congruence | done].
Qed.

Lemma dirty_at_most bs :
  Forall (fun b : hash_bucket => length b = 4%nat) bs ->
  (length (filter is_dirty (concat bs)) <= 4 * length bs)%nat.
Proof.
  intros H. etransitivity; [apply length_filter|].
  induction H as [|b bs Hb _ IH]; [done|]. cbn [concat length]. rewrite length_app. lia.
Qed.

Lemma inserts_length es t t' : inserts t es = Some t' -> length t' = length t.
Proof.
  revert t. induction es as [|e es IH]; intros t; simpl; [by intros [= ->]|].
  destruct (insert_to_ptable t e) as [t1|] eqn:E; [|done]. intros ->%IH.
  unfold insert_to_ptable in E. case_match; [|done]. injection E as <-. apply length_insert.
Qed.

(** A flush that does not abort cleans the buckets and keeps the size of the table. *)
Lemma update_part_table_clean t t' bs bs' :
  length t = Z.to_nat PART_TABLE_ENTRYS -> update_part_table t bs = Some (t', bs') ->
  bs' = clean_bucket <$> bs /\ length t' = Z.to_nat PART_TABLE_ENTRYS.
Proof.
  intros Hl. rewrite update_part_table_eq. destruct (inserts _ _) as [t1|] eqn:E; [|done].
  intros [= <- <-]. split; [done|]. by rewrite (inserts_length _ _ _ E).
Qed.

(** A flush loses nothing. When [update_part_table] does not abort, every
    dirty entry of the four buckets can be found in the new partition table with
    its size and block, the other entries of the table are as before, and the
    buckets are the same but for the dirty bits, which are all clear. *)
Theorem update_part_table_flushes (t t' : hash_part_table) (bs bs' : list hash_bucket) :
  probe_ok t ->
  Forall (fun e => 0 <= pba e < PBA_INVALID /\ fingerprint e <> 0) (filter is_dirty (concat bs)) ->
  NoDup (fingerprint <$> filter is_dirty (concat bs)) ->
  update_part_table t bs = Some (t', bs') ->
  probe_ok t' /\ bs' = clean_bucket <$> bs /\
  (forall b e, b ∈ bs -> e ∈ b -> is_dirty e -> holds t' e) /\
  (forall b e, b ∈ bs' -> e ∈ b -> dirty_bit e = 0) /\
  (forall fp', fp' ∉ fingerprint <$> filter is_dirty (concat bs) -> fp' <> 0 ->
     get_match_entry_f t' fp' = get_match_entry_f t fp').
Proof.
  intros Hok Hes Hnd. rewrite update_part_table_eq. destruct (inserts _ _) as [t1|] eqn:E; [|done].
  intros [= <- <-]. destruct (inserts_spec _ _ _ Hok Hes Hnd E) as (Hok' & Hall & Hoth).
  split_and!; try done.
  - intros b e Hb He Hd. rewrite Forall_forall in Hall. apply Hall. apply list_elem_of_filter. split; [done|].
    apply list_elem_of_In, in_concat. exists b. by rewrite <- !list_elem_of_In.
  - intros b e (b0 & -> & Hb0)%list_elem_of_fmap (e0 & -> & He0)%list_elem_of_fmap.
    unfold cleaned. case_decide as Hd; [done|]. unfold is_dirty in Hd. lia.
Qed.

(** ** The retry loop of a lookup *)

Lemma entry_cleaned b j :
  let e := entry b j in let e' := entry (clean_bucket b) j in
  fingerprint e' = fingerprint e /\ lru_bit e' = lru_bit e /\ pba e' = pba e /\ kv_size e' = kv_size e /\
  dirty_bit e' = 0.
Proof.
  simpl. unfold entry, clean_bucket.
  assert (nth (Z.to_nat j) (cleaned <$> b) zero_entry = cleaned (nth (Z.to_nat j) b zero_entry)) as ->.
  { destruct (b !! Z.to_nat j) as [e|] eqn:He.
    - rewrite (nth_lookup_Some _ _ _ _ He). apply nth_lookup_Some. by rewrite list_lookup_fmap, He.
    - apply lookup_ge_None in He. by rewrite !nth_overflow by (rewrite ?length_fmap; lia). }
  unfold cleaned, is_dirty. case_decide as Hd; [by split_and!|]. split_and!; try done.
Qed.

Lemma cleaned_bucket_ok b l : bucket_ok b l -> bucket_ok (clean_bucket b) l.
Proof.
  intros [H1 H2 H3 H4 H5 H6 H7 H8].
  split; try done; [by unfold clean_bucket; rewrite length_fmap | | | |].
  - intros k i Hk. destruct (entry_cleaned b i) as (_ & -> & _). by apply H5.
  - intros i Hi. destruct (entry_cleaned b i) as (_ & _ & -> & _). by apply H6.
  - intros i Hi. destruct (entry_cleaned b i) as (-> & -> & -> & _ & ->). destruct (H7 i Hi) as (?&?&?&_).
    by split_and!.
  - intros i j Hi Hj. destruct (entry_cleaned b i) as (-> & _), (entry_cleaned b j) as (-> & _). by apply H8.
Qed.

(** A bucket without dirty entries has an entry to give. *)
Lemma clean_bucket_target b l fp :
  bucket_ok b l -> exists i, get_target_entry (clean_bucket b) fp = Some i.
Proof.
  intros Hok. pose proof (get_target_entry_spec _ _ fp (cleaned_bucket_ok _ _ Hok)) as Hs.
  destruct (get_target_entry (clean_bucket b) fp) as [i|]; [by exists i|].
  exfalso. inversion Hs as [| | | l1 i _ _ _ Hd]; subst.
  by destruct (entry_cleaned b i) as (_ & _ & _ & _ & H0).
Qed.

(** The retry of [bigkv_index_get] ends after one flush. When a bucket has
    no entry to give, the flush of its partition makes one available: the search
    that failed succeeds, so the loop runs at most twice and never uses the
    table pointer it has reset. *)
Theorem flush_frees_an_entry (t t' : hash_part_table) (bs bs' : list hash_bucket) (k : nat)
    (b : hash_bucket) (l : list Z) (fp : Z) :
  bs !! k = Some b -> bucket_ok b l -> get_target_entry b fp = None ->
  update_part_table t bs = Some (t', bs') ->
  exists b' i, bs' !! k = Some b' /\ bucket_ok b' l /\ get_target_entry b' fp = Some i.
Proof.
  intros Hk Hok Hnone. rewrite update_part_table_eq. case_match; [|done]. intros [= <- <-].
  destruct (clean_bucket_target b l fp Hok) as [i Hi]. exists (clean_bucket b), i.
  split_and!; [by rewrite list_lookup_fmap, Hk | by apply cleaned_bucket_ok | done].
Qed.

(** ** Concrete runs *)

(** Two fingerprints with the same first cell. *)
Definition entry_a : hash_entry := HashEntry 1029 0 1 0 2 70.
Definition entry_b : hash_entry := HashEntry 2053 0 1 0 3 80.

Definition table_ab : option hash_part_table :=
  match insert_to_ptable init_ptable entry_a with Some t => insert_to_ptable t entry_b | None => None end.

Lemma ptable_insert_lookup_witness :
  exists t, insert_to_ptable init_ptable entry_a = Some t /\ holds t entry_a /\
    get_match_entry_f t 2053 = get_match_entry_f init_ptable 2053.
Proof.
  destruct (insert_to_ptable init_ptable entry_a) as [t|] eqn:E; [|by vm_compute in E].
  destruct (ptable_insert_lookup init_ptable entry_a t init_ptable_ok ltac:(unfold PBA_INVALID; simpl; lia) E)
    as (_ & H1 & H2).
  exists t. split; [reflexivity|]. split; [exact H1|]. apply H2; [by vm_compute | lia].
Defined.

(** A partition whose third bucket is full and dirty. *)
Definition dirty_bucket : hash_bucket := set_fp 14 (set_fp 13 (set_fp 12 (set_fp 11 init_bucket))).

Lemma dirty_bucket_ok : bucket_ok dirty_bucket [3; 2; 1; 0].
Proof.
  split.
  - by vm_compute.
  - by apply (bool_decide_unpack _).
  - intros i. rewrite !elem_of_cons, elem_of_nil. simpl. lia.
  - simpl. lia.
  - intros [|[|[|[|k]]]] i; simpl; try done; intros [= <-]; by vm_compute.
  - intros i. rewrite !elem_of_cons, elem_of_nil. intros [-> | [-> | [-> | [-> | []]]]]; by vm_compute.
  - intros i Hi. simpl in Hi. lia.
  - intros i j. rewrite !elem_of_cons, !elem_of_nil.
    intros [-> | [-> | [-> | [-> | []]]]] [-> | [-> | [-> | [-> | []]]]]; done.
Qed.

Definition dirty_part : list hash_bucket := [init_bucket; init_bucket; dirty_bucket; init_bucket].

Lemma update_part_table_flushes_witness :
  exists t' bs', update_part_table init_ptable dirty_part = Some (t', bs') /\
    holds t' (entry dirty_bucket 2) /\ dirty_bit (entry (default [] (bs' !! 2%nat)) 2) = 0.
Proof.
  destruct (update_part_table init_ptable dirty_part) as [[t' bs']|] eqn:E; [|by vm_compute in E].
  destruct (update_part_table_flushes init_ptable t' dirty_part bs' init_ptable_ok) as (_ & Hbs & H1 & H2 & _).
  - apply (bool_decide_unpack _). by vm_compute.
  - apply (bool_decide_unpack _). by vm_compute.
  - exact E.
  - exists t', bs'. split; [reflexivity|]. split.
    + apply (H1 dirty_bucket); [|apply (list_elem_of_lookup_2 _ 2); by vm_compute | by vm_compute].
      apply (list_elem_of_lookup_2 _ 2). by vm_compute.
    + rewrite Hbs. by vm_compute.
Defined.

Lemma flush_frees_an_entry_witness :
  exists t' bs' b' i, update_part_table init_ptable dirty_part = Some (t', bs') /\
    bs' !! 2%nat = Some b' /\ get_target_entry b' 15 = Some i.
Proof.
  destruct (update_part_table init_ptable dirty_part) as [[t' bs']|] eqn:E; [|by vm_compute in E].
  destruct (flush_frees_an_entry init_ptable t' dirty_part bs' 2 dirty_bucket [3; 2; 1; 0] 15)
    as (b' & i & H1 & _ & H2); [by vm_compute | exact dirty_bucket_ok | by vm_compute | exact E |].
  exists t', bs', b', i. split; [reflexivity|]. split; [exact H1 | exact H2].
Defined.
