(* ===== verification/PartMap.v ===== *)
(** * A partition is a map ([src/bigkv_index.c])

    The four buckets of a partition cache its table: a SET stores in a bucket, a
    GET takes an entry from the table into a bucket, and both flush the dirty
    entries to the table when a bucket has no entry to give. The theorems say
    that together they implement a finite map from fingerprints to blocks, as
    long as one operation at a time uses the table ([BigkvRace] shows what
    happens otherwise). The operations are those of [Bigkv] without the I/O
    between their rounds. *)

From Stdlib Require Import ZArith Lia List.
From stdpp Require Import prelude gmap.
From S2P Require Import Prelude Config Bytes BigkvTable Bucket PartTable.

#[local] Open Scope Z_scope.

(** ** Operations

    The operations on one partition, as a specification: [p_set] and [p_get] say
    what [bigkv_index_set] and [bigkv_index_get] do to the buckets and the table
    when no other operation is under way; the refinement is proved in
    [BigkvFlush], on the whole handler. *)

(** The table is [None] as long as the partition has none ([part->pba] is
    [PBA_INVALID]). *)
Record partition : Type := Partition { ptab : option hash_part_table; pbks : list hash_bucket }.

(** The table that a flush begins with. *)
Definition tab (s : partition) : hash_part_table :=
  match ptab s with Some t => t | None => init_ptable end.

Lemma tab_keep s bs : tab (Partition (ptab s) bs) = tab s.
Proof. done. Qed.

Lemma tab_some t bs : tab (Partition (Some t) bs) = t.
Proof. done. Qed.

Ltac tab_simpl := cbn [pbks ptab]; rewrite ?tab_keep, ?tab_some.

(** What a table answers: the size and the block. *)
Definition table_find (t : hash_part_table) (fp : Z) : option (Z * Z) :=
  match get_match_entry_f t fp with Some ef => Some (f_kv_size ef, f_pba ef) | None => None end.

(** The bucket of a key within its partition. *)
Definition part_bucket (hash_high : Z) : nat := Z.to_nat (hash_high mod NR_BUCKET mod BUCKETS_IN_PART).

Lemma part_bucket_lt h : (part_bucket h < 4)%nat.
Proof. unfold part_bucket. pose proof (Z.mod_pos_bound (h mod NR_BUCKET) BUCKETS_IN_PART eq_refl) as H. unfold BUCKETS_IN_PART in *. lia. Qed.

Definition flush (s : partition) : option partition :=
  match update_part_table (tab s) (pbks s) with Some (t, bs) => Some (Partition (Some t) bs) | None => None end.

(** An entry for [fp] is written by [f] in bucket [k], if that has one to give. *)
Definition store (f : Z -> hash_bucket -> hash_bucket) (k : nat) (fp : Z) (s : partition) : option partition :=
  match pbks s !! k with
  | Some b =>
      match get_target_entry b fp with
      | Some i => Some (Partition (ptab s) (<[k := f i b]> (pbks s)))
      | None => None
      end
  | None => None
  end.

(** If it has none, the partition is flushed first. *)
Definition store_or_flush (f : Z -> hash_bucket -> hash_bucket) (k : nat) (fp : Z) (s : partition) : option partition :=
  match store f k fp s with
  | Some s' => Some s'
  | None => match flush s with Some s1 => store f k fp s1 | None => None end
  end.

Definition p_set (k : nat) (fp size p : Z) (s : partition) : option partition :=
  store_or_flush (fun i b => fill_from_set i fp size p b) k fp s.

(** The answer is the size and the block of the pair, or that there is none. A
    GET that misses in a partition without a table has no answer here: the
    code reads block [PBA_INVALID]. *)
Definition p_get (k : nat) (fp : Z) (s : partition) : option (option (Z * Z) * partition) :=
  match pbks s !! k with
  | Some b =>
      match get_match_entry b fp with
      | Some i => Some (cached b fp, Partition (ptab s) (<[k := touch i b]> (pbks s)))
      | None =>
          match ptab s with
          | Some t =>
              match get_match_entry_f t fp with
              | Some ef =>
                  match store_or_flush (fun i b => fill_from_ptable i ef b) k fp s with
                  | Some s' => Some (Some (f_kv_size ef, f_pba ef), s')
                  | None => None
                  end
              | None => Some (None, s)
              end
          | None => None
          end
      end
  | None => None
  end.

Section Partition.

(** The bucket of a fingerprint. *)
Variable home : Z -> nat.
Hypothesis home_lt : forall fp, (home fp < 4)%nat.

(** ** The map *)

Definition view (s : partition) (fp : Z) : option (Z * Z) :=
  match pbks s !! home fp with
  | Some b => match cached b fp with Some v => Some v | None => table_find (tab s) fp end
  | None => None
  end.

(** ** The invariant *)

Definition live (b : hash_bucket) (j : Z) : Prop := 0 <= j < 4 /\ pba (entry b j) <> PBA_INVALID.

Definition good_entry (k : nat) (e : hash_entry) : Prop :=
  home (fingerprint e) = k /\ fingerprint e <> 0 /\ 0 <= pba e < PBA_INVALID /\ 0 <= kv_size e < 2 ^ 14.

(** An entry that is not dirty is in the table. *)
Record bucket_inv (t : hash_part_table) (k : nat) (b : hash_bucket) : Prop := BucketInv {
  bv_ok : exists l, bucket_ok b l;
  bv_good : forall j, live b j -> good_entry k (entry b j);
  bv_clean : forall j, live b j -> dirty_bit (entry b j) = 0 ->
    table_find t (fingerprint (entry b j)) = Some (kv_size (entry b j), pba (entry b j))
}.

(** The answers of a table are within the bounds of the fields. *)
Definition bounded (v : Z * Z) : Prop := 0 <= fst v < 2 ^ 14 /\ 0 <= snd v < PBA_INVALID.

Record part_inv (s : partition) : Prop := PartInv {
  pv_len : length (pbks s) = 4%nat;
  pv_table : probe_ok (tab s);
  pv_found : forall fp v, fp <> 0 -> table_find (tab s) fp = Some v -> bounded v;
  pv_bucket : forall k b, pbks s !! k = Some b -> bucket_inv (tab s) k b
}.

Lemma live_in b l j : bucket_ok b l -> live b j <-> j ∈ l.
Proof.
  intros Hok. split.
  - intros [Hj Hp]. apply (bo_mem _ _ Hok). destruct (decide (j < Z.of_nat (length l))); [lia|].
    destruct (bo_rest _ _ Hok j) as (_ & Hinv & _); [lia | done].
  - intros Hj. split; [by eapply bucket_ok_range | by apply (bo_valid _ _ Hok)].
Qed.

Lemma live_cached b l j :
  bucket_ok b l -> live b j -> cached b (fingerprint (entry b j)) = Some (kv_size (entry b j), pba (entry b j)).
Proof. intros Hok Hj. unfold cached. by rewrite (get_match_entry_Some b l _ j Hok (proj1 (live_in _ _ _ Hok) Hj)). Qed.

Lemma dirty_live t k b j : bucket_inv t k b -> 0 <= j < 4 -> is_dirty (entry b j) -> live b j.
Proof.
  intros [[l Hok] _ _] Hj Hd. apply (live_in _ _ _ Hok), (bo_mem _ _ Hok).
  destruct (decide (j < Z.of_nat (length l))); [lia|].
  destruct (bo_rest _ _ Hok j) as (_ & _ & _ & H0); [lia|]. by destruct Hd.
Qed.

Lemma bucket_of_home s fp : part_inv s -> exists b, pbks s !! home fp = Some b /\ bucket_inv (tab s) (home fp) b.
Proof.
  intros Hs. destruct (lookup_lt_is_Some_2 (pbks s) (home fp)) as [b Hb]; [rewrite (pv_len _ Hs); apply home_lt|].
  exists b. split; [done | by apply (pv_bucket _ Hs)].
Qed.

(** One entry is replaced or renewed. *)
Lemma bucket_inv_renewed t k b b' l' i e :
  bucket_inv t k b -> bucket_ok b' l' -> renewed b b' i e -> 0 <= i < 4 -> good_entry k e ->
  (dirty_bit e = 0 -> table_find t (fingerprint e) = Some (kv_size e, pba e)) ->
  bucket_inv t k b'.
Proof.
  intros [_ Hg Hc] Hok Hre Hi He Hd. pose proof (renewed_self _ _ _ _ Hre Hi) as Hself.
  assert (forall j, live b' j -> j <> i -> live b j /\ fingerprint (entry b' j) = fingerprint (entry b j) /\
            pba (entry b' j) = pba (entry b j) /\ kv_size (entry b' j) = kv_size (entry b j) /\
            dirty_bit (entry b' j) = dirty_bit (entry b j)) as Hoth.
  { intros j [Hj Hp] Hne. destruct (renewed_other _ _ _ _ j Hre Hj Hne) as (E1 & E2 & E3 & E4).
    rewrite E2 in Hp. by split_and!. }
  split; [by exists l' | |]; intros j Hj.
  - destruct (decide (j = i)) as [-> | Hne]; [by rewrite Hself|].
    destruct (Hoth j Hj Hne) as (Hl & E1 & E2 & E3 & _). unfold good_entry. rewrite E1, E2, E3. by apply Hg.
  - destruct (decide (j = i)) as [-> | Hne]; [by rewrite Hself|].
    destruct (Hoth j Hj Hne) as (Hl & -> & -> & -> & ->). by apply Hc.
Qed.

Lemma part_inv_insert s k b' :
  part_inv s -> bucket_inv (tab s) k b' -> part_inv (Partition (ptab s) (<[k := b']> (pbks s))).
Proof.
  intros Hs Hb. split; simpl; [by rewrite length_insert, (pv_len _ Hs) | apply Hs | apply Hs |].
  intros k' b. rewrite list_lookup_insert. case_decide as Hd; [destruct Hd as [-> _]; by intros [= <-]|].
  apply (pv_bucket _ Hs).
Qed.

(** A new entry in the place of one that is clean changes the answer for its
    fingerprint only: what it evicts is in the table. *)
Lemma view_insert s b b' l fp i v :
  part_inv s -> pbks s !! home fp = Some b -> bucket_ok b l -> 0 <= i < 4 ->
  (forall fp', cached b' fp' = if decide (fp' = fp) then Some v
     else if decide (pba (entry b i) <> PBA_INVALID /\ fingerprint (entry b i) = fp') then None
     else cached b fp') ->
  (forall fp', evicts b fp i fp' -> dirty_bit (entry b i) = 0) ->
  forall fp', view (Partition (ptab s) (<[home fp := b']> (pbks s))) fp' =
    if decide (fp' = fp) then Some v else view s fp'.
Proof.
  intros Hs Hb Hok Hi Hc Hev fp'. unfold view. tab_simpl.
  destruct (decide (home fp' = home fp)) as [E|E].
  - rewrite E, Hb, list_lookup_insert_eq by (by eapply lookup_lt_Some).
    rewrite Hc. destruct (decide (fp' = fp)) as [Hfp|Hfp]; [done|].
    destruct (decide (pba (entry b i) <> PBA_INVALID /\ fingerprint (entry b i) = fp')) as [[Hp Hf]|Hx]; [|done].
    assert (i ∈ l) as Hil by (apply (live_in _ _ _ Hok); by split).
    unfold cached. rewrite (get_match_entry_Some b l fp' i Hok Hil Hf).
    rewrite <- Hf. apply (bv_clean _ _ _ (pv_bucket _ Hs _ _ Hb)); [by split|].
    apply (Hev fp'). by split_and!.
  - rewrite list_lookup_insert_ne by congruence. rewrite decide_False; [done | congruence].
Qed.

(** ** A flush loses nothing *)

Lemma NoDup_fmap_filter {A B} (f : A -> B) (P : A -> Prop) `{!forall x, Decision (P x)} (l : list A) :
  (forall i j x y, l !! i = Some x -> l !! j = Some y -> P x -> P y -> f x = f y -> i = j) ->
  NoDup (f <$> filter P l).
Proof.
  induction l as [|x l IH]; intros Hinj; [constructor|].
  assert (NoDup (f <$> filter P l)) as Hl.
  { apply IH. intros i j y z Hi Hj Py Pz E. by apply (Hinj (S i) (S j) y z Hi Hj Py Pz) in E as [= ->]. }
  rewrite filter_cons. case_decide as Px; [|done]. rewrite fmap_cons. constructor; [|done].
  intros (y & E & [Py (j & Hj)%list_elem_of_lookup]%list_elem_of_filter)%list_elem_of_fmap.
  by apply (Hinj 0%nat (S j) x y) in E.
Qed.

Lemma dirty_good t k b e : bucket_inv t k b -> e ∈ filter is_dirty b -> good_entry k e /\ cached b (fingerprint e) = Some (kv_size e, pba e).
Proof.
  intros Hinv [Hd (j & Hj)%list_elem_of_lookup]%list_elem_of_filter.
  destruct (bv_ok _ _ _ Hinv) as [l Hok]. pose proof (lookup_lt_Some _ _ _ Hj) as Hlt. rewrite (bo_len _ _ Hok) in Hlt.
  assert (entry b (Z.of_nat j) = e) as He by (apply entry_lookup; [lia | by rewrite Nat2Z.id]).
  assert (live b (Z.of_nat j)) as Hlive by (eapply dirty_live; [done | lia | by rewrite He]).
  rewrite <- He. split; [by apply (bv_good _ _ _ Hinv) | by eapply live_cached].
Qed.

Lemma dirty_bucket_nodup t k b : bucket_inv t k b -> NoDup (fingerprint <$> filter is_dirty b).
Proof.
  intros Hinv. apply NoDup_fmap_filter. intros i j x y Hi Hj Px Py E.
  destruct (bv_ok _ _ _ Hinv) as [l Hok].
  pose proof (lookup_lt_Some _ _ _ Hi) as Hlt1. pose proof (lookup_lt_Some _ _ _ Hj) as Hlt2.
  rewrite (bo_len _ _ Hok) in *.
  assert (entry b (Z.of_nat i) = x) as Hx by (apply entry_lookup; [lia | by rewrite Nat2Z.id]).
  assert (entry b (Z.of_nat j) = y) as Hy by (apply entry_lookup; [lia | by rewrite Nat2Z.id]).
  apply Nat2Z.inj, (bo_fp _ _ Hok); [| | by rewrite Hx, Hy];
    (apply (live_in _ _ _ Hok); eapply dirty_live; [done | lia | by rewrite ?Hx, ?Hy]).
Qed.

(** The entries a flush writes: each is good for its bucket, no two have the
    same fingerprint. *)
Lemma dirty_entries t bs k0 :
  (forall k b, bs !! k = Some b -> bucket_inv t (k0 + k) b) ->
  NoDup (fingerprint <$> filter is_dirty (concat bs)) /\
  forall e, e ∈ filter is_dirty (concat bs) ->
    exists k b, bs !! k = Some b /\ good_entry (k0 + k) e /\ cached b (fingerprint e) = Some (kv_size e, pba e).
Proof.
  revert k0. induction bs as [|b bs IH]; intros k0 H; cbn [concat].
  - split; [constructor | by intros e He%elem_of_nil].
  - destruct (IH (S k0)) as [Hnd Hall].
    { intros k b' Hk. replace (S k0 + k)%nat with (k0 + S k)%nat by lia. by apply H. }
    pose proof (H 0%nat b eq_refl) as Hb. rewrite Nat.add_0_r in Hb. rewrite filter_app. split.
    + rewrite fmap_app. apply NoDup_app. split_and!; [by eapply dirty_bucket_nodup | | done].
      intros fp (e1 & -> & H1)%list_elem_of_fmap (e2 & E & H2)%list_elem_of_fmap.
      destruct (dirty_good _ _ _ _ Hb H1) as ((Hh1 & _) & _).
      destruct (Hall _ H2) as (k & b' & _ & (Hh2 & _) & _). rewrite <- E in Hh2. lia.
    + intros e [He|He]%elem_of_app.
      * exists 0%nat, b. rewrite Nat.add_0_r. split; [done|]. by eapply dirty_good.
      * destruct (Hall e He) as (k & b' & Hk & Hg & Hc). exists (S k), b'.
        replace (k0 + S k)%nat with (S k0 + k)%nat by lia. done.
Qed.

Lemma cached_clean b l fp : bucket_ok b l -> cached (clean_bucket b) fp = cached b fp.
Proof.
  intros Hok. unfold cached, get_match_entry.
  rewrite (for_first_ext 0 _ _ (fun i => negb (pba (entry b i) =? PBA_INVALID) && (fingerprint (entry b i) =? fp))).
  - destruct (for_first _ _ _) as [i|]; [|done].
    by destruct (entry_cleaned b i) as (_ & _ & -> & -> & _).
  - intros i _. by destruct (entry_cleaned b i) as (-> & _ & -> & _).
Qed.

Lemma holds_find t e : holds t e -> 0 <= kv_size e < 2 ^ 14 -> 0 <= pba e < PBA_INVALID ->
  table_find t (fingerprint e) = Some (kv_size e, pba e).
Proof.
  intros [off H] Hs Hp. unfold table_find. rewrite H. unfold PBA_INVALID in Hp. simpl.
  by rewrite !wrap_small by lia.
Qed.

(** What the table of a flush answers for [fp]: the entry a bucket has for it, or
    what it answered before when that one is not dirty. *)
Lemma flush_table s t' :
  part_inv s -> inserts (tab s) (filter is_dirty (concat (pbks s))) = Some t' ->
  probe_ok t' /\
  forall fp, fp <> 0 ->
    (table_find t' fp = table_find (tab s) fp /\ fp ∉ fingerprint <$> filter is_dirty (concat (pbks s))) \/
    exists v b, pbks s !! home fp = Some b /\ cached b fp = Some v /\ bounded v /\ table_find t' fp = Some v.
Proof.
  intros Hs Hi. destruct (dirty_entries (tab s) (pbks s) 0 (pv_bucket _ Hs)) as [Hnd Hall].
  destruct (inserts_spec (filter is_dirty (concat (pbks s))) (tab s) t') as (Hok' & Hh & Hoth);
    [apply Hs | | done | done |].
  { apply Forall_forall. intros e He. destruct (Hall e He) as (k & b & _ & (_ & ? & ? & _) & _). done. }
  split; [done|]. rewrite Forall_forall in Hh. intros fp Hfp.
  destruct (decide (fp ∈ fingerprint <$> filter is_dirty (concat (pbks s)))) as [Hin|Hin].
  - right. apply list_elem_of_fmap in Hin as (e & -> & He).
    destruct (Hall e He) as (k & b & Hk & (Hhome & _ & Hp & Hsz) & Hc). exists (kv_size e, pba e), b. cbn in Hhome. subst k.
    split_and!; [done | done | done |]. by apply holds_find; [apply Hh | |].
  - left. split; [|done]. unfold table_find. by rewrite Hoth.
Qed.

Lemma dirty_in_concat (bs : list hash_bucket) k b j :
  bs !! k = Some b -> 0 <= j < Z.of_nat (length b) -> is_dirty (entry b j) ->
  entry b j ∈ filter is_dirty (concat bs).
Proof.
  intros Hk Hj Hd. apply list_elem_of_filter. split; [done|]. apply list_elem_of_In, in_concat. exists b.
  rewrite <- !list_elem_of_In. split; [by eapply list_elem_of_lookup_2|].
  eapply list_elem_of_lookup_2. by apply lookup_entry.
Qed.

Lemma flush_bucket_inv s t' k b :
  part_inv s -> inserts (tab s) (filter is_dirty (concat (pbks s))) = Some t' ->
  pbks s !! k = Some b -> bucket_inv t' k (clean_bucket b).
Proof.
  intros Hs Hi Hk. pose proof (pv_bucket _ Hs _ _ Hk) as Hinv. destruct (bv_ok _ _ _ Hinv) as [l Hok].
  destruct (flush_table s t' Hs Hi) as [_ Ht].
  assert (Hlive : forall j, live (clean_bucket b) j -> live b j).
  { intros j [Hj Hp]. destruct (entry_cleaned b j) as (_ & _ & E & _). split; congruence. }
  split; [exists l; by apply cleaned_bucket_ok | |]; intros j Hj%Hlive;
    destruct (entry_cleaned b j) as (E1 & _ & E2 & E3 & _); pose proof (bv_good _ _ _ Hinv j Hj) as Hg.
  - unfold good_entry. by rewrite E1, E2, E3.
  - intros _. rewrite E1, E2, E3. destruct Hg as (Hhome & Hfp & _).
    destruct (Ht _ Hfp) as [[-> Hnot] | (v & b' & Hb' & Hc & _ & ->)].
    + destruct (decide (is_dirty (entry b j))) as [Hd|Hd].
      * destruct Hnot. apply list_elem_of_fmap. exists (entry b j). split; [done|].
        eapply dirty_in_concat; [done | | done]. rewrite (bo_len _ _ Hok). apply Hj.
      * apply (bv_clean _ _ _ Hinv); [done|]. unfold is_dirty in Hd. lia.
    + rewrite Hhome, Hk in Hb'. injection Hb' as <-. rewrite <- Hc. by eapply live_cached.
Qed.

Lemma flush_ok s s' :
  part_inv s -> flush s = Some s' ->
  part_inv s' /\ pbks s' = clean_bucket <$> pbks s /\
  (forall fp, fp <> 0 -> view s' fp = view s fp).
Proof.
  intros Hs. unfold flush. rewrite update_part_table_eq. destruct (inserts _ _) as [t'|] eqn:Hi; [|done].
  intros [= <-]. tab_simpl. destruct (flush_table s t' Hs Hi) as [Hok' Ht].
  split_and!; [split; tab_simpl | done |].
  - by rewrite length_fmap, (pv_len _ Hs).
  - done.
  - intros fp v Hfp. destruct (Ht fp Hfp) as [[-> _] | (v' & b & _ & _ & Hv & ->)]; [by apply Hs|].
    by intros [= <-].
  - intros k b. rewrite list_lookup_fmap. destruct (pbks s !! k) as [b0|] eqn:Hk; [|done]. intros [= <-].
    by eapply flush_bucket_inv.
  - intros fp Hfp. unfold view. tab_simpl. rewrite list_lookup_fmap.
    destruct (bucket_of_home s fp Hs) as (b & Hb & Hinv). rewrite Hb. simpl.
    destruct (bv_ok _ _ _ Hinv) as [l Hok]. rewrite (cached_clean _ _ _ Hok).
    destruct (cached b fp) eqn:Hc; [done|].
    destruct (Ht fp Hfp) as [[-> _] | (v & b' & Hb' & Hc' & _)]; [done | congruence].
Qed.
(** ** Stores *)

(** The bucket of [fp] has no entry for it. *)
Definition missed (s : partition) (fp : Z) : Prop := exists b, pbks s !! home fp = Some b /\ cached b fp = None.

Lemma missed_view s fp : missed s fp -> view s fp = table_find (tab s) fp.
Proof. intros (b & Hb & Hc). unfold view. by rewrite Hb, Hc. Qed.

Lemma missed_flush s s' fp : part_inv s -> flush s = Some s' -> missed s fp -> missed s' fp.
Proof.
  intros Hs Hf (b & Hb & Hc). destruct (flush_ok s s' Hs Hf) as (_ & Hbs & _).
  destruct (bv_ok _ _ _ (pv_bucket _ Hs _ _ Hb)) as [l Hok]. exists (clean_bucket b).
  split; [by rewrite Hbs, list_lookup_fmap, Hb | by rewrite (cached_clean _ _ _ Hok)].
Qed.

(** The entry [f] writes for [fp]: of a SET, dirty, or of a GET that missed,
    clean and as the table has it; [c] bounds the dirty entries it adds. *)
Inductive writes (s : partition) (fp : Z) (v : Z * Z) : nat -> (Z -> hash_bucket -> hash_bucket) -> Prop :=
| WritesNew : writes s fp v 1 (fun i b => fill_from_set i fp (fst v) (snd v) b)
| WritesOld off : missed s fp -> view s fp = Some v ->
    writes s fp v 0 (fun i b => fill_from_ptable i (HashEntryF fp off (fst v) (snd v)) b).

Lemma writes_flush s s' fp v c f : part_inv s -> fp <> 0 -> flush s = Some s' -> writes s fp v c f -> writes s' fp v c f.
Proof.
  intros Hs Hfp Hf [|off Hm Hv]; constructor; [by eapply missed_flush|].
  destruct (flush_ok s s' Hs Hf) as (_ & _ & ->); done.
Qed.

Lemma writes_renewed s fp v c f :
  writes s fp v c f -> bounded v ->
  exists d, (d = 0 -> table_find (tab s) fp = Some v) /\ (d <> 0 -> c = 1%nat) /\
    forall b i, length b = 4%nat -> 0 <= i < 4 ->
    exists r, renewed b (f i b) i (HashEntry fp r d 0 (fst v) (snd v)).
Proof.
  intros Hw [Hv1 Hv2]. unfold PBA_INVALID in Hv2. destruct Hw as [|off Hm Hv].
  - exists 1. split_and!; [done | done |]. intros b i Hb Hi. exists (reserve (entry b i)).
    pose proof (renewed_store_age b i (HashEntry fp (reserve (entry b i)) 1 0 (wrap 14 (fst v)) (wrap 42 (snd v)))
                  Hb Hi eq_refl) as H. rewrite !wrap_small in H by lia. unfold fill_from_set.
    by rewrite !wrap_small by lia.
  - exists 0. split_and!; [intros _; by rewrite <- missed_view | done |].
    intros b i Hb Hi. exists 0. by apply renewed_store_age.
Qed.

Lemma store_ok s s' f fp v c :
  part_inv s -> fp <> 0 -> bounded v -> writes s fp v c f -> store f (home fp) fp s = Some s' ->
  part_inv s' /\ forall fp', view s' fp' = if decide (fp' = fp) then Some v else view s fp'.
Proof.
  intros Hs Hfp Hv Hw. unfold store. destruct (bucket_of_home s fp Hs) as (b & Hb & Hinv). rewrite Hb.
  destruct (get_target_entry b fp) as [i|] eqn:Ht; [|done]. intros [= <-].
  destruct (bv_ok _ _ _ Hinv) as [l Hok]. pose proof (target_range b l fp i Hok Ht) as Hi.
  destruct (writes_renewed _ _ _ _ _ Hw Hv) as (d & Hd & _ & Hf). destruct (Hf b i (bo_len _ _ Hok) Hi) as [r Hre].
  destruct Hv as [Hv1 Hv2]. destruct v as [size p]. cbn [fst snd] in *.
  destruct (insert_renewed b (f i b) l fp i _ Hok Ht (fun _ => Hre) eq_refl) as (Hok' & _ & Hc & Hev);
    [cbn [pba]; unfold PBA_INVALID in *; lia|].
  split.
  - apply part_inv_insert; [done|]. by eapply bucket_inv_renewed.
  - eapply view_insert; try done. intros fp' He. by eapply Hev.
Qed.

Lemma store_or_flush_ok s s' f fp v c :
  part_inv s -> fp <> 0 -> bounded v -> writes s fp v c f -> store_or_flush f (home fp) fp s = Some s' ->
  part_inv s' /\
  forall fp', fp' <> 0 -> view s' fp' = if decide (fp' = fp) then Some v else view s fp'.
Proof.
  intros Hs Hfp Hv Hw. unfold store_or_flush. destruct (store f (home fp) fp s) as [s1|] eqn:H1.
  - intros [= <-]. destruct (store_ok _ _ _ _ _ _ Hs Hfp Hv Hw H1) as [? Hview]. split; [done|]. intros; apply Hview.
  - destruct (flush s) as [s1|] eqn:H2; [|done]. destruct (flush_ok _ _ Hs H2) as (Hs1 & _ & Hview1). intros H3.
    destruct (store_ok _ _ _ _ _ _ Hs1 Hfp Hv (writes_flush _ _ _ _ _ _ Hs Hfp H2 Hw) H3) as [? Hview].
    split; [done|]. intros fp' H0. rewrite Hview. by rewrite Hview1.
Qed.

(** ** Room

    A flush needs at most 256 cells; an upper bound of the entries that are or
    will be in the table is enough for it not to abort. *)

Abbreviation ndirty es := (length (filter is_dirty es)).

Definition load (s : partition) : nat := (used (tab s) + ndirty (concat (pbks s)))%nat.

Definition room (s : partition) (n : nat) : Prop :=
  length (tab s) = Z.to_nat PART_TABLE_ENTRYS /\ (load s + n <= Z.to_nat MAX_HOP)%nat.

Lemma ndirty_bits (b : list hash_entry) : ndirty b = length (filter (fun d => d <> 0) (dirty_bit <$> b)).
Proof.
  induction b as [|e b IH]; [done|]. rewrite fmap_cons, !filter_cons. unfold is_dirty in *.
  repeat case_decide; try done; simpl; by rewrite IH.
Qed.

Lemma filter_insert_le {A} (P : A -> Prop) `{!forall x, Decision (P x)} (l : list A) i x :
  ~ P x -> (length (filter P (<[i := x]> l)) <= length (filter P l))%nat.
Proof.
  intros Hx. destruct (decide (i < length l)%nat) as [Hi|]; [|rewrite list_insert_ge by lia; lia].
  destruct (lookup_lt_is_Some_2 l i Hi) as [y Hy].
  rewrite insert_take_drop by done. rewrite <- (take_drop_middle l i y Hy) at 3.
  rewrite !filter_app, !filter_cons, !length_app. rewrite decide_False by done. case_decide; simpl; lia.
Qed.

Lemma renewed_bits b b' i e :
  length b = 4%nat -> 0 <= i < 4 -> renewed b b' i e ->
  dirty_bit <$> b' = <[Z.to_nat i := dirty_bit e]> (dirty_bit <$> b).
Proof.
  intros Hl Hi Hre. pose proof (proj1 Hre) as Hl'. apply list_eq_same_length with (n := 4%nat);
    [by rewrite length_insert, length_fmap | by rewrite length_fmap |].
  intros k x y Hk. rewrite list_lookup_insert, !list_lookup_fmap.
  rewrite <- (Nat2Z.id k), (lookup_entry b'), (lookup_entry b) by lia. cbn.
  case_decide as Hd.
  - intros [= <-] [= <-]. assert (Z.of_nat k = i) as -> by lia. f_equal. by eapply renewed_self.
  - intros [= <-] [= <-].
    destruct (renewed_other _ _ _ _ (Z.of_nat k) Hre) as (_ & _ & _ & ->); [lia | | done].
    intros <-. apply Hd. rewrite !length_fmap. lia.
Qed.

Lemma concat_dirty bs k (b b' : hash_bucket) c :
  bs !! k = Some b -> (ndirty b' <= ndirty b + c)%nat ->
  (ndirty (concat (<[k := b']> bs)) <= ndirty (concat bs) + c)%nat.
Proof.
  intros Hk Hle. pose proof (lookup_lt_Some _ _ _ Hk).
  rewrite insert_take_drop by done. rewrite <- (take_drop_middle bs k b Hk) at 3.
  rewrite !concat_app. cbn [concat]. rewrite !filter_app, !length_app. lia.
Qed.

Lemma renewed_ndirty b b' i e c :
  length b = 4%nat -> 0 <= i < 4 -> renewed b b' i e -> (dirty_bit e <> 0 -> c = 1%nat) ->
  (ndirty b' <= ndirty b + c)%nat.
Proof.
  intros Hl Hi Hre Hc. rewrite !ndirty_bits, (renewed_bits _ _ _ _ Hl Hi Hre).
  destruct (decide (dirty_bit e = 0)) as [->|Hd].
  - etransitivity; [by apply filter_insert_le; intros []|]. lia.
  - rewrite (Hc Hd), Nat.add_1_r. apply filter_insert_length.
Qed.

Lemma touch_ndirty b i : length b = 4%nat -> 0 <= i < 4 -> ndirty (touch i b) = ndirty b.
Proof.
  intros Hl Hi. rewrite !ndirty_bits, (renewed_bits _ _ _ _ Hl Hi (renewed_touch b i Hl Hi)).
  rewrite list_insert_id; [done|]. by rewrite list_lookup_fmap, lookup_entry by lia.
Qed.

Lemma store_room s s' f fp v c n :
  part_inv s -> bounded v -> writes s fp v c f -> room s (n + c) -> store f (home fp) fp s = Some s' -> room s' n.
Proof.
  intros Hs Hv Hw [Hl Hr]. unfold store. destruct (bucket_of_home s fp Hs) as (b & Hb & Hinv). rewrite Hb.
  destruct (get_target_entry b fp) as [i|] eqn:Ht; [|done]. intros [= <-].
  destruct (bv_ok _ _ _ Hinv) as [l Hok]. pose proof (target_range b l fp i Hok Ht) as Hi.
  destruct (writes_renewed _ _ _ _ _ Hw Hv) as (d & _ & Hc & Hf). destruct (Hf b i (bo_len _ _ Hok) Hi) as [r Hre].
  pose proof (renewed_ndirty _ _ _ _ c (bo_len _ _ Hok) Hi Hre Hc) as Hn. split; [done|].
  unfold load in *. tab_simpl. pose proof (concat_dirty _ _ _ _ _ Hb Hn). lia.
Qed.

Lemma clean_ndirty bs : ndirty (concat (clean_bucket <$> bs)) = 0%nat.
Proof.
  assert (filter is_dirty (concat (clean_bucket <$> bs)) = []) as ->; [|done].
  induction bs as [|b bs IH]; [done|]. rewrite fmap_cons. cbn [concat]. rewrite filter_app, IH, app_nil_r.
  induction b as [|e b IHb]; [done|]. unfold clean_bucket. rewrite fmap_cons, filter_cons.
  rewrite decide_False; [done|]. unfold cleaned, is_dirty. destruct (decide (dirty_bit e <> 0)) as [Hd|Hd]; [by intros []|done].
Qed.

Lemma flush_room s n : room s n -> exists s', flush s = Some s' /\ room s' n.
Proof.
  intros [Hl Hr]. unfold load in Hr. destruct (update_part_table_fits (tab s) (pbks s) Hl) as (t' & Hu & Hl' & Hused).
  { lia. }
  unfold flush. rewrite Hu. eexists. split; [done|]. split; [done|]. unfold load. tab_simpl.
  rewrite clean_ndirty. lia.
Qed.

(** With room a SET or a GET that missed finds an entry. *)
Lemma store_or_flush_room s f fp v c n :
  part_inv s -> fp <> 0 -> bounded v -> writes s fp v c f -> room s (n + c) ->
  exists s', store_or_flush f (home fp) fp s = Some s' /\ room s' n.
Proof.
  intros Hs Hfp Hv Hw Hr. unfold store_or_flush. destruct (store f (home fp) fp s) as [s1|] eqn:H1.
  - exists s1. split; [done | by eapply store_room].
  - destruct (flush_room s _ Hr) as (s1 & H2 & Hr1). rewrite H2.
    destruct (flush_ok _ _ Hs H2) as (Hs1 & Hbs & _). destruct (bucket_of_home s fp Hs) as (b & Hb & Hinv).
    destruct (bv_ok _ _ _ Hinv) as [l Hok]. destruct (clean_bucket_target b l fp Hok) as [i Hi].
    destruct (store f (home fp) fp s1) as [s2|] eqn:H3.
    + exists s2. split; [done|]. eapply store_room; [done | done | exact (writes_flush _ _ _ _ _ _ Hs Hfp H2 Hw) | done | done].
    + unfold store in H3. rewrite Hbs, list_lookup_fmap, Hb in H3. cbn in H3. by rewrite Hi in H3.
Qed.

(** ** A SET and a GET *)

Lemma p_set_ok s fp size p n :
  part_inv s -> fp <> 0 -> bounded (size, p) -> room s (S n) ->
  exists s', p_set (home fp) fp size p s = Some s' /\ part_inv s' /\ room s' n /\
    forall fp', fp' <> 0 -> view s' fp' = if decide (fp' = fp) then Some (size, p) else view s fp'.
Proof.
  intros Hs Hfp Hv Hr. pose proof (WritesNew s fp (size, p)) as Hw. rewrite <- Nat.add_1_r in Hr.
  destruct (store_or_flush_room _ _ _ _ _ n Hs Hfp Hv Hw Hr) as (s' & E & Hr').
  destruct (store_or_flush_ok _ _ _ _ _ _ Hs Hfp Hv Hw E). by exists s'.
Qed.

Lemma p_hit s fp b i n :
  part_inv s -> pbks s !! home fp = Some b -> get_match_entry b fp = Some i -> room s n ->
  let s' := Partition (ptab s) (<[home fp := touch i b]> (pbks s)) in
  part_inv s' /\ room s' n /\ forall fp', view s' fp' = view s fp'.
Proof.
  intros Hs Hb Hm [Hl Hr] s'. pose proof (pv_bucket _ Hs _ _ Hb) as Hinv. destruct (bv_ok _ _ _ Hinv) as [l Hok].
  pose proof (get_match_entry_spec b l fp Hok) as Hsp. rewrite Hm in Hsp. destruct Hsp as [Hil Hf].
  pose proof (bucket_ok_range _ _ _ Hok Hil) as Hi4. destruct (touch_ok b l i Hok Hil) as (l1 & l2 & Hl12 & Hok' & Hre).
  destruct (bucket_hit_only_reorders b l fp i Hok Hm) as (_ & _ & _ & _ & Hc).
  assert (live b i) as Hlive by by apply (live_in _ _ _ Hok).
  split_and!.
  - apply part_inv_insert; [done|]. eapply bucket_inv_renewed; [done | done | done | done | |].
    + by apply (bv_good _ _ _ Hinv i).
    + by apply (bv_clean _ _ _ Hinv i).
  - split; [done|]. unfold load, s' in *. tab_simpl.
    pose proof (touch_ndirty b i (bo_len _ _ Hok) Hi4) as Hn.
    pose proof (concat_dirty (pbks s) (home fp) b (touch i b) 0 Hb) as Hle. lia.
  - intros fp'. unfold view, s'. tab_simpl. destruct (decide (home fp' = home fp)) as [E|E].
    + rewrite E, Hb, list_lookup_insert_eq by (by eapply lookup_lt_Some). by rewrite Hc.
    + by rewrite list_lookup_insert_ne by congruence.
Qed.

Lemma init_table_find fp : fp <> 0 -> table_find init_ptable fp = None.
Proof.
  intros Hfp. unfold table_find. destruct (get_match_entry_f init_ptable fp) as [ef|] eqn:E; [|done].
  pose proof (get_match_entry_f_fp _ _ _ E) as Hef.
  unfold get_match_entry_f in E. destruct (for_first _ _ _) as [i|]; [|done]. injection E as <-.
  pose proof (probe_bounds fp i). unfold entry_f, init_ptable in Hef.
  rewrite (nth_lookup_Some _ _ _ (HashEntryF 0 0 0 PBA_INVALID)) in Hef by (apply lookup_replicate; split; [done | lia]).
  by destruct Hfp.
Qed.

(** A GET of a fingerprint that is there, in the bucket or in the table. *)
Lemma p_get_ok s fp v n :
  part_inv s -> fp <> 0 -> view s fp = Some v -> room s n ->
  exists s', p_get (home fp) fp s = Some (Some v, s') /\ part_inv s' /\ room s' n /\
    forall fp', fp' <> 0 -> view s' fp' = view s fp'.
Proof.
  intros Hs Hfp Hvw Hr. unfold p_get. destruct (bucket_of_home s fp Hs) as (b & Hb & Hinv). rewrite Hb.
  destruct (get_match_entry b fp) as [i|] eqn:Hm.
  { eexists. destruct (p_hit s fp b i n Hs Hb Hm Hr) as (H1 & H2 & H3). split; [|by eauto].
    rewrite <- Hvw. unfold view. rewrite Hb. unfold cached. by rewrite Hm. }
  assert (missed s fp) as Hmiss by (exists b; split; [done | unfold cached; by rewrite Hm]).
  pose proof (missed_view _ _ Hmiss) as Hview. rewrite Hvw in Hview. symmetry in Hview.
  assert (exists t, ptab s = Some t /\ tab s = t) as (t & -> & Et).
  { destruct s as [[t|] bs]; [by exists t|]. cbn [tab ptab] in Hview. by rewrite init_table_find in Hview. }
  unfold table_find in Hview. rewrite Et in Hview.
  destruct (get_match_entry_f t fp) as [ef|] eqn:He; [|done]. injection Hview as <-.
  assert (f_fingerprint ef = fp) as Hef by by eapply get_match_entry_f_fp.
  assert (bounded (f_kv_size ef, f_pba ef)) as Hv.
  { apply (pv_found _ Hs fp); [done|]. unfold table_find. by rewrite Et, He. }
  destruct ef as [ffp off fsize fpba]. cbn [f_fingerprint f_kv_size f_pba] in *. subst ffp.
  pose proof (WritesOld s fp _ off Hmiss Hvw) as Hw. cbn [fst snd] in Hw.
  rewrite <- (Nat.add_0_r n) in Hr.
  destruct (store_or_flush_room _ _ _ _ _ n Hs Hfp Hv Hw Hr) as (s' & E & Hr').
  destruct (store_or_flush_ok _ _ _ _ _ _ Hs Hfp Hv Hw E) as [Hs' Hv'].
  exists s'. rewrite E. split; [done|]. split; [done|]. split; [done|].
  intros fp' H0. rewrite Hv' by done. case_decide as Hd; [|done]. by rewrite Hd, Hvw.
Qed.

(** The partition and the map agree, but for the fingerprint the free cells have. *)
Definition agrees (s : partition) (m : gmap Z (Z * Z)) : Prop :=
  part_inv s /\ forall fp, fp <> 0 -> view s fp = m !! fp.
End Partition.

(** ** Sequences of operations *)

(** Operations on keys of one partition, given by the two halves of the hash. *)
Inductive op : Type := OpSet (hash_high fp size p : Z) | OpGet (hash_high fp : Z).

Definition op_fp (o : op) : Z := match o with OpSet _ fp _ _ | OpGet _ fp => fp end.
Definition op_bucket (o : op) : nat := match o with OpSet h _ _ _ | OpGet h _ => part_bucket h end.

Definition p_op (o : op) (s : partition) : option (option (Z * Z) * partition) :=
  match o with
  | OpSet h fp size p => match p_set (part_bucket h) fp size p s with Some s' => Some (None, s') | None => None end
  | OpGet h fp => p_get (part_bucket h) fp s
  end.

(** What each answers, or [None] if one aborts. *)
Fixpoint p_run (os : list op) (s : partition) : option (list (option (Z * Z)) * partition) :=
  match os with
  | [] => Some ([], s)
  | o :: rest =>
      match p_op o s with
      | Some (a, s1) => match p_run rest s1 with Some (l, s2) => Some (a :: l, s2) | None => None end
      | None => None
      end
  end.

(** The same on a finite map. *)
Definition m_op (o : op) (m : gmap Z (Z * Z)) : option (Z * Z) * gmap Z (Z * Z) :=
  match o with
  | OpSet _ fp size p => (None, <[fp := (size, p)]> m)
  | OpGet _ fp => (m !! fp, m)
  end.

Fixpoint m_run (os : list op) (m : gmap Z (Z * Z)) : list (option (Z * Z)) * gmap Z (Z * Z) :=
  match os with
  | [] => ([], m)
  | o :: rest => let '(a, m1) := m_op o m in let '(l, m2) := m_run rest m1 in (a :: l, m2)
  end.

(** No fingerprint is 0, sizes and blocks are in the range of their fields, and
    a GET is for a fingerprint that the map has. *)
Definition op_ok (o : op) (m : gmap Z (Z * Z)) : Prop :=
  match o with OpSet _ fp size p => fp <> 0 /\ bounded (size, p) | OpGet _ fp => fp <> 0 /\ is_Some (m !! fp) end.

Fixpoint ops_ok (os : list op) (m : gmap Z (Z * Z)) : Prop :=
  match os with [] => True | o :: rest => op_ok o m /\ ops_ok rest (snd (m_op o m)) end.

Definition sets (os : list op) : nat := sum_list ((fun o => match o with OpSet _ _ _ _ => 1 | OpGet _ _ => 0 end) <$> os)%nat.

(** Keys with the same fingerprint are in the same bucket. *)
Definition same_bucket (os : list op) : Prop :=
  forall o1 o2, o1 ∈ os -> o2 ∈ os -> op_fp o1 = op_fp o2 -> op_bucket o1 = op_bucket o2.

(** The bucket that the first operation on [fp] names. *)
Definition home_of (os : list op) (fp : Z) : nat :=
  match list_find (fun o => op_fp o = fp) os with Some (_, o) => op_bucket o | None => 0%nat end.

Lemma op_bucket_lt o : (op_bucket o < 4)%nat.
Proof. destruct o; apply part_bucket_lt. Qed.

Lemma home_of_lt os fp : (home_of os fp < 4)%nat.
Proof. unfold home_of. destruct (list_find _ _) as [[? ?]|]; [apply op_bucket_lt | lia]. Qed.

Lemma home_of_op os o : same_bucket os -> o ∈ os -> op_bucket o = home_of os (op_fp o).
Proof.
  intros Hsb Ho. unfold home_of. destruct (list_find _ _) as [[i o']|] eqn:E.
  - apply list_find_Some in E as (Hi & Hf & _). apply Hsb; [done | by eapply list_elem_of_lookup_2 | done].
  - eapply list_find_None, Forall_forall in E; [|exact Ho]. by destruct E.
Qed.

Section Run.
Variable home : Z -> nat.
Hypothesis home_lt : forall fp, (home fp < 4)%nat.
Abbreviation agrees := (agrees home).

Lemma p_op_refines o s m n :
  agrees s m -> op_bucket o = home (op_fp o) -> op_ok o m -> room s (sets [o] + n) ->
  exists s', p_op o s = Some (fst (m_op o m), s') /\ agrees s' (snd (m_op o m)) /\ room s' n.
Proof.
  intros [Hs Hv] Hh Ho Hr. destruct o as [h fp size p | h fp]; cbn in Ho, Hh |- *; rewrite Hh.
  - destruct Ho as [Hfp Hb]. destruct (p_set_ok home home_lt s fp size p n Hs Hfp Hb Hr) as (s' & -> & Hs' & Hr' & Hv').
    exists s'. split; [done|]. split; [|done]. split; [done|]. intros fp' H0. rewrite (Hv' fp' H0).
    case_decide as Hd; [by rewrite Hd, lookup_insert_eq | rewrite lookup_insert_ne by congruence; by apply Hv].
  - destruct Ho as [Hfp [v Hmv]]. assert (view home s fp = Some v) as Hvw by by rewrite Hv.
    destruct (p_get_ok home home_lt s fp v n Hs Hfp Hvw Hr) as (s' & -> & Hs' & Hr' & Hv'). exists s'.
    rewrite Hmv. split; [done|]. split; [|done]. split; [done|]. intros fp' H0. rewrite (Hv' fp' H0). by apply Hv.
Qed.

Lemma p_run_refines os s m n :
  agrees s m -> (forall o, o ∈ os -> op_bucket o = home (op_fp o)) -> ops_ok os m -> room s (sets os + n) ->
  exists s', p_run os s = Some (fst (m_run os m), s') /\ agrees s' (snd (m_run os m)) /\ room s' n.
Proof.
  revert s m. induction os as [|o os IH]; intros s m Ha Hh Hok Hr; [by exists s|].
  destruct Hok as [Ho Hok].
  destruct (p_op_refines o s m (sets os + n) Ha (Hh o ltac:(by left)) Ho) as (s1 & E1 & Ha1 & Hr1).
  { unfold sets in *. simpl in *. by rewrite Nat.add_0_r, Nat.add_assoc. }
  destruct (IH s1 _ Ha1 (fun o' H => Hh o' ltac:(by right)) Hok Hr1) as (s2 & E2 & Ha2 & Hr2). exists s2. cbn [p_run m_run].
  rewrite E1, E2. destruct (m_op o m) as [a m1]. cbn [fst snd] in *. by destruct (m_run os m1).
Qed.

Definition init_partition : partition := Partition None (replicate (Z.to_nat BUCKETS_IN_PART) init_bucket).

Lemma init_agrees : agrees init_partition ∅.
Proof.
  split; [split|].
  - done.
  - apply init_ptable_ok.
  - intros fp v Hfp. cbn [init_partition tab ptab]. by rewrite init_table_find.
  - intros k b [-> _]%lookup_replicate. split; [by exists []; apply init_bucket_ok | |];
      intros j Hj%(live_in _ _ _ init_bucket_ok); by apply not_elem_of_nil in Hj.
  - intros fp Hfp. unfold view. cbn [init_partition pbks tab ptab].
    rewrite lookup_replicate_2 by apply home_lt. by rewrite init_table_find.
Qed.
End Run.

(** C3: A partition is a finite map. Started empty, its four buckets and its table
    answer any sequence of at most 256 SETs and any number of GETs as a map from
    fingerprints to sizes and blocks does: entries move between buckets and
    table, are evicted and brought back, and no flush aborts. It is of [p_set]
    and [p_get], which the operations of the index implement on the whole
    handler ([BigkvPart]), one at a time. The keys are given by the two halves
    of the hash; the conditions are that no fingerprint is 0, that keys with the
    same fingerprint are in the same bucket, since the table tells them apart by
    nothing else, and that a GET is for a key that was SET before. *)
Theorem partition_refines_map (os : list op) :
  ops_ok os ∅ -> same_bucket os -> (sets os <= Z.to_nat MAX_HOP)%nat ->
  exists s', p_run os init_partition = Some (fst (m_run os ∅), s') /\
    agrees (home_of os) s' (snd (m_run os ∅)).
Proof.
  intros Hok Hsb Hn.
  destruct (p_run_refines _ (home_of_lt os) os init_partition ∅ 0 (init_agrees _ (home_of_lt os))) as (s' & E & Ha & _);
    [|done| |by exists s'].
  - intros o Ho. by apply home_of_op.
  - split; [done|]. unfold load. cbn [init_partition tab ptab pbks].
    assert (used init_ptable = 0%nat) as -> by by vm_compute.
    assert (length (filter is_dirty (concat (replicate (Z.to_nat BUCKETS_IN_PART) init_bucket))) = 0%nat) as -> by by vm_compute.
    lia.
Qed.

(** ** A concrete run *)

(** Five keys of one bucket: the fifth needs a flush and evicts the first, which
    is then brought back. The first and the last have the same fingerprint
    modulo the size of the table. *)
Definition busy_ops : list op :=
  [OpSet 4 5 1 10; OpSet 4 8 2 20; OpSet 4 12 3 30; OpSet 4 16 4 40; OpSet 4 1029 5 50; OpSet 4 8 6 60;
   OpGet 4 5; OpGet 4 8; OpGet 4 1029; OpSet 7 3 7 70; OpGet 7 3].

Lemma busy_same_bucket : same_bucket busy_ops.
Proof.
  intros o1 o2. unfold busy_ops. rewrite !elem_of_cons, !elem_of_nil. intros H1 H2.
  repeat (destruct H1 as [-> | H1]; [repeat (destruct H2 as [-> | H2]; [by vm_compute|]); done|]). done.
Qed.

Lemma partition_refines_map_witness :
  ops_ok busy_ops ∅ /\
  exists s', p_run busy_ops init_partition =
    Some ([None; None; None; None; None; None; Some (1, 10); Some (6, 60); Some (5, 50); None; Some (7, 70)], s').
Proof.
  assert (ops_ok busy_ops ∅) as Hok by (cbn; unfold bounded, PBA_INVALID; cbn; split_and!; (lia || by eexists)).
  split; [exact Hok|].
  destruct (partition_refines_map busy_ops Hok busy_same_bucket) as (s' & E & _); [by vm_compute; lia|].
  exists s'. rewrite E. reflexivity.
Defined.
