(* ===== verification/Bigkv.v ===== *)
(** * The bigkv index ([src/bigkv_index.c])

    The operations on the whole handler. A lookup that misses its bucket reads
    the table of its partition, takes the entry into the bucket and reads the
    pair; an insertion into a bucket without a clean entry first flushes the
    buckets of the partition to its table. The waits are steps: a callback notes
    in the request's parameters where to go on and sends it back. *)

From Stdlib Require Import ZArith Lia.
From stdpp Require Import prelude gmap.
From S2P Require Import Prelude Config Queue CondLock World Stopwatch KvPair Request Device DeviceSpec Handler.
From S2P Require Import Pair BigkvTable Bucket PartTable.

#[local] Open Scope Z_scope.

(** [struct bigkv_index] with [struct hash_table]: the two arrays. *)
Record bigkv_index : Type := BigkvIndex { bucket : tmap hash_bucket; part : tmap hash_partition }.

(** The state [bigkv_index_init] leaves. *)
Definition bigkv_index_init : bigkv_index :=
  BigkvIndex (TMap init_bucket ∅) (TMap (HashPartition 0 PBA_INVALID) ∅).

Inductive bi_step : Type :=
| BI_STEP_INIT
| BI_STEP_KEY_MISMATCH
| BI_STEP_UPDATE_TABLE
| BI_STEP_WRITE_PTABLE
| BI_STEP_WRITE_KV.

Record bi_params : Type := BiParams { read_step : bi_step; write_step : bi_step }.

Definition make_bi_params : bi_params := BiParams BI_STEP_INIT BI_STEP_INIT.

Abbreviation bworld := (world bigkv_index bi_params).

Definition bucket_idx (h : Z) : Z := h mod NR_BUCKET.
Definition part_idx (h : Z) : Z := bucket_idx h / BUCKETS_IN_PART.

(** ** Access to the tables *)

Definition get_bucket (i : Z) : M bworld hash_bucket := mreads (fun w => tget (bucket (ops w)) i).
Definition put_bucket (i : Z) (b : hash_bucket) : M bworld unit :=
  mmod (fun w => set_ops (BigkvIndex (tset (bucket (ops w)) i b) (part (ops w))) w).

Definition get_part (i : Z) : M bworld hash_partition := mreads (fun w => tget (part (ops w)) i).
Definition put_part (i : Z) (p : hash_partition) : M bworld unit :=
  mmod (fun w => set_ops (BigkvIndex (bucket (ops w)) (tset (part (ops w)) i p)) w).

(** The four buckets from [&table->bucket[part_idx*BUCKETS_IN_PART]] on. *)
Definition get_part_buckets (p : Z) (t : tmap hash_bucket) : list hash_bucket :=
  (fun k : nat => tget t (p * BUCKETS_IN_PART + Z.of_nat k)) <$> seq 0 (Z.to_nat BUCKETS_IN_PART).

Fixpoint put_buckets (i : Z) (bs : list hash_bucket) (t : tmap hash_bucket) : tmap hash_bucket :=
  match bs with
  | [] => t
  | b :: rest => put_buckets (i + 1) rest (tset t i b)
  end.

(** [update_part_table(ptable, part_buckets)] in place: on the table in the
    buffer and on the buckets in the index. *)
Definition flush_part (p buf : Z) : M bworld unit :=
  let* l := load_buf buf in
  let* bi := mreads ops in
  match update_part_table (decode_ptable l) (get_part_buckets p (bucket bi)) with
  | Some (t, bs) =>
      store_buf buf (encode_ptable t) ;;;
      mmod (set_ops (BigkvIndex (put_buckets (p * BUCKETS_IN_PART) bs (bucket bi)) (part bi)))
  | None => mstop SAbort
  end.

(** ** Callbacks *)

Definition cb_part_table_read (r : Z) : M bworld unit :=
  let* rq := load_req r in
  load_params (params rq) ;;;
  store_params (params rq) (BiParams BI_STEP_UPDATE_TABLE BI_STEP_WRITE_PTABLE) ;;;
  retry_req_to_hlr r ;;; ret tt.

Definition call_end (f : fn) (r : Z) : M bworld unit :=
  match f with
  | FN_net_end_req => net_end_req r
  | FN_NULL => mstop SNull
  | _ => mstop SDangling
  end.

Definition cb_keycmp (r : Z) : M bworld unit :=
  let* rq := load_req r in
  let* c := keycmp_k_v (req_key rq) (req_value rq) in
  if c =? 0 then call_end (end_req rq) r
  else
    let* bp := load_params (params rq) in
    store_params (params rq) (BiParams BI_STEP_KEY_MISMATCH (write_step bp)) ;;;
    retry_req_to_hlr r ;;; ret tt.

Definition cb_part_table_write_for_get (arg : Z) : M bworld unit := free_buf arg.

Definition cb_part_table_write (r : Z) : M bworld unit :=
  let* rq := load_req r in
  let* bp := load_params (params rq) in
  store_params (params rq) (BiParams (read_step bp) BI_STEP_WRITE_KV) ;;;
  free_buf (temp_buf rq) ;;;
  retry_req_to_hlr r ;;; ret tt.

Definition bi_exec (f : fn) (arg : Z) : M bworld unit :=
  match f with
  | FN_NULL => mstop SNull
  | FN_net_end_req => net_end_req arg
  | FN_cb_keycmp => cb_keycmp arg
  | FN_cb_part_table_read => cb_part_table_read arg
  | FN_cb_part_table_write => cb_part_table_write arg
  | FN_cb_part_table_write_for_get => cb_part_table_write_for_get arg
  | FN_reap_seg_buf => reap_seg_buf arg
  end.

(** ** Operations

    The stopwatch around [bigkv_index_set] only feeds a printed total and is
    left out. *)

Definition set_temp_buf (r buf : Z) : M bworld unit :=
  let* rq := load_req r in store_req r (with_temp_buf buf rq).

(** The label [read_kvpair]. *)
Definition read_kvpair (r : Z) (e : hash_entry) : M bworld Z :=
  let* rq := load_req r in
  let* cb := make_callback FN_cb_keycmp r in
  dev_abs_read bi_exec (pba e) (kv_size e) (value (req_value rq)) cb ;;;
  ret 0.

(** The read of a partition table into the request's buffer. *)
Definition read_ptable (r p buf : Z) : M bworld Z :=
  let* cb := make_callback FN_cb_part_table_read r in
  let* pt := get_part p in
  dev_abs_read bi_exec (part_pba pt) PART_TABLE_GRAINS buf cb ;;;
  ret 0.

(** The label [get_target_retry]: [ptable] is null after the first round. Two
    rounds are enough: see [flush_frees_an_entry]. *)
Fixpoint get_target_retry (fuel : nat) (h_high fp : Z) (ef : hash_entry_f) (ptable : Z) : M bworld Z :=
  match fuel with
  | O => mstop SFuel
  | S n =>
      let* b := get_bucket (bucket_idx h_high) in
      match get_target_entry b fp with
      | Some i =>
          put_bucket (bucket_idx h_high) (fill_from_ptable i ef b) ;;;
          free_buf ptable ;;;
          ret 0
      | None =>
          let p := part_idx h_high in
          flush_part p ptable ;;;
          let* cb := make_callback FN_cb_part_table_write_for_get ptable in
          let* pba := get_next_pba PART_TABLE_SIZE in
          let* pt := get_part p in
          put_part p (HashPartition (BigkvTable.flying pt) (wrap 42 pba)) ;;;
          dev_abs_write bi_exec (wrap 42 pba) PART_TABLE_GRAINS ptable cb ;;;
          get_target_retry n h_high fp ef NULL
      end
  end.

(** The label [bi_update_table]. *)
Definition bi_update_table (r : Z) : M bworld Z :=
  let* rq := load_req r in
  let k := req_key rq in
  let* l := load_buf (temp_buf rq) in
  match get_match_entry_f (decode_ptable l) (hash_low k) with
  | None => ret (-1)
  | Some ef =>
      set_temp_buf r NULL ;;;
      let* cb := make_callback FN_cb_keycmp r in
      dev_abs_read bi_exec (f_pba ef) (f_kv_size ef) (value (req_value rq)) cb ;;;
      get_target_retry 2 (hash_high k) (hash_low k) ef (temp_buf rq)
  end.

Definition bigkv_index_get (r : Z) : M bworld Z :=
  let* rq := load_req r in
  let k := req_key rq in
  let* p := ensure_params r make_bi_params in
  let* bp := load_params p in
  match read_step bp with
  | BI_STEP_UPDATE_TABLE => bi_update_table r
  | _ =>
      let* b := get_bucket (bucket_idx (hash_high k)) in
      match get_match_entry b (hash_low k) with
      | Some i =>
          put_bucket (bucket_idx (hash_high k)) (touch i b) ;;;
          read_kvpair r (entry (touch i b) i)
      | None =>
          let* buf := malloc PART_TABLE_SIZE in
          set_temp_buf r buf ;;;
          read_ptable r (part_idx (hash_high k)) buf
      end
  end.

(** The label [bi_write_ptable]. *)
Definition bi_write_ptable (r : Z) : M bworld Z :=
  let* rq := load_req r in
  let p := part_idx (hash_high (req_key rq)) in
  let* pt := get_part p in
  put_part p (HashPartition 0 (part_pba pt)) ;;;
  flush_part p (temp_buf rq) ;;;
  let* cb := make_callback FN_cb_part_table_write r in
  let* pba := get_next_pba PART_TABLE_SIZE in
  let* pt := get_part p in
  put_part p (HashPartition (BigkvTable.flying pt) (wrap 42 pba)) ;;;
  dev_abs_write bi_exec (wrap 42 pba) PART_TABLE_GRAINS (temp_buf rq) cb ;;;
  ret 0.

(** The label [bi_get_entry], down to [write_kvpair]. *)
Definition bi_get_entry (r : Z) : M bworld Z :=
  let* rq := load_req r in
  let k := req_key rq in
  let v := req_value rq in
  let* b := get_bucket (bucket_idx (hash_high k)) in
  match get_target_entry b (hash_low k) with
  | Some i =>
      let* pba0 := get_next_pba (val_len v) in
      let b' := fill_from_set i (hash_low k) (val_len v / GRAIN_UNIT) pba0 b in
      put_bucket (bucket_idx (hash_high k)) b' ;;;
      let* cb := make_callback (end_req rq) r in
      copy_key_to_value k v ;;;
      dev_abs_write bi_exec (pba (entry b' i)) (kv_size (entry b' i)) (value v) cb ;;;
      ret 0
  | None =>
      let* buf := malloc PART_TABLE_SIZE in
      set_temp_buf r buf ;;;
      let* pt := get_part (part_idx (hash_high k)) in
      if negb (part_pba pt =? PBA_INVALID) then
        put_part (part_idx (hash_high k)) (HashPartition 1 (part_pba pt)) ;;;
        read_ptable r (part_idx (hash_high k)) buf
      else
        store_buf buf (encode_ptable init_ptable) ;;;
        bi_write_ptable r
  end.

Definition bigkv_index_set (r : Z) : M bworld Z :=
  let* rq := load_req r in
  let* p := ensure_params r make_bi_params in
  let* bp := load_params p in
  match write_step bp with
  | BI_STEP_WRITE_PTABLE => bi_write_ptable r
  | BI_STEP_WRITE_KV => bi_get_entry r
  | _ =>
      let* pt := get_part (part_idx (hash_high (req_key rq))) in
      if negb (BigkvTable.flying pt =? 0) then retry_req_to_hlr r ;;; ret 0
      else bi_get_entry r
  end.

Definition bigkv_index_delete (r : Z) : M bworld Z := ret 0.

#[export] Instance bigkv_ops : KvOps bigkv_index bi_params := {
  ops_init := bigkv_index_init;
  get_kv := bigkv_index_get;
  set_kv := bigkv_index_set;
  delete_kv := bigkv_index_delete;
  exec := bi_exec
}.

#[export] Instance bigkv_laws : KvOpsLaws bigkv_index bi_params.
Proof. by split. Qed.

(** ** Insertion *)

Abbreviation sys_ok := (Pair.sys_ok PBA_INVALID).
Abbreviation len_ok := (Pair.len_ok 14).

(** The bucket of a key. *)
Definition bucket_of (w : bworld) (k : key_struct) : hash_bucket :=
  tget (bucket (ops w)) (bucket_idx (hash_high k)).

Definition with_bucket (i : Z) (b : hash_bucket) (bi : bigkv_index) : bigkv_index :=
  BigkvIndex (tset (bucket bi) i b) (part bi).

Lemma fill_from_set_entry b l fp i size p :
  bucket_ok b l -> get_target_entry b fp = Some i -> 0 <= size < 2 ^ 14 -> 0 <= p < PBA_INVALID ->
  entry (fill_from_set i fp size p b) i = HashEntry fp (reserve (entry b i)) 1 0 size p.
Proof.
  intros Hok Ht Hs Hp. pose proof (target_range _ _ _ _ Hok Ht) as Hi. unfold PBA_INVALID in Hp.
  assert (HashEntry fp (reserve (entry b i)) 1 0 size p =
          HashEntry fp (reserve (entry b i)) 1 0 (wrap 14 size) (wrap 42 p)) as ->
    by by rewrite !wrap_small by lia.
  eapply renewed_self; [|done]. by apply renewed_store_age; [apply Hok | |].
Qed.

Lemma bi_get_entry_ok ring n (w : bworld) r rq b l i :
  sys_ok ring (S (S n)) w -> req_ready w r rq b -> len_ok w rq b ->
  bucket_ok (bucket_of w (req_key rq)) l ->
  get_target_entry (bucket_of w (req_key rq)) (hash_low (req_key rq)) = Some i ->
  let len := val_len (req_value rq) in
  exists p w',
    bi_get_entry r w = Ret 0 w' /\ 0 <= p < PBA_INVALID /\ 0 <= len / SOB < 2 ^ 14 /\
    p * SOB = Ring.phys ring (fst (Ring.alloc len ring)) /\
    ops w' = with_bucket (bucket_idx (hash_high (req_key rq)))
               (fill_from_set i (hash_low (req_key rq)) (len / SOB) p (bucket_of w (req_key rq))) (ops w) /\
    answered r rq w w' /\
    staged_holds w' p (len / SOB) (take (Z.to_nat (len / SOB * SOB)) (pair_of rq b)) /\
    sys_ok (snd (Ring.alloc len ring)) n w'.
Proof.
  intros Hsys Hrq Hlen Hok Ht len. unfold bi_get_entry.
  rewrite (bind_ret _ _ _ _ _ (load_req_ok _ _ _ (qr_req _ _ _ _ Hrq))). cbn zeta.
  erewrite bind_ret by exact eq_refl. fold (bucket_of w (req_key rq)). rewrite Ht.
  destruct (store_pair_ok bi_exec (fun _ => eq_refl) PBA_INVALID 14 ring n w r rq b Hsys Hrq Hlen)
    as (p & w1 & Ha & Hops1 & Hk & Hp & Hph & Hrest). fold len in Ha, Hk, Hph, Hrest. fold len.
  rewrite (bind_ret _ _ _ _ _ Ha). change GRAIN_UNIT with SOB.
  rewrite (fill_from_set_entry _ l) by done. cbn [pba kv_size].
  erewrite bind_ret by exact eq_refl.
  destruct (Hrest (with_bucket (bucket_idx (hash_high (req_key rq)))
              (fill_from_set i (hash_low (req_key rq)) (len / SOB) p (bucket_of w (req_key rq))) (ops w1)))
    as (w' & Hw & Hops & Han & Hh & Hs).
  exists p, w'. split; [exact Hw|]. split; [done|]. split; [done|]. split; [done|].
  split; [by rewrite Hops, Hops1 | by split_and!].
Qed.

(** The parameters of a request at its first call, or later. *)
Definition starts (w : bworld) (rq : request) (bp : bi_params) : Prop :=
  (params rq = NULL /\ bp = make_bi_params) \/
  (params rq <> NULL /\ params_heap w !! params rq = Some bp).

(** The world after [if (!req->params) req->params = make_bi_params();]. *)
Definition begun (w : bworld) (r : Z) (rq : request) : bworld :=
  if params rq =? NULL then started r rq make_bi_params w else w.
Definition begun_req (w : bworld) (rq : request) : request :=
  if params rq =? NULL then with_params (mem_next w) rq else rq.

Lemma ensure_begun (w : bworld) r rq bp :
  req_arr w !! r = Some rq -> starts w rq bp -> mem_ok w ->
  ensure_params r make_bi_params w = Ret (params (begun_req w rq)) (begun w r rq) /\
  load_params (params (begun_req w rq)) (begun w r rq) = Ret bp (begun w r rq).
Proof.
  intros Hr [[Hp ->] | [Hp Hb]] Hm; unfold begun, begun_req.
  - rewrite (proj2 (Z.eqb_eq _ _) Hp). split; [by apply ensure_params_new|].
    apply load_params_ok. apply lookup_insert_eq.
  - rewrite (proj2 (Z.eqb_neq _ _) Hp). split; [by apply ensure_params_old | by apply load_params_ok].
Qed.

Lemma begun_sys lim ring n w r rq : Pair.sys_ok lim ring n w -> Pair.sys_ok lim ring n (begun w r rq).
Proof. unfold begun. case_match; [apply sys_ok_started | done]. Qed.

Lemma begun_ready lim ring n w r rq b :
  Pair.sys_ok lim ring n w -> req_ready w r rq b -> req_ready (begun w r rq) r (begun_req w rq) b.
Proof.
  intros Hs Hr. unfold begun, begun_req. case_match; [by eapply req_ready_started | done].
Qed.

Lemma begun_answered w w' r rq : answered r (begun_req w rq) (begun w r rq) w' -> answered r rq w w'.
Proof. unfold begun, begun_req. case_match; [apply answered_started | done]. Qed.

Lemma begun_same w r rq :
  ops (begun w r rq) = ops w /\ dev (begun w r rq) = dev w /\ req_key (begun_req w rq) = req_key rq /\
  req_value (begun_req w rq) = req_value rq.
Proof. unfold begun, begun_req. by case_match. Qed.

Lemma begun_params (w : bworld) r rq bp :
  starts w rq bp -> mem_ok w ->
  params (begun_req w rq) <> NULL /\ params_heap (begun w r rq) !! params (begun_req w rq) = Some bp.
Proof.
  intros [[Hp ->] | [Hp Hb]] [Hm _]; unfold begun, begun_req.
  - rewrite (proj2 (Z.eqb_eq _ _) Hp). split; [simpl; unfold NULL; lia | apply lookup_insert_eq].
  - by rewrite (proj2 (Z.eqb_neq _ _) Hp).
Qed.

Lemma bigkv_set_ok ring n (w : bworld) r rq b l i bp :
  sys_ok ring (S (S n)) w -> req_ready w r rq b -> len_ok w rq b ->
  starts w rq bp -> write_step bp = BI_STEP_INIT \/ write_step bp = BI_STEP_WRITE_KV ->
  BigkvTable.flying (tget (part (ops w)) (part_idx (hash_high (req_key rq)))) = 0 ->
  bucket_ok (bucket_of w (req_key rq)) l ->
  get_target_entry (bucket_of w (req_key rq)) (hash_low (req_key rq)) = Some i ->
  let len := val_len (req_value rq) in
  exists p w',
    bigkv_index_set r w = Ret 0 w' /\ 0 <= p < PBA_INVALID /\ 0 <= len / SOB < 2 ^ 14 /\
    p * SOB = Ring.phys ring (fst (Ring.alloc len ring)) /\
    ops w' = with_bucket (bucket_idx (hash_high (req_key rq)))
               (fill_from_set i (hash_low (req_key rq)) (len / SOB) p (bucket_of w (req_key rq))) (ops w) /\
    answered r rq w w' /\
    staged_holds w' p (len / SOB) (take (Z.to_nat (len / SOB * SOB)) (pair_of rq b)) /\
    sys_ok (snd (Ring.alloc len ring)) n w'.
Proof.
  intros Hsys Hrq Hlen Hst Hstep Hfly Hok Ht len. unfold bigkv_index_set.
  rewrite (bind_ret _ _ _ _ _ (load_req_ok _ _ _ (qr_req _ _ _ _ Hrq))). cbn zeta.
  destruct (ensure_begun w r rq bp (qr_req _ _ _ _ Hrq) Hst (so_mem _ _ _ _ Hsys)) as [He Hl].
  rewrite (bind_ret _ _ _ _ _ He), (bind_ret _ _ _ _ _ Hl).
  destruct (begun_same w r rq) as (Eo & Ed & Ek & Ev).
  assert (match write_step bp with
          | BI_STEP_WRITE_PTABLE => bi_write_ptable r
          | BI_STEP_WRITE_KV => bi_get_entry r
          | _ => let* pt := get_part (part_idx (hash_high (req_key rq))) in
                 if negb (BigkvTable.flying pt =? 0) then retry_req_to_hlr r ;;; ret 0 else bi_get_entry r
          end (begun w r rq) = bi_get_entry r (begun w r rq)) as ->.
  { destruct Hstep as [-> | ->]; [|done]. erewrite bind_ret by exact eq_refl.
    rewrite Eo, Hfly. done. }
  destruct (bi_get_entry_ok ring n (begun w r rq) r (begun_req w rq) b l i) as (p & w' & Hrest).
  - by apply begun_sys.
  - by eapply begun_ready.
  - destruct Hlen. by split; rewrite ?Ek, ?Ev, ?Ed.
  - unfold bucket_of. by rewrite Eo, Ek.
  - unfold bucket_of. by rewrite Eo, Ek.
  - exists p, w'. unfold bucket_of, pair_of in *. rewrite Eo, Ek, Ev in Hrest. fold len in Hrest.
    destruct Hrest as (? & ? & ? & ? & ? & Han & ? & ?). split_and!; try done; try lia.
    by apply begun_answered.
Qed.

(** ** Lookup *)

(** The request was sent back without an answer. *)
Record requeued (r : Z) (rq : request) (bp : bi_params) (b' : list Z) (w w' : bworld) : Prop := Requeued {
  rq_retry : Fifo.items (retry_q w') = Fifo.items (retry_q w) ++ [r];
  rq_params : params_heap w' !! params rq = Some bp;
  rq_acks : acks w' = acks w;
  rq_ops : ops w' = ops w;
  rq_dev : dev w' = dev w;
  rq_req : req_arr w' = req_arr w;
  rq_bufs : bufs w' = <[value (req_value rq) := b']> (bufs w)
}.

Lemma cb_keycmp_mismatch (w w5 : bworld) r rq b x bp cmp c :
  req_ready w r rq b -> params rq <> NULL -> at_callback w w5 rq b x bp ->
  keycmp (req_key rq) (x ++ drop (length x) b) = Some cmp -> cmp <> 0 ->
  Fifo.full (retry_q w) = false ->
  exists w', (bi_exec FN_cb_keycmp r ;;; q_enqueue c CB_POOL ;;; ret 0) w5 = Ret 0 w' /\
    requeued r rq (BiParams BI_STEP_KEY_MISMATCH (write_step bp)) (x ++ drop (length x) b) w w'.
Proof.
  intros Hrq Hpar Hac Hk Hne Hroom. pose proof Hrq as [Hr _ _ _ _ _ _ _]. destruct Hac.
  assert (req_arr w5 !! r = Some rq) as Hr5 by by rewrite ac_req.
  assert (bufs w5 !! value (req_value rq) = Some (x ++ drop (length x) b)) as Hb5
    by (rewrite ac_bufs; apply lookup_insert_eq).
  assert (keycmp_k_v (req_key rq) (req_value rq) w5 = Ret cmp w5) as Hcmp.
  { unfold keycmp_k_v. rewrite (bind_ret _ _ _ _ _ (load_buf_ok _ _ _ Hb5)). by rewrite Hk. }
  assert (load_params (params rq) w5 = Ret bp w5) as Hp5
    by (apply load_params_ok; rewrite ac_params; apply lookup_insert_eq).
  cbn [bi_exec]. unfold cb_keycmp. unfold bind at 1.
  rewrite (bind_ret _ _ _ _ _ (load_req_ok _ _ _ Hr5)), (bind_ret _ _ _ _ _ Hcmp).
  rewrite (proj2 (Z.eqb_neq _ _) Hne), (bind_ret _ _ _ _ _ Hp5). erewrite bind_ret by exact eq_refl.
  erewrite bind_ret by (apply retry_req_ok; simpl; by rewrite ac_retry).
  unfold ret at 1. match goal with |- context [set_retry_q ?f ?v] => set (w6 := set_retry_q f v) end.
  destruct (return_callback c w6) as (bb & f & Hq & _). rewrite (bind_ret _ _ _ _ _ Hq).
  eexists. split; [done|]. subst w6. split; simpl; try congruence. apply lookup_insert_eq.
Qed.

Lemma cb_keycmp_match (w w5 : bworld) r rq b x bp c :
  req_ready w r rq b -> params rq <> NULL -> at_callback w w5 rq b x bp ->
  keycmp (req_key rq) (x ++ drop (length x) b) = Some 0 ->
  exists w', (bi_exec FN_cb_keycmp r ;;; q_enqueue c CB_POOL ;;; ret 0) w5 = Ret 0 w' /\
    answered r rq w w' /\ ops w' = ops w /\ handed_back PBA_INVALID c w w5 w'.
Proof.
  intros Hrq Hpar Hac Hk. pose proof Hrq as [Hr Hend _ _ _ _ _ _].
  assert (req_arr w5 !! r = Some rq) as Hr5 by by rewrite (ac_req _ _ _ _ _ _ Hac).
  assert (bufs w5 !! value (req_value rq) = Some (x ++ drop (length x) b)) as Hb5
    by (rewrite (ac_bufs _ _ _ _ _ _ Hac); apply lookup_insert_eq).
  assert (cb_keycmp r w5 = net_end_req r w5) as E.
  { unfold cb_keycmp. rewrite (bind_ret _ _ _ _ _ (load_req_ok _ _ _ Hr5)).
    rewrite (bind_ret _ _ w5 0 w5)
      by (unfold keycmp_k_v; rewrite (bind_ret _ _ _ _ _ (load_buf_ok _ _ _ Hb5)); by rewrite Hk).
    by rewrite Hend. }
  destruct (end_at_callback PBA_INVALID w w5 r rq b x bp c Hrq Hpar Hac) as (w' & He & Han).
  exists w'. split; [|done]. cbn [bi_exec]. unfold bind at 1. rewrite E. exact He.
Qed.

(** The world after the ages of the bucket were updated for a hit of entry [i]. *)
Definition touched (w : bworld) (k : key_struct) (i : Z) : bworld :=
  set_ops (with_bucket (bucket_idx (hash_high k)) (touch i (bucket_of w k)) (ops w)) w.

(** A lookup that hits its bucket reads the pair of the entry. *)
Lemma get_hit_step (w : bworld) r rq b l i bp :
  mem_ok w -> req_ready w r rq b -> starts w rq bp -> read_step bp <> BI_STEP_UPDATE_TABLE ->
  bucket_ok (bucket_of w (req_key rq)) l ->
  get_match_entry (bucket_of w (req_key rq)) (hash_low (req_key rq)) = Some i ->
  let e := entry (bucket_of w (req_key rq)) i in
  bigkv_index_get r w =
  (let* cb := make_callback FN_cb_keycmp r in
   dev_abs_read bi_exec (pba e) (kv_size e) (value (req_value rq)) cb ;;; ret 0)
    (begun (touched w (req_key rq) i) r rq).
Proof.
  intros Hmem Hrq Hst Hstep Hok Hm e. set (w1 := begun (touched w (req_key rq) i) r rq).
  destruct (ensure_begun w r rq bp (qr_req _ _ _ _ Hrq) Hst Hmem) as [He Hl].
  destruct (begun_same w r rq) as (Eo & Ed & Ek & Ev).
  unfold bigkv_index_get. rewrite (bind_ret _ _ _ _ _ (load_req_ok _ _ _ (qr_req _ _ _ _ Hrq))). cbn zeta.
  rewrite (bind_ret _ _ _ _ _ He), (bind_ret _ _ _ _ _ Hl).
  pose proof (get_match_entry_spec _ l (hash_low (req_key rq)) Hok) as Hspec. rewrite Hm in Hspec.
  pose proof (bucket_ok_range _ _ _ Hok (proj1 Hspec)) as Hi.
  assert (entry (touch i (bucket_of w (req_key rq))) i = with_lru 0 e) as Hent
    by (eapply renewed_self; [apply renewed_touch; [apply Hok | done] | done]).
  assert (bigkv_index_get_rest : (let* b0 := get_bucket (bucket_idx (hash_high (req_key rq))) in
     match get_match_entry b0 (hash_low (req_key rq)) with
     | Some i0 => put_bucket (bucket_idx (hash_high (req_key rq))) (touch i0 b0) ;;;
                  read_kvpair r (entry (touch i0 b0) i0)
     | None => let* buf := malloc PART_TABLE_SIZE in set_temp_buf r buf ;;;
               read_ptable r (part_idx (hash_high (req_key rq))) buf
     end) (begun w r rq) = read_kvpair r (with_lru 0 e) w1).
  { erewrite bind_ret by exact eq_refl. rewrite Eo. fold (bucket_of w (req_key rq)). rewrite Hm, Hent.
    erewrite bind_ret by exact eq_refl. f_equal. unfold w1, touched, begun. by case_match. }
  assert (req_arr w1 !! r = Some (begun_req w rq)) as Hr1.
  { unfold w1, begun, begun_req. case_match; [apply lookup_insert_eq | apply Hrq]. }
  destruct (read_step bp); try done.
  all: rewrite bigkv_index_get_rest; unfold read_kvpair;
    rewrite (bind_ret _ _ _ _ _ (load_req_ok _ _ _ Hr1)); by rewrite Ev.
Qed.

(** The request and the handler at that read. *)
Lemma touched_ready ring n (w : bworld) r rq b i bp :
  sys_ok ring n w -> req_ready w r rq b -> starts w rq bp ->
  let w1 := begun (touched w (req_key rq) i) r rq in
  sys_ok ring n w1 /\ req_ready w1 r (begun_req w rq) b /\ params (begun_req w rq) <> NULL /\
  params_heap w1 !! params (begun_req w rq) = Some bp.
Proof.
  intros Hsys Hrq Hst w1. pose proof (sys_ok_set_ops _ _ _ _
     (with_bucket (bucket_idx (hash_high (req_key rq))) (touch i (bucket_of w (req_key rq))) (ops w)) Hsys) as Hsys0.
  fold (touched w (req_key rq) i) in Hsys0. split; [by apply begun_sys|].
  split; [exact (begun_ready _ _ _ (touched w (req_key rq) i) r rq b Hsys0 (req_ready_set_ops _ _ _ _ _ Hrq))|].
  exact (begun_params (touched w (req_key rq) i) r rq bp Hst (so_mem _ _ _ _ Hsys0)).
Qed.

Lemma bigkv_get_hit ring n (w : bworld) r rq b l i bp x :
  sys_ok ring (S n) w -> req_ready w r rq b -> starts w rq bp -> read_step bp <> BI_STEP_UPDATE_TABLE ->
  bucket_ok (bucket_of w (req_key rq)) l ->
  get_match_entry (bucket_of w (req_key rq)) (hash_low (req_key rq)) = Some i ->
  let e := entry (bucket_of w (req_key rq)) i in
  0 < kv_size e -> kv_size e * SOB <= Z.of_nat (length b) -> staged_holds w (pba e) (kv_size e) x ->
  let w1 := begun (touched w (req_key rq) i) r rq in
  exists c w5,
    bigkv_index_get r w = (bi_exec FN_cb_keycmp r ;;; q_enqueue c CB_POOL ;;; ret 0) w5 /\
    req_ready w1 r (begun_req w rq) b /\ params (begun_req w rq) <> NULL /\
    at_callback w1 w5 (begun_req w rq) b x bp.
Proof.
  intros Hsys Hrq Hst Hstep Hok Hm e Hk Hkl Hholds w1.
  destruct (touched_ready ring (S n) w r rq b i bp Hsys Hrq Hst) as (Hsys1 & Hrq1 & Hpar & Hbp). fold w1 in Hsys1, Hrq1, Hbp.
  destruct (begun_same w r rq) as (_ & _ & _ & Ev).
  destruct (staged_read_ok bi_exec n w1 r (begun_req w rq) b FN_cb_keycmp (pba e) (kv_size e) x bp)
    as (c & w5 & Hread & Hac & _); try done; [apply Hsys1 | apply Hsys1 | by rewrite (so_grain _ _ _ _ Hsys1) | |].
  { destruct Hholds as (ss & sb & Hh). exists ss, sb. unfold w1, begun. by case_match. }
  exists c, w5. split; [|by split_and!]. rewrite Ev in Hread.
  rewrite (get_hit_step w r rq b l i bp (so_mem _ _ _ _ Hsys) Hrq Hst Hstep Hok Hm). exact Hread.
Qed.

Lemma answered_set_ops (w w' : bworld) i r rq : answered r rq (set_ops i w) w' -> answered r rq w w'.
Proof. intros []. by split. Qed.

(** What an insertion leaves in the bucket. *)
Lemma set_bucket_ok b l fp i size p :
  bucket_ok b l -> get_target_entry b fp = Some i -> 0 <= size < 2 ^ 14 -> 0 <= p < PBA_INVALID ->
  exists l', bucket_ok (fill_from_set i fp size p b) (i :: l').
Proof.
  intros Hok Ht Hs Hp. unfold PBA_INVALID in Hp.
  destruct (insert_renewed b (fill_from_set i fp size p b) l fp i
              (HashEntry fp (reserve (entry b i)) 1 0 (wrap 14 size) (wrap 42 p)) Hok Ht)
    as (H1 & _); simpl.
  - intros Hi. by apply renewed_store_age; [apply Hok | |].
  - done.
  - rewrite wrap_small by lia. unfold PBA_INVALID. lia.
  - by eexists.
Qed.

(** A SET that finds room in its bucket stores the pair in a fresh block of
    the log, makes the bucket entry the youngest and dirty, leaves every other
    bucket and partition alone, and answers the client. *)
Theorem bigkv_set_stores ring n (w : bworld) r rq b l i bp :
  sys_ok ring (S (S n)) w -> req_ready w r rq b -> len_ok w rq b ->
  starts w rq bp -> write_step bp = BI_STEP_INIT \/ write_step bp = BI_STEP_WRITE_KV ->
  BigkvTable.flying (tget (part (ops w)) (part_idx (hash_high (req_key rq)))) = 0 ->
  bucket_ok (bucket_of w (req_key rq)) l ->
  get_target_entry (bucket_of w (req_key rq)) (hash_low (req_key rq)) = Some i ->
  let len := val_len (req_value rq) in
  exists p w' l',
    bigkv_index_set r w = Ret 0 w' /\
    p * SOB = Ring.phys ring (fst (Ring.alloc len ring)) /\
    bucket_ok (bucket_of w' (req_key rq)) (i :: l') /\
    entry (bucket_of w' (req_key rq)) i =
      HashEntry (hash_low (req_key rq)) (reserve (entry (bucket_of w (req_key rq)) i)) 1 0 (len / SOB) p /\
    (forall j, j <> bucket_idx (hash_high (req_key rq)) ->
       tget (bucket (ops w')) j = tget (bucket (ops w)) j) /\
    part (ops w') = part (ops w) /\
    answered r rq w w' /\
    staged_holds w' p (len / SOB) (take (Z.to_nat (len / SOB * SOB)) (pair_of rq b)) /\
    sys_ok (snd (Ring.alloc len ring)) n w'.
Proof.
  intros Hsys Hrq Hlen Hst Hstep Hfly Hok Ht len.
  destruct (bigkv_set_ok ring n w r rq b l i bp) as (p & w' & He & Hp & Hs & Hph & Hops & Hrest); try done.
  destruct (set_bucket_ok _ l _ i _ _ Hok Ht Hs Hp) as [l' Hok'].
  exists p, w', l'. split; [done|]. split; [done|]. unfold bucket_of at 1 2. rewrite Hops. simpl.
  rewrite tget_tset_eq. split; [done|]. split; [by eapply fill_from_set_entry|].
  split; [intros j Hj; by rewrite tget_tset_ne by congruence | by split].
Qed.

(** C2: set, then get, through the bucket: a lookup of the key just stored hits
    its bucket, reads the block just written from the staged segment and answers
    the client in one round. *)
Theorem bigkv_set_then_get ring n (w : bworld) r1 rq1 b1 r2 rq2 b2 l i bp :
  sys_ok ring (S (S (S n))) w -> req_ready w r1 rq1 b1 -> len_ok w rq1 b1 ->
  starts w rq1 bp -> write_step bp = BI_STEP_INIT \/ write_step bp = BI_STEP_WRITE_KV ->
  BigkvTable.flying (tget (part (ops w)) (part_idx (hash_high (req_key rq1)))) = 0 ->
  bucket_ok (bucket_of w (req_key rq1)) l ->
  get_target_entry (bucket_of w (req_key rq1)) (hash_low (req_key rq1)) = Some i ->
  req_ready w r2 rq2 b2 -> params rq2 = NULL -> r2 <> r1 ->
  value (req_value rq2) <> value (req_value rq1) -> req_key rq2 = req_key rq1 ->
  let grains := val_len (req_value rq1) / SOB in
  1 + key_len (req_key rq1) <= grains * SOB -> grains * SOB <= Z.of_nat (length b2) ->
  Z.of_nat (length (Fifo.items (req_pool w))) + 1 < Fifo.cap (req_pool w) ->
  exists w1 w2, bigkv_index_set r1 w = Ret 0 w1 /\ bigkv_index_get r2 w1 = Ret 0 w2 /\
    answered r1 rq1 w w1 /\ answered r2 rq2 w1 w2.
Proof.
  intros Hsys Hq1 Hlen Hst Hstep Hfly Hok Ht Hq2 Hp2 Hr Hv Hkey grains Hgk Hgb Hpool.
  destruct (bigkv_set_ok ring (S n) w r1 rq1 b1 l i bp)
    as (p & w1 & He & Hp & Hs & Hph & Hops & Han1 & Hst1 & Hsys1); try done. fold grains in Hops, Hst1, Hs.
  destruct (set_bucket_ok _ l _ i _ _ Hok Ht Hs Hp) as [l' Hok1].
  pose proof (fill_from_set_entry _ _ _ _ _ _ Hok Ht Hs Hp) as Hent.
  assert (bucket_of w1 (req_key rq2) =
          fill_from_set i (hash_low (req_key rq1)) grains p (bucket_of w (req_key rq1))) as Hb1.
  { unfold bucket_of at 1. rewrite Hops, Hkey. simpl. apply tget_tset_eq. }
  pose proof (key_ok_len _ (qr_key _ _ _ _ Hq1)) as Hkl.
  pose proof (req_ready_answered _ _ _ _ _ _ _ Han1 Hq2 Hr Hv Hpool Hp2) as Hq2'.
  destruct (bigkv_get_hit _ n w1 r2 rq2 b2 (i :: l') i make_bi_params
              (take (Z.to_nat (grains * SOB)) (pair_of rq1 b1)) Hsys1 Hq2')
    as (c & w5 & Hget & Hrq5 & Hpar5 & Hac).
  - by left.
  - done.
  - by rewrite Hb1.
  - rewrite Hb1, Hkey. eapply get_match_entry_Some; [done | by left | by rewrite Hent].
  - rewrite Hb1, Hent. simpl. unfold SOB, GRAIN_UNIT in *. lia.
  - by rewrite Hb1, Hent.
  - by rewrite Hb1, Hent.
  - destruct (cb_keycmp_match _ w5 r2 _ b2 _ _ c Hrq5 Hpar5 Hac) as (w2 & He2 & Han2 & _).
    { destruct (begun_same w1 r2 rq2) as (_ & _ & -> & _). rewrite Hkey. apply keycmp_pair; [apply Hq1 | done]. }
    exists w1, w2. split; [done|]. split; [by rewrite Hget|]. split; [done|].
    eapply answered_set_ops, begun_answered. exact Han2.
Qed.

(** A lookup that meets another key with the same fingerprint never ends.
    The round sends the request back without an answer, and leaves the bucket
    with the same answer for the fingerprint and the step at which the next
    round begins by the same search: every later round reads the same block and
    compares the same key. *)
Theorem bigkv_get_mismatch_repeats ring n (w : bworld) r rq b l i bp x cmp :
  sys_ok ring (S n) w -> req_ready w r rq b -> starts w rq bp -> read_step bp <> BI_STEP_UPDATE_TABLE ->
  bucket_ok (bucket_of w (req_key rq)) l ->
  get_match_entry (bucket_of w (req_key rq)) (hash_low (req_key rq)) = Some i ->
  let e := entry (bucket_of w (req_key rq)) i in
  0 < kv_size e -> kv_size e * SOB <= Z.of_nat (length b) -> staged_holds w (pba e) (kv_size e) x ->
  keycmp (req_key rq) (x ++ drop (length x) b) = Some cmp -> cmp <> 0 ->
  Fifo.full (retry_q w) = false ->
  exists w' bp' l', bigkv_index_get r w = Ret 0 w' /\ acks w' = acks w /\
    Fifo.items (retry_q w') = Fifo.items (retry_q w) ++ [r] /\
    params_heap w' !! params (begun_req w rq) = Some bp' /\ read_step bp' = BI_STEP_KEY_MISMATCH /\
    bucket_ok (bucket_of w' (req_key rq)) l' /\
    get_match_entry (bucket_of w' (req_key rq)) (hash_low (req_key rq)) = Some i /\
    pba (entry (bucket_of w' (req_key rq)) i) = pba e /\
    kv_size (entry (bucket_of w' (req_key rq)) i) = kv_size e /\
    staged_holds w' (pba e) (kv_size e) x /\
    keycmp (req_key rq) (x ++ drop (length x) (x ++ drop (length x) b)) = Some cmp.
Proof.
  intros Hsys Hrq Hst Hstep Hok Hm e Hk Hkl Hholds Hcmp Hne Hroom.
  destruct (bigkv_get_hit ring n w r rq b l i bp x Hsys Hrq Hst Hstep Hok Hm Hk Hkl Hholds)
    as (c & w5 & Hget & Hrq5 & Hpar5 & Hac).
  destruct (begun_same (touched w (req_key rq) i) r rq) as (Eo & Ed & Ek & Ev).
  change (begun_req (touched w (req_key rq) i) rq) with (begun_req w rq) in Ek, Ev.
  destruct (cb_keycmp_mismatch _ w5 r _ b x bp cmp c Hrq5 Hpar5 Hac) as (w' & He & Hre); [by rewrite Ek | done | |].
  { unfold begun. by case_match. }
  assert (bucket_of w' (req_key rq) = touch i (bucket_of w (req_key rq))) as Hb'.
  { unfold bucket_of at 1. rewrite (rq_ops _ _ _ _ _ _ Hre), Eo. simpl. apply tget_tset_eq. }
  pose proof (get_match_entry_spec _ l (hash_low (req_key rq)) Hok) as Hspec. rewrite Hm in Hspec.
  destruct Hspec as [Hil Hfp]. pose proof (bucket_ok_range _ _ _ Hok Hil) as Hi.
  destruct (touch_ok _ l i Hok Hil) as (l1 & l2 & _ & Hok' & Hren).
  pose proof (renewed_self _ _ _ _ Hren Hi) as Hent. fold e in Hent.
  assert (dev w' = dev w) as Hd' by by rewrite (rq_dev _ _ _ _ _ _ Hre), Ed.
  exists w', (BiParams BI_STEP_KEY_MISMATCH (write_step bp)), (i :: l1 ++ l2).
  rewrite Hb', Hent. split; [by rewrite Hget|].
  split; [rewrite (rq_acks _ _ _ _ _ _ Hre); unfold begun; by case_match|].
  split; [rewrite (rq_retry _ _ _ _ _ _ Hre); unfold begun; by case_match|].
  split; [apply Hre|]. split; [done|]. split; [exact Hok'|].
  split; [eapply get_match_entry_Some; [exact Hok' | by left | by rewrite Hent]|].
  split; [done|]. split; [done|]. split.
  - destruct Hholds as (ss & sb & H1 & H2 & H3 & H4). exists ss, sb.
    rewrite Hd', (rq_bufs _ _ _ _ _ _ Hre), Ev. rewrite lookup_insert_ne by apply (qr_unstaged _ _ _ _ Hrq).
    split_and!; try done. unfold begun. by case_match.
  - by rewrite drop_app_length.
Qed.

(** ** Concrete runs *)

Definition bi_world : bworld :=
  lab bigkv_index_init mini_dev {[ 1 := demo_req REQ_TYPE_SET 10 NULL; 2 := demo_req REQ_TYPE_GET 11 NULL ]}
    ∅ (demo_bufs (replicate 512 0)) 30.

Lemma bi_world_sys : sys_ok mini_ring 4 bi_world.
Proof. apply demo_sys. by vm_compute. Qed.

Lemma bi_world_set : req_ready bi_world 1 (demo_req REQ_TYPE_SET 10 NULL) (replicate 256 5).
Proof. apply demo_ready1; [done | by left]. Qed.

Lemma bi_world_get : req_ready bi_world 2 (demo_req REQ_TYPE_GET 11 NULL) (replicate 256 0).
Proof. apply demo_ready2; [done | by left]. Qed.

Lemma bi_world_len : len_ok bi_world (demo_req REQ_TYPE_SET 10 NULL) (replicate 256 5).
Proof. by apply demo_len. Qed.

Lemma bi_world_bucket : bucket_ok (bucket_of bi_world demo_key) [].
Proof. exact init_bucket_ok. Qed.

Lemma bigkv_set_stores_witness :
  exists p w', bigkv_index_set 1 bi_world = Ret 0 w' /\
    entry (bucket_of w' demo_key) 0 = HashEntry (9 * 2 ^ 27 + 5) 0 1 0 2 p /\
    Fifo.items (req_pool w') = [1].
Proof.
  destruct (bigkv_set_stores mini_ring 2 bi_world 1 (demo_req REQ_TYPE_SET 10 NULL) (replicate 256 5) [] 0
              make_bi_params bi_world_sys bi_world_set bi_world_len (or_introl (conj eq_refl eq_refl))
              (or_introl eq_refl) eq_refl bi_world_bucket ltac:(by vm_compute))
    as (p & w' & l' & H1 & _ & _ & H2 & _ & _ & H3 & _).
  exists p, w'. split; [exact H1|]. split; [exact H2|]. by rewrite (an_pool _ _ _ _ H3).
Defined.

Lemma bigkv_set_then_get_witness :
  exists w1 w2, bigkv_index_set 1 bi_world = Ret 0 w1 /\ bigkv_index_get 2 w1 = Ret 0 w2 /\
    Fifo.items (req_pool w2) = [1; 2].
Proof.
  destruct (bigkv_set_then_get mini_ring 1 bi_world 1 (demo_req REQ_TYPE_SET 10 NULL) (replicate 256 5)
              2 (demo_req REQ_TYPE_GET 11 NULL) (replicate 256 0) [] 0
              make_bi_params bi_world_sys bi_world_set bi_world_len (or_introl (conj eq_refl eq_refl))
              (or_introl eq_refl) eq_refl bi_world_bucket ltac:(by vm_compute) bi_world_get eq_refl
              ltac:(lia) ltac:(by vm_compute) eq_refl ltac:(by vm_compute) ltac:(by vm_compute)
              ltac:(by vm_compute)) as (w1 & w2 & H1 & H2 & H3 & H4).
  exists w1, w2. split; [exact H1|]. split; [exact H2|].
  by rewrite (an_pool _ _ _ _ H4), (an_pool _ _ _ _ H3).
Defined.

(** The bucket has an entry with the key's fingerprint, whose pair has another
    key, in the first two grains of the staged segment. *)
Definition alien_pair : list Z := 3 :: 107 :: 101 :: 120 :: replicate 252 77.

Definition alien_dev : dev_abs :=
  with_segs [Segment 0 SEG_STATE_STAGED 0 512 256; Segment 1 SEG_STATE_FREE 512 1024 512;
             Segment 2 SEG_STATE_FREE 1024 1536 1024] mini_dev.

Definition alien_world : bworld :=
  lab (with_bucket (bucket_idx 0) (fill_from_set 0 (9 * 2 ^ 27 + 5) 2 0 init_bucket) bigkv_index_init)
    alien_dev
    {[ 1 := demo_req REQ_TYPE_SET 10 NULL; 2 := demo_req REQ_TYPE_GET 11 NULL ]}
    ∅ (demo_bufs (alien_pair ++ replicate 256 0)) 30.

Lemma alien_sys : sys_ok (Ring.Mk 512 3 128 0 256) 4 alien_world.
Proof.
  split; [| | apply lab_pools | apply demo_mem | | exact eq_refl | by vm_compute].
  - apply (dev_wf_upd mini_dev 0 (Segment 0 SEG_STATE_STAGED 0 512 256)); [apply mini_dev_wf | | done].
    split; simpl; try lia. by exists 2.
  - split; simpl; try done; [|by intros s [= <-]]. split; simpl; try lia; [by exists 4 | by exists 2].
  - exists (alien_pair ++ replicate 256 0). split; [exact eq_refl | by vm_compute].
Qed.

Lemma alien_bucket : bucket_ok (bucket_of alien_world demo_key) [0].
Proof.
  change (bucket_of alien_world demo_key) with (fill_from_set 0 (9 * 2 ^ 27 + 5) 2 0 init_bucket).
  assert (renewed init_bucket (fill_from_set 0 (9 * 2 ^ 27 + 5) 2 0 init_bucket) 0
            (HashEntry (9 * 2 ^ 27 + 5) 0 1 0 2 0)) as Hre
    by (apply (renewed_store_age init_bucket 0 (HashEntry (9 * 2 ^ 27 + 5) 0 1 0 2 0)); [by vm_compute | lia | done]).
  apply (renewed_new init_bucket _ [] (HashEntry (9 * 2 ^ 27 + 5) 0 1 0 2 0) init_bucket_ok); [simpl; lia | done |].
  split; [done | by intros j Hj%not_elem_of_nil].
Qed.

Lemma bigkv_get_mismatch_repeats_witness :
  exists w', bigkv_index_get 2 alien_world = Ret 0 w' /\ acks w' = [] /\ Fifo.items (retry_q w') = [2] /\
    pba (entry (bucket_of w' demo_key) 0) = 0.
Proof.
  destruct (bigkv_get_mismatch_repeats (Ring.Mk 512 3 128 0 256) 3 alien_world 2
              (demo_req REQ_TYPE_GET 11 NULL) (replicate 256 0) [0] 0 make_bi_params alien_pair 1
              alien_sys (demo_ready2 _ alien_dev _ _ _ _ _ eq_refl (or_introl eq_refl))
              (or_introl (conj eq_refl eq_refl)) ltac:(done) alien_bucket ltac:(by vm_compute)
              ltac:(by vm_compute) ltac:(by vm_compute))
    as (w' & bp' & l' & H1 & H2 & H3 & _ & _ & _ & _ & H4 & _).
  - exists (Segment 0 SEG_STATE_STAGED 0 512 256), (alien_pair ++ replicate 256 0).
    split_and!; [split; simpl; try done; lia | exact eq_refl | by vm_compute | by vm_compute].
  - by vm_compute.
  - lia.
  - by vm_compute.
  - exists w'. split; [exact H1|]. split; [exact H2|]. split; [exact H3|].
    etransitivity; [exact H4 | by vm_compute].
Defined.
