(* ===== verification/BigkvFlush.v ===== *)
(** * The bigkv index and its partition tables ([src/bigkv_index.c])

    The rounds of an operation that needs the table of its partition: the table
    is updated from the buckets, written to the log and the operation sent back.
    The lemmas run such a round on a whole handler; the theorems say that the
    rounds end with an answer, and where they lose entries. *)

From Stdlib Require Import ZArith Lia.
From stdpp Require Import prelude gmap.
From S2P Require Import Prelude Config Queue CondLock World Stopwatch KvPair Request Device DeviceSpec Handler.
From S2P Require Import Pair BigkvTable Bucket PartTable Bigkv.

#[local] Open Scope Z_scope.

(** ** The buckets of a partition *)

Lemma put_buckets_get i bs t j :
  tget (put_buckets i bs t) j =
  if decide (i <= j < i + Z.of_nat (length bs)) then nth (Z.to_nat (j - i)) bs [] else tget t j.
Proof.
  revert i t. induction bs as [|b bs IH]; intros i t; cbn [put_buckets length].
  - rewrite decide_False by lia. done.
  - rewrite IH. destruct (decide (j = i)) as [-> | Hne].
    + rewrite decide_False, decide_True by lia. by rewrite tget_tset_eq, Z.sub_diag.
    + rewrite tget_tset_ne by done. repeat case_decide; try lia; [|done].
      by replace (Z.to_nat (j - i)) with (S (Z.to_nat (j - (i + 1)))) by lia.
Qed.

Lemma part_buckets_lookup p t k :
  (k < 4)%nat -> get_part_buckets p t !! k = Some (tget t (p * BUCKETS_IN_PART + Z.of_nat k)).
Proof.
  intros Hk. unfold get_part_buckets. rewrite list_lookup_fmap, lookup_seq_lt by done. done.
Qed.

Lemma part_buckets_length p t : length (get_part_buckets p t) = 4%nat.
Proof. done. Qed.

(** The bucket of a key is one of the four of its partition. *)
Lemma bucket_in_part h :
  bucket_idx h = part_idx h * BUCKETS_IN_PART + Z.of_nat (Z.to_nat (bucket_idx h mod BUCKETS_IN_PART)) /\
  (Z.to_nat (bucket_idx h mod BUCKETS_IN_PART) < 4)%nat.
Proof.
  pose proof (Z.mod_pos_bound (bucket_idx h) BUCKETS_IN_PART ltac:(done)) as Hm.
  pose proof (Z.div_mod (bucket_idx h) BUCKETS_IN_PART ltac:(done)) as Hd.
  unfold part_idx. unfold BUCKETS_IN_PART in *. lia.
Qed.

Lemma part_buckets_put p bs t :
  length bs = 4%nat -> get_part_buckets p (put_buckets (p * BUCKETS_IN_PART) bs t) = bs.
Proof.
  intros Hl. apply list_eq. intros k. destruct (decide (k < 4)%nat) as [Hk|].
  - rewrite part_buckets_lookup by done. rewrite put_buckets_get.
    unfold BUCKETS_IN_PART. rewrite decide_True by lia.
    replace (Z.to_nat (p * 4 + Z.of_nat k - p * 4)) with k by lia.
    destruct (lookup_lt_is_Some_2 bs k) as [b Hb]; [lia|]. by rewrite (nth_lookup_Some _ _ _ _ Hb).
  - rewrite !lookup_ge_None_2; [done | lia | rewrite part_buckets_length; lia].
Qed.

(** What a flush leaves in the bucket of a key. *)
Lemma flushed_bucket h t :
  tget (put_buckets (part_idx h * BUCKETS_IN_PART) (clean_bucket <$> get_part_buckets (part_idx h) t) t)
    (bucket_idx h) = clean_bucket (tget t (bucket_idx h)).
Proof.
  destruct (bucket_in_part h) as [Hb Hk]. rewrite put_buckets_get, length_fmap, part_buckets_length.
  rewrite decide_True by lia.
  replace (Z.to_nat (bucket_idx h - part_idx h * BUCKETS_IN_PART))
    with (Z.to_nat (bucket_idx h mod BUCKETS_IN_PART)) by lia.
  rewrite (nth_lookup_Some _ _ _ (clean_bucket (tget t (bucket_idx h)))); [done|].
  rewrite list_lookup_fmap, part_buckets_lookup by done. by rewrite <- Hb.
Qed.

(** Other partitions keep their buckets. *)
Lemma unflushed_bucket p bs t j :
  length bs = 4%nat -> j / BUCKETS_IN_PART <> p -> tget (put_buckets (p * BUCKETS_IN_PART) bs t) j = tget t j.
Proof.
  intros Hl Hj. rewrite put_buckets_get, decide_False; [done|]. rewrite Hl. intros Hr. apply Hj.
  unfold BUCKETS_IN_PART in *. symmetry. apply (Z.div_unique_pos _ _ _ (j - p * 4)); lia.
Qed.

Lemma sys_ok_weaken ring n m (w : bworld) : (m <= n)%nat -> sys_ok ring n w -> sys_ok ring m w.
Proof. intros Hm []. split; try done. by eapply pools_ready_weaken. Qed.

(** ** Writing a table *)

Section Write.
Implicit Types w : bworld.

(** The callback of the write is not in the pool any more. *)
Lemma make_callback_fresh f a w c w' :
  NoDup (Fifo.items (cb_pool w)) -> make_callback f a w = Ret c w' -> Fifo.items (cb_pool w) <> [] ->
  (c ∉ Fifo.items (cb_pool w')) /\ NoDup (Fifo.items (cb_pool w')).
Proof.
  intros Hnd (c0 & w1 & H1 & H)%bind_inv Hne. destruct (Fifo.items (cb_pool w)) as [|x l] eqn:E; [done|].
  rewrite (q_dequeue_cons CB_POOL _ _ _ E) in H1. apply Ret_inj in H1 as [<- <-].
  apply bind_inv in H as (cb & w2 & H2 & H). apply deref_inv in H2 as [_ ->].
  apply bind_inv in H as ([] & w3 & H3 & H). apply Ret_inj in H3 as [_ <-]. apply Ret_inj in H as [<- <-].
  simpl. by apply NoDup_cons in Hnd.
Qed.

(** Replacing the content of a buffer other than the staged one. *)
Lemma sys_ok_set_buf ring n w p b :
  sys_ok ring n w -> 0 < p < mem_next w -> p <> staged_seg_buf (dev w) ->
  sys_ok ring n (set_bufs (<[p := b]> (bufs w)) w).
Proof.
  intros [Hd Hr [] [Hm1 Hm2] (sb & Hs & Hl) Hg Hf] Hp Hne. split; try done.
  - split; simpl; [done|]. intros q b'. rewrite lookup_insert_Some. intros [[<- _] | [_ H]]; [done | by eapply Hm2].
  - exists sb. simpl. by rewrite lookup_insert_ne by done.
Qed.

(** The world in which the callback of the write of a table runs: the table is
    in the staged segment and in its buffer, the buckets are flushed. *)
Record table_written (ring : Ring.ring) (n : nat) (p buf : Z) (t : hash_part_table) (bs : list hash_bucket)
    (pba c : Z) w w' : Prop := TableWritten {
  tw_bucket : bucket (ops w') = put_buckets (p * BUCKETS_IN_PART) bs (bucket (ops w));
  tw_part : part (ops w') =
    tset (part (ops w)) p (HashPartition (BigkvTable.flying (tget (part (ops w)) p)) pba);
  tw_sys : sys_ok (snd (Ring.alloc PART_TABLE_SIZE ring)) n w';
  tw_phys : pba * SOB = Ring.phys ring (fst (Ring.alloc PART_TABLE_SIZE ring));
  tw_pba : 0 <= pba < PBA_INVALID;
  tw_table : staged_holds w' pba PART_TABLE_GRAINS (encode_ptable t);
  tw_buf : bufs w' !! buf = Some (encode_ptable t);
  tw_unstaged : buf <> staged_seg_buf (dev w');
  tw_bufs : forall q b, bufs w !! q = Some b -> q <> buf -> q <> staged_seg_buf (dev w) ->
              bufs w' !! q = Some b /\ q <> staged_seg_buf (dev w');
  tw_cb : is_Some (cb_arr w' !! c);
  tw_seg : segment_size (dev w') = segment_size (dev w);
  tw_req : req_arr w' = req_arr w;
  tw_params : params_heap w' = params_heap w;
  tw_acks : acks w' = acks w;
  tw_retry : retry_q w' = retry_q w;
  tw_pool : req_pool w' = req_pool w;
  tw_flying : World.flying w' = World.flying w;
  tw_time : gettimeofday w' (ticks w') = gettimeofday w (ticks w)
}.

(** The flush of partition [p] into the table at [buf] and its write, under the
    callback [f], up to the call of the callback. *)
Definition write_table (p buf : Z) (f : fn) (arg : Z) (k : M bworld Z) : M bworld Z :=
  flush_part p buf ;;;
  let* cb := make_callback f arg in
  let* pba := get_next_pba PART_TABLE_SIZE in
  let* pt := get_part p in
  put_part p (HashPartition (BigkvTable.flying pt) (wrap 42 pba)) ;;;
  dev_abs_write bi_exec (wrap 42 pba) PART_TABLE_GRAINS buf cb ;;;
  k.

Lemma flush_part_ok p buf l t bs w :
  bufs w !! buf = Some l ->
  update_part_table (decode_ptable l) (get_part_buckets p (bucket (ops w))) = Some (t, bs) ->
  flush_part p buf w =
  Ret tt (set_ops (BigkvIndex (put_buckets (p * BUCKETS_IN_PART) bs (bucket (ops w))) (part (ops w)))
            (set_bufs (<[buf := encode_ptable t]> (bufs w)) w)).
Proof.
  intros Hl Hu. unfold flush_part. rewrite (bind_ret _ _ _ _ _ (load_buf_ok _ _ _ Hl)).
  erewrite bind_ret by exact eq_refl. by rewrite Hu.
Qed.

(** A callback is taken and a block for a table allocated. *)
Lemma table_block_ok ring n w f arg :
  sys_ok ring (S (S n)) w -> NoDup (Fifo.items (cb_pool w)) -> PART_TABLE_SIZE <= segment_size (dev w) ->
  exists c pba w' ss,
    (forall (k : Z -> Z -> M bworld Z),
       (let* cb := make_callback f arg in let* pba := get_next_pba PART_TABLE_SIZE in k cb pba) w = k c pba w') /\
    sys_ok (snd (Ring.alloc PART_TABLE_SIZE ring)) n w' /\ dev_frame w w' /\ 0 <= pba < PBA_INVALID /\
    pba * SOB = Ring.phys ring (fst (Ring.alloc PART_TABLE_SIZE ring)) /\
    in_staged (dev w') ss pba PART_TABLE_GRAINS /\ cb_arr w' !! c = Some (Callback f arg NULL) /\
    segment_size (dev w') = segment_size (dev w) /\
    (forall q b, bufs w !! q = Some b -> q <> staged_seg_buf (dev w) -> q <> staged_seg_buf (dev w')).
Proof.
  intros Hsys Hnd Hsz.
  destruct (make_callback_ready f arg (S n) w (so_pools _ _ _ _ Hsys))
    as (c & w2 & Hc & Hfr2 & Hd2 & Hb2 & _ & _ & Hcb & Hcn & Hip & Hia & _ & _ & Hca).
  assert (sys_ok ring (S n) w2) as Hsys2.
  { destruct Hsys as [? ? [] Hm ? ? ?]. split; try (by rewrite Hd2); [| by apply Hfr2 |].
    - split; rewrite ?Hip, ?Hia; try done; lia.
    - unfold staged_ok. by rewrite Hd2, Hb2. }
  assert (forall m w0, pools_ready (S m) w0 -> Fifo.items (cb_pool w0) <> []) as Hcbs.
  { intros m w0 [H _ _ _] E. rewrite E in H. simpl in H. lia. }
  destruct (make_callback_fresh f arg w c w2 Hnd Hc (Hcbs _ _ (so_pools _ _ _ _ Hsys))) as [Hcf _].
  destruct (alloc_for_pair PBA_INVALID ring n PART_TABLE_SIZE w2 Hsys2)
    as (pba & w3 & ss & Ha & Hsys3 & Hfr3 & Hp & Hph & Hin & Hst3); [by rewrite Hd2|].
  exists c, pba, w3, ss. split; [intros k; by rewrite (bind_ret _ _ _ _ _ Hc), (bind_ret _ _ _ _ _ Ha)|].
  split; [done|]. split; [by eapply dev_frame_trans|]. split; [done|]. split; [done|]. split; [done|]. split; [|split].
  - rewrite <- Hcb. eapply get_next_pba_keeps_cb; [|exact Hcf | exact Ha]. eapply Hcbs, Hsys2.
  - rewrite <- (rr_seg _ _ (so_ring _ _ _ _ Hsys3)), <- (rr_seg _ _ (so_ring _ _ _ _ Hsys)).
    destruct (Ring.alloc_block PART_TABLE_SIZE ring) as (_ & H & _); [apply Hsys | | exact H].
    rewrite (rr_seg _ _ (so_ring _ _ _ _ Hsys)). done.
  - intros q b Hq Hne. eapply Hst3; [by rewrite Hb2 | by rewrite Hd2].
Qed.

Lemma write_table_ok ring n w p buf l t bs f arg k :
  sys_ok ring (S (S n)) w -> NoDup (Fifo.items (cb_pool w)) ->
  bufs w !! buf = Some l -> buf <> staged_seg_buf (dev w) -> PART_TABLE_SIZE <= segment_size (dev w) ->
  update_part_table (decode_ptable l) (get_part_buckets p (bucket (ops w))) = Some (t, bs) ->
  Z.of_nat (length (encode_ptable t)) = PART_TABLE_SIZE ->
  exists pba c w',
    write_table p buf f arg k w = (bi_exec f arg ;;; q_enqueue c CB_POOL ;;; k) w' /\
    table_written ring n p buf t bs pba c w w'.
Proof.
  intros Hsys Hnd Hl Hne Hsz Hu Hlen. unfold write_table.
  rewrite (bind_ret _ _ _ _ _ (flush_part_ok _ _ _ _ _ _ Hl Hu)).
  pose proof (mo_bufs _ (so_mem _ _ _ _ Hsys) _ _ Hl) as Hbuf.
  pose proof (sys_ok_set_ops _ _ _ _ (BigkvIndex (put_buckets (p * BUCKETS_IN_PART) bs (bucket (ops w))) (part (ops w)))
                (sys_ok_set_buf _ _ _ buf (encode_ptable t) Hsys Hbuf Hne)) as Hsys1.
  set (w1 := set_ops _ _) in *.
  assert (Hb1 : bufs w1 !! buf = Some (encode_ptable t)) by apply lookup_insert_eq.
  destruct (table_block_ok ring n w1 f arg Hsys1 Hnd Hsz)
    as (c & pba & w3 & ss & He & Hsys3 & Hfr & Hp & Hph & Hin & Hcb & Hseg & Hst).
  rewrite He. do 2 (erewrite bind_ret by exact eq_refl). rewrite wrap_small by (unfold PBA_INVALID in Hp; lia).
  pose proof (df_bufs _ _ Hfr (so_mem _ _ _ _ Hsys1) _ _ Hb1) as Hbuf3. pose proof (Hst _ _ Hb1 Hne) as Hne3.
  match goal with |- context [set_ops ?h w3] => set (w4 := set_ops h w3) end.
  assert (Hsys4 : sys_ok (snd (Ring.alloc PART_TABLE_SIZE ring)) n w4) by by apply sys_ok_set_ops.
  destruct (so_staged _ _ _ _ Hsys4) as (sb & Hsb & Hsl).
  destruct (dev_abs_write_staged bi_exec w4 ss pba PART_TABLE_GRAINS buf c
              (Callback f arg NULL) sb (encode_ptable t) (so_dev _ _ _ _ Hsys4) Hin Hsb
              Hsl Hbuf3) as (sb' & Hblit & Hw); [|exact Hcb|].
  { rewrite (so_grain _ _ _ _ Hsys4), Hlen. done. }
  rewrite (so_grain _ _ _ _ Hsys4), take_ge in Hblit by (change (PART_TABLE_GRAINS * SOB) with PART_TABLE_SIZE; lia).
  exists pba, c, (set_bufs (<[staged_seg_buf (dev w4) := sb']> (bufs w4)) w4). split.
  { unfold bind at 1. rewrite Hw. unfold bind. cbn [cb_func cb_arg].
    destruct (bi_exec f arg _); [|done]. by destruct (q_enqueue c CB_POOL _). }
  pose proof (mo_bufs _ (so_mem _ _ _ _ Hsys4) _ _ Hsb) as Hsbb.
  pose proof (blit_length _ _ _ _ Hblit) as Hbl. apply slice_blit_same in Hblit.
  pose proof Hfr as [Eo Ef _ Er Ep Ea Eh Ek Et Eg _ Hkeep].
  split; try done.
  - simpl. by rewrite Eo.
  - simpl. by rewrite Eo.
  - destruct Hsys4 as [? ? [] [Hm1 Hm2] _ ? ?]. split; try done.
    + split; [done|]. intros q b. simpl. rewrite lookup_insert_Some.
      intros [[<- _] | [_ H]]; [exact Hsbb | by eapply Hm2].
    + exists sb'. split; [apply lookup_insert_eq | by rewrite Hbl].
  - exists ss, sb'. split; [done|]. split; [apply lookup_insert_eq|]. split; [by rewrite Hbl|].
    simpl. rewrite Hlen in Hblit. by rewrite (so_grain _ _ _ _ Hsys3).
  - simpl. by rewrite lookup_insert_ne.
  - intros q b Hq Hqb Hqs. assert (bufs w1 !! q = Some b) as Hq1 by (simpl; by rewrite lookup_insert_ne).
    pose proof (Hst _ _ Hq1 Hqs) as Hqs3. split; [|done]. simpl. rewrite lookup_insert_ne by done.
    apply Hkeep; [apply Hsys1 | done].
  - simpl. by rewrite Et, Eg.
Qed.

(** A request under way, with a buffer for the table of its partition. *)
Record at_table (ring : Ring.ring) (n : nat) w (r : Z) (rq : request) (b : list Z) (bp : bi_params)
    (l : list Z) : Prop := AtTable {
  at_sys : sys_ok ring n w;
  at_nodup : NoDup (Fifo.items (cb_pool w));
  at_ready : req_ready w r rq b;
  at_params : params rq <> NULL;
  at_step : params_heap w !! params rq = Some bp;
  at_null : temp_buf rq <> NULL;
  at_value : temp_buf rq <> value (req_value rq);
  at_staged : temp_buf rq <> staged_seg_buf (dev w);
  at_buf : bufs w !! temp_buf rq = Some l
}.

(** ** The round of a SET that writes the table *)

(** The request was sent back at the step that stores its pair, the table of
    its partition is written and its buckets are clean. *)
Record flushed (ring : Ring.ring) (n : nat) (r : Z) (rq : request) (b : list Z) (bp : bi_params)
    (t : hash_part_table) (bs : list hash_bucket) (pba : Z) w w' : Prop := Flushed {
  fl_bucket : bucket (ops w') =
    put_buckets (part_idx (hash_high (req_key rq)) * BUCKETS_IN_PART) bs (bucket (ops w));
  fl_part : part (ops w') ≡ tset (part (ops w)) (part_idx (hash_high (req_key rq))) (HashPartition 0 pba);
  fl_sys : sys_ok (snd (Ring.alloc PART_TABLE_SIZE ring)) n w';
  fl_ready : req_ready w' r rq b;
  fl_pba : 0 <= pba < PBA_INVALID;
  fl_phys : pba * SOB = Ring.phys ring (fst (Ring.alloc PART_TABLE_SIZE ring));
  fl_table : staged_holds w' pba PART_TABLE_GRAINS (encode_ptable t);
  fl_freed : bufs w' !! temp_buf rq = None;
  fl_params : params_heap w' !! params rq = Some (BiParams (read_step bp) BI_STEP_WRITE_KV);
  fl_retry : Fifo.items (retry_q w') = Fifo.items (retry_q w) ++ [r];
  fl_seg : segment_size (dev w') = segment_size (dev w);
  fl_acks : acks w' = acks w;
  fl_flying : World.flying w' = World.flying w;
  fl_pool : req_pool w' = req_pool w;
  fl_others : forall r', r' <> r -> req_arr w' !! r' = req_arr w !! r';
  fl_time : gettimeofday w' (ticks w') = gettimeofday w (ticks w)
}.

(** The buffer of a table is freed, and the callback goes back to its pool. *)
Lemma sys_ok_freed ring n w w' buf c :
  sys_ok ring n w -> buf <> staged_seg_buf (dev w) -> is_Some (cb_arr w !! c) ->
  dev w' = dev w -> mem_next w' = mem_next w -> bufs w' = delete buf (bufs w) -> cb_arr w' = cb_arr w ->
  iocb_pool w' = iocb_pool w -> iocb_arr w' = iocb_arr w ->
  Fifo.items (cb_pool w') = Fifo.items (cb_pool w) \/ Fifo.items (cb_pool w') = Fifo.items (cb_pool w) ++ [c] ->
  sys_ok ring n w'.
Proof.
  intros [Hd Hr [H1 H2 H3 H4] [Hm1 Hm2] (sb & Hs & Hl) Hg Hf] Hne Hc Ed En Eb Ec Ei Ea Hcb.
  split; rewrite ?Ed; try done.
  - split; rewrite ?Ei, ?Ea, ?Ec; try done.
    + destruct Hcb as [-> | ->]; rewrite ?length_app; lia.
    + destruct Hcb as [-> | ->]; [done|]. apply Forall_app_2; [done | by constructor].
  - split; rewrite ?En, ?Eb; [done|]. intros q b (_ & H)%lookup_delete_Some. by eapply Hm2.
  - exists sb. rewrite Ed, Eb. by rewrite lookup_delete_ne.
Qed.

Lemma bi_write_ptable_ok ring n w r rq b l t bs bp :
  at_table ring (S (S n)) w r rq b bp l ->
  PART_TABLE_SIZE <= segment_size (dev w) -> Fifo.full (retry_q w) = false ->
  update_part_table (decode_ptable l)
    (get_part_buckets (part_idx (hash_high (req_key rq))) (bucket (ops w))) = Some (t, bs) ->
  Z.of_nat (length (encode_ptable t)) = PART_TABLE_SIZE ->
  exists pba w', bi_write_ptable r w = Ret 0 w' /\ flushed ring n r rq b bp t bs pba w w'.
Proof.
  intros [Hsys Hnd Hrq Hpar Hbp Ht0 Htv Hts Hl] Hsz Hroom Hu Hlen. set (p := part_idx (hash_high (req_key rq))) in *.
  unfold bi_write_ptable. rewrite (bind_ret _ _ _ _ _ (load_req_ok _ _ _ (qr_req _ _ _ _ Hrq))).
  cbn zeta. fold p. do 2 (erewrite bind_ret by exact eq_refl).
  match goal with |- context [set_ops ?h w] => set (w0 := set_ops h w) end.
  destruct (write_table_ok ring n w0 p (temp_buf rq) l t bs FN_cb_part_table_write r (ret 0)
              (sys_ok_set_ops _ _ _ _ _ Hsys) Hnd Hl Hts Hsz Hu Hlen) as (pba & c & w1 & Hw & Htw).
  unfold write_table in Hw. rewrite Hw. destruct Htw.
  assert (req_arr w1 !! r = Some rq) as Hr1 by (rewrite tw_req0; apply Hrq).
  assert (params_heap w1 !! params rq = Some bp) as Hbp1 by by rewrite tw_params0.
  cbn [bi_exec]. unfold cb_part_table_write. unfold bind at 1.
  rewrite (bind_ret _ _ _ _ _ (load_req_ok _ _ _ Hr1)), (bind_ret _ _ _ _ _ (load_params_ok _ _ _ Hbp1)).
  erewrite bind_ret by exact eq_refl. erewrite bind_ret by (by apply (free_buf_ok _ (encode_ptable t))).
  erewrite bind_ret by (apply retry_req_ok; simpl; by rewrite tw_retry0).
  unfold ret at 1. match goal with |- context [set_retry_q ?f ?v] => set (w2 := set_retry_q f v) end.
  destruct (return_callback c w2) as (bb & f & Hq & Hf). rewrite (bind_ret _ _ _ _ _ Hq).
  exists pba, (set_cb_pool f w2). split; [done|].
  assert (Hkeep : forall q b0, bufs w !! q = Some b0 -> q <> temp_buf rq -> q <> staged_seg_buf (dev w) ->
            bufs w2 !! q = Some b0 /\ q <> staged_seg_buf (dev w2)).
  { intros q b0 H1 H2 H3. destruct (tw_bufs0 q b0 H1 H2 H3) as [H4 H5]. split; [|done].
    simpl. by rewrite lookup_delete_ne. }
  destruct Hrq as [Q1 Q2 Q3 Q4 Q5 Q6 Q7 Q8].
  split; try done.
  - intros j. simpl. rewrite tw_part0. simpl. rewrite !tget_tset. by repeat case_decide.
  - by eapply (sys_ok_freed _ _ w1 _ (temp_buf rq) c).
  - split; simpl; try done; try (by eapply Hkeep); [|by rewrite tw_pool0].
    right. rewrite lookup_insert_eq. by eexists.
  - destruct tw_table0 as (ss & sb & T1 & T2 & T3 & T4). exists ss, sb. split; [done|]. split; [|done].
    simpl. by rewrite lookup_delete_ne.
  - simpl. apply lookup_delete_eq.
  - simpl. apply lookup_insert_eq.
  - simpl. by rewrite tw_retry0.
  - intros r' _. simpl. by rewrite tw_req0.
Qed.

(** ** The index *)

(** Every bucket of the index is well formed. *)
Definition index_ok (bi : bigkv_index) : Prop := forall j, exists l, bucket_ok (tget (bucket bi) j) l.

Lemma index_ok_part bi p :
  index_ok bi -> Forall (fun b : hash_bucket => length b = 4%nat) (get_part_buckets p (bucket bi)).
Proof.
  intros Hok. apply Forall_forall. intros b (k & -> & _)%list_elem_of_fmap.
  destruct (Hok (p * BUCKETS_IN_PART + Z.of_nat k)) as [l Hl]. apply Hl.
Qed.

Lemma index_ok_flush bi bi' p :
  index_ok bi ->
  bucket bi' = put_buckets (p * BUCKETS_IN_PART) (clean_bucket <$> get_part_buckets p (bucket bi)) (bucket bi) ->
  index_ok bi'.
Proof.
  intros Hok Hb j. rewrite Hb, put_buckets_get, length_fmap, part_buckets_length. case_decide as Hj; [|apply Hok].
  destruct (Hok j) as [l Hl]. exists l. rewrite (nth_lookup_Some _ _ _ (clean_bucket (tget (bucket bi) j))).
  - by apply cleaned_bucket_ok.
  - rewrite list_lookup_fmap, part_buckets_lookup by lia. simpl. do 3 f_equal. lia.
Qed.

Lemma index_ok_set bi j b l : index_ok bi -> bucket_ok b l -> index_ok (with_bucket j b bi).
Proof. intros Hok Hb k. simpl. rewrite tget_tset. case_decide; [by exists l | apply Hok]. Qed.

(** A flush of the partition into a table with room for it. *)
Lemma flush_fits t bi p :
  index_ok bi -> length t = Z.to_nat PART_TABLE_ENTRYS -> (used t + 16 <= Z.to_nat MAX_HOP)%nat ->
  exists t', update_part_table t (get_part_buckets p (bucket bi)) =
      Some (t', clean_bucket <$> get_part_buckets p (bucket bi)) /\
    Z.of_nat (length (encode_ptable t')) = PART_TABLE_SIZE.
Proof.
  intros Hok Hl Hu. pose proof (dirty_at_most _ (index_ok_part bi p Hok)) as Hd. rewrite part_buckets_length in Hd.
  destruct (update_part_table_fits t (get_part_buckets p (bucket bi)) Hl) as (t' & Ht & Hl' & _); [lia|].
  exists t'. split; [done | by apply encode_ptable_size].
Qed.

(** ** A SET in a partition that was never written *)

(** The request has a buffer for the table, which holds [l]. *)
Definition tabled (r : Z) (rq : request) (l : list Z) w : bworld :=
  set_bufs (<[mem_next w := l]> (bufs w))
    (set_req_arr (<[r := with_temp_buf (mem_next w) rq]> (req_arr w)) (set_mem_next (mem_next w + 1) w)).

Lemma fresh_buf w p b : mem_ok w -> bufs w !! p = Some b -> p <> mem_next w.
Proof. intros [_ Hm] H. apply Hm in H. lia. Qed.

Lemma sys_ok_tabled ring n w r rq l : sys_ok ring n w -> sys_ok ring n (tabled r rq l w).
Proof.
  intros [Hd Hr [] Hm (sb & Hs & Hl) Hg Hf]. pose proof (fresh_buf _ _ _ Hm Hs) as Hne. destruct Hm as [Hm1 Hm2].
  split; try done.
  - split; simpl; [lia|]. intros q b. rewrite lookup_insert_Some. intros [[<- _] | [_ H%Hm2]]; lia.
  - exists sb. simpl. by rewrite lookup_insert_ne by done.
Qed.

Lemma req_ready_tabled w r rq b l :
  mem_ok w -> req_ready w r rq b -> req_ready (tabled r rq l w) r (with_temp_buf (mem_next w) rq) b.
Proof.
  intros Hm []. split; simpl; try done; [by apply lookup_insert_eq|].
  rewrite lookup_insert_ne; [done|]. apply not_eq_sym. by eapply fresh_buf.
Qed.

Lemma at_table_begin ring n w r rq b bp l :
  sys_ok ring n w -> NoDup (Fifo.items (cb_pool w)) -> req_ready w r rq b -> starts w rq bp ->
  at_table ring n (tabled r (begun_req w rq) l (begun w r rq)) r
    (with_temp_buf (mem_next (begun w r rq)) (begun_req w rq)) b bp l.
Proof.
  intros Hsys Hnd Hrq Hst. pose proof (begun_sys _ _ _ w r rq Hsys) as Hsysb.
  pose proof (begun_ready _ _ _ _ _ _ _ Hsys Hrq) as Hrqb.
  destruct (begun_params w r rq bp Hst (so_mem _ _ _ _ Hsys)) as [Hpar Hbp].
  pose proof (so_mem _ _ _ _ Hsysb) as Hmemb. split; try done.
  - by apply sys_ok_tabled.
  - unfold begun. by case_match.
  - by apply req_ready_tabled.
  - pose proof (mo_next _ Hmemb). simpl. unfold NULL. lia.
  - apply not_eq_sym. eapply fresh_buf; [done | apply Hrqb].
  - destruct (so_staged _ _ _ _ Hsysb) as (sb & Hsb & _). apply not_eq_sym. by eapply fresh_buf.
  - apply lookup_insert_eq.
Qed.

Definition zeros : list Z := replicate (Z.to_nat PART_TABLE_SIZE) 0.

Lemma zeros_length : Z.of_nat (length zeros) = PART_TABLE_SIZE.
Proof. unfold zeros. rewrite length_replicate. done. Qed.

(** The request with its buffer for the table, and the world, at the read. *)
Definition tabled_req w (r : Z) (rq : request) : request := with_temp_buf (mem_next (begun w r rq)) (begun_req w rq).
Definition tabled_world w (r : Z) (rq : request) : bworld := tabled r (begun_req w rq) zeros (begun w r rq).

Lemma begun_lookup w r rq b : req_ready w r rq b -> req_arr (begun w r rq) !! r = Some (begun_req w rq).
Proof. intros Hrq. unfold begun, begun_req. case_match; [apply lookup_insert_eq | apply Hrq]. Qed.

(** A SET without a target in its bucket, up to the choice by the table. *)
Lemma set_no_target w r rq b bp :
  req_ready w r rq b -> mem_ok w -> starts w rq bp -> write_step bp = BI_STEP_INIT ->
  let p := part_idx (hash_high (req_key rq)) in
  BigkvTable.flying (tget (part (ops w)) p) = 0 ->
  get_target_entry (bucket_of w (req_key rq)) (hash_low (req_key rq)) = None ->
  bigkv_index_set r w =
  (let* pt := get_part p in
   if negb (part_pba pt =? PBA_INVALID) then
     put_part p (HashPartition 1 (part_pba pt)) ;;;
     read_ptable r p (temp_buf (tabled_req w r rq))
   else
     store_buf (temp_buf (tabled_req w r rq)) (encode_ptable init_ptable) ;;;
     bi_write_ptable r) (tabled_world w r rq).
Proof.
  intros Hrq Hm Hst Hstep p Hfly Ht. unfold bigkv_index_set.
  rewrite (bind_ret _ _ _ _ _ (load_req_ok _ _ _ (qr_req _ _ _ _ Hrq))). cbn zeta. fold p.
  destruct (ensure_begun w r rq bp (qr_req _ _ _ _ Hrq) Hst Hm) as [He Hl].
  rewrite (bind_ret _ _ _ _ _ He), (bind_ret _ _ _ _ _ Hl), Hstep.
  destruct (begun_same w r rq) as (Eo & _ & Ek & _).
  erewrite bind_ret by exact eq_refl. rewrite Eo, Hfly. cbn [Z.eqb negb].
  unfold bi_get_entry. rewrite (bind_ret _ _ _ _ _ (load_req_ok _ _ _ (begun_lookup w r rq b Hrq))), Ek. cbn zeta.
  erewrite bind_ret by exact eq_refl. rewrite Eo. fold (bucket_of w (req_key rq)). rewrite Ht.
  erewrite bind_ret by exact eq_refl. unfold set_temp_buf. erewrite bind_ret; [reflexivity|].
  erewrite bind_ret by (apply load_req_ok; exact (begun_lookup w r rq b Hrq)). exact eq_refl.
Qed.

Lemma tabled_ops w r rq : ops (tabled_world w r rq) = ops w.
Proof. apply begun_same. Qed.

Lemma set_fresh_ok w r rq b bp l :
  req_ready w r rq b -> mem_ok w -> starts w rq bp -> write_step bp = BI_STEP_INIT ->
  tget (part (ops w)) (part_idx (hash_high (req_key rq))) = HashPartition 0 PBA_INVALID ->
  get_target_entry (bucket_of w (req_key rq)) (hash_low (req_key rq)) = None ->
  l = encode_ptable init_ptable ->
  bigkv_index_set r w = bi_write_ptable r (tabled r (begun_req w rq) l (begun w r rq)).
Proof.
  intros Hrq Hm Hst Hstep Hpart Ht ->.
  rewrite (set_no_target w r rq b bp Hrq Hm Hst Hstep) by (done || by rewrite Hpart).
  erewrite bind_ret by exact eq_refl. rewrite tabled_ops, Hpart. cbn [part_pba].
  rewrite Z.eqb_refl. cbn [negb]. erewrite bind_ret by exact eq_refl.
  f_equal. unfold tabled_world, tabled. simpl. rewrite insert_insert_eq. done.
Qed.

Lemma set_old_ok w r rq b bp pt :
  req_ready w r rq b -> mem_ok w -> starts w rq bp -> write_step bp = BI_STEP_INIT ->
  tget (part (ops w)) (part_idx (hash_high (req_key rq))) = HashPartition 0 pt -> pt <> PBA_INVALID ->
  get_target_entry (bucket_of w (req_key rq)) (hash_low (req_key rq)) = None ->
  bigkv_index_set r w =
  read_ptable r (part_idx (hash_high (req_key rq))) (temp_buf (tabled_req w r rq))
    (set_ops (BigkvIndex (bucket (ops w))
                (tset (part (ops w)) (part_idx (hash_high (req_key rq))) (HashPartition 1 pt))) (tabled_world w r rq)).
Proof.
  intros Hrq Hm Hst Hstep Hpart Hpt Ht.
  rewrite (set_no_target w r rq b bp Hrq Hm Hst Hstep) by (done || by rewrite Hpart).
  erewrite bind_ret by exact eq_refl. rewrite tabled_ops, Hpart. cbn [part_pba].
  rewrite (proj2 (Z.eqb_neq _ _) Hpt). cbn [negb]. erewrite bind_ret by exact eq_refl.
  by rewrite tabled_ops.
Qed.

(** What happens to the retry queue between two rounds does not matter. *)
Lemma sys_ok_set_retry ring n w f : sys_ok ring n w -> sys_ok ring n (set_retry_q f w).
Proof. intros [? ? [] [] ? ? ?]. by split. Qed.

Lemma req_ready_set_retry w r rq b f : req_ready w r rq b -> req_ready (set_retry_q f w) r rq b.
Proof. intros []. by split. Qed.

(** The bucket of the key took the new block, the rest of the index is as before. *)
Definition set_in (rq : request) (pp : Z) w w' : Prop :=
  exists i, get_target_entry (bucket_of w (req_key rq)) (hash_low (req_key rq)) = Some i /\
    ops w' = with_bucket (bucket_idx (hash_high (req_key rq)))
      (fill_from_set i (hash_low (req_key rq)) (val_len (req_value rq) / SOB) pp (bucket_of w (req_key rq))) (ops w).

(** The second round: the pair is stored in the clean bucket. *)
Lemma set_after_flush ring n w r rq b bp t pba w0 f :
  let p := part_idx (hash_high (req_key rq)) in
  flushed ring (S (S n)) r rq b bp t (clean_bucket <$> get_part_buckets p (bucket (ops w0))) pba w0 w ->
  params rq <> NULL -> index_ok (ops w0) -> len_ok w0 rq b ->
  let len := val_len (req_value rq) in
  exists pp w', bigkv_index_set r (set_retry_q f w) = Ret 0 w' /\ answered r rq (set_retry_q f w) w' /\
    cached (bucket_of w' (req_key rq)) (hash_low (req_key rq)) = Some (len / SOB, pp) /\
    staged_holds w' pp (len / SOB) (take (Z.to_nat (len / SOB * SOB)) (pair_of rq b)) /\
    index_ok (ops w') /\
    sys_ok (snd (Ring.alloc len (snd (Ring.alloc PART_TABLE_SIZE ring)))) n w' /\
    set_in rq pp w w'.
Proof.
  intros p Hfl Hpar Hix Hlen len. destruct Hfl.
  pose proof (index_ok_flush _ _ p Hix fl_bucket0) as Hix1.
  assert (bucket_of w (req_key rq) = clean_bucket (bucket_of w0 (req_key rq))) as Hbo.
  { unfold bucket_of. rewrite fl_bucket0. apply flushed_bucket. }
  destruct (Hix (bucket_idx (hash_high (req_key rq)))) as [l Hl]. fold (bucket_of w0 (req_key rq)) in Hl.
  pose proof (cleaned_bucket_ok _ _ Hl) as Hl1. rewrite <- Hbo in Hl1.
  destruct (clean_bucket_target _ l (hash_low (req_key rq)) Hl) as [i Hi]. rewrite <- Hbo in Hi.
  destruct (bigkv_set_ok _ n (set_retry_q f w) r rq b l i (BiParams (read_step bp) BI_STEP_WRITE_KV)
              (sys_ok_set_retry _ _ _ _ fl_sys0) (req_ready_set_retry _ _ _ _ _ fl_ready0))
    as (pp & w' & He & Hp & Hs & Hph & Hops & Han & Hh & Hsys); try done.
  { destruct Hlen. split; simpl; by rewrite ?fl_seg0. }
  { by right. }
  { by right. }
  { simpl. rewrite (fl_part0 _), tget_tset_eq. done. }
  fold len in Hs, Hops, Hh, Hsys.
  destruct (set_bucket_ok _ l _ i _ _ Hl1 Hi Hs Hp) as [l' Hok'].
  assert (bucket_of w' (req_key rq) =
            fill_from_set i (hash_low (req_key rq)) (len / SOB) pp (bucket_of w (req_key rq))) as Hb'.
  { unfold bucket_of at 1. rewrite Hops. apply tget_tset_eq. }
  pose proof (fill_from_set_entry _ _ _ _ _ _ Hl1 Hi Hs Hp) as Hent.
  exists pp, w'. split; [done|]. split; [done|]. split; [|split; [done|]; split; [|split; [done | by exists i]]].
  - unfold cached. rewrite Hb'. rewrite (get_match_entry_Some _ (i :: l') _ i Hok'); [|by left | by rewrite Hent].
    by rewrite Hent.
  - rewrite Hops. eapply index_ok_set; [exact Hix1 | exact Hok'].
Qed.

(** The first round of an operation has given the request its parameters and a
    buffer: the index, the device and what the client sees are the same. *)
Record prepared w (rq : request) w0 (rq0 : request) : Prop := Prepared {
  pp_ops : ops w0 = ops w;
  pp_dev : dev w0 = dev w;
  pp_retry : retry_q w0 = retry_q w;
  pp_acks : acks w0 = acks w;
  pp_key : req_key rq0 = req_key rq;
  pp_value : req_value rq0 = req_value rq;
  pp_sock : cl_sock rq0 = cl_sock rq;
  pp_ack : forall tv, ack_of rq0 tv = ack_of rq tv
}.

Lemma prepared_begin w r rq l :
  prepared w rq (tabled r (begun_req w rq) l (begun w r rq))
    (with_temp_buf (mem_next (begun w r rq)) (begun_req w rq)).
Proof. unfold begun, begun_req. by split; destruct (params rq =? NULL). Qed.

Lemma prepared_answered w rq w0 rq0 r w1 w2 :
  prepared w rq w0 rq0 -> answered r rq0 w1 w2 -> answered r rq w1 w2.
Proof.
  intros [_ _ _ _ Hk Hv Hs Ha] []. split; try done; [by rewrite <- Hs, <- Ha | by rewrite <- Hv|].
  intros q bq Hq Hne. rewrite <- Hv in Hne. by apply an_bufs.
Qed.

(** The round of a SET that has written a table: partition [p] has a table with
    the dirty entries, its buckets are clean, the buffer is free and nothing was
    answered. The next round, whatever the retry queue is then, stores the pair
    and answers the client. *)
Record set_flushed (r : Z) (rq : request) (b : list Z) (t0 : hash_part_table) (buf : Z) w w1 : Prop := SetFlushed {
  sf_table : exists t pt,
    update_part_table t0 (get_part_buckets (part_idx (hash_high (req_key rq))) (bucket (ops w))) =
      Some (t, get_part_buckets (part_idx (hash_high (req_key rq))) (bucket (ops w1))) /\
    tget (part (ops w1)) (part_idx (hash_high (req_key rq))) = HashPartition 0 pt /\ 0 <= pt < PBA_INVALID /\
    staged_holds w1 pt PART_TABLE_GRAINS (encode_ptable t);
  sf_others : forall j, j / BUCKETS_IN_PART <> part_idx (hash_high (req_key rq)) ->
    tget (bucket (ops w1)) j = tget (bucket (ops w)) j;
  sf_freed : bufs w1 !! buf = None;
  sf_retry : Fifo.items (retry_q w1) = Fifo.items (retry_q w) ++ [r];
  sf_acks : acks w1 = acks w;
  sf_index : index_ok (ops w1);
  sf_next : forall f, exists pp w2,
    bigkv_index_set r (set_retry_q f w1) = Ret 0 w2 /\ answered r rq (set_retry_q f w1) w2 /\
    cached (bucket_of w2 (req_key rq)) (hash_low (req_key rq)) = Some (val_len (req_value rq) / SOB, pp) /\
    staged_holds w2 pp (val_len (req_value rq) / SOB)
      (take (Z.to_nat (val_len (req_value rq) / SOB * SOB)) (pair_of rq b)) /\
    index_ok (ops w2) /\ (exists ring', sys_ok ring' 0 w2) /\ set_in rq pp w1 w2
}.

Lemma set_flushed_prepared r rq b t0 buf w w1 w0 rq0 :
  prepared w rq w0 rq0 -> set_flushed r rq0 b t0 buf w0 w1 -> set_flushed r rq b t0 buf w w1.
Proof.
  intros Hpp [Ht Ho Hf Hr Ha Hi Hn]. pose proof Hpp as [Eo _ Er Ea Ek Ev _ _].
  unfold pair_of, set_in in *. rewrite Ek, Ev in *. rewrite Eo, Er, Ea in *. split; try done.
  intros f. destruct (Hn f) as (pp & w2 & H1 & H2 & H3). exists pp, w2. split; [done|]. split; [|done].
  by eapply prepared_answered.
Qed.

(** The table in the buffer can take the dirty entries of the four buckets. *)
Lemma set_flushed_ok ring n w r rq b bp l t0 t :
  at_table ring (S (S (S (S n)))) w r rq b bp l -> len_ok w rq b -> index_ok (ops w) ->
  decode_ptable l = t0 ->
  let bs := get_part_buckets (part_idx (hash_high (req_key rq))) (bucket (ops w)) in
  update_part_table t0 bs = Some (t, clean_bucket <$> bs) ->
  Z.of_nat (length (encode_ptable t)) = PART_TABLE_SIZE ->
  PART_TABLE_SIZE <= segment_size (dev w) -> Fifo.full (retry_q w) = false ->
  exists w1, bi_write_ptable r w = Ret 0 w1 /\ set_flushed r rq b t0 (temp_buf rq) w w1.
Proof.
  intros Hat Hlen Hix Hdec bs Hup Hlt Hsz Hroom. subst bs. set (p := part_idx (hash_high (req_key rq))) in *.
  rewrite <- Hdec in Hup. pose proof (at_params _ _ _ _ _ _ _ _ Hat) as Hpar.
  destruct (bi_write_ptable_ok ring (S (S n)) w r rq b l t _ bp Hat Hsz Hroom Hup Hlt) as (pt & w1 & He & Hfl).
  exists w1. split; [done|]. pose proof Hfl as []. fold p in fl_bucket0, fl_part0. split; try done.
  - exists t, pt. fold p. rewrite fl_bucket0, part_buckets_put by (by rewrite length_fmap, part_buckets_length).
    split; [by rewrite <- Hdec|]. split; [|done]. rewrite (fl_part0 _). by rewrite tget_tset_eq.
  - intros j Hj. rewrite fl_bucket0. by apply unflushed_bucket.
  - by eapply (index_ok_flush (ops w)).
  - intros f. destruct (set_after_flush ring n w1 r rq b bp t pt w f Hfl Hpar Hix Hlen)
      as (pp & w2 & H1 & H2 & H3 & H4 & H5 & H6 & H7). exists pp, w2. do 5 (split; [done|]).
    split; [|done]. eexists. eapply sys_ok_weaken; [|exact H6]. lia.
Qed.

Lemma set_fresh_round ring n w r rq b bp :
  sys_ok ring (S (S (S (S n)))) w -> NoDup (Fifo.items (cb_pool w)) -> req_ready w r rq b -> len_ok w rq b ->
  starts w rq bp -> write_step bp = BI_STEP_INIT -> index_ok (ops w) ->
  tget (part (ops w)) (part_idx (hash_high (req_key rq))) = HashPartition 0 PBA_INVALID ->
  get_target_entry (bucket_of w (req_key rq)) (hash_low (req_key rq)) = None ->
  PART_TABLE_SIZE <= segment_size (dev w) -> Fifo.full (retry_q w) = false ->
  exists w1, bigkv_index_set r w = Ret 0 w1 /\
    set_flushed r rq b init_ptable (mem_next (begun w r rq)) w w1.
Proof.
  intros Hsys Hnd Hrq Hlen Hst Hstep Hix Hpart Ht Hsz Hroom.
  rewrite (set_fresh_ok w r rq b bp _ Hrq (so_mem _ _ _ _ Hsys) Hst Hstep Hpart Ht eq_refl).
  pose proof (decode_encode_ptable _ init_ptable_entries_ok) as Hdec.
  generalize dependent (encode_ptable init_ptable). intros l Hdec.
  pose proof (prepared_begin w r rq l) as Hpp.
  pose proof (at_table_begin _ _ _ _ _ _ _ l Hsys Hnd Hrq Hst) as Hat.
  destruct (flush_fits init_ptable (ops w) (part_idx (hash_high (req_key rq))) Hix) as (t & Hup & Hlt).
  { apply init_ptable_entries_ok. }
  { assert (used init_ptable = 0%nat) as -> by by vm_compute. change (Z.to_nat MAX_HOP) with 256%nat. lia. }
  destruct (set_flushed_ok ring n _ r _ b bp l init_ptable t Hat) as (w1 & He & Hsf).
  - destruct Hlen. split; by rewrite ?(pp_value _ _ _ _ Hpp), ?(pp_key _ _ _ _ Hpp), ?(pp_dev _ _ _ _ Hpp).
  - by rewrite (pp_ops _ _ _ _ Hpp).
  - exact Hdec.
  - by rewrite (pp_ops _ _ _ _ Hpp), (pp_key _ _ _ _ Hpp).
  - exact Hlt.
  - by rewrite (pp_dev _ _ _ _ Hpp).
  - by rewrite (pp_retry _ _ _ _ Hpp).
  - exists w1. split; [exact He|]. by eapply set_flushed_prepared.
Qed.

(** C21: A SET whose bucket is full of entries that were never written, in a
    partition that has no table yet, is done in two rounds. The first writes a
    table with the dirty entries of the four buckets to the log, frees its
    buffer, makes it the table of the partition and sends the request back; the
    second, whatever the retry queue is then, stores the pair and answers the
    client. Neither aborts, and every bucket stays well formed. *)
Theorem bigkv_set_fresh_partition ring n w r rq b bp :
  sys_ok ring (S (S (S (S n)))) w -> NoDup (Fifo.items (cb_pool w)) -> req_ready w r rq b -> len_ok w rq b ->
  starts w rq bp -> write_step bp = BI_STEP_INIT -> index_ok (ops w) ->
  tget (part (ops w)) (part_idx (hash_high (req_key rq))) = HashPartition 0 PBA_INVALID ->
  get_target_entry (bucket_of w (req_key rq)) (hash_low (req_key rq)) = None ->
  PART_TABLE_SIZE <= segment_size (dev w) -> Fifo.full (retry_q w) = false ->
  exists w1, bigkv_index_set r w = Ret 0 w1 /\
    set_flushed r rq b init_ptable (mem_next (begun w r rq)) w w1.
Proof. exact (set_fresh_round ring n w r rq b bp). Qed.

(** ** The round that reads the table *)

(** The table of the partition is in the request's buffer, and the request was
    sent back at the steps that use it. *)
Record table_read (ring : Ring.ring) (n : nat) (r : Z) (rq : request) (b : list Z) (t : hash_part_table)
    w w' : Prop := TableRead {
  tr_at : at_table ring n w' r rq b (BiParams BI_STEP_UPDATE_TABLE BI_STEP_WRITE_PTABLE) (encode_ptable t);
  tr_ops : ops w' = ops w;
  tr_dev : dev w' = dev w;
  tr_bufs : forall q, q <> temp_buf rq -> bufs w' !! q = bufs w !! q;
  tr_retry : Fifo.items (retry_q w') = Fifo.items (retry_q w) ++ [r];
  tr_cap : Fifo.cap (retry_q w') = Fifo.cap (retry_q w);
  tr_acks : acks w' = acks w;
  tr_flying : World.flying w' = World.flying w;
  tr_pool : req_pool w' = req_pool w;
  tr_req : req_arr w' = req_arr w;
  tr_rc : io_submit_rc w' = io_submit_rc w;
  tr_null : iocb_arr w !! NULL = None /\ cb_arr w !! NULL = None -> iocb_arr w' !! NULL = None /\ cb_arr w' !! NULL = None;
  tr_iocb : NoDup (Fifo.items (iocb_pool w)) -> NoDup (Fifo.items (iocb_pool w'));
  tr_time : gettimeofday w' (ticks w') = gettimeofday w (ticks w)
}.

Lemma read_ptable_ok ring n w r rq b bp t p z :
  at_table ring (S n) w r rq b bp z -> Z.of_nat (length z) = PART_TABLE_SIZE ->
  staged_holds w (part_pba (tget (part (ops w)) p)) PART_TABLE_GRAINS (encode_ptable t) ->
  Fifo.full (retry_q w) = false ->
  exists w', read_ptable r p (temp_buf rq) w = Ret 0 w' /\ table_read ring n r rq b t w w'.
Proof.
  intros [Hsys Hnd Hrq Hpar Hbp Ht0 Htv Hts Hz] Hzl (ss & sb & Hin & Hsb & Hsl & Hx) Hroom.
  pose proof (so_pools _ _ _ _ Hsys) as [Hcb _ Hca _].
  destruct (Fifo.items (cb_pool w)) as [|c cs] eqn:E; simpl in Hcb; [lia|].
  apply Forall_cons in Hca as [[cb0 Hcb0] _]. apply NoDup_cons in Hnd as [Hc Hnd].
  unfold read_ptable. rewrite (bind_ret _ _ _ _ _ (make_callback_ok FN_cb_part_table_read r w c cs cb0 E Hcb0)).
  match goal with |- context [set_cb_arr ?a ?v] => set (w2 := set_cb_arr a v) end.
  erewrite bind_ret by exact eq_refl. change (ops w2) with (ops w).
  destruct (dev_abs_read_staged bi_exec w2 ss (part_pba (tget (part (ops w)) p)) PART_TABLE_GRAINS (temp_buf rq) c
              (Callback FN_cb_part_table_read r NULL) sb z (so_dev _ _ _ _ Hsys) Hin) as (x & Hx' & Hread);
    [done | done | done | done | | by apply lookup_insert_eq |].
  { change (dev w2) with (dev w). rewrite (so_grain _ _ _ _ Hsys), Hzl. done. }
  change (dev w2) with (dev w) in Hx'. rewrite Hx in Hx'. injection Hx' as <-.
  assert (length (encode_ptable t) = length z) as Hle.
  { pose proof (slice_length _ _ _ _ Hx) as Hl. rewrite (so_grain _ _ _ _ Hsys) in Hl.
    rewrite Hl. change (PART_TABLE_GRAINS * SOB) with PART_TABLE_SIZE. lia. }
  rewrite drop_ge, app_nil_r in Hread by lia.
  unfold bind at 1. rewrite Hread. cbn [cb_func cb_arg bi_exec]. unfold cb_part_table_read.
  match type of Hread with _ = _ ?v => set (w5 := v) in * end.
  unfold bind at 1.
  rewrite (bind_ret _ _ _ _ _ (load_req_ok r rq w5 (qr_req _ _ _ _ Hrq))).
  rewrite (bind_ret _ _ _ _ _ (load_params_ok _ _ w5 Hbp)).
  erewrite bind_ret by exact eq_refl. erewrite bind_ret by (apply retry_req_ok; exact Hroom).
  unfold ret at 1. match goal with |- context [set_retry_q ?f ?v] => set (w6 := set_retry_q f v) end.
  destruct (return_callback c w6) as (bb & f & Hq & Hf). rewrite (bind_ret _ _ _ _ _ Hq). unfold ret.
  exists (set_cb_pool f w6). split; [done|].
  assert (taken c w w5) as Htk.
  { split; try done; [by eexists; apply lookup_insert_eq|].
    intros c' Hc'. apply lookup_insert_is_Some'. by right. }
  destruct Hrq as [Q1 Q2 Q3 Q4 Q5 Q6 Q7 Q8].
  split; try done; [split; try done| |].
  - apply (sys_ok_callback_done PBA_INVALID ring n w w5 _ c (temp_buf rq) Hsys Htk); try done.
    + intros q b'. simpl. rewrite lookup_insert_Some. intros [[<- _] | [_ H]]; by eexists.
    + intros q b' Hne Hq'. simpl. by rewrite lookup_insert_ne.
  - simpl in *. eapply (nodup_handed_back w w5 c); [done | by rewrite E; constructor | done].
  - split; simpl; try done; [|by rewrite lookup_insert_ne].
    right. rewrite lookup_insert_eq. by eexists.
  - simpl. apply lookup_insert_eq.
  - simpl. apply lookup_insert_eq.
  - intros q Hne. simpl. by rewrite lookup_insert_ne.
  - intros [N1 N2]. split; [done|]. simpl. rewrite lookup_insert_ne; [done|]. intros ->. congruence.
Qed.

(** ** The round of a GET that uses the table *)

(** A statement that was run up to [ret 0] can be continued. *)
Lemma seq_then {A} (m : M bworld A) (k : M bworld Z) w w' : (m ;;; ret 0) w = Ret 0 w' -> (m ;;; k) w = k w'.
Proof. intros (a & w1 & Hm & H)%bind_inv. apply Ret_inj in H as [_ <-]. by rewrite (bind_ret _ _ _ _ _ Hm). Qed.

(** The pair is read, compared and the client answered; the bucket comes next. *)
Lemma update_table_ok ring n w r rq b bp t ef x :
  at_table ring (S (S n)) w r rq b bp (encode_ptable t) -> ptable_ok t ->
  get_match_entry_f t (hash_low (req_key rq)) = Some ef ->
  0 < f_kv_size ef -> f_kv_size ef * SOB <= Z.of_nat (length b) -> staged_holds w (f_pba ef) (f_kv_size ef) x ->
  keycmp (req_key rq) (x ++ drop (length x) b) = Some 0 ->
  exists w', bi_update_table r w =
      get_target_retry 2 (hash_high (req_key rq)) (hash_low (req_key rq)) ef (temp_buf rq) w' /\
    answered r rq w w' /\ ops w' = ops w /\ dev w' = dev w /\ sys_ok ring (S n) w' /\
    NoDup (Fifo.items (cb_pool w')) /\ bufs w' !! temp_buf rq = Some (encode_ptable t).
Proof.
  intros [Hsys Hnd Hrq Hpar Hbp _ Htv Hts Hl] Ht Hm Hk Hkl Hh Hcmp. unfold bi_update_table.
  rewrite (bind_ret _ _ _ _ _ (load_req_ok _ _ _ (qr_req _ _ _ _ Hrq))). cbn zeta.
  rewrite (bind_ret _ _ _ _ _ (load_buf_ok _ _ _ Hl)). rewrite (decode_encode_ptable t Ht), Hm.
  unfold set_temp_buf. erewrite bind_ret.
  2: { erewrite bind_ret by (apply load_req_ok, Hrq). exact eq_refl. }
  match goal with |- context [set_req_arr ?a ?v] => set (w1 := set_req_arr a v) end.
  set (rq1 := with_temp_buf NULL rq).
  assert (sys_ok ring (S (S n)) w1) as Hsys1 by by destruct Hsys as [? ? [] [] ? ? ?].
  assert (req_ready w1 r rq1 b) as Hrq1 by (destruct Hrq; split; try done; apply lookup_insert_eq).
  destruct (staged_read_ok bi_exec (S n) w1 r rq1 b FN_cb_keycmp (f_pba ef) (f_kv_size ef) x bp)
    as (c & w5 & Hread & Hac & Htk); try done.
  { apply Hsys1. }
  { apply Hsys1. }
  { by rewrite (so_grain _ _ _ _ Hsys1). }
  destruct (cb_keycmp_match w1 w5 r rq1 b x bp c Hrq1 Hpar Hac Hcmp) as (w' & He & Han & Hops & Hback).
  rewrite He in Hread. apply bind_inv in Hread as (c' & w2 & Hc & Hrd).
  change (value (req_value rq)) with (value (req_value rq1)).
  rewrite (bind_ret _ _ _ _ _ Hc), (seq_then _ _ _ _ Hrd). exists w'. split; [done|].
  split; [|split; [done|]; split; [apply Hback|]; split; [|split]].
  - destruct Han. split; try done. intros r' Hne. rewrite an_others by done. simpl. by rewrite lookup_insert_ne.
  - by apply Hback.
  - by apply Hback.
  - by apply (an_bufs _ _ _ _ Han).
Qed.

(** The bucket takes over an entry of the table. *)
Lemma fill_from_ptable_ok b l fp i ef :
  bucket_ok b l -> get_target_entry b fp = Some i -> f_fingerprint ef = fp -> f_pba ef <> PBA_INVALID ->
  (exists l', bucket_ok (fill_from_ptable i ef b) l') /\
  cached (fill_from_ptable i ef b) fp = Some (f_kv_size ef, f_pba ef).
Proof.
  intros Hok Ht Hf Hp.
  destruct (insert_renewed b (fill_from_ptable i ef b) l fp i
              (HashEntry (f_fingerprint ef) 0 0 0 (f_kv_size ef) (f_pba ef)) Hok Ht)
    as (H1 & _ & H2 & _); try done.
  - intros Hi. by apply renewed_store_age; [apply Hok | |].
  - split; [by eexists|]. rewrite H2, decide_True by done. done.
Qed.

(** What [get_target_retry] leaves: the bucket has the entry of the table, the
    buffer of the table is free, and when no entry could be given up the table
    of the partition is a new one. *)
Record settled (hh fp : Z) (ef : hash_entry_f) (ptable : Z) (t : hash_part_table) w w' : Prop := Settled {
  st_cached : cached (tget (bucket (ops w')) (bucket_idx hh)) fp = Some (f_kv_size ef, f_pba ef);
  st_index : index_ok (ops w');
  st_freed : bufs w' !! ptable = None;
  st_bufs : forall q b, bufs w !! q = Some b -> q <> ptable -> q <> staged_seg_buf (dev w) ->
              bufs w' !! q = Some b /\ q <> staged_seg_buf (dev w');
  st_acks : acks w' = acks w;
  st_flying : World.flying w' = World.flying w;
  st_pool : req_pool w' = req_pool w;
  st_retry : retry_q w' = retry_q w;
  st_req : req_arr w' = req_arr w;
  st_params : params_heap w' = params_heap w;
  st_part :
    let b := tget (bucket (ops w)) (bucket_idx hh) in
    let bs := get_part_buckets (part_idx hh) (bucket (ops w)) in
    match get_target_entry b fp with
    | Some i => ops w' = with_bucket (bucket_idx hh) (fill_from_ptable i ef b) (ops w)
    | None => exists t' pt i,
        update_part_table t bs = Some (t', clean_bucket <$> bs) /\
        get_target_entry (clean_bucket b) fp = Some i /\
        ops w' = with_bucket (bucket_idx hh) (fill_from_ptable i ef (clean_bucket b))
          (BigkvIndex (put_buckets (part_idx hh * BUCKETS_IN_PART) (clean_bucket <$> bs) (bucket (ops w)))
             (tset (part (ops w)) (part_idx hh)
                (HashPartition (BigkvTable.flying (tget (part (ops w)) (part_idx hh))) pt))) /\
        0 <= pt < PBA_INVALID /\ staged_holds w' pt PART_TABLE_GRAINS (encode_ptable t')
    end
}.

(** The bucket takes the entry over. *)
Definition taken_over (hh : Z) (ef : hash_entry_f) (i : Z) w : bworld :=
  set_ops (with_bucket (bucket_idx hh) (fill_from_ptable i ef (tget (bucket (ops w)) (bucket_idx hh))) (ops w)) w.

Lemma get_target_retry_some m hh fp ef ptable i w :
  get_target_entry (tget (bucket (ops w)) (bucket_idx hh)) fp = Some i ->
  get_target_retry (S m) hh fp ef ptable w = (free_buf ptable ;;; ret 0) (taken_over hh ef i w).
Proof.
  intros Hi. cbn [get_target_retry]. erewrite bind_ret by exact eq_refl. rewrite Hi. by erewrite bind_ret by exact eq_refl.
Qed.

Lemma get_target_retry_none m hh fp ef ptable w :
  get_target_entry (tget (bucket (ops w)) (bucket_idx hh)) fp = None ->
  get_target_retry (S m) hh fp ef ptable w =
  write_table (part_idx hh) ptable FN_cb_part_table_write_for_get ptable (get_target_retry m hh fp ef NULL) w.
Proof. intros Hi. cbn [get_target_retry]. erewrite bind_ret by exact eq_refl. by rewrite Hi. Qed.

Lemma taken_over_ok hh fp ef i w :
  index_ok (ops w) -> get_target_entry (tget (bucket (ops w)) (bucket_idx hh)) fp = Some i ->
  f_fingerprint ef = fp -> f_pba ef <> PBA_INVALID ->
  cached (tget (bucket (ops (taken_over hh ef i w))) (bucket_idx hh)) fp = Some (f_kv_size ef, f_pba ef) /\
  index_ok (ops (taken_over hh ef i w)).
Proof.
  intros Hix Hi Hf Hp. destruct (Hix (bucket_idx hh)) as [l Hl].
  destruct (fill_from_ptable_ok _ l fp i ef Hl Hi Hf Hp) as [[l' Hok] Hc].
  split; [|by eapply index_ok_set]. simpl. by rewrite tget_tset_eq.
Qed.

Lemma settled_hit hh fp ef ptable t w i :
  index_ok (ops w) -> get_target_entry (tget (bucket (ops w)) (bucket_idx hh)) fp = Some i ->
  f_fingerprint ef = fp -> f_pba ef <> PBA_INVALID ->
  ptable <> NULL -> bufs w !! ptable = Some (encode_ptable t) ->
  exists w', get_target_retry 2 hh fp ef ptable w = Ret 0 w' /\ settled hh fp ef ptable t w w'.
Proof.
  intros Hix Hi Hf Hp Hn Hb. destruct (taken_over_ok hh fp ef i w Hix Hi Hf Hp) as [Hc Hix'].
  rewrite (get_target_retry_some 1 hh fp ef ptable i w Hi).
  erewrite bind_ret by (by apply (free_buf_ok _ (encode_ptable t))).
  eexists. split; [done|]. split; try done.
  - simpl. apply lookup_delete_eq.
  - intros q b Hq Hne Hs. split; [simpl; by rewrite lookup_delete_ne | done].
  - intros b bs. subst b bs. by rewrite Hi.
Qed.

Lemma settled_miss ring n hh fp ef ptable t t' w :
  sys_ok ring (S (S n)) w -> NoDup (Fifo.items (cb_pool w)) -> index_ok (ops w) ->
  get_target_entry (tget (bucket (ops w)) (bucket_idx hh)) fp = None ->
  f_fingerprint ef = fp -> f_pba ef <> PBA_INVALID -> ptable <> NULL -> ptable <> staged_seg_buf (dev w) ->
  bufs w !! ptable = Some (encode_ptable t) -> ptable_ok t ->
  let bs := get_part_buckets (part_idx hh) (bucket (ops w)) in
  update_part_table t bs = Some (t', clean_bucket <$> bs) ->
  Z.of_nat (length (encode_ptable t')) = PART_TABLE_SIZE ->
  PART_TABLE_SIZE <= segment_size (dev w) ->
  exists w', get_target_retry 2 hh fp ef ptable w = Ret 0 w' /\ settled hh fp ef ptable t w w'.
Proof.
  intros Hsys Hnd Hix Hno Hf Hp Hn Hne Hb Ht bs Hup Hlen Hsz. subst bs.
  rewrite (get_target_retry_none 1 hh fp ef ptable w Hno).
  destruct (write_table_ok ring n w (part_idx hh) ptable (encode_ptable t) t'
              (clean_bucket <$> get_part_buckets (part_idx hh) (bucket (ops w))) FN_cb_part_table_write_for_get ptable
              (get_target_retry 1 hh fp ef NULL) Hsys Hnd Hb Hne Hsz) as (pt & c & w1 & Hw & Htw);
    [rewrite (decode_encode_ptable t Ht); exact Hup | exact Hlen |].
  rewrite Hw. clear Hw. destruct Htw. cbn [bi_exec]. unfold cb_part_table_write_for_get.
  erewrite bind_ret by (by apply (free_buf_ok _ (encode_ptable t'))).
  match goal with |- context [set_bufs ?a w1] => set (w2 := set_bufs a w1) end.
  destruct (return_callback c w2) as (bb & f & Hq & _). rewrite (bind_ret _ _ _ _ _ Hq).
  set (w3 := set_cb_pool f w2).
  pose proof (index_ok_flush (ops w) (ops w1) _ Hix tw_bucket0) as Hix1.
  assert (tget (bucket (ops w3)) (bucket_idx hh) = clean_bucket (tget (bucket (ops w)) (bucket_idx hh))) as Hbk.
  { change (ops w3) with (ops w1). rewrite tw_bucket0. apply flushed_bucket. }
  destruct (Hix (bucket_idx hh)) as [l Hl]. destruct (clean_bucket_target _ l fp Hl) as [i Hi].
  pose proof Hi as Hi3. rewrite <- Hbk in Hi3.
  destruct (taken_over_ok hh fp ef i w3 Hix1 Hi3 Hf Hp) as [Hc Hix3].
  rewrite (get_target_retry_some 0 hh fp ef NULL i w3 Hi3). exists (taken_over hh ef i w3).
  split; [done|]. split; try done.
  - simpl. apply lookup_delete_eq.
  - intros q b Hq1 Hq2 Hq3. destruct (tw_bufs0 _ _ Hq1 Hq2 Hq3) as [H1 H2]. split; [|done].
    simpl. by rewrite lookup_delete_ne.
  - intros b bs. subst b bs. rewrite Hno. exists t', pt, i. split; [done|]. split; [done|]. split; [|split; [done|]].
    + unfold taken_over. cbn [ops set_ops]. rewrite Hbk. unfold with_bucket. change (ops w3) with (ops w1).
      by rewrite tw_bucket0, tw_part0.
    + destruct tw_table0 as (ss & sb & T1 & T2 & T3 & T4). exists ss, sb. split; [done|]. split; [|done].
      simpl. by rewrite lookup_delete_ne.
Qed.

(** Whatever the bucket holds, if a flush fits into the table. *)
Lemma settled_ok ring n hh fp ef ptable t w :
  sys_ok ring (S (S n)) w -> NoDup (Fifo.items (cb_pool w)) -> index_ok (ops w) ->
  f_fingerprint ef = fp -> f_pba ef <> PBA_INVALID -> ptable <> NULL -> ptable <> staged_seg_buf (dev w) ->
  bufs w !! ptable = Some (encode_ptable t) -> ptable_ok t ->
  (get_target_entry (tget (bucket (ops w)) (bucket_idx hh)) fp = None ->
   is_Some (update_part_table t (get_part_buckets (part_idx hh) (bucket (ops w))))) ->
  PART_TABLE_SIZE <= segment_size (dev w) ->
  exists w', get_target_retry 2 hh fp ef ptable w = Ret 0 w' /\ settled hh fp ef ptable t w w'.
Proof.
  intros Hsys Hnd Hix Hf Hp Hn Hne Hb Ht Hup Hsz.
  destruct (get_target_entry (tget (bucket (ops w)) (bucket_idx hh)) fp) as [i|] eqn:E.
  - by eapply settled_hit.
  - destruct (Hup eq_refl) as [[t' bs'] Hu]. pose proof Hu as Hc.
    apply update_part_table_clean in Hc as [-> Hl]; [|apply Ht].
    eapply (settled_miss ring n); try done. by apply encode_ptable_size.
Qed.

(** A round that goes on from the table. *)
Lemma get_update_step ring n w r rq b bp l :
  at_table ring n w r rq b bp l -> read_step bp = BI_STEP_UPDATE_TABLE ->
  bigkv_index_get r w = bi_update_table r w.
Proof.
  intros [_ _ Hrq Hpar Hbp _ _ _ _] Hstep. unfold bigkv_index_get.
  rewrite (bind_ret _ _ _ _ _ (load_req_ok _ _ _ (qr_req _ _ _ _ Hrq))). cbn zeta.
  rewrite (bind_ret _ _ _ _ _ (ensure_params_old r rq _ w (qr_req _ _ _ _ Hrq) Hpar)).
  rewrite (bind_ret _ _ _ _ _ (load_params_ok _ _ _ Hbp)). by rewrite Hstep.
Qed.

(** ** Rounds through a table *)

Lemma staged_holds_same w w' p k x :
  dev w' = dev w -> bufs w' !! staged_seg_buf (dev w) = bufs w !! staged_seg_buf (dev w) ->
  staged_holds w p k x -> staged_holds w' p k x.
Proof. intros Ed Eb (ss & sb & H1 & H2 & H3). exists ss, sb. by rewrite Ed, Eb. Qed.

Lemma at_table_retry ring n w r rq b bp l f :
  at_table ring n w r rq b bp l -> at_table ring n (set_retry_q f w) r rq b bp l.
Proof. intros []. split; try done; [by apply sys_ok_set_retry | by apply req_ready_set_retry]. Qed.

Lemma at_table_ops ring n w r rq b bp l i :
  at_table ring n w r rq b bp l -> at_table ring n (set_ops i w) r rq b bp l.
Proof. intros []. split; try done; [by apply sys_ok_set_ops | by apply req_ready_set_ops]. Qed.

(** A staged block is still there after the buffer of the table was made. *)
Lemma staged_tabled ring n w r rq p k x l :
  sys_ok ring n w -> staged_holds w p k x -> staged_holds (tabled r (begun_req w rq) l (begun w r rq)) p k x.
Proof.
  intros Hs Hh. apply (staged_holds_same w); [unfold begun; by case_match | | done].
  destruct (so_staged _ _ _ _ Hs) as (sb & Hsb & _). pose proof (mo_bufs _ (so_mem _ _ _ _ Hs) _ _ Hsb).
  simpl. rewrite lookup_insert_ne; unfold begun; case_match; simpl; (done || lia).
Qed.

Lemma get_miss_ok w r rq b bp :
  req_ready w r rq b -> mem_ok w -> starts w rq bp -> read_step bp <> BI_STEP_UPDATE_TABLE ->
  get_match_entry (bucket_of w (req_key rq)) (hash_low (req_key rq)) = None ->
  bigkv_index_get r w =
  read_ptable r (part_idx (hash_high (req_key rq))) (temp_buf (tabled_req w r rq)) (tabled_world w r rq).
Proof.
  intros Hrq Hm Hst Hstep Hno. unfold bigkv_index_get.
  rewrite (bind_ret _ _ _ _ _ (load_req_ok _ _ _ (qr_req _ _ _ _ Hrq))). cbn zeta.
  destruct (ensure_begun w r rq bp (qr_req _ _ _ _ Hrq) Hst Hm) as [He Hl].
  rewrite (bind_ret _ _ _ _ _ He), (bind_ret _ _ _ _ _ Hl).
  destruct (begun_same w r rq) as (Eo & _ & Ek & _).
  pose proof (begun_lookup w r rq b Hrq) as Hr.
  assert (forall X : M bworld Z, match read_step bp with BI_STEP_UPDATE_TABLE => bi_update_table r | _ => X end = X)
    as Hx by by destruct (read_step bp).
  rewrite Hx. erewrite bind_ret by exact eq_refl. rewrite Eo. fold (bucket_of w (req_key rq)). rewrite Hno.
  erewrite bind_ret by exact eq_refl. unfold set_temp_buf. erewrite bind_ret; [reflexivity|].
  erewrite bind_ret by (apply load_req_ok; exact Hr). exact eq_refl.
Qed.


(** The first round reads the table. *)
Lemma table_round ring n w r rq b bp t h :
  sys_ok ring (S n) w -> NoDup (Fifo.items (cb_pool w)) -> req_ready w r rq b -> starts w rq bp ->
  Fifo.full (retry_q w) = false ->
  let p := part_idx (hash_high (req_key rq)) in
  staged_holds w (part_pba (tget (part h) p)) PART_TABLE_GRAINS (encode_ptable t) ->
  exists w1, read_ptable r p (temp_buf (tabled_req w r rq)) (set_ops h (tabled_world w r rq)) = Ret 0 w1 /\
    table_read ring n r (tabled_req w r rq) b t (set_ops h (tabled_world w r rq)) w1.
Proof.
  intros Hsys Hnd Hrq Hst Hroom p Hh.
  apply (read_ptable_ok ring n _ r _ b bp t p zeros).
  - by apply at_table_ops, at_table_begin.
  - exact zeros_length.
  - apply (staged_holds_same (tabled_world w r rq)); [done | done |]. by eapply staged_tabled.
  - simpl. unfold begun. by case_match.
Qed.

(** A staged block survives the round. *)
Lemma staged_table_read ring n m w r rq b t h w1 p k x f :
  sys_ok ring m w -> table_read ring n r (tabled_req w r rq) b t (set_ops h (tabled_world w r rq)) w1 ->
  staged_holds w p k x -> staged_holds (set_retry_q f w1) p k x.
Proof.
  intros Hs [Hat _ Hd Hbufs _ _ _ _ _ _ _ _ _ _] Hh.
  pose proof (staged_tabled ring m w r rq p k x zeros Hs Hh) as H0.
  apply (staged_holds_same (tabled_world w r rq)); [exact Hd | | exact H0].
  simpl. rewrite Hbufs; [done|]. pose proof (at_staged _ _ _ _ _ _ _ _ Hat) as Hne.
  rewrite Hd in Hne. by apply not_eq_sym.
Qed.

(** A later round goes straight to its step. *)
Lemma set_write_step w r rq b l bp ring n :
  at_table ring n w r rq b bp l -> write_step bp = BI_STEP_WRITE_PTABLE ->
  bigkv_index_set r w = bi_write_ptable r w.
Proof.
  intros [_ _ Hrq Hpar Hbp _ _ _ _] Hstep. unfold bigkv_index_set.
  rewrite (bind_ret _ _ _ _ _ (load_req_ok _ _ _ (qr_req _ _ _ _ Hrq))).
  rewrite (bind_ret _ _ _ _ _ (ensure_params_old r rq _ w (qr_req _ _ _ _ Hrq) Hpar)).
  rewrite (bind_ret _ _ _ _ _ (load_params_ok _ _ _ Hbp)). by rewrite Hstep.
Qed.

End Write.

(** ** Concrete runs *)

(** A device of three segments of 64 KiB. The staged one holds a table in its
    first 128 grains and a pair in the two grains behind it; the table has the
    entry of that pair. *)
Definition big_dev : dev_abs :=
  DevAbs [] 3 384 512 196608 65536 3
    [Segment 0 SEG_STATE_STAGED 0 65536 16640; Segment 1 SEG_STATE_FREE 65536 131072 65536;
     Segment 2 SEG_STATE_FREE 131072 196608 131072] 0 0 1 128.

Definition big_ring : Ring.ring := Ring.Mk 65536 3 128 0 16640.

Definition table_entry : hash_entry := HashEntry (9 * 2 ^ 27 + 5) 0 1 0 2 128.

Definition big_table : hash_part_table :=
  <[Z.to_nat (probe (9 * 2 ^ 27 + 5) 0) := packed 0 table_entry]> init_ptable.

Definition big_pair : list Z := 3 :: 107 :: 101 :: 121 :: replicate 252 77.

Definition big_staged : list Z :=
  encode_ptable big_table ++ big_pair ++ replicate (Z.to_nat (65536 - 16640)) 0.

(** A bucket of four dirty entries in the first partition, and its table. *)
Definition full_index (pt : Z) : bigkv_index :=
  BigkvIndex (tset (TMap init_bucket ∅) 0 dirty_bucket)
    (tset (TMap (HashPartition 0 PBA_INVALID) ∅) 0 (HashPartition 0 pt)).

Definition big_world (pt : Z) (ty2 : req_type_t) : bworld :=
  lab (full_index pt) big_dev {[ 1 := demo_req REQ_TYPE_SET 10 NULL; 2 := demo_req ty2 11 NULL ]}
    ∅ (demo_bufs big_staged) 30.

Lemma big_dev_wf : dev_wf big_dev.
Proof.
  split; simpl; try lia; try (by exists 512); try done.
  - intros [|[|[|i]]] s; simpl; try done; intros [= <-]; split; simpl; try lia; by apply Z.mod_divide.
  - intros [|[|[|i]]] s; simpl; try done; intros [= <-]; simpl; split; done.
Qed.

Lemma big_table_ok : ptable_ok big_table.
Proof.
  split; [unfold big_table; rewrite length_insert; apply init_ptable_entries_ok|].
  apply Forall_insert; [apply init_ptable_entries_ok|]. split; by vm_compute.
Qed.

Lemma big_table_size : Z.of_nat (length (encode_ptable big_table)) = 16384.
Proof. apply encode_ptable_size, big_table_ok. Qed.

Lemma big_staged_length : Z.of_nat (length big_staged) = 65536.
Proof.
  unfold big_staged. rewrite !length_app, length_replicate, !Nat2Z.inj_add, big_table_size.
  change (length big_pair) with 256%nat. lia.
Qed.

Lemma big_sys pt ty2 : sys_ok big_ring 6 (big_world pt ty2).
Proof.
  split; [exact big_dev_wf | | apply lab_pools_all | apply demo_mem | | exact eq_refl | by vm_compute].
  - split; simpl; try done; [|by intros s [= <-]]. split; simpl; try lia; [by exists 512 | by exists 130].
  - exists big_staged. split; [exact eq_refl | exact big_staged_length].
Qed.

Lemma slice_app (a x y : list Z) n :
  Z.of_nat (length x) = n -> slice (a ++ x ++ y) (Z.of_nat (length a)) n = Some x.
Proof.
  intros Hx. rewrite slice_eq by (rewrite ?length_app; lia). f_equal.
  rewrite Nat2Z.id, drop_app_length. subst n. by rewrite Nat2Z.id, take_app_length.
Qed.

Lemma big_in_staged p k :
  0 <= p -> 0 <= k -> p + k <= 130 -> in_staged big_dev (Segment 0 SEG_STATE_STAGED 0 65536 16640) p k.
Proof. intros. split; simpl; (done || lia). Qed.

Lemma big_holds_table pt ty2 : staged_holds (big_world pt ty2) 0 PART_TABLE_GRAINS (encode_ptable big_table).
Proof.
  exists (Segment 0 SEG_STATE_STAGED 0 65536 16640), big_staged.
  split; [by apply big_in_staged|]. split; [exact eq_refl|]. split; [exact big_staged_length|].
  apply (slice_app [] (encode_ptable big_table) (big_pair ++ replicate (Z.to_nat (65536 - 16640)) 0)), big_table_size.
Qed.

Lemma big_holds_pair pt ty2 : staged_holds (big_world pt ty2) 128 2 big_pair.
Proof.
  exists (Segment 0 SEG_STATE_STAGED 0 65536 16640), big_staged.
  split; [by apply big_in_staged|]. split; [exact eq_refl|]. split; [exact big_staged_length|].
  pose proof (slice_app (encode_ptable big_table) big_pair (replicate (Z.to_nat (65536 - 16640)) 0) 256 eq_refl) as H.
  by rewrite big_table_size in H.
Qed.

Lemma big_index pt : index_ok (full_index pt).
Proof.
  intros j. simpl. rewrite tget_tset. case_decide; [exists [3; 2; 1; 0]; exact dirty_bucket_ok|].
  exists []. exact init_bucket_ok.
Qed.

Lemma big_set pt ty2 : req_ready (big_world pt ty2) 1 (demo_req REQ_TYPE_SET 10 NULL) (replicate 256 5).
Proof. apply demo_ready1; [done | by left]. Qed.

Lemma big_get pt : req_ready (big_world pt REQ_TYPE_GET) 2 (demo_req REQ_TYPE_GET 11 NULL) (replicate 256 0).
Proof. apply demo_ready2; [done | by left]. Qed.

Lemma big_len pt ty2 : len_ok (big_world pt ty2) (demo_req REQ_TYPE_SET 10 NULL) (replicate 256 5).
Proof. split; by vm_compute. Qed.

Lemma big_used : (used big_table + 16 <= Z.to_nat MAX_HOP)%nat.
Proof.
  pose proof (filter_insert_length in_use init_ptable (Z.to_nat (probe (9 * 2 ^ 27 + 5) 0)) (packed 0 table_entry)) as H.
  fold big_table in H. change (length (filter in_use init_ptable)) with 0%nat in H.
  change (Z.to_nat MAX_HOP) with 256%nat. unfold used. lia.
Qed.

Lemma big_nodup pt ty2 : NoDup (Fifo.items (cb_pool (big_world pt ty2))).
Proof. apply (bool_decide_unpack _). by vm_compute. Qed.

Lemma bigkv_set_fresh_partition_witness :
  exists w1 w2, bigkv_index_set 1 (big_world PBA_INVALID REQ_TYPE_GET) = Ret 0 w1 /\ acks w1 = [] /\
    bigkv_index_set 1 (set_retry_q (Fifo.init QSIZE) w1) = Ret 0 w2 /\ length (acks w2) = 1%nat /\
    fst <$> cached (bucket_of w2 demo_key) (9 * 2 ^ 27 + 5) = Some 2.
Proof.
  destruct (bigkv_set_fresh_partition big_ring 2 (big_world PBA_INVALID REQ_TYPE_GET) 1 (demo_req REQ_TYPE_SET 10 NULL)
              (replicate 256 5) make_bi_params (big_sys _ _) (big_nodup _ _) (big_set _ _) (big_len _ _)
              (or_introl (conj eq_refl eq_refl)) eq_refl (big_index _) eq_refl ltac:(by vm_compute)
              ltac:(by vm_compute) eq_refl) as (w1 & H1 & Hsf).
  destruct (sf_next _ _ _ _ _ _ _ Hsf (Fifo.init QSIZE)) as (pp & w2 & H2 & Han & Hc & _).
  pose proof (sf_acks _ _ _ _ _ _ _ Hsf) as Ha.
  exists w1, w2. split; [exact H1|]. split; [exact Ha|]. split; [exact H2|]. split.
  - rewrite (an_acks _ _ _ _ Han), length_app. simpl acks. by rewrite Ha.
  - exact (f_equal (fmap fst) Hc).
Defined.
