(* ===== verification/BigkvRace.v ===== *)
(** * Two tables of one partition ([src/bigkv_index.c])

    A SET marks its partition while it waits for the table, but a GET looks at
    no mark: both may have read the same table. The one that writes last decides
    which table the partition has. *)

From Stdlib Require Import ZArith Lia.
From stdpp Require Import prelude gmap.
From S2P Require Import Prelude Config Queue CondLock World Stopwatch KvPair Request Device DeviceSpec Handler.
From S2P Require Import Pair BigkvTable Bucket PartTable PartMap Bigkv BigkvFlush.

#[local] Open Scope Z_scope.

Lemma flush_clean t bs :
  (forall b : hash_bucket, b ∈ bs -> filter is_dirty b = []) -> update_part_table t bs = Some (t, clean_bucket <$> bs).
Proof.
  intros H. rewrite update_part_table_eq. assert (filter is_dirty (concat bs) = []) as ->; [|done].
  induction bs as [|b bs IH]; [done|]. cbn [concat]. rewrite filter_app, H by by left.
  apply IH. intros b' Hb. apply H. by right.
Qed.

(** C35: An update of a table is lost. A SET has read the table [t] of its partition
    and waits to write it; meanwhile a GET of the partition, which no mark
    holds back, has flushed the buckets and made [t'] the table. The SET writes
    [t] over it: what only [t'] has is found by no lookup any more, neither in the
    table of the partition nor in its buckets, and nobody is told. *)
Theorem get_flush_overwritten ring n (w : bworld) r rq b bp t t' fp v :
  at_table ring (S (S n)) w r rq b bp (encode_ptable t) -> write_step bp = BI_STEP_WRITE_PTABLE -> ptable_ok t ->
  index_ok (ops w) -> PART_TABLE_SIZE <= segment_size (dev w) -> Fifo.full (retry_q w) = false ->
  let p := part_idx (hash_high (req_key rq)) in
  staged_holds w (part_pba (tget (part (ops w)) p)) PART_TABLE_GRAINS (encode_ptable t') ->
  table_find t' fp = Some v -> table_find t fp = None ->
  (forall b', b' ∈ get_part_buckets p (bucket (ops w)) -> filter is_dirty b' = [] /\ cached b' fp = None) ->
  exists w1, bigkv_index_set r w = Ret 0 w1 /\ acks w1 = acks w /\
    staged_holds w1 (part_pba (tget (part (ops w1)) p)) PART_TABLE_GRAINS (encode_ptable t) /\
    forall b', b' ∈ get_part_buckets p (bucket (ops w1)) -> cached b' fp = None.
Proof.
  intros Hat Hstep Ht Hix Hsz Hroom p _ _ _ Hb.
  assert (update_part_table (decode_ptable (encode_ptable t)) (get_part_buckets p (bucket (ops w))) =
          Some (t, clean_bucket <$> get_part_buckets p (bucket (ops w)))) as Hup
    by (rewrite (decode_encode_ptable t Ht); apply flush_clean; intros b' Hb'; by apply Hb).
  destruct (bi_write_ptable_ok ring n w r rq b _ t _ bp Hat Hsz Hroom Hup (encode_ptable_size t (proj1 Ht)))
    as (pt & w1 & He & Hfl).
  exists w1. rewrite (set_write_step _ _ _ _ _ _ _ _ Hat Hstep). destruct Hfl.
  split; [done|]. split; [done|]. split.
  - rewrite (fl_part _). fold p. by rewrite tget_tset_eq.
  - fold p in fl_bucket. rewrite fl_bucket, part_buckets_put by (by rewrite length_fmap, part_buckets_length).
    intros b' (b0 & -> & Hb0)%list_elem_of_fmap. destruct (Hb b0 Hb0) as [_ Hc]. rewrite <- Hc.
    apply list_elem_of_fmap in Hb0 as (k & -> & _). destruct (Hix (p * BUCKETS_IN_PART + Z.of_nat k)) as [l Hl].
    by eapply cached_clean.
Qed.

(** The table with an entry is in the staged segment; a SET holds the empty table
    that the partition had before. *)
Definition race_req : request :=
  Request REQ_TYPE_SET 42 demo_key (ValStruct 10 256) sw_zero FN_net_end_req 13 12 4.

Definition race_world : bworld :=
  set_bufs (<[12 := encode_ptable init_ptable]> (demo_bufs big_staged))
    (lab (BigkvIndex (TMap init_bucket ∅) (tset (TMap (HashPartition 0 PBA_INVALID) ∅) 0 (HashPartition 1 0))) big_dev
       {[ 1 := race_req; 2 := demo_req REQ_TYPE_GET 11 NULL ]}
       {[ 13 := BiParams BI_STEP_UPDATE_TABLE BI_STEP_WRITE_PTABLE ]} (demo_bufs big_staged) 30).

Lemma race_sys : sys_ok big_ring 6 race_world.
Proof.
  apply sys_ok_set_buf; [|by vm_compute | by vm_compute].
  split; [exact big_dev_wf | | apply lab_pools_all | apply demo_mem | | exact eq_refl | by vm_compute].
  - split; simpl; try done; [|by intros s [= <-]]. split; simpl; try lia; [by exists 512 | by exists 130].
  - exists big_staged. split; [exact eq_refl | exact big_staged_length].
Qed.

Lemma race_at : at_table big_ring 6 race_world 1 race_req (replicate 256 5)
  (BiParams BI_STEP_UPDATE_TABLE BI_STEP_WRITE_PTABLE) (encode_ptable init_ptable).
Proof.
  split; [exact race_sys | | | done | exact eq_refl | done | done | done | exact eq_refl].
  - apply (bool_decide_unpack _). by vm_compute.
  - split; [exact eq_refl | exact eq_refl | exact demo_key_ok | | by vm_compute | exact eq_refl | by vm_compute | exact eq_refl].
    right. eexists. exact eq_refl.
Qed.

Lemma race_index : index_ok (ops race_world).
Proof. intros j. exists []. exact init_bucket_ok. Qed.

Lemma get_flush_overwritten_witness :
  table_find big_table (9 * 2 ^ 27 + 5) = Some (2, 128) /\ table_find init_ptable (9 * 2 ^ 27 + 5) = None /\
  exists w1, bigkv_index_set 1 race_world = Ret 0 w1 /\
    staged_holds w1 (part_pba (tget (part (ops w1)) 0)) PART_TABLE_GRAINS (encode_ptable init_ptable).
Proof.
  assert (table_find big_table (9 * 2 ^ 27 + 5) = Some (2, 128)) as H1 by by vm_compute.
  assert (table_find init_ptable (9 * 2 ^ 27 + 5) = None) as H2 by by vm_compute.
  assert (PART_TABLE_SIZE <= segment_size (dev race_world)) as H3 by (vm_compute; discriminate).
  split; [exact H1|]. split; [exact H2|].
  destruct (get_flush_overwritten big_ring 4 race_world 1 race_req (replicate 256 5)
              (BiParams BI_STEP_UPDATE_TABLE BI_STEP_WRITE_PTABLE) init_ptable big_table (9 * 2 ^ 27 + 5) (2, 128)
              race_at eq_refl init_ptable_entries_ok race_index H3 eq_refl) as (w1 & E & _ & H & _).
  - destruct (big_holds_table 0 REQ_TYPE_GET) as (ss & sb & T1 & T2 & T3). exists ss, sb.
    split; [exact T1|]. split; [|exact T3]. cbn [bufs race_world set_bufs]. rewrite lookup_insert_ne by done. exact T2.
  - exact H1.
  - exact H2.
  - intros b' (k & -> & _)%list_elem_of_fmap.
    assert (forall j, tget (bucket (ops race_world)) j = init_bucket) as -> by done.
    split; [by vm_compute|]. unfold cached. rewrite (get_match_entry_None _ [] _ init_bucket_ok); [done|].
    intros j []%not_elem_of_nil.
  - exists w1. split; [exact E | exact H].
Defined.
