(* ===== verification/LedgerIndex.v ===== *)
(** * Both indexes keep the books ([src/hopscotch.c], [src/bigkv_index.c])

    Every branch of the operations and of the callbacks of the two indexes gives
    the request that it works on to exactly one place: it ends it, sends it back, or
    leaves it to the callback of an I/O. *)

From Stdlib Require Import ZArith Lia.
From stdpp Require Import prelude gmap.
From S2P Require Import Prelude Config Queue CondLock World KvPair Request Device DeviceSpec Handler Runtime Ledger.
From S2P Require HopTable Hopscotch BigkvTable Bigkv.

#[local] Open Scope Z_scope.

Ltac load_it := eapply triple_bind; [apply triple_load_req | intros ?; apply triple_pure; intros ?].

Section Common.
Context {I P : Type}.

Lemma inert_keycmp k v : inert_op (I:=I) (P:=P) (keycmp_k_v k v).
Proof. unfold keycmp_k_v. auto with inert. Qed.

Lemma inert_copy_key k v : inert_op (I:=I) (P:=P) (copy_key_to_value k v).
Proof. unfold copy_key_to_value. auto 10 with inert. Qed.

Lemma triple_ensure_params T r (p0 : P) n hc hi hn hr :
  triple (ledger (I:=I) T n hc hi hn hr) (ensure_params r p0) (fun _ => ledger T n hc hi hn hr).
Proof.
  unfold ensure_params. load_it. destruct (_ =? _); [|done_here].
  eapply triple_bind; [apply triple_inert, inert_new_params | intros ?; cbv beta].
  eapply triple_bind; [by apply triple_store_req | intros ?; cbv beta]. done_here.
Qed.
End Common.

#[export] Hint Resolve inert_keycmp inert_copy_key : inert.

(** ** Hopscotch *)

Module Hop.
Import HopTable Hopscotch.

Section Hop.
Variable T : totals.
Hypothesis HT : totals_ok T.
Abbreviation ledger := (@ledger hopscotch hop_params T).

Lemma inert_get_table dir : inert_op (get_table dir).
Proof. intros w a w'. unfold get_table, mopt. by destruct (_ !! _); [intros [= _ <-]|]. Qed.
Lemma inert_put_table dir t : inert_op (put_table dir t).
Proof. unfold put_table. auto with inert. Qed.

Lemma triple_hop_end f r n hc hi hn hr :
  triple (ledger n hc hi hn (r :: hr)) (call_end f r) (fun _ => ledger n hc hi hn hr).
Proof. destruct f; try apply triple_stop. by apply triple_net_end_req. Qed.

Lemma triple_cb_keycmp r n hc hi hn hr :
  triple (ledger n hc hi hn (r :: hr)) (cb_keycmp r) (fun _ => ledger n hc hi hn hr).
Proof.
  unfold cb_keycmp. load_it. destruct (req_type _); repeat pass; try (by_move triple_retry; done_here).
  destruct (_ =? 0); pass; [apply triple_hop_end | by_move triple_retry; done_here].
Qed.

Lemma hop_exec_keeps : keeps_books T hop_exec.
Proof.
  intros f a n hc hi hn hr. destruct f; cbn [hop_exec owes app]; try apply triple_stop.
  - by apply triple_net_end_req.
  - apply triple_cb_keycmp.
  - apply triple_inert. unfold reap_seg_buf. auto with inert.
Qed.

Lemma triple_read_candidate r p dir idx o n hc hi hn hr :
  triple (ledger n hc hi hn (r :: hr)) (read_candidate r p dir idx o) (fun _ => ledger n hc hi hn hr).
Proof.
  unfold read_candidate. load_it. eapply triple_bind; [apply triple_inert, inert_get_table | intros ht; cbv beta zeta].
  eapply triple_bind; [by apply triple_make_callback | intros c; cbv beta]. pass. pass.
  eapply triple_bind; [exact (triple_dev_abs_read T HT _ hop_exec_keeps _ _ _ c FN_cb_keycmp r n hc hi hn hr) | intros ?; cbv beta].
  done_here.
Qed.

Lemma triple_insert_match r dir idx tag o n hc hi hn hr :
  triple (ledger n hc hi hn (r :: hr)) (hop_insert_key_match r dir idx tag o) (fun _ => ledger n hc hi hn hr).
Proof.
  unfold hop_insert_key_match. load_it. eapply triple_bind; [by apply triple_get_next_pba | intros pba0; cbv beta].
  eapply triple_bind; [apply triple_inert, inert_get_table | intros ht; cbv beta zeta].
  eapply triple_bind; [apply triple_inert, inert_put_table | intros ?; cbv beta].
  eapply triple_bind; [by apply triple_make_callback | intros c; cbv beta]. pass.
  pose proof (triple_dev_abs_write T _ hop_exec_keeps (pba (fill_entry o tag (val_len (req_value a) / SOB) pba0))
    (kv_size (fill_entry o tag (val_len (req_value a) / SOB) pba0)) (value (req_value a)) c (end_req a) r n hc hi hn hr) as Hw.
  rewrite end_owes in Hw by done. eapply triple_bind; [exact Hw | intros ?; cbv beta]. done_here.
Qed.

Lemma triple_insert_mismatch r p dir idx tag o n hc hi hn hr :
  triple (ledger n hc hi hn (r :: hr)) (hop_insert_key_mismatch r p dir idx tag o) (fun _ => ledger n hc hi hn hr).
Proof.
  unfold hop_insert_key_mismatch. eapply triple_bind; [apply triple_inert, inert_get_table | intros ht; cbv beta zeta].
  destruct (negb _).
  - eapply triple_bind; [apply triple_read_candidate | intros ?; cbv beta]. done_here.
  - destruct (find_free_entry _ _) as [o' ht']. eapply triple_bind; [apply triple_inert, inert_put_table | intros ?; cbv beta].
    pass. apply triple_insert_match.
Qed.
End Hop.

#[export] Instance hopscotch_ledger : KvLedger hopscotch hop_params.
Proof.
  split.
  - intros T _. apply hop_exec_keeps.
  - intros T r n hc hi hn hr HT. change (set_kv r) with (hopscotch_set r). unfold hopscotch_set. load_it. cbv zeta.
    eapply triple_bind; [apply triple_ensure_params | intros p; cbv beta]. pass.
    destruct (insert_step _); [by apply triple_insert_mismatch | by apply triple_insert_match | by apply triple_insert_mismatch].
  - intros T r n hc hi hn hr HT. change (get_kv r) with (hopscotch_get r). unfold hopscotch_get. load_it. cbv zeta.
    eapply triple_bind; [apply triple_ensure_params | intros p; cbv beta]. pass.
    eapply triple_bind; [apply triple_inert, inert_get_table | intros ht; cbv beta].
    destruct (negb _); [|apply triple_ret; by intros].
    eapply triple_bind; [by apply triple_read_candidate | intros ?; cbv beta]. apply triple_ret. by intros.
Qed.
End Hop.

(** ** Bigkv *)

Module Big.
Import BigkvTable Bigkv.

Section Big.
Variable T : totals.
Hypothesis HT : totals_ok T.
Abbreviation ledger := (@ledger bigkv_index bi_params T).

Lemma inert_flush_part p buf : inert_op (flush_part p buf).
Proof. unfold flush_part. auto 15 with inert. Qed.
Lemma inert_put_part p x : inert_op (put_part p x).
Proof. unfold put_part. auto with inert. Qed.
Lemma inert_put_bucket i b : inert_op (put_bucket i b).
Proof. unfold put_bucket. auto with inert. Qed.
Lemma inert_get_part p : inert_op (get_part p).
Proof. unfold get_part. auto with inert. Qed.
Lemma inert_get_bucket i : inert_op (get_bucket i).
Proof. unfold get_bucket. auto with inert. Qed.

Hint Resolve inert_flush_part inert_put_part inert_put_bucket inert_get_part inert_get_bucket : inert.

Lemma triple_bi_end f r n hc hi hn hr :
  triple (ledger n hc hi hn (r :: hr)) (call_end f r) (fun _ => ledger n hc hi hn hr).
Proof. destruct f; try apply triple_stop. by apply triple_net_end_req. Qed.

Lemma bi_exec_keeps : keeps_books T bi_exec.
Proof.
  intros f a n hc hi hn hr. destruct f; cbn [bi_exec owes app]; try apply triple_stop.
  - by apply triple_net_end_req.
  - unfold cb_keycmp. load_it. pass. destruct (_ =? 0); [apply triple_bi_end|]. pass. pass. by_move triple_retry. done_here.
  - unfold cb_part_table_read. load_it. pass. pass. by_move triple_retry. done_here.
  - unfold cb_part_table_write. load_it. pass. pass. pass. by_move triple_retry. done_here.
  - apply triple_inert. unfold cb_part_table_write_for_get. auto with inert.
  - apply triple_inert. unfold reap_seg_buf. auto with inert.
Qed.

Lemma triple_set_temp_buf r buf n hc hi hn hr :
  triple (ledger n hc hi hn hr) (set_temp_buf r buf) (fun _ => ledger n hc hi hn hr).
Proof. unfold set_temp_buf. load_it. by apply triple_store_req. Qed.

Lemma triple_read f r p size buf n hc hi hn hr :
  triple (ledger n hc hi hn (owes f r ++ hr))
    (let* cb := make_callback f r in dev_abs_read bi_exec p size buf cb ;;; ret 0) (fun _ => ledger n hc hi hn hr).
Proof.
  eapply triple_bind; [by apply triple_make_callback | intros c; cbv beta].
  eapply triple_bind; [exact (triple_dev_abs_read T HT _ bi_exec_keeps p size buf c f r n hc hi hn hr) | intros ?; cbv beta].
  done_here.
Qed.

Lemma triple_read_ptable r p buf n hc hi hn hr :
  triple (ledger n hc hi hn (r :: hr)) (read_ptable r p buf) (fun rc w => ledger n hc hi hn hr w /\ rc = 0).
Proof.
  unfold read_ptable. eapply triple_bind; [by apply triple_make_callback | intros c; cbv beta]. pass.
  eapply triple_bind; [exact (triple_dev_abs_read T HT _ bi_exec_keeps _ _ _ c FN_cb_part_table_read r n hc hi hn hr) | intros ?; cbv beta].
  apply triple_ret. by intros.
Qed.

Lemma triple_read_kvpair r e n hc hi hn hr :
  triple (ledger n hc hi hn (r :: hr)) (read_kvpair r e) (fun rc w => ledger n hc hi hn hr w /\ rc = 0).
Proof.
  unfold read_kvpair. load_it. eapply triple_bind; [by apply triple_make_callback | intros c; cbv beta].
  eapply triple_bind; [exact (triple_dev_abs_read T HT _ bi_exec_keeps _ _ _ c FN_cb_keycmp r n hc hi hn hr) | intros ?; cbv beta].
  apply triple_ret. by intros.
Qed.

Lemma triple_target_retry fuel h fp ef ptable n hc hi hn hr :
  triple (ledger n hc hi hn hr) (get_target_retry fuel h fp ef ptable) (fun rc w => ledger n hc hi hn hr w /\ rc = 0).
Proof.
  revert ptable. induction fuel as [|fuel IH]; intros ptable; [apply triple_stop|]. cbn [get_target_retry]. pass.
  destruct (get_target_entry _ _).
  - pass. pass. apply triple_ret. by intros.
  - cbv zeta. pass. eapply triple_bind; [by apply triple_make_callback | intros c; cbv beta].
    eapply triple_bind; [by apply triple_get_next_pba | intros pba; cbv beta]. pass. pass.
    eapply triple_bind; [exact (triple_dev_abs_write T _ bi_exec_keeps _ _ _ c FN_cb_part_table_write_for_get ptable n hc hi hn hr) | intros ?; cbv beta].
    apply IH.
Qed.

(** A lookup that finds nothing in the table leaves the request to the caller. *)
Lemma triple_update_table r n hc hi hn hr :
  triple (ledger n hc hi hn (r :: hr)) (bi_update_table r) (fun rc => ledger n hc hi hn (if rc =? 0 then hr else r :: hr)).
Proof.
  unfold bi_update_table. load_it. cbv zeta. pass. destruct (get_match_entry_f _ _); [|apply triple_ret; by intros].
  eapply triple_bind; [apply triple_set_temp_buf | intros ?; cbv beta].
  eapply triple_bind; [by apply triple_make_callback | intros c; cbv beta].
  eapply triple_bind; [exact (triple_dev_abs_read T HT _ bi_exec_keeps _ _ _ c FN_cb_keycmp r n hc hi hn hr) | intros ?; cbv beta].
  eapply triple_conseq; [apply triple_target_retry | done |]. by intros rc w [Hl ->].
Qed.

Lemma triple_write_ptable r n hc hi hn hr :
  triple (ledger n hc hi hn (r :: hr)) (bi_write_ptable r) (fun _ => ledger n hc hi hn hr).
Proof.
  unfold bi_write_ptable. load_it. cbv zeta. pass. pass. pass.
  eapply triple_bind; [by apply triple_make_callback | intros c; cbv beta].
  eapply triple_bind; [by apply triple_get_next_pba | intros pba; cbv beta]. pass. pass.
  eapply triple_bind; [exact (triple_dev_abs_write T _ bi_exec_keeps _ _ _ c FN_cb_part_table_write r n hc hi hn hr) | intros ?; cbv beta].
  done_here.
Qed.

Lemma triple_get_entry r n hc hi hn hr :
  triple (ledger n hc hi hn (r :: hr)) (bi_get_entry r) (fun _ => ledger n hc hi hn hr).
Proof.
  unfold bi_get_entry. load_it. cbv zeta. pass. destruct (get_target_entry _ _).
  - eapply triple_bind; [by apply triple_get_next_pba | intros p0; cbv beta]. pass.
    eapply triple_bind; [by apply triple_make_callback | intros c; cbv beta]. pass.
    change (r :: hr) with ([r] ++ hr). rewrite <- (end_owes (end_req a) r) by done.
    eapply triple_bind; [apply (triple_dev_abs_write T _ bi_exec_keeps _ _ _ c (end_req a) r n hc hi hn hr) | intros ?; cbv beta].
    done_here.
  - pass. eapply triple_bind; [apply triple_set_temp_buf | intros ?; cbv beta]. pass.
    destruct (negb _).
    + pass. eapply triple_conseq; [apply triple_read_ptable | done |]. by intros rc w [Hl _].
    + pass. apply triple_write_ptable.
Qed.
End Big.

#[export] Instance bigkv_ledger : KvLedger bigkv_index bi_params.
Proof.
  split.
  - intros T _. apply bi_exec_keeps.
  - intros T r n hc hi hn hr HT. change (set_kv r) with (bigkv_index_set r). unfold bigkv_index_set. load_it.
    eapply triple_bind; [apply triple_ensure_params | intros p; cbv beta]. pass.
    destruct (write_step _); try by apply triple_write_ptable.
    all: try by apply triple_get_entry.
    all: eapply triple_bind; [apply triple_inert, inert_get_part | intros pt; cbv beta].
    all: destruct (negb _); [|by apply triple_get_entry].
    all: by_move triple_retry; done_here.
  - intros T r n hc hi hn hr HT. change (get_kv r) with (bigkv_index_get r). unfold bigkv_index_get. load_it. cbv zeta.
    eapply triple_bind; [apply triple_ensure_params | intros p; cbv beta]. pass.
    destruct (read_step _); try by apply triple_update_table.
    all: eapply triple_bind; [apply triple_inert, inert_get_bucket | intros b; cbv beta].
    all: destruct (get_match_entry _ _).
    all: try (eapply triple_bind; [apply triple_inert, inert_put_bucket | intros ?; cbv beta];
              eapply triple_conseq; [by apply triple_read_kvpair | done | by intros rc w [Hl ->]]).
    all: pass; eapply triple_bind; [apply triple_set_temp_buf | intros ?; cbv beta].
    all: eapply triple_conseq; [by apply triple_read_ptable | done | by intros rc w [Hl ->]].
Qed.
End Big.

(** ** Every run *)

Section Lost.
Context {I P : Type} `{HK : KvOps I P} `{!KvLedger I P}.
Variable CityHash128 : list Z -> Z -> Z * Z.
Variable stopflag_hlr : bool.
Abbreviation run := (run CityHash128 stopflag_hlr).

(** Every object of the handler is in exactly one place, and the permits and the
    acknowledgements agree with it: [n] requests were accepted. An object in an I/O
    [x] of [fl] is with the kernel ([aio_ctx]) if [io_submit] took that I/O, and
    nowhere else if it refused it. *)
Definition in_one_place (s : run_state) (n : Z) : Prop :=
  exists fl, let w : world I P := rs_world s in
    aio_ctx w = fl_iocb <$> filter (taken w) fl /\ NoDup (fl_try <$> fl) /\
    Forall (fun x => fl_try x < submits w)%nat fl /\ Forall (fl_ok w) fl /\
    rs_made s ++ Fifo.items (req_pool w) ++ Fifo.items (req_q w) ++ Fifo.items (retry_q w) ++ concat (fl_owes <$> fl)
      ≡ₚ addrs 0 (Z.to_nat QSIZE) /\
    Fifo.items (iocb_pool w) ++ (fl_iocb <$> fl) ≡ₚ addrs 0 (Z.to_nat QSIZE) /\
    Fifo.items (cb_pool w) ++ (fl_cb <$> fl) ≡ₚ addrs 0 (Z.to_nat QSIZE) /\
    now (flying w) = Z.of_nat (length (Fifo.items (req_q w)) + length (Fifo.items (retry_q w)) +
                               length (concat (fl_owes <$> fl))) /\
    Z.of_nat (length (acks w)) + now (flying w) = n.

(** C4: A request is lost only with an I/O that the kernel refuses, and none is answered
    twice. From [handler_init] on, in every run of the three threads with either
    index and whatever [io_submit] answers: each of the 1024 request objects is in
    exactly one place, the pool, the master, one of the two queues, or the callback
    of an I/O that was submitted; the same for the iocbs and the callbacks. The I/O
    that [io_submit] took are those in the context, in the order of submission; each
    of the others is one call of [io_submit] that answered an error, and what it
    holds is lost. The permits that are taken are those of the requests that are queued
    or in an I/O; and the acknowledgements are as many as the requests that were
    accepted and are done. *)
Theorem no_request_lost (init : I) (nr : Z) (w0 : world I P) (l : list action) (s : run_state) :
  fresh_handler init nr w0 -> acks w0 = [] -> run l (RunState w0 []) = Some s -> in_one_place s (forwarded l).
Proof.
  intros Hw Hack Hrun. pose proof (fresh_accounted init nr w0 Hw Hack) as Ha.
  destruct (run_accounted _ _ _ _ _ _ _ handler_totals_ok Ha Hrun) as [fl [_ H1 [H8 H9] H2 _ H3 H4 H5 H6 H7]].
  exists fl. by split_and!.
Qed.
End Lost.

(** ** A concrete run *)

Definition one_segment : dev_abs :=
  DevAbs [47; 100] 3 4096 512 SEGMENT_SIZE SEGMENT_SIZE 1 [with_state SEG_STATE_STAGED (new_segment SEGMENT_SIZE 0)] 0 0 1 GRAIN_UNIT.

(** A hopscotch handler that has just been made; the staged buffer, which the run
    does not use, is left out. *)
Definition new_handler : world Hopscotch.hopscotch Hopscotch.hop_params :=
  let pool := Fifo.Mk (addrs 0 (Z.to_nat QSIZE)) QSIZE in
  set_dev one_segment (set_mem_next 2 (set_req_pool pool (set_iocb_pool pool (set_cb_pool pool
    (set_req_arr (calloc_array QSIZE zero_request) (set_iocb_arr (calloc_array QSIZE zero_iocb)
      (set_cb_arr (calloc_array QSIZE zero_callback) (blank_world Hopscotch.hopscotch_init)))))))).

Lemma new_handler_fresh : fresh_handler Hopscotch.hopscotch_init 1 new_handler.
Proof.
  destruct (dev_init_wf [47; 100] 3 4096 512 SEGMENT_SIZE 1 (new_segment SEGMENT_SIZE 0) [] 1) as [Hwf Hrel];
    [lia | done | intros i s Hi; by apply (init_segs_wf _ i s 1) | ].
  split; try done; try by split.
  - by intros q [-> | [-> | ->]].
  - split; [by rewrite <- (addrs_length 0 (Z.to_nat QSIZE)) at 1 | by rewrite <- (addrs_length 0 (Z.to_nat QSIZE)) at 1 | | ].
    + exact (addrs_calloc QSIZE zero_callback).
    + exact (addrs_calloc QSIZE zero_iocb).
Qed.

Definition sample_message (seq : Z) : netreq := Netreq REQ_TYPE_GET 2 seq (replicate 32 7) 64.
Definition sample_hash (k : list Z) (len : Z) : Z * Z := (Z.shiftl 5 27, 0).

#[local] Existing Instances Hopscotch.hopscotch_ops Hop.hopscotch_ledger.

(** Two lookups of a key that is not there: the handler ends one as the code does,
    and dispatches the other. *)
Definition sample_run : list action :=
  [Make (sample_message 1) 5; Forward; Make (sample_message 2) 5; Turn; Forward; Dispatch 1].

Lemma no_request_lost_witness :
  exists s : run_state, run sample_hash false sample_run (RunState new_handler []) = Some s /\
    in_one_place s 2.
Proof.
  assert (match run sample_hash false sample_run (RunState new_handler []) with Some _ => true | None => false end = true)
    as Hrun by (vm_compute; reflexivity).
  destruct (run sample_hash false sample_run (RunState new_handler [])) as [s|] eqn:E; [|discriminate Hrun].
  exists s. split; [reflexivity|].
  apply (no_request_lost sample_hash false Hopscotch.hopscotch_init 1 new_handler sample_run s).
  - exact new_handler_fresh.
  - reflexivity.
  - exact E.
Defined.
