(* ===== verification/BigkvPart.v ===== *)
(** * The bigkv index implements its partitions ([src/bigkv_index.c])

    A SET and a GET that run alone do to their partition what [p_set] and
    [p_get] of [PartMap] say, in at most three rounds, and answer the client.
    The table of the partition and the pair are read from the staged segment or
    from the device; a read from the device is given to the kernel, and its
    callback runs when it is reaped. *)

From Stdlib Require Import ZArith Lia.
From stdpp Require Import prelude gmap.
From S2P Require Import Prelude Config Queue CondLock World Stopwatch KvPair Request Device DeviceSpec Handler Runtime.
From S2P Require Import Ledger Pair BigkvTable Bucket PartTable PartMap Bigkv BigkvFlush LedgerIndex.

#[local] Open Scope Z_scope.

(** ** Reads from the device *)

Section Submit.
Context {I P : Type}.
Implicit Types w : world I P.

(** Block [p] is not in the part of the staged segment that has been handed out. *)
Definition unstaged w (p : Z) : Prop :=
  0 <= p /\ p * grain_unit (dev w) < 2 ^ 64 /\
  exists ss, seg_array (dev w) !! staged_seg (dev w) = Some ss /\
    (p * grain_unit (dev w) < start_addr ss \/ seg_offset ss <= p * grain_unit (dev w)).

(** The world after iocb [i] was taken for callback [c] and given to the kernel. *)
Definition submitted (i c : Z) (rest : list Z) (cb : callback) (io : iocb) w : world I P :=
  set_aio_ctx (aio_ctx w ++ [i]) (set_submits (S (submits w)) (set_iocb_arr (<[i := io]> (iocb_arr w))
    (set_cb_arr (<[c := Callback (cb_func cb) (cb_arg cb) i]> (cb_arr w))
      (set_iocb_pool (Fifo.Mk rest (Fifo.cap (iocb_pool w))) w)))).

Lemma dev_abs_read_submits (call : fn -> Z -> M (world I P) unit) w p k buf c cb i rest :
  0 < grain_unit (dev w) -> unstaged w p -> 0 <= k -> k * grain_unit (dev w) < 2 ^ 32 ->
  Fifo.items (iocb_pool w) = i :: rest -> is_Some (iocb_arr w !! i) -> cb_arr w !! c = Some cb ->
  0 <= io_submit_rc w (submits w) ->
  dev_abs_read call p k buf c w =
  Ret 0 (submitted i c rest cb
           (Iocb false (dev_fd (dev w)) buf (k * grain_unit (dev w)) (p * grain_unit (dev w)) c) w).
Proof.
  intros Hg (Hp & Hp64 & ss & Hss & Hout) Hk Hk32 Hi [io Hio] Hc Hrc.
  assert (u32 (k * grain_unit (dev w)) = k * grain_unit (dev w)) as Hu by (apply wrap_small; nia).
  assert (u64 (p * grain_unit (dev w)) = p * grain_unit (dev w)) as Ha by (apply wrap_small; nia).
  unfold dev_abs_read, mreads. unfold bind at 1. rewrite (bind_ret _ _ _ _ _ (get_staged_ok _ _ Hss)). cbv zeta.
  assert ((is_staged (dev w) ss p =? 0) = false) as ->.
  { unfold is_staged. rewrite Ha. repeat case_match; reflect_bools; lia. }
  rewrite Ha, Hu. unfold aio_read, aio_request.
  rewrite (bind_ret _ _ _ _ _ (q_dequeue_cons IOCB_POOL _ _ _ Hi)).
  unfold_mem. simpl. rewrite Hio. simpl. rewrite Hc. simpl. unfold submit. simpl.
  rewrite (proj2 (Z.ltb_ge _ _)) by done. by rewrite Hu.
Qed.

Lemma return_iocb i w :
  exists bb f, q_enqueue i IOCB_POOL w = Ret bb (set_iocb_pool f w) /\
    (Fifo.items f = Fifo.items (iocb_pool w) \/ Fifo.items f = Fifo.items (iocb_pool w) ++ [i]).
Proof.
  unfold q_enqueue, Fifo.enqueue. simpl. destruct (Fifo.full (iocb_pool w)).
  - eexists _, _. split; [done|]. by left.
  - eexists _, _. split; [done|]. by right.
Qed.
End Submit.

Section Part.
Implicit Types w : bworld.

(** What the device answers for an offset and a length. *)
Variable disk : Z -> Z -> list Z.

(** The kernel has written what it read over the beginning of the buffer, and the
    poller takes the event: [ctx] is what stays under way. *)
Definition filled (io : iocb) (ctx : list Z) w : bworld :=
  let x := disk (io_offset io) (io_nbytes io) in
  set_bufs (alter (fun old => x ++ drop (length x) old) (io_buf io) (bufs w)) (set_aio_ctx ctx w).

Definition reaped (i : Z) (io : iocb) : io_event := IoEvent i (io_data io) (io_nbytes io).

(** A round of an operation that sends its request [r] back: at once, or
    when the one read that it has given to the kernel is reaped. The handler then
    takes the request from the retry queue. *)
Inductive round (op : Z -> M bworld Z) (r : Z) w w2 : Prop :=
| RoundNow w1 : op r w = Ret 0 w1 -> q_dequeue RETRY_Q w1 = Ret r w2 -> round op r w w2
| RoundRead w1 i io wt : op r w = Ret 0 w1 ->
    aio_ctx w1 = aio_ctx w ++ [i] -> iocb_arr w1 !! i = Some io -> io_is_write io = false ->
    poll_event (reaped i io) (filled io (aio_ctx w) w1) = Ret tt wt ->
    q_dequeue RETRY_Q wt = Ret r w2 -> round op r w w2.

(** Block [p] of [k] grains has the bytes [x], in the staged segment or on the
    device. *)
Definition located w (p k : Z) (x : list Z) : Prop :=
  staged_holds w p k x \/
  (unstaged w p /\ disk (p * SOB) (k * SOB) = x /\ Z.of_nat (length x) = k * SOB).

(** The read of a table from the device, and its completion. *)
Lemma read_ptable_device ring n w r rq b bp z t p :
  at_table ring (S n) w r rq b bp z -> Z.of_nat (length z) = PART_TABLE_SIZE ->
  Z.of_nat (length (encode_ptable t)) = PART_TABLE_SIZE -> unstaged w (part_pba (tget (part (ops w)) p)) ->
  disk (part_pba (tget (part (ops w)) p) * SOB) PART_TABLE_SIZE = encode_ptable t ->
  0 <= io_submit_rc w (submits w) -> Fifo.full (retry_q w) = false ->
  exists w1 i io wt, read_ptable r p (temp_buf rq) w = Ret 0 w1 /\
    aio_ctx w1 = aio_ctx w ++ [i] /\ iocb_arr w1 !! i = Some io /\ io_is_write io = false /\
    poll_event (reaped i io) (filled io (aio_ctx w) w1) = Ret tt wt /\ table_read ring n r rq b t w wt.
Proof.
  intros [Hsys Hnd Hrq Hpar Hbp Ht0 Htv Hts Hz] Hzl Htl Hun Hdisk Hrc Hroom.
  pose proof (so_pools _ _ _ _ Hsys) as [Hcb Hip Hca Hia].
  destruct (Fifo.items (cb_pool w)) as [|c cs] eqn:E; simpl in Hcb; [lia|].
  destruct (Fifo.items (iocb_pool w)) as [|i rest] eqn:Ei; simpl in Hip; [lia|].
  apply Forall_cons in Hca as [[cb0 Hcb0] Hca]. apply Forall_cons in Hia as [Hi0 Hia].
  apply NoDup_cons in Hnd as [Hc Hnd].
  unfold read_ptable. rewrite (bind_ret _ _ _ _ _ (make_callback_ok FN_cb_part_table_read r w c cs cb0 E Hcb0)).
  match goal with |- context [set_cb_arr ?a ?v] => set (w2 := set_cb_arr a v) end.
  erewrite bind_ret by exact eq_refl. change (ops w2) with (ops w).
  assert (grain_unit (dev w2) = SOB) as Hg2 by apply (so_grain _ _ _ _ Hsys).
  assert (PART_TABLE_GRAINS * grain_unit (dev w2) = PART_TABLE_SIZE) as Hsz by by rewrite Hg2.
  pose proof (dev_abs_read_submits bi_exec w2 (part_pba (tget (part (ops w)) p)) PART_TABLE_GRAINS (temp_buf rq) c
    (Callback FN_cb_part_table_read r NULL) i rest) as Hread.
  specialize (Hread ltac:(by rewrite Hg2) Hun ltac:(done) ltac:(by rewrite Hg2) Ei Hi0 (lookup_insert_eq _ _ _) Hrc).
  rewrite Hsz in Hread. rewrite (bind_ret _ _ _ _ _ Hread).
  match type of Hread with _ = Ret 0 (submitted _ _ _ _ ?io0 _) => set (io := io0) in * end.
  exists (submitted i c rest (Callback FN_cb_part_table_read r NULL) io w2), i, io.
  set (w3 := submitted _ _ _ _ _ _).
  assert (io_offset io = part_pba (tget (part (ops w)) p) * SOB) as Hoff by (unfold io; cbn [io_offset]; by rewrite Hg2).
  set (w4 := filled io (aio_ctx w) w3).
  assert (bufs w4 = <[temp_buf rq := encode_ptable t]> (bufs w)) as Hb4.
  { unfold w4, filled. cbn [bufs set_bufs]. rewrite Hoff. change (io_nbytes io) with PART_TABLE_SIZE.
    rewrite Hdisk. change (bufs w3) with (bufs w). change (io_buf io) with (temp_buf rq).
    apply map_eq. intros q. destruct (decide (q = temp_buf rq)) as [-> | Hq].
    - rewrite lookup_alter_eq, lookup_insert_eq, Hz. simpl. by rewrite drop_ge, app_nil_r by lia.
    - by rewrite lookup_alter_ne, lookup_insert_ne by congruence. }
  assert (iocb_arr w4 !! i = Some io) as Hi4 by apply lookup_insert_eq.
  assert (cb_arr w4 !! c = Some (Callback FN_cb_part_table_read r i)) as Hc4 by apply lookup_insert_eq.
  unfold poll_event, reaped. cbn [ev_obj ev_data ev_res]. rewrite (bind_ret _ _ _ _ _ (load_iocb_ok _ _ _ Hi4)).
  rewrite (proj2 (Z.eqb_neq (io_nbytes io) EINVAL)) by done. unfold massert. rewrite Z.eqb_refl.
  erewrite bind_ret by exact eq_refl. rewrite (bind_ret _ _ _ _ _ (load_cb_ok _ _ _ Hc4)). cbn [cb_func cb_arg exec bigkv_ops bi_exec].
  unfold cb_part_table_read. unfold bind at 1.
  assert (req_arr w4 !! r = Some rq) as Hr4 by apply Hrq.
  assert (params_heap w4 !! params rq = Some bp) as Hp4 by exact Hbp.
  rewrite (bind_ret _ _ _ _ _ (load_req_ok _ _ _ Hr4)), (bind_ret _ _ _ _ _ (load_params_ok _ _ _ Hp4)).
  erewrite bind_ret by exact eq_refl. erewrite bind_ret by (apply retry_req_ok; exact Hroom).
  unfold ret at 2. match goal with |- context [set_retry_q ?f ?v] => set (w5 := set_retry_q f v) end.
  destruct (return_iocb i w5) as (b1 & f1 & Hq1 & Hf1). rewrite (bind_ret _ _ _ _ _ Hq1).
  destruct (return_callback c (set_iocb_pool f1 w5)) as (b2 & f2 & Hq2 & Hf2). change (io_data io) with c.
  rewrite (bind_ret _ _ _ _ _ Hq2). unfold ret. set (wt := set_cb_pool f2 _). exists wt.
  split; [done|]. split; [done|]. split; [apply lookup_insert_eq|]. split; [done|]. split; [done|].
  assert (bufs wt = <[temp_buf rq := encode_ptable t]> (bufs w)) as Hbt by exact Hb4.
  assert (Fifo.items (iocb_pool wt) = rest \/ Fifo.items (iocb_pool wt) = rest ++ [i]) as Hft1 by exact Hf1.
  assert (Fifo.items (cb_pool wt) = cs \/ Fifo.items (cb_pool wt) = cs ++ [c]) as Hft2 by exact Hf2.
  clear Hq1 Hq2 Hf1 Hf2 Hread.
  assert (sys_ok ring n wt) as Hsyst.
  { destruct Hsys as [Hd Hr _ [Hm1 Hm2] (sb & Hs1 & Hs2) Hg Hf]. split; try done.
    - simpl in Hcb, Hip. split.
      + destruct Hft2 as [-> | ->]; rewrite ?length_app; lia.
      + destruct Hft1 as [-> | ->]; rewrite ?length_app; lia.
      + assert (Forall (fun c0 => is_Some (cb_arr wt !! c0)) cs) as H
          by (do 2 apply insert_is_Some_mono; exact Hca).
        destruct Hft2 as [-> | ->]; [done|]. apply Forall_app_2; [done|]. constructor; [|done].
        eexists. apply lookup_insert_eq.
      + assert (Forall (fun i0 => is_Some (iocb_arr wt !! i0)) rest) as H by (apply insert_is_Some_mono; exact Hia).
        destruct Hft1 as [-> | ->]; [done|]. apply Forall_app_2; [done|]. constructor; [|done].
        eexists. apply lookup_insert_eq.
    - split; [done|]. intros q b'. rewrite Hbt, lookup_insert_Some. intros [[<- _] | [_ H]]; [|by eapply Hm2].
      by eapply Hm2.
    - exists sb. rewrite Hbt. split; [|done]. by rewrite lookup_insert_ne by done. }
  destruct Hrq as [Q1 Q2 Q3 Q4 Q5 Q6 Q7 Q8].
  split; try done; [split; try done | | |].
  - destruct Hft2 as [-> | ->]; [done|]. apply NoDup_app. split_and!; [done | | apply NoDup_singleton].
    by intros c' H ->%list_elem_of_singleton.
  - split; try done.
    + right. eexists. apply lookup_insert_eq.
    + by rewrite Hbt, lookup_insert_ne.
  - apply lookup_insert_eq.
  - rewrite Hbt. apply lookup_insert_eq.
  - intros q Hne. by rewrite Hbt, lookup_insert_ne.
  - intros [N1 N2]. split.
    + simpl. rewrite lookup_insert_ne; [done|]. intros ->. destruct Hi0 as [? Hi0]. congruence.
    + simpl. rewrite !lookup_insert_ne; [done | |]; intros ->; congruence.
  - rewrite Ei. intros [Hx Hnx]%NoDup_cons. destruct Hft1 as [-> | ->]; [done|].
    apply NoDup_app. split_and!; [done | | apply NoDup_singleton]. by intros c' H ->%list_elem_of_singleton.
Qed.

(** Preparing a request for a read of a table leaves the pools alone. *)
Lemma tabled_same w r rq :
  req_pool (tabled_world w r rq) = req_pool w /\ World.flying (tabled_world w r rq) = World.flying w /\
  iocb_pool (tabled_world w r rq) = iocb_pool w /\ iocb_arr (tabled_world w r rq) = iocb_arr w /\
  cb_arr (tabled_world w r rq) = cb_arr w /\ io_submit_rc (tabled_world w r rq) = io_submit_rc w.
Proof. unfold tabled_world, tabled, begun. by case_match. Qed.

(** ** One operation at a time *)

(** The handler has no other request to retry, its queues of callbacks and iocbs
    have each object once, and the kernel takes every read. *)
Record alone w : Prop := Alone {
  al_retry : Fifo.items (retry_q w) = [];
  al_room : Fifo.full (retry_q w) = false;
  al_cb : NoDup (Fifo.items (cb_pool w));
  al_iocb : NoDup (Fifo.items (iocb_pool w));
  al_null : iocb_arr w !! NULL = None /\ cb_arr w !! NULL = None;
  al_rc : forall k, 0 <= io_submit_rc w k
}.

Definition unqueued w : bworld := set_retry_q (Fifo.Mk [] (Fifo.cap (retry_q w))) w.

Lemma unqueue_ok w r : Fifo.items (retry_q w) = [r] -> q_dequeue RETRY_Q w = Ret r (unqueued w).
Proof. intros H. by rewrite (q_dequeue_cons RETRY_Q _ _ _ H). Qed.

(** The round that reads the table of the partition. *)
Lemma fetch_table ring n w r rq b bp t h op :
  sys_ok ring (S n) w -> alone w -> req_ready w r rq b -> starts w rq bp ->
  let p := part_idx (hash_high (req_key rq)) in
  op r w = read_ptable r p (temp_buf (tabled_req w r rq)) (set_ops h (tabled_world w r rq)) ->
  located w (part_pba (tget (part h) p)) PART_TABLE_GRAINS (encode_ptable t) ->
  exists wt, round op r w (unqueued wt) /\
    table_read ring n r (tabled_req w r rq) b t (set_ops h (tabled_world w r rq)) wt.
Proof.
  intros Hsys [Hr0 Hroom Hcb Hiocb _ Hrc] Hrq Hst p Hop Hloc.
  pose proof (prepared_begin w r rq zeros) as Hpp. fold (tabled_world w r rq) (tabled_req w r rq) in Hpp.
  pose proof (pp_dev _ _ _ _ Hpp) as Ed. pose proof (pp_retry _ _ _ _ Hpp) as Er.
  assert (aio_ctx (tabled_world w r rq) = aio_ctx w) as Ea by (unfold tabled_world, tabled, begun; by case_match).
  assert (forall wt, table_read ring n r (tabled_req w r rq) b t (set_ops h (tabled_world w r rq)) wt ->
            q_dequeue RETRY_Q wt = Ret r (unqueued wt)) as Hdq.
  { intros wt Htr. apply unqueue_ok. rewrite (tr_retry _ _ _ _ _ _ _ _ Htr).
    change (retry_q (set_ops h (tabled_world w r rq))) with (retry_q (tabled_world w r rq)). by rewrite Er, Hr0. }
  destruct Hloc as [Hh | (Hun & Hd & Hdl)].
  - destruct (table_round ring n w r rq b bp t h Hsys Hcb Hrq Hst Hroom Hh) as (w1 & He & Htr).
    exists w1. split; [|done]. eapply RoundNow; [by rewrite Hop | by apply Hdq].
  - destruct (read_ptable_device ring n (set_ops h (tabled_world w r rq)) r (tabled_req w r rq) b bp zeros t p)
      as (w1 & i & io & wt & He & Hctx & Hio & Hw & Hpoll & Htr).
    + by apply at_table_ops, at_table_begin.
    + exact zeros_length.
    + exact Hdl.
    + unfold unstaged in *. cbn [ops set_ops dev]. by rewrite Ed.
    + exact Hd.
    + assert (io_submit_rc (tabled_world w r rq) = io_submit_rc w) as E by (unfold tabled_world, tabled, begun; by case_match).
      cbn [io_submit_rc set_ops]. by rewrite E.
    + change (retry_q (set_ops h (tabled_world w r rq))) with (retry_q (tabled_world w r rq)). by rewrite Er.
    + exists wt. split; [|done].
      eapply RoundRead; [by rewrite Hop | by rewrite Hctx; cbn [aio_ctx set_ops]; rewrite Ea | exact Hio | exact Hw | | by apply Hdq].
      cbn [aio_ctx set_ops] in Hpoll. rewrite Ea in Hpoll. exact Hpoll.
Qed.

(** ** What the index holds of a partition *)

Lemma bucket_idx_part h : bucket_idx h = part_idx h * BUCKETS_IN_PART + Z.of_nat (part_bucket h).
Proof. apply bucket_in_part. Qed.

Lemma part_buckets_key h t : get_part_buckets (part_idx h) t !! part_bucket h = Some (tget t (bucket_idx h)).
Proof. rewrite part_buckets_lookup by apply part_bucket_lt. by rewrite <- bucket_idx_part. Qed.

Lemma part_buckets_set h b t :
  get_part_buckets (part_idx h) (tset t (bucket_idx h) b) = <[part_bucket h := b]> (get_part_buckets (part_idx h) t).
Proof.
  apply list_eq. intros k. destruct (decide (k < 4)%nat) as [Hk|].
  - rewrite part_buckets_lookup, list_lookup_insert, part_buckets_lookup, part_buckets_length by done.
    rewrite tget_tset, bucket_idx_part. repeat case_decide; try lia; done.
  - rewrite !lookup_ge_None_2; [done | rewrite length_insert, part_buckets_length; lia | rewrite part_buckets_length; lia].
Qed.

Lemma other_part_key h j : j / BUCKETS_IN_PART <> part_idx h -> j <> bucket_idx h.
Proof. by intros Hj ->. Qed.

(** The buckets of partition [p] and its table, which can be read. *)
Definition holds_partition w (p : Z) (s : partition) : Prop :=
  get_part_buckets p (bucket (ops w)) = pbks s /\
  exists pt, tget (part (ops w)) p = HashPartition 0 pt /\
    match ptab s with
    | None => pt = PBA_INVALID
    | Some t => 0 <= pt < PBA_INVALID /\ ptable_ok t /\ located w pt PART_TABLE_GRAINS (encode_ptable t)
    end.

(** What an operation that began in [w] leaves: the buckets are those of [s'],
    and so is the table, which is where it was or, when the partition was
    flushed, in a fresh block that the last round began with or wrote. The other
    partitions have their buckets. *)
Record leaves_partition w (p : Z) (s s' : partition) (wl w' : bworld) : Prop := LeavesPartition {
  lp_buckets : get_part_buckets p (bucket (ops w')) = pbks s';
  lp_others : forall j, j / BUCKETS_IN_PART <> p -> tget (bucket (ops w')) j = tget (bucket (ops w)) j;
  lp_index : index_ok (ops w');
  lp_table : exists pt', tget (part (ops w')) p = HashPartition 0 pt' /\
    ((ptab s' = ptab s /\ tget (part (ops w)) p = HashPartition 0 pt') \/
     exists t, ptab s' = Some t /\ 0 <= pt' < PBA_INVALID /\
       (staged_holds wl pt' PART_TABLE_GRAINS (encode_ptable t) \/
        staged_holds w' pt' PART_TABLE_GRAINS (encode_ptable t)))
}.

(** A SET that ends in its last round. *)
Record set_done (r : Z) (rq : request) (b : list Z) (pp : Z) (wl w' : bworld) : Prop := SetDone {
  sd_answered : answered r rq wl w';
  sd_pair : staged_holds w' pp (val_len (req_value rq) / SOB)
    (take (Z.to_nat (val_len (req_value rq) / SOB * SOB)) (pair_of rq b));
  sd_sys : exists ring', sys_ok ring' 0 w'
}.

Section SetRounds.
Variable ring : Ring.ring.
Variable n : nat.
Variable w : bworld.
Variables (r : Z) (rq : request) (b : list Z) (bp : bi_params) (s : partition).
Abbreviation hh := (hash_high (req_key rq)).
Abbreviation fp := (hash_low (req_key rq)).
Abbreviation p := (part_idx (hash_high (req_key rq))).
Abbreviation size := (val_len (req_value rq) / SOB).

Hypothesis Hsys : sys_ok ring (S (S (S (S (S n))))) w.
Hypothesis Halone : alone w.
Hypothesis Hrq : req_ready w r rq b.
Hypothesis Hlen : len_ok w rq b.
Hypothesis Hst : starts w rq bp.
Hypothesis Hstep : write_step bp = BI_STEP_INIT.
Hypothesis Hix : index_ok (ops w).
Hypothesis Hpart : holds_partition w p s.
Hypothesis Hflush : is_Some (flush s).
Hypothesis Hsz : PART_TABLE_SIZE <= segment_size (dev w).

Definition set_outcome : Prop :=
  exists pp s' wl w', p_set (part_bucket hh) fp size pp s = Some s' /\
    bsteps (round bigkv_index_set r) 2 w wl /\ acks wl = acks w /\
    bigkv_index_set r wl = Ret 0 w' /\ set_done r rq b pp wl w' /\ leaves_partition w p s s' wl w'.

Lemma set_room i : get_target_entry (bucket_of w (req_key rq)) fp = Some i -> set_outcome.
Proof.
  intros Hi. destruct Hpart as (Hbs & pt & Hpt & Hloc). destruct (Hix (bucket_idx hh)) as [l Hl].
  destruct (bigkv_set_ok ring n w r rq b l i bp (sys_ok_weaken ring (S (S (S (S (S n))))) (S (S n)) w ltac:(lia) Hsys) Hrq Hlen Hst
    (or_introl Hstep)) as (pp & w' & He & Hp & Hs & _ & Hops & Han & Hh & Hsys'); try done; [by rewrite Hpt|].
  destruct (set_bucket_ok _ l _ i _ _ Hl Hi Hs Hp) as [l' Hok'].
  exists pp, (Partition (ptab s) (<[part_bucket hh := fill_from_set i fp size pp (bucket_of w (req_key rq))]> (pbks s))), w, w'.
  split; [|split; [apply bsteps_refl|]; split; [done|]; split; [done|]; split].
  - unfold p_set, store_or_flush, store. rewrite <- Hbs, part_buckets_key. fold (bucket_of w (req_key rq)). by rewrite Hi.
  - split; [done | done |]. eexists. eapply sys_ok_weaken; [|exact Hsys']. lia.
  - split; rewrite Hops; simpl.
    + by rewrite part_buckets_set, Hbs.
    + intros j Hj%other_part_key. by rewrite tget_tset_ne by congruence.
    + by eapply index_ok_set.
    + exists pt. split; [done|]. by left.
Qed.

(** The rounds after a flush: [w1] has the table of the flushed partition. *)
Lemma set_flushed_outcome k buf (w0 w1 : bworld) :
  (k <= 1)%nat -> get_target_entry (bucket_of w (req_key rq)) fp = None ->
  set_flushed r rq b (tab s) buf w0 w1 -> bucket (ops w0) = bucket (ops w) -> acks w0 = acks w ->
  Fifo.items (retry_q w0) = [] ->
  bsteps (round bigkv_index_set r) k w w0 -> bigkv_index_set r w0 = Ret 0 w1 -> set_outcome.
Proof.
  intros Hk Hno [Htab Hoth _ Hre Hack Hix1 Hnext] Hb0 Ha0 Hr0 Hsteps Hrun. destruct Hpart as (Hbs & pt0 & Hpt0 & _).
  destruct Htab as (t & pt & Hup & Hpt & Hptb & Hh).
  destruct (Hnext (Fifo.Mk [] (Fifo.cap (retry_q w1)))) as (pp & w2 & He & Han & _ & Hpair & Hix2 & Hsys2 & i & Hi & Hops).
  fold (unqueued w1) in *. rewrite Hb0, Hbs in Hup.
  exists pp, (Partition (Some t) (<[part_bucket hh := fill_from_set i fp size pp (bucket_of w1 (req_key rq))]>
    (get_part_buckets p (bucket (ops w1))))), (unqueued w1), w2.
  split; [|split; [|split; [by rewrite <- Ha0, <- Hack|]; split; [done|]; split]].
  - unfold p_set, store_or_flush.
    assert (store (fun i b => fill_from_set i fp size pp b) (part_bucket hh) fp s = None) as ->.
    { unfold store. rewrite <- Hbs, part_buckets_key. fold (bucket_of w (req_key rq)). by rewrite Hno. }
    unfold flush. rewrite Hup. unfold store. cbn [pbks ptab]. rewrite part_buckets_key.
    fold (bucket_of w1 (req_key rq)). by rewrite Hi.
  - eapply (bsteps_weaken (S k)); [lia|]. eapply bsteps_r; [exact Hsteps|]. eapply RoundNow; [exact Hrun|]. apply unqueue_ok. by rewrite Hre, Hr0.
  - by split.
  - split; rewrite ?Hops; simpl.
    + apply part_buckets_set.
    + intros j Hj. rewrite tget_tset_ne by (by apply not_eq_sym, other_part_key). by rewrite Hoth, Hb0.
    + rewrite Hops in Hix2. exact Hix2.
    + exists pt. split; [exact Hpt|]. right. exists t. split; [done|]. split; [done|]. left.
      by apply (staged_holds_same w1).
Qed.

(** The bucket has no entry to give and the partition has no table. *)
Lemma set_fresh : get_target_entry (bucket_of w (req_key rq)) fp = None -> ptab s = None -> set_outcome.
Proof.
  intros Hno Hnt. destruct Hpart as (Hbs & pt & Hpt & Hloc). rewrite Hnt in Hloc. subst pt.
  assert (tab s = init_ptable) as Htab by by unfold tab; rewrite Hnt. destruct Halone as [Hr0 Hroom Hcb _ _ _].
  destruct (set_fresh_round ring n w r rq b bp (sys_ok_weaken ring (S (S (S (S (S n))))) (S (S (S (S n)))) w ltac:(lia) Hsys)
              Hcb Hrq Hlen Hst Hstep Hix Hpt Hno Hsz Hroom) as (w1 & H1 & Hsf).
  rewrite <- Htab in Hsf. eapply (set_flushed_outcome 0); try done; [lia | apply bsteps_refl].
Qed.

(** It has a table: the table is read first. *)
Lemma set_old t : get_target_entry (bucket_of w (req_key rq)) fp = None -> ptab s = Some t -> set_outcome.
Proof.
  intros Hno Ht. destruct Hpart as (Hbs & pt & Hpt & Hloc). rewrite Ht in Hloc. destruct Hloc as (Hptb & Hok & Hloc).
  assert (tab s = t) as Htab by by unfold tab; rewrite Ht.
  set (h := BigkvIndex (bucket (ops w)) (tset (part (ops w)) p (HashPartition 1 pt))).
  destruct (fetch_table ring (S (S (S (S n)))) w r rq b bp t h bigkv_index_set Hsys Halone Hrq Hst) as (wt & Hround & Htr).
  { apply set_old_ok with (b := b) (bp := bp); try done; [apply Hsys | lia]. }
  { simpl. by rewrite tget_tset_eq. }
  pose proof (prepared_begin w r rq zeros) as Hpp. fold (tabled_world w r rq) (tabled_req w r rq) in Hpp.
  pose proof Hpp as [_ Ed _ Ea Ek Ev _ _]. pose proof Htr as [Hat Hops Hd _ _ _ Hack _ _ _ _ _ _ _].
  assert (dev (unqueued wt) = dev w) as Hdev by (etransitivity; [exact Hd | exact Ed]).
  destruct Hflush as [s1 Hs1]. unfold flush in Hs1. rewrite Htab, <- Hbs in Hs1.
  destruct (update_part_table _ _) as [[t1 bs1]|] eqn:Hup; [|done]. pose proof Hup as Hcl.
  apply update_part_table_clean in Hcl as [-> Hlt]; [|apply Hok].
  pose proof (at_table_retry _ _ _ _ _ _ _ _ (Fifo.Mk [] (Fifo.cap (retry_q wt))) Hat) as Hat'.
  fold (unqueued wt) in Hat'.
  assert (ops (unqueued wt) = h) as Hopsu by exact Hops.
  destruct (set_flushed_ok ring n (unqueued wt) r (tabled_req w r rq) b _ _ t t1 Hat') as (w1 & H1 & Hsf).
  - destruct Hlen. split; rewrite ?Ek, ?Ev; try done. by rewrite Hdev.
  - rewrite Hopsu. exact Hix.
  - by apply decode_encode_ptable.
  - rewrite Ek, Hopsu. exact Hup.
  - by apply encode_ptable_size.
  - by rewrite Hdev.
  - destruct Halone as [Hr0 Hroom _ _ _ _]. unfold Fifo.full, unqueued in *. cbn [retry_q set_retry_q Fifo.items Fifo.cap length].
    assert (Fifo.cap (retry_q wt) = Fifo.cap (retry_q w)) as ->; [|by rewrite Hr0 in Hroom]. rewrite (tr_cap _ _ _ _ _ _ _ _ Htr). exact (f_equal Fifo.cap (pp_retry _ _ _ _ Hpp)).
  - rewrite <- (set_write_step _ _ _ _ _ _ _ _ Hat') in H1 by done.
    assert (set_flushed r rq b (tab s) (temp_buf (tabled_req w r rq)) (unqueued wt) w1) as Hsf'
      by (rewrite Htab; eapply set_flushed_prepared; [|exact Hsf]; by destruct Hpp).
    eapply (set_flushed_outcome 1); try done; [by rewrite Hopsu | | by apply bsteps_once].
    unfold unqueued. cbn [acks set_retry_q]. rewrite Hack. exact Ea.
Qed.

Lemma set_runs : set_outcome.
Proof.
  destruct (get_target_entry (bucket_of w (req_key rq)) fp) as [i|] eqn:E; [by eapply set_room|].
  destruct (ptab s) as [t|] eqn:Et; [by eapply set_old | by apply set_fresh].
Qed.
End SetRounds.


(** ** Reads under way

    A read that the kernel has is not touched by what the handler does
    meanwhile: its iocb and its callback are not in their pools. *)

Record under_way (i c : Z) (io : iocb) (f : fn) (a : Z) w : Prop := UnderWay {
  uw_io : iocb_arr w !! i = Some io;
  uw_cb : cb_arr w !! c = Some (Callback f a i);
  uw_i : i ∉ Fifo.items (iocb_pool w);
  uw_c : c ∉ Fifo.items (cb_pool w);
  uw_ctx : i ∈ aio_ctx w;
  uw_null : iocb_arr w !! NULL = None /\ cb_arr w !! NULL = None
}.

Section Kept.
Variables (i c : Z) (io : iocb) (f : fn) (a : Z).
Abbreviation uw := (under_way i c io f a).

Lemma kept_inert {A} (m : M bworld A) : inert_op m -> triple uw m (fun _ => uw).
Proof.
  intros Hm w x w' [] Hr. destruct (Hm _ _ _ Hr) as [(_ & E1 & E2) _ [E3 E4] [E5 _] _ _].
  by split; rewrite ?E1, ?E2, ?E3, ?E4, ?E5.
Qed.

Lemma kept_make_callback g b : triple uw (make_callback g b) (fun c' w => uw w /\ c' <> c).
Proof.
  intros w c' w' [] (c0 & w1 & H1 & H)%bind_inv.
  apply q_dequeue_inv in H1 as [(_ & -> & ->) | (l & Hl & ->)];
    apply bind_inv in H as (cb & w2 & H2 & H); apply deref_inv in H2 as [H2 ->].
  { by rewrite (proj2 uw_null0) in H2. }
  apply bind_inv in H as ([] & w3 & H3 & H). apply Ret_inj in H3 as [_ <-]. apply Ret_inj in H as [<- <-].
  cbn [qget qset cb_arr set_cb_pool] in *. rewrite Hl in uw_c0. apply not_elem_of_cons in uw_c0 as [Hne Hcl].
  split; [|congruence]. split; try done; cbn [cb_arr set_cb_arr].
  - rewrite lookup_insert_ne; congruence.
  - split; [apply uw_null0|]. rewrite lookup_insert_ne; [apply uw_null0|]. intros ->. by rewrite (proj2 uw_null0) in H2.
Qed.

Lemma kept_aio_request wr addr size buf c' : c' <> c -> triple uw (aio_request wr addr size buf c') (fun _ => uw).
Proof.
  intros Hne w rc w' [] (i0 & w1 & H1 & H)%bind_inv.
  apply q_dequeue_inv in H1 as [(_ & -> & ->) | (l & Hl & ->)];
    apply bind_inv in H as (io0 & w2 & H2 & H); apply deref_inv in H2 as [H2 ->].
  { by rewrite (proj1 uw_null0) in H2. }
  apply bind_inv in H as (cb & w2 & H3 & H). apply deref_inv in H3 as [H3 ->].
  do 3 (apply bind_inv in H as (? & ? & H4 & H); apply Ret_inj in H4 as [_ <-]).
  cbn [qget qset cb_arr iocb_arr set_iocb_pool] in *. rewrite Hl in uw_i0. apply not_elem_of_cons in uw_i0 as [Hni Hil].
  unfold submit in H. destruct (_ <? 0); apply Ret_inj in H as [_ <-]; split; simpl; try done.
  all: try (rewrite !lookup_insert_ne by congruence; done).
  all: try (split; rewrite lookup_insert_ne; try apply uw_null0; intros ->; destruct uw_null0; congruence).
  apply elem_of_app. by left.
Qed.

Lemma kept_get_next_pba size : triple uw (get_next_pba size) (fun _ => uw).
Proof.
  unfold get_next_pba. eapply triple_bind; [apply kept_inert, inert_get_staged | intros ss; cbv beta].
  eapply triple_bind; [|intros ?; apply kept_inert, inert_take_grains].
  destruct (_ <? _); [|by apply triple_ret]. unfold write_out_staged.
  eapply triple_bind; [apply kept_inert; auto with inert | intros d; cbv beta].
  eapply triple_bind; [apply kept_inert, inert_upd_staged | intros ?; cbv beta].
  eapply triple_bind; [apply kept_make_callback | intros c'; cbv beta]. apply triple_pure. intros Hne.
  eapply triple_bind; [by apply kept_aio_request | intros ?; apply kept_inert, inert_stage_next_segment].
Qed.

(** Neither do the callbacks of the index. *)
Lemma kept_fun {A} (g : bworld -> A) (h : bworld -> bworld) :
  (forall w, uw w -> uw (h w)) -> triple uw (fun w => Ret (g w) (h w)) (fun _ => uw).
Proof. intros Hh w x w' Hu [= _ <-]. by apply Hh. Qed.

Lemma kept_enqueue x q : q <> CB_POOL -> q <> IOCB_POOL -> triple uw (q_enqueue x q) (fun _ => uw).
Proof.
  intros H1 H2 w y w' Hu. unfold q_enqueue. destruct (Fifo.enqueue _ _) as [b q']. intros [= _ <-].
  by destruct Hu, q.
Qed.

Lemma kept_enqueue_cb x : x <> c -> triple uw (q_enqueue x CB_POOL) (fun _ => uw).
Proof.
  intros Hne w y w' Hu. unfold q_enqueue, Fifo.enqueue. destruct Hu. cbn [qget qset]. destruct (Fifo.full _); intros [= _ <-]; split; try done.
  cbn [cb_pool set_cb_pool Fifo.items]. rewrite elem_of_app, list_elem_of_singleton. intros [H | ->]; done.
Qed.
End Kept.

Ltac kept_pass :=
  first [ apply kept_inert; solve [auto 10 using inert_sw_end with inert]
        | apply kept_fun; intros ? []; by split
        | apply kept_enqueue; discriminate
        | apply triple_ret; done ].
Ltac kept_go := repeat (eapply triple_bind; [kept_pass | intros ?; cbv beta zeta]); try kept_pass.

Lemma kept_net_end_req i c io f a r : triple (under_way i c io f a) (net_end_req r) (fun _ => under_way i c io f a).
Proof. unfold net_end_req. kept_go. Qed.

Lemma kept_retry i c io f a r : triple (under_way i c io f a) (retry_req_to_hlr r) (fun _ => under_way i c io f a).
Proof. unfold retry_req_to_hlr. kept_go. Qed.

Lemma kept_bi_exec i c io f a g b : triple (under_way i c io f a) (bi_exec g b) (fun _ => under_way i c io f a).
Proof.
  destruct g; cbn [bi_exec]; try apply triple_stop; [apply kept_net_end_req | | | | |].
  - unfold cb_keycmp. kept_go.
    destruct (_ =? 0).
    + unfold call_end. destruct (end_req _); try apply triple_stop. apply kept_net_end_req.
    + kept_go. eapply triple_bind; [apply kept_retry | intros ?]. kept_go.
  - unfold cb_part_table_read. kept_go. eapply triple_bind; [apply kept_retry | intros ?]. kept_go.
  - unfold cb_part_table_write. kept_go. eapply triple_bind; [apply kept_retry | intros ?]. kept_go.
  - unfold cb_part_table_write_for_get. kept_go.
  - apply kept_inert. unfold reap_seg_buf. auto with inert.
Qed.

Lemma kept_dev_abs_write i c io f a p k buf c' :
  c' <> c -> triple (under_way i c io f a) (dev_abs_write bi_exec p k buf c') (fun _ => under_way i c io f a).
Proof.
  intros Hne. unfold dev_abs_write. kept_go. eapply triple_bind; [apply kept_inert, inert_get_staged | intros ss; cbv beta zeta].
  kept_go. eapply triple_bind; [apply kept_bi_exec | intros ?; cbv beta].
  eapply triple_bind; [by apply kept_enqueue_cb | intros ?; cbv beta]. kept_go.
Qed.

Lemma kept_get_target_retry i c io f a n h fp ef ptable :
  triple (under_way i c io f a) (get_target_retry n h fp ef ptable) (fun _ => under_way i c io f a).
Proof.
  revert ptable. induction n as [|n IH]; intros ptable; [apply triple_stop|]. cbn [get_target_retry].
  unfold get_bucket. kept_go. destruct (get_target_entry _ _).
  - unfold put_bucket. kept_go.
  - eapply triple_bind; [apply kept_inert, Big.inert_flush_part | intros ?; cbv beta].
    eapply triple_bind; [apply kept_make_callback | intros c'; cbv beta]. apply triple_pure. intros Hne.
    eapply triple_bind; [apply kept_get_next_pba | intros ?; cbv beta]. unfold get_part, put_part. kept_go.
    eapply triple_bind; [by apply kept_dev_abs_write | intros ?; apply IH].
Qed.

(** ** The read of a pair *)

(** The client of [r] has its acknowledgement, the permit is released and the
    request is back in its pool. *)
Record got (r : Z) (rq : request) (w0 w' : bworld) : Prop := Got {
  gt_acks : answer_of <$> acks w' = (answer_of <$> acks w0) ++ [answer_for rq];
  gt_flying : World.flying w' = cl_release (World.flying w0);
  gt_pool : req_pool w' = Fifo.Mk (Fifo.items (req_pool w0) ++ [r]) (Fifo.cap (req_pool w0))
}.

Definition same_client (rq rq' : request) : Prop := answer_for rq' = answer_for rq.

Lemma got_answered r rq rq' (w0 w1 w' : bworld) :
  answered r rq' w1 w' -> same_client rq rq' -> acks w1 = acks w0 ->
  World.flying w1 = World.flying w0 -> req_pool w1 = req_pool w0 -> got r rq w0 w'.
Proof.
  intros [] Hc Ea Ef Ep. split; [|by rewrite an_flying, Ef | by rewrite an_pool, Ep].
  rewrite an_acks, Ea, fmap_app. f_equal. simpl. f_equal. exact Hc.
Qed.

(** The pair of a GET: block [p] of [k] grains has the key of the request, and the
    value buffer is large enough. *)
Record pair_there w (rq : request) (b : list Z) (p k : Z) (x : list Z) : Prop := PairThere {
  pt_size : 0 < k < 2 ^ 14;
  pt_blk : 0 <= p < PBA_INVALID;
  pt_room : k * SOB <= Z.of_nat (length b);
  pt_key : keycmp (req_key rq) (x ++ drop (length x) b) = Some 0;
  pt_at : located w p k x
}.

(** A read of block [p] into the value buffer is under way. *)
Record reading (r : Z) (rq : request) (p k : Z) w (i : Z) (io : iocb) : Prop := Reading {
  rd_uw : under_way i (io_data io) io FN_cb_keycmp r w;
  rd_dir : io_is_write io = false;
  rd_buf : io_buf io = value (req_value rq);
  rd_off : io_offset io = p * SOB;
  rd_len : io_nbytes io = k * SOB
}.

(** Its completion answers the client, in any world in which it is still under way. *)
Lemma pair_arrives w r rq b bp p k x i io ctx :
  req_ready w r rq b -> params rq <> NULL -> params_heap w !! params rq = Some bp ->
  reading r rq p k w i io -> 0 < k -> disk (p * SOB) (k * SOB) = x ->
  keycmp (req_key rq) (x ++ drop (length x) b) = Some 0 ->
  exists w', poll_event (reaped i io) (filled io ctx w) = Ret tt w' /\ answered r rq w w'.
Proof.
  intros Hrq Hpar Hbp [[Hio Hcb _ _ _ _] _ Hbuf Hoff Hlen] Hk Hx Hcmp.
  set (w5 := filled io ctx w).
  assert (at_callback w w5 rq b x bp) as Hac.
  { split; try done.
    - unfold w5, filled. cbn [bufs set_bufs]. rewrite Hoff, Hlen, Hx, Hbuf. change (bufs (set_aio_ctx ctx w)) with (bufs w).
      apply map_eq. intros q. destruct (decide (q = value (req_value rq))) as [-> | Hq].
      + by rewrite lookup_alter_eq, lookup_insert_eq, (qr_buf _ _ _ _ Hrq).
      + by rewrite lookup_alter_ne, lookup_insert_ne by congruence.
    - by rewrite insert_id. }
  destruct (cb_keycmp_match w w5 r rq b x bp (io_data io) Hrq Hpar Hac Hcmp) as (w' & He & Han & _).
  apply bind_inv in He as ([] & w6 & He & Hq).
  destruct (return_callback (io_data io) w6) as (bb & f0 & Hq0 & _). rewrite (bind_ret _ _ _ _ _ Hq0) in Hq.
  apply Ret_inj in Hq as [_ <-].
  unfold poll_event, reaped. cbn [ev_obj ev_data ev_res].
  rewrite (bind_ret _ _ _ _ _ (load_iocb_ok i io w5 Hio)).
  rewrite (proj2 (Z.eqb_neq (io_nbytes io) EINVAL)) by (rewrite Hlen; unfold SOB, GRAIN_UNIT, EINVAL; lia).
  unfold massert. rewrite Z.eqb_refl. erewrite bind_ret by exact eq_refl.
  rewrite (bind_ret _ _ _ _ _ (load_cb_ok _ _ w5 Hcb)). cbn [cb_func cb_arg exec bigkv_ops].
  rewrite (bind_ret _ _ _ _ _ He).
  destruct (return_iocb i w6) as (b1 & f1 & Hq1 & _). rewrite (bind_ret _ _ _ _ _ Hq1).
  destruct (return_callback (io_data io) (set_iocb_pool f1 w6)) as (b2 & f2 & Hq2 & _). rewrite (bind_ret _ _ _ _ _ Hq2).
  eexists. split; [done|]. by destruct Han.
Qed.

(** The pair has been read and the client answered, or the read is under way and
    nothing else has happened to the request. *)
Inductive pair_read (r : Z) (rq : request) (p k : Z) (x : list Z) (w w' : bworld) : Prop :=
| PairNow : answered r rq w w' -> pair_read r rq p k x w w'
| PairLater i io : reading r rq p k w' i io -> disk (p * SOB) (k * SOB) = x ->
    bufs w' = bufs w -> req_arr w' = req_arr w -> params_heap w' = params_heap w -> acks w' = acks w ->
    World.flying w' = World.flying w -> req_pool w' = req_pool w -> pair_read r rq p k x w w'.

Lemma read_pair ring n w r rq b bp p k x :
  sys_ok ring (S n) w -> NoDup (Fifo.items (cb_pool w)) -> NoDup (Fifo.items (iocb_pool w)) ->
  iocb_arr w !! NULL = None /\ cb_arr w !! NULL = None -> 0 <= io_submit_rc w (submits w) ->
  req_ready w r rq b -> params rq <> NULL -> params_heap w !! params rq = Some bp -> pair_there w rq b p k x ->
  exists w',
    (forall K : M bworld Z, (let* cb := make_callback FN_cb_keycmp r in
       dev_abs_read bi_exec p k (value (req_value rq)) cb ;;; K) w = K w') /\
    ops w' = ops w /\ dev w' = dev w /\ sys_ok ring n w' /\ NoDup (Fifo.items (cb_pool w')) /\
    (forall q bq, bufs w !! q = Some bq -> q <> value (req_value rq) -> q <> staged_seg_buf (dev w) ->
       bufs w' !! q = Some bq) /\ pair_read r rq p k x w w'.
Proof.
  intros Hsys Hcb Hiocb Hnull Hrc Hrq Hpar Hbp [Hk _ Hroom Hcmp Hloc].
  pose proof (so_grain _ _ _ _ Hsys) as Hg. destruct Hloc as [Hh | (Hun & Hd & Hxl)].
  - destruct (staged_read_ok bi_exec n w r rq b FN_cb_keycmp p k x bp) as (c & w5 & Hread & Hac & Htk); try done.
    { apply Hsys. } { apply Hsys. } { lia. } { by rewrite Hg. }
    destruct (cb_keycmp_match w w5 r rq b x bp c Hrq Hpar Hac Hcmp) as (w' & He & Han & Hops & Hback).
    rewrite He in Hread. apply bind_inv in Hread as (c' & w2 & Hc & Hrd). exists w'.
    split; [intros K; by rewrite (bind_ret _ _ _ _ _ Hc), (seq_then _ _ _ _ Hrd)|].
    split; [done|]. split; [apply Hback|]. split; [by apply Hback|]. split; [by apply Hback|].
    split; [exact (an_bufs _ _ _ _ Han) | by apply PairNow].
  - pose proof (so_pools _ _ _ _ Hsys) as [Hcn Hip Hca Hia].
    destruct (Fifo.items (cb_pool w)) as [|c cs] eqn:E; simpl in Hcn; [lia|].
    destruct (Fifo.items (iocb_pool w)) as [|i rest] eqn:Ei; simpl in Hip; [lia|].
    apply Forall_cons in Hca as [[cb0 Hcb0] Hca]. apply Forall_cons in Hia as [[io0 Hio0] Hia].
    apply NoDup_cons in Hcb as [Hc Hcb]. apply NoDup_cons in Hiocb as [Hi Hiocb].
    pose proof (make_callback_ok FN_cb_keycmp r w c cs cb0 E Hcb0) as Hmake.
    match type of Hmake with _ = Ret _ ?v => set (w2 := v) in * end.
    pose proof (dev_abs_read_submits bi_exec w2 p k (value (req_value rq)) c (Callback FN_cb_keycmp r NULL) i rest) as Hread.
    change (dev w2) with (dev w) in Hread. rewrite Hg in Hread.
    specialize (Hread ltac:(done) Hun ltac:(lia) ltac:(unfold SOB, GRAIN_UNIT; lia) Ei (mk_is_Some _ _ Hio0)
      (lookup_insert_eq _ _ _) Hrc).
    match type of Hread with _ = Ret 0 ?v => set (w3 := v) in * end.
    exists w3. split; [intros K; by rewrite (bind_ret _ _ _ _ _ Hmake), (bind_ret _ _ _ _ _ Hread)|].
    split; [done|]. split; [done|]. split; [|split; [done|]; split; [done|]].
    + destruct Hsys as [Hd1 Hr _ [Hm1 Hm2] (sb & Hs1 & Hs2) _ Hf]. split; try done; [|by exists sb].
      simpl in Hcn, Hip. split; simpl; try lia; [do 2 apply insert_is_Some_mono; done | by apply insert_is_Some_mono].
    + eapply (PairLater _ _ _ _ _ _ _ i (Iocb false (dev_fd (dev w)) (value (req_value rq)) (k * SOB) (p * SOB) c)); try done.
      split; try done. destruct Hnull as [N1 N2]. split; try done.
      * apply lookup_insert_eq.
      * apply lookup_insert_eq.
      * simpl. apply elem_of_app. right. by left.
      * split; simpl; rewrite ?lookup_insert_ne; try done; intros ->; congruence.
Qed.

(** The client of [r] is answered, at once or when the read of the pair is reaped. *)
Inductive replied (r : Z) (rq : request) (p k : Z) (w0 w' : bworld) : Prop :=
| RepliedNow : got r rq w0 w' -> replied r rq p k w0 w'
| RepliedLater i io : reading r rq p k w' i io -> acks w' = acks w0 ->
    (forall ctx, exists w2, poll_event (reaped i io) (filled io ctx w') = Ret tt w2 /\ got r rq w0 w2) ->
    replied r rq p k w0 w'.

Lemma located_same w w' p k x :
  dev w' = dev w -> bufs w' !! staged_seg_buf (dev w) = bufs w !! staged_seg_buf (dev w) ->
  located w p k x -> located w' p k x.
Proof.
  intros Ed Eb [Hh | (Hun & H)]; [left; by apply (staged_holds_same w) | right].
  split; [|done]. unfold unstaged in *. by rewrite Ed.
Qed.

Lemma same_client_sym rq rq' : same_client rq rq' -> same_client rq' rq.
Proof. unfold same_client. congruence. Qed.

(** The request of a later world is as ready. *)
Lemma req_ready_later w w' r rq b :
  req_ready w r rq b -> req_arr w' = req_arr w -> params_heap w' = params_heap w ->
  bufs w' !! value (req_value rq) = Some b -> value (req_value rq) <> staged_seg_buf (dev w') ->
  req_pool w' = req_pool w -> req_ready w' r rq b.
Proof. intros [] E1 E2 Hb Hu E4. split; try done; [by rewrite E1 | by rewrite E2 | by rewrite E4]. Qed.

(** How a round that reads the pair in [w1] and goes on to [w3] without touching
    the request ends. *)
Lemma replied_read r rq rq1 b bp p k x (w0 w1 w2 w3 : bworld) :
  pair_read r rq1 p k x w1 w2 -> (forall i io, reading r rq1 p k w2 i io -> reading r rq1 p k w3 i io) ->
  req_ready w1 r rq1 b -> params rq1 <> NULL -> params_heap w1 !! params rq1 = Some bp ->
  same_client rq rq1 -> value (req_value rq1) = value (req_value rq) -> 0 < k ->
  keycmp (req_key rq1) (x ++ drop (length x) b) = Some 0 ->
  acks w1 = acks w0 -> World.flying w1 = World.flying w0 -> req_pool w1 = req_pool w0 ->
  acks w3 = acks w2 -> World.flying w3 = World.flying w2 -> req_pool w3 = req_pool w2 ->
  req_arr w3 = req_arr w2 -> params_heap w3 = params_heap w2 ->
  (bufs w2 = bufs w1 -> bufs w3 !! value (req_value rq1) = Some b /\ value (req_value rq1) <> staged_seg_buf (dev w3)) ->
  replied r rq p k w0 w3.
Proof.
  intros Hpr Hkeep Hrq Hpar Hbp Hc Hv Hk Hcmp Ea Ef Ep Ea3 Ef3 Ep3 Er3 Eh3 Hb3. destruct Hpr as [Han | i io Hrd Hx Eb Er Eh Ea2 Ef2 Ep2].
  - apply RepliedNow. destruct (got_answered r rq rq1 w0 w1 w2 Han Hc Ea Ef Ep) as [G1 G2 G3].
    split; by rewrite ?Ea3, ?Ef3, ?Ep3.
  - destruct (Hb3 Eb) as [Hb3' Hu3]. pose proof (Hkeep _ _ Hrd) as Hrd3.
    assert (req_ready w3 r rq1 b) as Hrq3.
    { apply (req_ready_later w1); try done; congruence. }
    apply (RepliedLater _ _ _ _ _ _ i io).
    + destruct Hrd3. split; try done. by rewrite <- Hv.
    + congruence.
    + intros ctx. destruct (pair_arrives w3 r rq1 b bp p k x i io ctx Hrq3 Hpar) as (w4 & He & Han); try done; [by rewrite Eh3, Eh|].
      exists w4. split; [done|]. eapply got_answered; [exact Han | done | congruence..].
Qed.

(** ** A GET *)

Section GetRounds.
Variable ring : Ring.ring.
Variable n : nat.
Variable w : bworld.
Variables (r : Z) (rq : request) (b : list Z) (bp : bi_params) (s s' : partition) (a : option (Z * Z)).
Abbreviation hh := (hash_high (req_key rq)).
Abbreviation fp := (hash_low (req_key rq)).
Abbreviation p := (part_idx (hash_high (req_key rq))).

Hypothesis Hsys : sys_ok ring (S (S (S (S n)))) w.
Hypothesis Halone : alone w.
Hypothesis Hrq : req_ready w r rq b.
Hypothesis Hst : starts w rq bp.
Hypothesis Hstep : read_step bp <> BI_STEP_UPDATE_TABLE.
Hypothesis Hix : index_ok (ops w).
Hypothesis Hpart : holds_partition w p s.
Hypothesis Hsz : PART_TABLE_SIZE <= segment_size (dev w).
Hypothesis Hget : p_get (part_bucket hh) fp s = Some (a, s').
Hypothesis Hpair : match a with Some (size, blk) => exists x, pair_there w rq b blk size x | None => True end.

Definition get_outcome : Prop :=
  exists wl w', bsteps (round bigkv_index_get r) 1 w wl /\ acks wl = acks w /\
    match a with
    | Some (size, blk) => bigkv_index_get r wl = Ret 0 w' /\ replied r rq blk size w w'
    | None => bigkv_index_get r wl = Ret (-1) w' /\ acks w' = acks w /\ req_pool w' = req_pool w
    end /\ leaves_partition w p s s' wl w'.

Lemma get_bucket_key : pbks s !! part_bucket hh = Some (bucket_of w (req_key rq)).
Proof. destruct Hpart as [<- _]. apply part_buckets_key. Qed.

(** The bucket has the key. *)
Lemma get_hit i : get_match_entry (bucket_of w (req_key rq)) fp = Some i -> get_outcome.
Proof.
  intros Hi. destruct (Hix (bucket_idx hh)) as [l Hl]. fold (bucket_of w (req_key rq)) in Hl.
  pose proof Hget as Hg. unfold p_get in Hg. rewrite get_bucket_key, Hi in Hg. unfold cached in Hg. rewrite Hi in Hg.
  injection Hg as Ha Hs'. rewrite <- Ha in Hpair. destruct Hpair as [x [Hk Hblk Hroom Hcmp Hloc]].
  destruct (touched_ready ring _ w r rq b i bp Hsys Hrq Hst) as (Hsys1 & Hrq1 & Hpar & Hbp).
  pose proof (get_hit_step w r rq b l i bp (so_mem _ _ _ _ Hsys) Hrq Hst Hstep Hl Hi) as Hrun. cbn zeta in Hrun.
  destruct (begun_same (touched w (req_key rq) i) r rq) as (Eo & Ed & Ek & Ev).
  change (begun_req (touched w (req_key rq) i) rq) with (begun_req w rq) in Ek, Ev.
  set (w1 := begun (touched w (req_key rq) i) r rq) in *. destruct Halone as [Hr0 Hroom0 Hcb Hiocb Hnull Hrc].
  assert (bufs w1 = bufs w /\ cb_pool w1 = cb_pool w /\ iocb_pool w1 = iocb_pool w /\ cb_arr w1 = cb_arr w /\
          iocb_arr w1 = iocb_arr w /\ io_submit_rc w1 = io_submit_rc w /\ acks w1 = acks w /\
          World.flying w1 = World.flying w /\ req_pool w1 = req_pool w)
    as (E1 & E2 & E3 & E4 & E5 & E6 & E7 & E8 & E9) by (unfold w1, begun; by case_match).
  set (e := entry (bucket_of w (req_key rq)) i) in *.
  destruct (read_pair ring (S (S (S n))) w1 r (begun_req w rq) b bp (pba e) (kv_size e) x) as
    (w2 & HK & Eo2 & Ed2 & _ & _ & _ & Hpr); rewrite ?E2, ?E3, ?E4, ?E5, ?E6; try done.
  { split; rewrite ?Ek; try done. apply (located_same w); [exact Ed | by rewrite E1 | done]. }
  rewrite Ev in HK. rewrite HK in Hrun. exists w, w2. split; [apply bsteps_refl|]. split; [done|]. rewrite <- Ha. split; [split; [exact Hrun|]|].
  - eapply (replied_read r rq (begun_req w rq) b bp (pba e) (kv_size e) x w w1 w2 w2 Hpr); try done; try lia.
    + unfold same_client, answer_for, begun_req. by case_match.
    + by rewrite Ev.
    + by rewrite Ek.
    + intros ->. rewrite Ed2. split; [apply (qr_buf _ _ _ _ Hrq1) | apply (qr_unstaged _ _ _ _ Hrq1)].
  - destruct Hpart as (Hbs & pt & Hpt & _). destruct (touch_ok _ l i Hl) as (l1 & l2 & _ & Hok' & _).
    { pose proof (get_match_entry_spec _ l fp Hl) as Hsp. rewrite Hi in Hsp. apply Hsp. }
    rewrite <- Hs'. split; rewrite ?Eo2, ?Eo; simpl.
    + by rewrite part_buckets_set, Hbs.
    + intros j Hj%other_part_key. by rewrite tget_tset_ne by congruence.
    + by eapply index_ok_set.
    + exists pt. split; [done|]. by left.
Qed.

(** The bucket does not have the key: the table is read first. *)
Lemma get_miss t :
  get_match_entry (bucket_of w (req_key rq)) fp = None -> ptab s = Some t ->
  ptable_ok t /\ exists wt, round bigkv_index_get r w (unqueued wt) /\
    table_read ring (S (S (S n))) r (tabled_req w r rq) b t (tabled_world w r rq) wt.
Proof.
  intros Hno Ht. destruct Hpart as (Hbs & pt & Hpt & Hloc). rewrite Ht in Hloc. destruct Hloc as (_ & Hok & Hloc).
  split; [done|].
  assert (tabled_world w r rq = set_ops (ops w) (tabled_world w r rq)) as Ew.
  { rewrite <- (tabled_ops w r rq). by destruct (tabled_world w r rq). }
  rewrite Ew. apply (fetch_table ring _ w r rq b bp t (ops w)); try done.
  - rewrite <- Ew. apply get_miss_ok with (b := b) (bp := bp); try done. apply Hsys.
  - by rewrite Hpt.
Qed.

(** The table does not have it either. *)
Lemma get_absent t :
  get_match_entry (bucket_of w (req_key rq)) fp = None -> ptab s = Some t -> get_match_entry_f t fp = None -> get_outcome.
Proof.
  intros Hno Ht Hnt. destruct (get_miss t Hno Ht) as (Hok & wt & Hround & Htr).
  pose proof Hget as Hg. unfold p_get in Hg. rewrite get_bucket_key, Hno, Ht, Hnt in Hg. injection Hg as Ha Hs'.
  unfold get_outcome. rewrite <- Ha, <- Hs'.
  pose proof (prepared_begin w r rq zeros) as Hpp. fold (tabled_world w r rq) (tabled_req w r rq) in Hpp.
  pose proof Hpp as [Eo _ _ Ea Ek _ _ _]. pose proof Htr as [Hat Hops _ _ _ _ Hack _ Epool _ _ _ _ _].
  pose proof (at_table_retry _ _ _ _ _ _ _ _ (Fifo.Mk [] (Fifo.cap (retry_q wt))) Hat) as Hat'.
  fold (unqueued wt) in Hat'. exists (unqueued wt), (unqueued wt).
  split; [by apply bsteps_once|].
  assert (acks (unqueued wt) = acks w) as Hacks by (unfold unqueued; cbn [acks set_retry_q]; by rewrite Hack).
  assert (req_pool (unqueued wt) = req_pool w) as Hpool.
  { etransitivity; [exact Epool | apply tabled_same]. }
  split; [done|]. split; [split; [|by split]|].
  - rewrite (get_update_step _ _ _ _ _ _ _ _ Hat') by done. destruct Hat' as [_ _ Hrq' _ _ _ _ _ Hbuf].
    unfold bi_update_table. rewrite (bind_ret _ _ _ _ _ (load_req_ok _ _ _ (qr_req _ _ _ _ Hrq'))). cbn zeta.
    rewrite (bind_ret _ _ _ _ _ (load_buf_ok _ _ _ Hbuf)), (decode_encode_ptable t Hok), Ek, Hnt. done.
  - destruct Hpart as (Hbs & pt & Hpt & _). assert (ops (unqueued wt) = ops w) as Hopsu by (etransitivity; [exact Hops | exact Eo]).
    split; rewrite ?Hopsu; try done. exists pt. split; [done|]. by left.
Qed.

(** The round that goes on from the table, up to [get_target_retry]. *)
Lemma update_table_step m wl rq1 t ef x bp1 :
  at_table ring (S m) wl r rq1 b bp1 (encode_ptable t) -> ptable_ok t ->
  get_match_entry_f t (hash_low (req_key rq1)) = Some ef -> pair_there wl rq1 b (f_pba ef) (f_kv_size ef) x ->
  NoDup (Fifo.items (iocb_pool wl)) -> iocb_arr wl !! NULL = None /\ cb_arr wl !! NULL = None ->
  (forall k, 0 <= io_submit_rc wl k) ->
  let rq2 := with_temp_buf NULL rq1 in
  let w1 := set_req_arr (<[r := rq2]> (req_arr wl)) wl in
  exists w2, bi_update_table r wl =
      get_target_retry 2 (hash_high (req_key rq1)) (hash_low (req_key rq1)) ef (temp_buf rq1) w2 /\
    ops w2 = ops wl /\ dev w2 = dev wl /\ sys_ok ring m w2 /\ NoDup (Fifo.items (cb_pool w2)) /\
    bufs w2 !! temp_buf rq1 = Some (encode_ptable t) /\ req_ready w1 r rq2 b /\
    pair_read r rq2 (f_pba ef) (f_kv_size ef) x w1 w2.
Proof.
  intros [Hsys1 Hnd Hrq1 Hpar Hbp Hnull Htv Hts Hbuf] Hok Hef [Hk Hblk Hroom Hcmp Hloc] Hiocb Hn0 Hrc rq2 w1.
  assert (req_ready w1 r rq2 b) as Hrq2 by (destruct Hrq1; split; try done; apply lookup_insert_eq).
  destruct (read_pair ring m w1 r rq2 b bp1 (f_pba ef) (f_kv_size ef) x) as (w2 & HK & Eo & Ed & Hs2 & Hnd2 & Hb2 & Hpr);
    try done.
  { by destruct Hsys1 as [? ? [] [] ? ? ?]. }
  { apply Hrc. }
  exists w2. split; [|split; [done|]; split; [done|]; split; [done|]; split; [done|]; split; [|by split]].
  - unfold bi_update_table. rewrite (bind_ret _ _ _ _ _ (load_req_ok _ _ _ (qr_req _ _ _ _ Hrq1))). cbn zeta.
    rewrite (bind_ret _ _ _ _ _ (load_buf_ok _ _ _ Hbuf)), (decode_encode_ptable t Hok), Hef.
    unfold set_temp_buf. erewrite bind_ret.
    2: { erewrite bind_ret by (apply load_req_ok, Hrq1). exact eq_refl. }
    exact (HK _).
  - by apply Hb2.
Qed.

(** What [get_target_retry] leaves of the partition. *)
Lemma settled_leaves t ef (wl w2 w3 : bworld) :
  get_match_entry (bucket_of w (req_key rq)) fp = None -> ptab s = Some t -> get_match_entry_f t fp = Some ef ->
  ops w2 = ops w -> settled hh fp ef (temp_buf (tabled_req w r rq)) t w2 w3 -> leaves_partition w p s s' wl w3.
Proof.
  intros Hno Ht Hef Eo Hse. pose proof Hget as Hg. unfold p_get in Hg. rewrite get_bucket_key, Hno, Ht, Hef in Hg.
  pose proof (st_index _ _ _ _ _ _ _ Hse) as Hix3. pose proof (st_part _ _ _ _ _ _ _ Hse) as Hp. cbn zeta in Hp.
  rewrite Eo in Hp. fold (bucket_of w (req_key rq)) in Hp.
  destruct Hpart as (Hbs & pt & Hpt & _). unfold store_or_flush, store in Hg. rewrite get_bucket_key in Hg.
  destruct (get_target_entry (bucket_of w (req_key rq)) fp) as [i|].
  - injection Hg as _ <-. rewrite Hp in Hix3. split; rewrite ?Hp; simpl; try done.
    + by rewrite part_buckets_set, Hbs.
    + intros j Hj%other_part_key. by rewrite tget_tset_ne by congruence.
    + exists pt. split; [done|]. by left.
  - destruct Hp as (t' & pt' & i & Hup & Hi & Hops & Hptb & Hh). unfold flush, tab in Hg. rewrite Ht, <- Hbs, Hup in Hg.
    cbn [pbks ptab] in Hg. rewrite list_lookup_fmap, part_buckets_key in Hg. fold (bucket_of w (req_key rq)) in Hg.
    cbn [fmap option_fmap option_map] in Hg. rewrite Hi in Hg. injection Hg as _ <-.
    rewrite Hops in Hix3. split; rewrite ?Hops; cbn [bucket part with_bucket pbks ptab]; try done.
    + rewrite part_buckets_set, part_buckets_put by (by rewrite length_fmap, part_buckets_length). done.
    + intros j Hj. rewrite tget_tset_ne by (by apply not_eq_sym, other_part_key).
      apply unflushed_bucket; [by rewrite length_fmap, part_buckets_length | done].
    + exists pt'. split; [rewrite tget_tset_eq, Hpt; done|]. right. exists t'. split; [done|]. split; [done|]. by right.
Qed.

(** The table has the key: its entry is taken into the bucket. *)
Lemma get_present t ef :
  get_match_entry (bucket_of w (req_key rq)) fp = None -> ptab s = Some t -> get_match_entry_f t fp = Some ef -> get_outcome.
Proof.
  intros Hno Ht Hef. destruct (get_miss t Hno Ht) as (Hok & wt & Hround & Htr).
  pose proof Hget as Hg. unfold p_get in Hg. rewrite get_bucket_key, Hno, Ht, Hef in Hg.
  assert (a = Some (f_kv_size ef, f_pba ef)) as Ha by (destruct (store_or_flush _ _ _ _); [by injection Hg|done]).
  pose proof Hpair as Hpx. rewrite Ha in Hpx. destruct Hpx as [x Hx].
  pose proof (prepared_begin w r rq zeros) as Hpp. fold (tabled_world w r rq) (tabled_req w r rq) in Hpp.
  pose proof Hpp as [Eo Ed _ Ea Ek Ev Esock _]. destruct (tabled_same w r rq) as (Tp & Tf & Ti & Tia & Tca & Trc).
  pose proof (at_table_retry _ _ _ _ _ _ _ _ (Fifo.Mk [] (Fifo.cap (retry_q wt))) (tr_at _ _ _ _ _ _ _ _ Htr)) as Hat.
  fold (unqueued wt) in Hat. set (wl := unqueued wt) in *. destruct Halone as [_ _ _ Hiocb Hnull Hrc].
  assert (dev wl = dev w) as Edl by (etransitivity; [exact (tr_dev _ _ _ _ _ _ _ _ Htr) | exact Ed]).
  assert (ops wl = ops w) as Eol by (etransitivity; [exact (tr_ops _ _ _ _ _ _ _ _ Htr) | exact Eo]).
  assert (pair_there wl (tabled_req w r rq) b (f_pba ef) (f_kv_size ef) x) as Hx'.
  { destruct Hx as [X1 X2 X3 X4 X5]. split; rewrite ?Ek; try done. destruct X5 as [X5 | (U & X6)].
    - left. eapply (staged_table_read ring _ _ w r rq b t (ops w)); [exact Hsys | | exact X5].
      assert (set_ops (ops w) (tabled_world w r rq) = tabled_world w r rq) as -> by
        (rewrite <- (tabled_ops w r rq); by destruct (tabled_world w r rq)). exact Htr.
    - right. split; [|done]. unfold unstaged in *. by rewrite Edl. }
  destruct (update_table_step (S (S n)) wl (tabled_req w r rq) t ef x _ Hat Hok) as
    (w2 & Hrun & Eo2 & Ed2 & Hsys2 & Hnd2 & Hb2 & Hrq2 & Hpr); try done.
  { by rewrite Ek. }
  { apply (tr_iocb _ _ _ _ _ _ _ _ Htr). by rewrite Ti. }
  { apply (tr_null _ _ _ _ _ _ _ _ Htr). by rewrite Tia, Tca. }
  { intros k. change (io_submit_rc wl) with (io_submit_rc wt). rewrite (tr_rc _ _ _ _ _ _ _ _ Htr), Trc. apply Hrc. }
  rewrite Ek in Hrun. pose proof Hat as [_ _ _ Hpar Hbp Hnl Htv Hts _].
  destruct (settled_ok ring n hh fp ef (temp_buf (tabled_req w r rq)) t w2) as (w3 & H3 & Hse); try done.
  { by rewrite Eo2, Eol. }
  { by eapply get_match_entry_f_fp. }
  { pose proof (pt_blk _ _ _ _ _ _ Hx). lia. }
  { by rewrite Ed2. }
  { rewrite Eo2, Eol. fold (bucket_of w (req_key rq)). intros Hnt. unfold store_or_flush, store in Hg.
    rewrite get_bucket_key, Hnt in Hg. unfold flush, tab in Hg. destruct Hpart as [Hbs _]. rewrite Ht, <- Hbs in Hg.
    destruct (update_part_table _ _) as [[? ?]|]; [by eexists | done]. }
  { by rewrite Ed2, Edl. }
  exists wl, w3. split; [by apply bsteps_once|]. split; [unfold wl, unqueued; cbn [acks set_retry_q]; by rewrite (tr_acks _ _ _ _ _ _ _ _ Htr)|].
  rewrite Ha. split; [split|].
  - by rewrite (get_update_step _ _ _ _ _ _ _ _ Hat), Hrun.
  - destruct Hse as [_ _ _ Sb Sa Sf Sp Sr Sq Sh _].
    eapply (replied_read r rq (with_temp_buf NULL (tabled_req w r rq)) b _ (f_pba ef) (f_kv_size ef) x w _ w2 w3 Hpr); try done.
    + intros i io [Hu R1 R2 R3 R4]. split; try done.
      exact (kept_get_target_retry i (io_data io) io FN_cb_keycmp r 2 hh fp ef _ w2 0 w3 Hu H3).
    + unfold same_client, answer_for, tabled_req, begun_req. by destruct (params rq =? NULL).
    + cbn [req_value with_temp_buf]. by rewrite Ev.
    + apply (pt_size _ _ _ _ _ _ Hx).
    + cbn [req_key with_temp_buf]. rewrite Ek. apply (pt_key _ _ _ _ _ _ Hx).
    + cbn [acks set_req_arr]. unfold wl, unqueued. cbn [acks set_retry_q]. by rewrite (tr_acks _ _ _ _ _ _ _ _ Htr).
    + cbn [World.flying set_req_arr]. unfold wl, unqueued. cbn [World.flying set_retry_q]. by rewrite (tr_flying _ _ _ _ _ _ _ _ Htr).
    + cbn [req_pool set_req_arr]. unfold wl, unqueued. cbn [req_pool set_retry_q]. by rewrite (tr_pool _ _ _ _ _ _ _ _ Htr).
    + intros Eb. apply Sb; rewrite ?Eb, ?Ed2; [apply (qr_buf _ _ _ _ Hrq2) | by apply not_eq_sym |
        apply (qr_unstaged _ _ _ _ Hrq2)].
  - eapply (settled_leaves t ef wl w2 w3); try done. by rewrite Eo2.
Qed.

Lemma get_runs : get_outcome.
Proof.
  destruct (get_match_entry (bucket_of w (req_key rq)) fp) as [i|] eqn:E; [by eapply get_hit|].
  pose proof Hget as Hg. unfold p_get in Hg. rewrite get_bucket_key, E in Hg.
  destruct (ptab s) as [t|] eqn:Et; [|done].
  destruct (get_match_entry_f t fp) as [ef|] eqn:Ef; [by eapply get_present | by eapply get_absent].
Qed.
End GetRounds.

End Part.

(** ** Concrete runs *)

(** The table of [BigkvFlush] at grain 256, which is not staged; the pair that it
    names is. *)
Definition big_disk (off len : Z) : list Z := encode_ptable big_table.

Definition big_part : partition := Partition (Some big_table) (get_part_buckets 0 (bucket (full_index 256))).

Lemma big_alone ty2 : alone (big_world 256 ty2).
Proof.
  split; try done.
  - apply big_nodup.
  - apply (bool_decide_unpack _). by vm_compute.
Qed.

Lemma big_holds_partition ty2 : holds_partition big_disk (big_world 256 ty2) 0 big_part.
Proof.
  split; [exact eq_refl|]. exists 256. split; [exact eq_refl|]. cbn [ptab big_part].
  split; [unfold PBA_INVALID; lia|]. split; [exact big_table_ok|]. right.
  split; [|split; [exact eq_refl | exact big_table_size]].
  split; [lia|]. split; [exact (eq_refl Lt)|]. exists (Segment 0 SEG_STATE_STAGED 0 65536 16640).
  split; [exact eq_refl|]. right. by vm_compute.
Qed.

Lemma big_flush : is_Some (flush big_part).
Proof.
  destruct (flush_fits big_table (full_index 256) 0 (big_index 256) (proj1 big_table_ok) big_used) as (t' & H & _).
  unfold flush. cbn [tab ptab pbks big_part]. rewrite H. by eexists.
Qed.


Definition big_after : partition :=
  match p_get 0 (9 * 2 ^ 27 + 5) big_part with Some (_, s') => s' | None => big_part end.

Lemma big_pair_there :
  pair_there big_disk (big_world 256 REQ_TYPE_GET) (demo_req REQ_TYPE_GET 11 NULL) (replicate 256 0) 128 2 big_pair.
Proof.
  split; [lia | unfold PBA_INVALID; lia | by vm_compute | by vm_compute | left; apply big_holds_pair].
Qed.

